(* ===== verification/_CoqProject ===== *)
-Q . S2P
Prelude.v
State.v
Demo.v
CString.v
Sched.v
Spinlock.v
Cons.v
Kalloc.v
Vm.v
PageTable.v
Freevm.v
Kvm.v
Uvm.v
Allocuvm.v
SysArgs.v
MsgQueue.v
Pipe.v
Sleeplock.v
Disk.v
Ide.v
Bio.v
Log.v
Fs.v
FsBlock.v
Inode.v
FileData.v
Dir.v
Path.v
Mkfs.v
MkfsImage.v
File.v
Exec.v
Sysfile.v
Proc.v
FdRefs.v
Userinit.v
Kbd.v
Console.v
Sysproc.v
Trap.v
Segments.v
Platform.v
Mp.v
Start.v
Boot.v
CFloat.v
RtSched.v
Lottery.v
Umalloc.v
User.v
Grep.v
Uprog.v
Sh.v
Init.v
