(* ===== verification/Prelude.v ===== *)
(** * Verification of the xv6 kernel with its added system calls, its user
    programs and the scheduling simulators

    The program is a small multiprocessor Unix for the x86 (src/xv6-public),
    extended with a message queue, shared memory, signals, [getppid], [ps],
    [copy] and [clear_console], and three stand-alone simulators of real-time
    and lottery scheduling (src).  This library models the kernel's C code
    function by function, together with the user library, the shell and the
    small programs, and proves what makes each part correct.

    ** How the code is modelled

    C code that reads and writes the kernel's global variables is a function
    from the state [kstate] (State.v) to an [outcome] (below in this file): it
    returns, panics, switches to the scheduler, or spins.  Machine integers are
    [Z] with their wrap-around written where it happens.  Physical memory is a
    map from addresses to bytes; page directories, page tables and the list of
    free pages are bytes of it.  A pointer to an element of a static table is
    its index.  A CPU runs a function without interruption up to the point
    where it sleeps, which is sound because shared data are accessed under
    their spinlock: Spinlock.v proves, for any number of CPUs and any
    interleaving of their memory accesses, that the lock operations have the
    meaning Sched.v gives them.  A function that calls [sleep] ends there with
    the outcome [Switch], and what runs when it is woken is a definition of
    its own.  User programs run in any world that has the system calls of
    [Sys] and obeys [SysLaws] (User.v).

    ** Files

    - Prelude: integers, bytes, the monad, tactics, the [frame] hints.
    - State, Demo: the structs and globals of proc.h, file.h, fs.h, buf.h,
      log.c, pipe.c, console.c, msgqueue.h; concrete states for examples.
    - CString: string.c.
    - Sched: locks as one CPU sees them; [sched], [yield], [sleep], [wakeup],
      [kill] of proc.c.  Spinlock: spinlock.c on many CPUs.
    - Cons, Kbd, Console: console.c, uart.c's [uartputc], kbd.c and kbd.h.
    - Kalloc: kalloc.c.  Vm: vm.c.  PageTable, Freevm, Kvm, Uvm, Allocuvm: its
      correctness against the processor's translation and the free list:
      [mappages]; [deallocuvm] and [freevm]; [setupkvm]; [copyuvm];
      [allocuvm].
    - SysArgs: the argument functions of syscall.c.  MsgQueue: msgqueue.h,
      [sys_send], [sys_recv], [msgqueue_init].  Pipe: pipe.c.
    - Sleeplock: sleeplock.c.  Disk: the interface [DiskDriver] of a disk
      driver and its instance memide.c.  Ide: the driver ide.c with its
      request queue.  Bio: bio.c over any driver.
    - Log: log.c.  Fs: fs.c.  FsBlock: block allocation inside a transaction.
      Inode: inodes on disk and in the cache.  FileData:
      the bytes of a file, [bmap], [readi] and [writei].  Dir, Path:
      directories and path names.  Mkfs, MkfsImage: mkfs.c, which builds the
      first disk image, and what the kernel finds in that image.
    - File: file.c and [pipealloc].  Exec: exec.c.  Sysfile: sysfile.c.
    - Proc: proc.c.  FdRefs: descriptors as references to open files, across
      file.c, sysfile.c and proc.c.  Userinit: the first process.  Sysproc: sysproc.c.  Trap: trap.c and the
      dispatch of syscall.c.
    - Segments: the descriptors of mmu.h, [seginit], [tvinit], [idtinit] and
      the end of [switchuvm].  Platform: ioapic.c, picirq.c, lapic.c and uart.c
      as reads and writes of device registers.  Mp: mp.c.  Start: main.c with
      [kvmalloc], [switchkvm] and [mycpu], on the product of all these states.
      Boot: bootmain.c.
    - CFloat: [float] and [double] of C.  RtSched: edf_premption.c and
      rms_premption.c.  Lottery:
      lottery_sch_premption.c.
    - User: the system call interface, ulib.c and printf.c.  Umalloc:
      umalloc.c.  Grep: grep.c.  Uprog: cat, wc, echo, ls, kill, ln, mkdir,
      rm, copy, clear.  Sh: sh.c.  Init: init.c, zombie.c and sop.c.

    ** What the theorems show

    - Storage: a commit interrupted between any two disk writes is recovered
      to all or nothing; [log_write] absorbs repeated writes and [begin_op]
      reserves space; the buffer cache gives the current contents of a block,
      recycles the least recently used buffer and keeps its list; [balloc] and
      [bfree] keep the free map; [iupdate] and [ilock] are inverse; [iget]
      keeps one cache entry per inode; [readi] returns what [writei] wrote
      and [writei] changes nothing else; [dirlink] adds the name that
      [dirlookup] then finds, [skipelem] splits a path at its slashes;
      the IDE driver serves its queue in order under every interleaving with
      the interrupts.  The image that mkfs.c builds holds every file under its
      name, complete, with an exact free map.  The count of an open file is the
      number of its descriptors, which [dup], [close] and [fork] keep so.
    - Communication: in every interleaving a pipe delivers the bytes written,
      in order; [sys_send] and [sys_recv] append and remove messages.
    - Memory: the page allocator is a stack of distinct pages; [mappages] makes
      the processor translate exactly the requested pages, and with the
      directory that [setupkvm] makes it translates exactly the kernel's
      addresses; [copyuvm] gives the child its own copy of every user page,
      [allocuvm] zeroed pages between the two sizes; each of the three returns
      0 with every page it took free again when memory runs out, and [freevm]
      puts every page of an address space on the free list once.
    - Processes and locks: every interleaving of the spinlock code refines
      per-CPU lists of held locks; [sleep] loses no wakeup; [exit] hands
      children over and wakes the parent; the scheduler starves nobody.
    - Start-up: [main] reaches the scheduler with every CPU started on the
      kernel's page table, the rest of the memory free, and one process that
      is about to run initcode.S.
    - Machine: the boot loader puts the segments of the kernel where they
      belong; the processor decodes from the descriptor tables what the kernel
      needs, and only the system call's gate is open to users; the I/O APIC
      routes the interrupts that were enabled, [cmostime] reads the clock, and
      [mpinit] finds the CPUs of a well-formed table.
    - Console: [cprintf] prints what its format stands for and keeps the cursor
      on the screen.
    - Simulators: EDF and RMS run the right process in every round and their
      totals agree with the units they ran; EDF never admits a period of 0, and
      both turn down sets of processes they could run; the lottery partitions the tickets
      and terminates.
    - User programs: init starts one shell after another and takes the
      processes that have no parent; the matcher of grep decides the meaning of patterns, grep
      prints the matching lines of a file, wc counts whatever the boundaries
      of its reads, the shell's parser inverts a printer and terminates on
      every line, [malloc] and [free] keep the ring of free blocks, hand out
      blocks that do not overlap and lose no memory.
    - Defects: some theorems show that the code does not do what it means to:
      [sys_recv] on a full queue, [shmget], [kill(0)], a capital C on the
      console, the last block a transaction reserves, grep on a line that
      comes in pieces, [mpinit] on a table with an unknown entry.

    ** Fuel and bounds

    Loops over tables recurse over the list of indices.  Other loops have a
    fuel argument, which the theorems discharge: a loop over a buffer or a
    string never runs longer than its length; [balloc] has a round per block
    of the free map; the simulators' time loop has a round per time unit; the
    loops of user programs that read a file have one read per byte at most;
    the shell's parser nests at most eight calls per character of the line;
    [malloc] walks around the ring of free blocks at most twice;
    [iappend] of mkfs.c has a round per byte at most, [readseg] one per sector.
    A loop that waits for a device takes its fuel as an argument, and the
    theorem says how long the device may take.
    Where an endless wait is possible (a full pipe, a held sleep lock) the
    outcome is [Switch], not fuel.

    ** Not modelled

    - Assembly (entry, swtch, trap vectors, the first half of the boot block).
      The other CPUs start in Start.v at [mpenter], where entryother.S jumps.
    - The call stacks recorded in locks, the text [panic] prints.
    - The semaphore calls: semaphore.h is not in the repository.
    - The test programs (usertests.c and the like), which only call the system
      calls and compare the results with constants. *)

From stdpp Require Import base list sets strings.
From Stdlib Require Import ZArith Lia.

Open Scope Z_scope.

(** ** Machine integers

    The kernel is compiled for a 32-bit x86: [int] and [uint] are 32 bits,
    [short] and [ushort] 16, [char] and [uchar] 8.  A value of such a type is
    a [Z]; the wrap-around of an operation is written where the code performs
    it. *)

Definition u8 (x : Z) : Z := x mod 2 ^ 8.
Definition u16 (x : Z) : Z := x mod 2 ^ 16.
Definition u32 (x : Z) : Z := x mod 2 ^ 32.

(** Two's complement readings of a bit pattern. *)
Definition s8 (x : Z) : Z := (x + 2 ^ 7) mod 2 ^ 8 - 2 ^ 7.
Definition s16 (x : Z) : Z := (x + 2 ^ 15) mod 2 ^ 16 - 2 ^ 15.
Definition s32 (x : Z) : Z := (x + 2 ^ 31) mod 2 ^ 32 - 2 ^ 31.

(** A C condition on a mask: [x & m] tested for non-zero. *)
Definition has (x m : Z) : bool := negb (Z.land x m =? 0).

Lemma u32_small x : 0 <= x < 2 ^ 32 -> u32 x = x.
Proof. apply Z.mod_small. Qed.

Lemma u32_range x : 0 <= u32 x < 2 ^ 32.
Proof. apply Z.mod_pos_bound. lia. Qed.

Lemma u8_range x : 0 <= u8 x < 2 ^ 8.
Proof. apply Z.mod_pos_bound. lia. Qed.

Lemma u8_small x : 0 <= x < 2 ^ 8 -> u8 x = x.
Proof. apply Z.mod_small. Qed.

Lemma u32_idemp x : u32 (u32 x) = u32 x.
Proof. apply Z.mod_mod. lia. Qed.

Lemma s32_small x : - 2 ^ 31 <= x < 2 ^ 31 -> s32 x = x.
Proof. intros H. unfold s32. rewrite Z.mod_small; lia. Qed.

Lemma s32_range x : - 2 ^ 31 <= s32 x < 2 ^ 31.
Proof.
  unfold s32. pose proof (Z.mod_pos_bound (x + 2 ^ 31) (2 ^ 32)). lia.
Qed.

Lemma u32_s32 x : u32 (s32 x) = u32 x.
Proof.
  unfold u32, s32.
  rewrite Zminus_mod_idemp_l. f_equal. lia.
Qed.

(** ** Bytes in memory

    Little-endian encodings, as the x86 stores a [uint] or a [ushort]. *)

Definition byte_of (x : Z) (i : Z) : Z := u8 (Z.shiftr x (8 * i)).

Definition le16 (x : Z) : list Z := [byte_of x 0; byte_of x 1].
Definition le32 (x : Z) : list Z :=
  [byte_of x 0; byte_of x 1; byte_of x 2; byte_of x 3].

(** [of_le bs]: the unsigned number the bytes encode. *)
Fixpoint of_le (bs : list Z) : Z :=
  match bs with
  | [] => 0
  | b :: bs => b + 256 * of_le bs
  end.

Lemma of_le_le32 x : of_le (le32 x) = u32 x.
Proof.
  unfold le32, byte_of, u8, u32. simpl of_le.
  rewrite !Z.shiftr_div_pow2 by lia.
  change (2 ^ (8 * 0)) with 1. change (2 ^ (8 * 1)) with 256.
  change (2 ^ (8 * 2)) with (256 * 256).
  change (2 ^ (8 * 3)) with (256 * 256 * 256).
  change (2 ^ 8) with 256. change (2 ^ 32) with (256 * 256 * 256 * 256).
  rewrite Z.div_1_r, <- !Z.div_div by lia.
  set (a := x / 256). set (b := a / 256). set (c := b / 256).
  assert (x = 256 * a + x mod 256) by (apply Z.div_mod; lia).
  assert (a = 256 * b + a mod 256) by (apply Z.div_mod; lia).
  assert (b = 256 * c + b mod 256) by (apply Z.div_mod; lia).
  pose proof (Z.mod_pos_bound x 256). pose proof (Z.mod_pos_bound a 256).
  pose proof (Z.mod_pos_bound b 256). pose proof (Z.mod_pos_bound c 256).
  assert (c = 256 * (c / 256) + c mod 256) by (apply Z.div_mod; lia).
  apply Z.mod_unique with (q := c / 256); lia.
Qed.

Lemma of_le_le16 x : of_le (le16 x) = u16 x.
Proof.
  unfold le16, byte_of, u8, u16. simpl of_le.
  rewrite !Z.shiftr_div_pow2 by lia.
  change (2 ^ (8 * 0)) with 1. change (2 ^ (8 * 1)) with 256.
  change (2 ^ 8) with 256. change (2 ^ 16) with (256 * 256).
  rewrite Z.div_1_r. set (a := x / 256).
  assert (x = 256 * a + x mod 256) by (apply Z.div_mod; lia).
  assert (a = 256 * (a / 256) + a mod 256) by (apply Z.div_mod; lia).
  pose proof (Z.mod_pos_bound x 256). pose proof (Z.mod_pos_bound a 256).
  apply Z.mod_unique with (q := a / 256); lia.
Qed.

(** ** Total maps with point update (memory, the disk) *)

Definition upd {A} (m : Z -> A) (a : Z) (v : A) : Z -> A :=
  fun x => if x =? a then v else m x.

Lemma upd_eq {A} (m : Z -> A) a v : upd m a v a = v.
Proof. unfold upd. now rewrite Z.eqb_refl. Qed.

Lemma upd_ne {A} (m : Z -> A) a b v : b <> a -> upd m a v b = m b.
Proof. intros H. unfold upd. now rewrite (proj2 (Z.eqb_neq b a) H). Qed.

(** [upd_list m a l]: the elements of [l] stored from address [a] up. *)
Definition upd_list {A} (m : Z -> A) (a : Z) (l : list A) : Z -> A :=
  fun x => if (a <=? x) && (x <? a + Z.of_nat (length l))
           then default (m x) (l !! Z.to_nat (x - a)) else m x.

(** [read_list m a n]: the [n] elements from address [a] up. *)
Definition read_list {A} (m : Z -> A) (a : Z) (n : nat) : list A :=
  map (fun i => m (a + Z.of_nat i)) (seq 0 n).

Lemma length_read_list {A} (m : Z -> A) a n : length (read_list m a n) = n.
Proof. unfold read_list. now rewrite length_map, length_seq. Qed.

Lemma read_list_S {A} (m : Z -> A) a n :
  read_list m a (S n) = m a :: read_list m (a + 1) n.
Proof.
  unfold read_list. simpl. f_equal; [f_equal; lia|].
  rewrite <- seq_shift, map_map. apply map_ext. intros i. f_equal. lia.
Qed.

Lemma upd_list_in {A} (m : Z -> A) a l x v :
  a <= x -> l !! Z.to_nat (x - a) = Some v -> upd_list m a l x = v.
Proof.
  intros Hx Hv. unfold upd_list.
  pose proof (lookup_lt_Some _ _ _ Hv).
  destruct (a <=? x) eqn:E1; [|lia]. destruct (x <? _) eqn:E2; [|lia].
  simpl. now rewrite Hv.
Qed.

Lemma upd_list_out {A} (m : Z -> A) a l x :
  x < a \/ a + Z.of_nat (length l) <= x -> upd_list m a l x = m x.
Proof.
  intros Hx. unfold upd_list.
  destruct (a <=? x) eqn:E1, (x <? _) eqn:E2; simpl; try reflexivity; lia.
Qed.

Lemma read_upd_list {A} (m : Z -> A) a l :
  read_list (upd_list m a l) a (length l) = l.
Proof.
  apply list_eq. intros i. unfold read_list.
  destruct (decide (i < length l)%nat) as [Hi|Hi].
  - destruct (lookup_lt_is_Some_2 l i Hi) as [v Hv].
    rewrite list_lookup_fmap, lookup_seq_lt by lia. simpl.
    rewrite Hv. f_equal. apply upd_list_in; [lia|].
    rewrite <- Hv. f_equal. lia.
  - rewrite !lookup_ge_None_2; [done|lia|].
    rewrite length_map, length_seq. lia.
Qed.

Lemma read_upd_list_out {A} (m : Z -> A) a l b n :
  b + Z.of_nat n <= a \/ a + Z.of_nat (length l) <= b ->
  read_list (upd_list m a l) b n = read_list m b n.
Proof.
  intros H. unfold read_list. apply map_ext_in. intros i Hi.
  apply in_seq in Hi. apply upd_list_out. lia.
Qed.

(** Word access. *)
Definition read32 (m : Z -> Z) (a : Z) : Z := of_le (read_list m a 4).
Definition write32 (m : Z -> Z) (a v : Z) : Z -> Z := upd_list m a (le32 v).

Lemma read32_write32 m a v : read32 (write32 m a v) a = u32 v.
Proof.
  unfold read32, write32. change 4%nat with (length (le32 v)).
  now rewrite read_upd_list, of_le_le32.
Qed.

Lemma read32_write32_ne m a b v :
  b + 4 <= a \/ a + 4 <= b -> read32 (write32 m a v) b = read32 m b.
Proof.
  intros H. unfold read32, write32.
  rewrite read_upd_list_out; [done|]. simpl. lia.
Qed.

(** [memset]-style fill. *)
Definition fill (m : Z -> Z) (a n c : Z) : Z -> Z :=
  fun x => if (a <=? x) && (x <? a + n) then c else m x.

Lemma fill_in m a n c x : a <= x < a + n -> fill m a n c x = c.
Proof.
  intros H. unfold fill.
  destruct (a <=? x) eqn:E1, (x <? a + n) eqn:E2; simpl; try reflexivity; lia.
Qed.

Lemma fill_out m a n c x : x < a \/ a + n <= x -> fill m a n c x = m x.
Proof.
  intros H. unfold fill.
  destruct (a <=? x) eqn:E1, (x <? a + n) eqn:E2; simpl; try reflexivity; lia.
Qed.

(** ** Blocks of bytes as C structures *)

(** The word at byte offset [off], and the bytes [new] stored at [off]. *)
Definition get32 (bs : list Z) (off : nat) : Z := of_le (take 4 (drop off bs)).
Definition get16 (bs : list Z) (off : nat) : Z := of_le (take 2 (drop off bs)).
Definition splice (off : nat) (new bs : list Z) : list Z :=
  take off bs ++ new ++ drop (off + length new) bs.

Lemma length_splice off new bs :
  (off + length new <= length bs)%nat -> length (splice off new bs) = length bs.
Proof. intros H. unfold splice. rewrite !length_app, length_take, length_drop. lia. Qed.

Lemma splice_read off new bs :
  (off <= length bs)%nat -> take (length new) (drop off (splice off new bs)) = new.
Proof.
  intros H. unfold splice. rewrite drop_app_length' by (rewrite length_take; lia).
  by rewrite take_app_length.
Qed.

Lemma lookup_splice_out off new bs i :
  (off + length new <= length bs)%nat -> (i < off \/ off + length new <= i)%nat ->
  splice off new bs !! i = bs !! i.
Proof.
  intros Hl [Hi|Hi]; unfold splice.
  - rewrite lookup_app_l by (rewrite length_take; lia). by apply lookup_take_lt.
  - rewrite lookup_app_r by (rewrite length_take; lia).
    rewrite lookup_app_r by (rewrite length_take; lia).
    rewrite lookup_drop. f_equal. rewrite length_take. lia.
Qed.

Lemma lookup_splice_in off new bs i :
  (off + length new <= length bs)%nat -> (off <= i < off + length new)%nat ->
  splice off new bs !! i = new !! (i - off)%nat.
Proof.
  intros Hl Hi. unfold splice.
  rewrite lookup_app_r by (rewrite length_take; lia).
  rewrite lookup_app_l by (rewrite length_take; lia).
  f_equal. rewrite length_take. lia.
Qed.

Lemma find_ext {A} (f g : A -> bool) l : (forall x, x ∈ l -> f x = g x) -> find f l = find g l.
Proof.
  induction l as [|a l IH]; intros H; simpl; [done|]. rewrite (H a) by (by left).
  destruct (g a); [done|]. apply IH. intros x Hx. apply H. by right.
Qed.

(** ** The kernel monad

    A C function that reads and writes the kernel's global variables is a
    function from the state to an outcome.

    - [Ret a s]: the function returned [a] and left the state [s];
    - [Panic msg s]: it called [panic(msg)], after which nothing runs;
    - [Switch s]: it called [sched()] and the CPU runs the scheduler; the
      state is the one the scheduler finds;
    - [Spin s]: it is in a loop that no step of its own can leave. *)

Inductive outcome (S A : Type) : Type :=
| Ret (a : A) (s : S)
| Panic (msg : string) (s : S)
| Switch (s : S)
| Spin (s : S).
Arguments Ret {S A} a s.
Arguments Panic {S A} msg s.
Arguments Switch {S A} s.
Arguments Spin {S A} s.

Definition M (S A : Type) : Type := S -> outcome S A.

Definition ret {S A} (a : A) : M S A := fun s => Ret a s.

Definition bind {S A B} (m : M S A) (k : A -> M S B) : M S B :=
  fun s => match m s with
           | Ret a s' => k a s'
           | Panic msg s' => Panic msg s'
           | Switch s' => Switch s'
           | Spin s' => Spin s'
           end.

Definition gets {S A} (f : S -> A) : M S A := fun s => Ret (f s) s.
Definition modify {S} (f : S -> S) : M S unit := fun s => Ret tt (f s).
Definition panic {S A} (msg : string) : M S A := fun s => Panic msg s.
Definition spin {S A} : M S A := fun s => Spin s.
Definition when {S} (b : bool) (m : M S unit) : M S unit :=
  if b then m else ret tt.

Declare Scope kernel_scope.
Delimit Scope kernel_scope with kernel.

Notation "x <- m ;; k" := (bind m (fun x => k))
  (at level 100, m at next level, right associativity) : kernel_scope.
Notation "m ;;; k" := (bind m (fun _ => k))
  (at level 100, right associativity) : kernel_scope.

Open Scope kernel_scope.

(** [for i in is: body]. *)
Fixpoint mfor {S A} (body : A -> M S unit) (l : list A) : M S unit :=
  match l with
  | [] => ret tt
  | a :: l => body a ;;; mfor body l
  end.

(** The post-state of an outcome, whatever it is. *)
Definition final {S A} (o : outcome S A) : S :=
  match o with Ret _ s | Panic _ s | Switch s | Spin s => s end.

Section Monad.
Context {S : Type}.

Lemma bind_Ret {A B} (m : M S A) (k : A -> M S B) s a s' :
  m s = Ret a s' -> bind m k s = k a s'.
Proof. intros H. unfold bind. now rewrite H. Qed.

Lemma bind_Panic {A B} (m : M S A) (k : A -> M S B) s msg s' :
  m s = Panic msg s' -> bind m k s = Panic msg s'.
Proof. intros H. unfold bind. now rewrite H. Qed.

Lemma bind_Switch {A B} (m : M S A) (k : A -> M S B) s s' :
  m s = Switch s' -> bind m k s = Switch s'.
Proof. intros H. unfold bind. now rewrite H. Qed.

Lemma bind_ret_l {A B} (a : A) (k : A -> M S B) s : bind (ret a) k s = k a s.
Proof. reflexivity. Qed.

(** A call that a lemma describes together with the calls before it. *)
Lemma bind2_Ret {A} (m1 m2 : M S unit) (k : M S A) s s' :
  (m1 ;;; m2) s = Ret tt s' -> (m1 ;;; m2 ;;; k) s = k s'.
Proof. unfold bind. destruct (m1 s) as [? s1| | |]; [|easy..]. now intros ->. Qed.

Lemma bind3_Ret {A} (m1 m2 m3 : M S unit) (k : M S A) s s' :
  (m1 ;;; m2 ;;; m3) s = Ret tt s' -> (m1 ;;; m2 ;;; m3 ;;; k) s = k s'.
Proof.
  unfold bind. destruct (m1 s) as [? s1| | |]; [|easy..]. destruct (m2 s1) as [? s2| | |]; [|easy..].
  now intros ->.
Qed.

Lemma bind_assoc {A B C} (m : M S A) (f : A -> M S B) (g : B -> M S C) s :
  bind (bind m f) g s = bind m (fun a => bind (f a) g) s.
Proof. unfold bind. now destruct (m s). Qed.

Lemma bind_inv {A B} (m : M S A) (k : A -> M S B) s b s' :
  bind m k s = Ret b s' ->
  exists a s1, m s = Ret a s1 /\ k a s1 = Ret b s'.
Proof. unfold bind. destruct (m s); intros H; try discriminate. eauto. Qed.

Lemma gets_eq {A} (f : S -> A) s : gets f s = Ret (f s) s.
Proof. reflexivity. Qed.

Lemma modify_eq (f : S -> S) s : modify f s = Ret tt (f s).
Proof. reflexivity. Qed.

Lemma mfor_app {A} (body : A -> M S unit) l1 l2 s :
  mfor body (l1 ++ l2) s = bind (mfor body l1) (fun _ => mfor body l2) s.
Proof.
  revert s. induction l1 as [|a l1 IH]; intros s; [done|]. simpl.
  unfold bind. destruct (body a s); first [done | apply IH].
Qed.
End Monad.

(** ** Frames

    [keeps f m]: whatever the outcome of [m], the part [f] of the state is what
    it was. *)

Definition keeps {S A B} (f : S -> B) (m : M S A) : Prop :=
  forall s, f (final (m s)) = f s.

Section Frames.
Context {S B : Type} (f : S -> B).

Lemma keeps_ret {A} (a : A) : keeps f (ret a).
Proof. done. Qed.

Lemma keeps_gets {A} (g : S -> A) : keeps f (gets g).
Proof. done. Qed.

Lemma keeps_panic {A} msg : keeps f (panic (A := A) msg).
Proof. done. Qed.

Lemma keeps_spin {A} : keeps f (spin (A := A)).
Proof. done. Qed.

Lemma keeps_switch {A} : keeps f (fun s => Switch (A := A) s).
Proof. done. Qed.

Lemma keeps_modify (g : S -> S) : (forall s, f (g s) = f s) -> keeps f (modify g).
Proof. intros H s. apply H. Qed.

Lemma keeps_bind {A C} (m : M S A) (k : A -> M S C) :
  keeps f m -> (forall a, keeps f (k a)) -> keeps f (bind m k).
Proof.
  intros Hm Hk s. unfold bind. specialize (Hm s).
  destruct (m s); simpl in *; [|done..]. by rewrite Hk.
Qed.

Lemma keeps_when (b : bool) m : keeps f m -> keeps f (when b m).
Proof. by destruct b. Qed.

Lemma keeps_mfor {A} (body : A -> M S unit) l :
  (forall a, keeps f (body a)) -> keeps f (mfor body l).
Proof.
  intros H. induction l as [|a l IH]; [apply keeps_ret|].
  by apply keeps_bind.
Qed.

Lemma keeps_Ret {A} (m : M S A) s a s' : keeps f m -> m s = Ret a s' -> f s' = f s.
Proof. intros H E. specialize (H s). by rewrite E in H. Qed.
End Frames.

Create HintDb frame discriminated.
#[export] Hint Resolve keeps_ret keeps_gets keeps_panic keeps_spin keeps_switch : frame.

(** Prove a frame by following the structure of the computation; calls are
    found in the [frame] hints. *)
Ltac frame :=
  repeat first
    [ progress intros
    | solve [auto with frame nocore]
    | lazymatch goal with
      | |- keeps _ (bind _ _) => apply keeps_bind
      | |- keeps _ (when _ _) => apply keeps_when
      | |- keeps _ (mfor _ _) => apply keeps_mfor
      | |- keeps _ (modify _) => apply keeps_modify; intros; reflexivity
      | |- keeps _ (match ?x with _ => _ end) => destruct x
      end ].

(** ** Automation *)

(** Decide the boolean test of a C condition from the hypotheses. *)
Ltac zbool :=
  repeat match goal with
  | |- context [?a =? ?b] =>
      first [ rewrite (proj2 (Z.eqb_eq a b)) by lia
            | rewrite (proj2 (Z.eqb_neq a b)) by lia ]
  | |- context [?a <? ?b] =>
      first [ rewrite (proj2 (Z.ltb_lt a b)) by lia
            | rewrite (proj2 (Z.ltb_ge a b)) by lia ]
  | |- context [?a <=? ?b] =>
      first [ rewrite (proj2 (Z.leb_le a b)) by lia
            | rewrite (proj2 (Z.leb_gt a b)) by lia ]
  end.

(** Case on every comparison of the goal and drop the impossible cases. *)
Ltac zcases :=
  repeat match goal with
  | |- context [?a <=? ?b] => destruct (Z.leb_spec a b)
  | |- context [?a <? ?b] => destruct (Z.ltb_spec a b)
  | |- context [?a =? ?b] => destruct (Z.eqb_spec a b)
  end; simpl; subst; try lia; try done.

(** Step over a call whose outcome is known. *)
Ltac mstep H :=
  first [ rewrite (bind_Ret _ _ _ _ _ H) | rewrite (bind_Panic _ _ _ _ _ H)
        | rewrite (bind_Switch _ _ _ _ H) ].

(** Unfold the monad's plumbing where the state is explicit. *)
Ltac mrun :=
  repeat first
    [ rewrite bind_assoc
    | rewrite bind_ret_l
    | rewrite (bind_Ret _ _ _ _ _ (gets_eq _ _))
    | rewrite (bind_Ret _ _ _ _ _ (modify_eq _ _))
    | progress cbn [negb orb andb] ].

(** Evaluate a closed hypothesis of a theorem. *)
Ltac by_eval :=
  lazymatch goal with
  | |- _ ∉ [] => apply not_elem_of_nil
  | |- _ ∉ _ => apply (bool_decide_unpack _); vm_compute; exact I
  | |- @eq (outcome _ _) _ _ => reflexivity
  | |- _ = _ => vm_compute; reflexivity
  | |- _ < _ => vm_compute; reflexivity
  | |- _ <= _ => vm_compute; discriminate
  | |- _ => apply (bool_decide_unpack _); vm_compute; exact I
  end.

Create HintDb kernel.
#[export] Hint Rewrite @upd_eq : kernel.
#[export] Hint Resolve u32_range u8_range s32_range : kernel.
