(* ===== verification/State.v ===== *)
(** The kernel's data: the constants of param.h, memlayout.h, mmu.h, fs.h,
    buf.h, stat.h and fcntl.h, the structs of proc.h, file.h, fs.h, buf.h,
    msgqueue.h, log.c, pipe.c and console.c as records, and the kernel's
    global variables as one record [kstate].

    A pointer into a static array ([struct proc *], [struct inode *], [struct
    buf *], [struct file *]) is the index of the element, [None] for a null
    pointer.  A pointer to a page from [kalloc] is its kernel virtual address,
    0 for a null pointer.  For each field [f] the function [set_f] updates it. *)

From stdpp Require Import base list strings.
From Stdlib Require Import ZArith Lia.
From S2P Require Import Prelude.

(** ** Constants *)

Definition NPROC : nat := 64.
Definition KSTACKSIZE : Z := 4096.
Definition NCPU : nat := 8.
Definition NOFILE : nat := 16.
Definition NFILE : nat := 100.
Definition NINODE : nat := 50.
Definition NDEV : Z := 10.
Definition ROOTDEV : Z := 1.
Definition MAXARG : Z := 32.
Definition MAXOPBLOCKS : Z := 10.
Definition LOGSIZE : Z := MAXOPBLOCKS * 3.
Definition NBUF : nat := 30.
Definition FSSIZE : Z := 1000.
Definition NUMSIGNALS : nat := 32.

Definition EXTMEM : Z := 0x100000.
Definition PHYSTOP : Z := 0xE000000.
Definition DEVSPACE : Z := 0xFE000000.
Definition SHMEM : Z := 0x80000000.
Definition KERNBASE : Z := 0x80000000.
Definition KERNLINK : Z := KERNBASE + EXTMEM.
Definition V2P (a : Z) : Z := u32 (a - KERNBASE).
Definition P2V (a : Z) : Z := u32 (a + KERNBASE).

Definition PGSIZE : Z := 4096.
Definition NPDENTRIES : nat := 1024.
Definition PDXSHIFT : Z := 22.
Definition PTXSHIFT : Z := 12.
Definition PDX (va : Z) : Z := Z.land (Z.shiftr va PDXSHIFT) 0x3FF.
Definition PTX (va : Z) : Z := Z.land (Z.shiftr va PTXSHIFT) 0x3FF.
Definition PGADDR (d t o : Z) : Z :=
  u32 (Z.lor (Z.lor (Z.shiftl d PDXSHIFT) (Z.shiftl t PTXSHIFT)) o).
Definition PGROUNDUP (sz : Z) : Z :=
  Z.land (u32 (sz + PGSIZE - 1)) (u32 (Z.lnot (PGSIZE - 1))).
Definition PGROUNDDOWN (a : Z) : Z := Z.land a (u32 (Z.lnot (PGSIZE - 1))).
Definition PTE_P : Z := 0x001.
Definition PTE_W : Z := 0x002.
Definition PTE_U : Z := 0x004.
Definition PTE_PS : Z := 0x080.
Definition PTE_ADDR (pte : Z) : Z := Z.land pte (u32 (Z.lnot 0xFFF)).
Definition PTE_FLAGS (pte : Z) : Z := Z.land pte 0xFFF.
Definition FL_IF : Z := 0x200.
Definition SEG_KCODE : Z := 1.
Definition SEG_KDATA : Z := 2.
Definition SEG_UCODE : Z := 3.
Definition SEG_UDATA : Z := 4.
Definition DPL_USER : Z := 3.

Definition ROOTINO : Z := 1.
Definition BSIZE : Z := 512.
Definition NDIRECT : Z := 12.
Definition NINDIRECT : Z := BSIZE / 4.
Definition MAXFILE : Z := NDIRECT + NINDIRECT.
(** [sizeof(struct dinode)]: four shorts, a uint and 13 uints. *)
Definition DINODE_SIZE : Z := 64.
Definition IPB : Z := BSIZE / DINODE_SIZE.
Definition BPB : Z := BSIZE * 8.
Definition DIRSIZ : Z := 14.
Definition DIRENT_SIZE : Z := 16.

Definition B_VALID : Z := 0x2.
Definition B_DIRTY : Z := 0x4.

Definition T_DIR : Z := 1.
Definition T_FILE : Z := 2.
Definition T_DEV : Z := 3.

Definition O_RDONLY : Z := 0x000.
Definition O_WRONLY : Z := 0x001.
Definition O_RDWR : Z := 0x002.
Definition O_CREATE : Z := 0x200.

Definition MAX_MESSAGES : Z := 64.
Definition MSG_SIZE : Z := 32.
Definition PIPESIZE : Z := 512.
Definition INPUT_BUF : Z := 128.

(** ** Wait channels and locks

    A [chan] is the address a process sleeps on; a [lockid] names a
    [struct spinlock] of the kernel. *)

Inductive chan : Set :=
| ChanNull
| ChanProc (p : nat)        (* a struct proc: wait() *)
| ChanTicks                 (* &ticks *)
| ChanLog                   (* &log *)
| ChanBuf (b : nat)         (* a struct buf: the IDE request *)
| ChanBufLock (b : nat)     (* &b->lock *)
| ChanInodeLock (i : nat)   (* &ip->lock *)
| ChanPipeRead (p : Z)      (* &p->nread *)
| ChanPipeWrite (p : Z)     (* &p->nwrite *)
| ChanInput.                (* &input.r *)

Inductive lockid : Set :=
| L_ptable | L_kmem | L_tickslock | L_msgq | L_bcache | L_ide | L_log
| L_icache | L_ftable | L_cons
| L_pipe (p : Z)            (* &p->lock *)
| L_buflock (b : nat)       (* &b->lock.lk *)
| L_inodelock (i : nat).    (* &ip->lock.lk *)

#[export] Instance chan_eq_dec : EqDecision chan.
Proof. solve_decision. Defined.
#[export] Instance lockid_eq_dec : EqDecision lockid.
Proof. solve_decision. Defined.

(** ** Structs *)

(** [enum procstate]. *)
Inductive procstate : Set :=
| UNUSED | EMBRYO | SLEEPING | RUNNABLE | RUNNING | ZOMBIE.

#[export] Instance procstate_eq_dec : EqDecision procstate.
Proof. solve_decision. Defined.

(** [enum { FD_NONE, FD_PIPE, FD_INODE }] of struct file. *)
Inductive ftype : Set := FD_NONE | FD_PIPE | FD_INODE.

#[export] Instance ftype_eq_dec : EqDecision ftype.
Proof. solve_decision. Defined.

(** [struct sleeplock]; its spinlock is a [lockid]. *)
Record sleeplock : Type := mk_sleeplock {
  sl_locked : bool;
  sl_pid : Z }.

(** [struct trapframe] of x86.h. *)
Record trapframe : Type := mk_trapframe {
  tf_edi : Z;
  tf_esi : Z;
  tf_ebp : Z;
  tf_oesp : Z;
  tf_ebx : Z;
  tf_edx : Z;
  tf_ecx : Z;
  tf_eax : Z;
  tf_gs : Z;
  tf_fs : Z;
  tf_es : Z;
  tf_ds : Z;
  tf_trapno : Z;
  tf_err : Z;
  tf_eip : Z;
  tf_cs : Z;
  tf_eflags : Z;
  tf_esp : Z;
  tf_ss : Z }.

(** [struct context]: the callee-saved registers [swtch] keeps. *)
Record context : Type := mk_context {
  c_edi : Z;
  c_esi : Z;
  c_ebx : Z;
  c_ebp : Z;
  c_eip : Z }.

(** [struct proc]. *)
Record proc : Type := mk_proc {
  p_sz : Z;
  p_pgdir : Z;
  p_kstack : Z;
  p_state : procstate;
  p_pid : Z;
  p_parent : option nat;
  p_tf : trapframe;
  p_context : context;
  p_chan : chan;
  p_killed : bool;
  p_ofile : list (option nat);
  p_cwd : option nat;
  p_name : list Z;
  p_handlers : list Z;
  p_pending : Z }.

(** [struct message]. *)
Record message : Type := mk_message {
  m_type : Z;
  m_data : list Z }.

(** [struct message_queue], its lock apart. *)
Record message_queue : Type := mk_message_queue {
  q_messages : list message;
  q_head : Z;
  q_tail : Z;
  q_count : Z }.

(** [struct pipe], its lock apart. *)
Record pipe : Type := mk_pipe {
  pi_data : list Z;
  pi_nread : Z;
  pi_nwrite : Z;
  pi_readopen : bool;
  pi_writeopen : bool }.

(** [struct file]. *)
Record file : Type := mk_file {
  f_type : ftype;
  f_ref : Z;
  f_readable : bool;
  f_writable : bool;
  f_pipe : Z;
  f_ip : option nat;
  f_off : Z }.

(** [struct inode], the cached copy of a disk inode. *)
Record inode : Type := mk_inode {
  i_dev : Z;
  i_inum : Z;
  i_ref : Z;
  i_lock : sleeplock;
  i_valid : bool;
  i_type : Z;
  i_major : Z;
  i_minor : Z;
  i_nlink : Z;
  i_size : Z;
  i_addrs : list Z }.

(** [struct superblock]. *)
Record superblock : Type := mk_superblock {
  sb_size : Z;
  sb_nblocks : Z;
  sb_ninodes : Z;
  sb_nlog : Z;
  sb_logstart : Z;
  sb_inodestart : Z;
  sb_bmapstart : Z }.

(** [struct buf]; [prev] and [next] are indices, [NBUF] for [bcache.head]. *)
Record buf : Type := mk_buf {
  b_flags : Z;
  b_dev : Z;
  b_blockno : Z;
  b_lock : sleeplock;
  b_refcnt : Z;
  b_prev : nat;
  b_next : nat;
  b_data : list Z }.

(** The [bcache] global: the buffers and the sentinel of the LRU list. *)
Record bcache : Type := mk_bcache {
  bc_buf : list buf;
  bc_head_prev : nat;
  bc_head_next : nat }.

(** [struct log] with its [struct logheader] inlined. *)
Record log : Type := mk_log {
  l_start : Z;
  l_size : Z;
  l_outstanding : Z;
  l_committing : bool;
  l_dev : Z;
  l_n : Z;
  l_block : list Z }.

(** The [input] global of console.c. *)
Record input : Type := mk_input {
  in_buf : list Z;
  in_r : Z;
  in_w : Z;
  in_e : Z }.

(** The screen: the cursor position the CRT controller holds and the cells of
    CGA memory. *)
Record cga : Type := mk_cga {
  cga_pos : Z;
  cga_mem : list Z }.

(** The [kmem] global of kalloc.c. *)
Record kmem : Type := mk_kmem {
  km_use_lock : bool;
  km_freelist : Z }.

(** The kernel's global variables, seen from the running CPU: [k_cur] is
    [mycpu()->proc] and [k_held] the locks this CPU holds, most recent first;
    [k_mem] is physical memory, [k_disk dev bno] the block of a disk.
    [k_wlog] is history: the block writes the disks received, oldest first;
    [k_out] the bytes sent to the serial port, oldest first; [k_locking] is
    [cons.locking] and [k_panicked] is [panicked].  [k_end] and [k_data]
    are the linker's symbols [end] and [data]. *)
Record kstate : Type := mk_kstate {
  k_mem : Z -> Z;
  k_kmem : kmem;
  k_proc : list proc;
  k_nextpid : Z;
  k_initproc : option nat;
  k_first : bool;
  k_cur : option nat;
  k_held : list lockid;
  k_ticks : Z;
  k_msgq : message_queue;
  k_shm : Z;
  k_bcache : bcache;
  k_disk : Z -> Z -> list Z;
  k_disksize : Z;
  k_wlog : list (Z * Z * list Z);
  k_log : log;
  k_sb : superblock;
  k_icache : list inode;
  k_ftable : list file;
  k_pipes : Z -> pipe;
  k_input : input;
  k_out : list Z;
  k_end : Z;
  k_data : Z;
  k_cga : cga;
  k_locking : bool;
  k_panicked : bool }.

(** ** Field updates *)

Definition set_sl_locked (v : bool) (r : sleeplock) : sleeplock :=
  mk_sleeplock v (sl_pid r).
Definition set_sl_pid (v : Z) (r : sleeplock) : sleeplock := mk_sleeplock
  (sl_locked r) v.

Definition set_tf_edi (v : Z) (r : trapframe) : trapframe := mk_trapframe v
  (tf_esi r) (tf_ebp r) (tf_oesp r) (tf_ebx r) (tf_edx r) (tf_ecx r) (tf_eax
  r) (tf_gs r) (tf_fs r) (tf_es r) (tf_ds r) (tf_trapno r) (tf_err r) (tf_eip
  r) (tf_cs r) (tf_eflags r) (tf_esp r) (tf_ss r).
Definition set_tf_esi (v : Z) (r : trapframe) : trapframe := mk_trapframe
  (tf_edi r) v (tf_ebp r) (tf_oesp r) (tf_ebx r) (tf_edx r) (tf_ecx r) (tf_eax
  r) (tf_gs r) (tf_fs r) (tf_es r) (tf_ds r) (tf_trapno r) (tf_err r) (tf_eip
  r) (tf_cs r) (tf_eflags r) (tf_esp r) (tf_ss r).
Definition set_tf_ebp (v : Z) (r : trapframe) : trapframe := mk_trapframe
  (tf_edi r) (tf_esi r) v (tf_oesp r) (tf_ebx r) (tf_edx r) (tf_ecx r) (tf_eax
  r) (tf_gs r) (tf_fs r) (tf_es r) (tf_ds r) (tf_trapno r) (tf_err r) (tf_eip
  r) (tf_cs r) (tf_eflags r) (tf_esp r) (tf_ss r).
Definition set_tf_oesp (v : Z) (r : trapframe) : trapframe := mk_trapframe
  (tf_edi r) (tf_esi r) (tf_ebp r) v (tf_ebx r) (tf_edx r) (tf_ecx r) (tf_eax
  r) (tf_gs r) (tf_fs r) (tf_es r) (tf_ds r) (tf_trapno r) (tf_err r) (tf_eip
  r) (tf_cs r) (tf_eflags r) (tf_esp r) (tf_ss r).
Definition set_tf_ebx (v : Z) (r : trapframe) : trapframe := mk_trapframe
  (tf_edi r) (tf_esi r) (tf_ebp r) (tf_oesp r) v (tf_edx r) (tf_ecx r) (tf_eax
  r) (tf_gs r) (tf_fs r) (tf_es r) (tf_ds r) (tf_trapno r) (tf_err r) (tf_eip
  r) (tf_cs r) (tf_eflags r) (tf_esp r) (tf_ss r).
Definition set_tf_edx (v : Z) (r : trapframe) : trapframe := mk_trapframe
  (tf_edi r) (tf_esi r) (tf_ebp r) (tf_oesp r) (tf_ebx r) v (tf_ecx r) (tf_eax
  r) (tf_gs r) (tf_fs r) (tf_es r) (tf_ds r) (tf_trapno r) (tf_err r) (tf_eip
  r) (tf_cs r) (tf_eflags r) (tf_esp r) (tf_ss r).
Definition set_tf_ecx (v : Z) (r : trapframe) : trapframe := mk_trapframe
  (tf_edi r) (tf_esi r) (tf_ebp r) (tf_oesp r) (tf_ebx r) (tf_edx r) v (tf_eax
  r) (tf_gs r) (tf_fs r) (tf_es r) (tf_ds r) (tf_trapno r) (tf_err r) (tf_eip
  r) (tf_cs r) (tf_eflags r) (tf_esp r) (tf_ss r).
Definition set_tf_eax (v : Z) (r : trapframe) : trapframe := mk_trapframe
  (tf_edi r) (tf_esi r) (tf_ebp r) (tf_oesp r) (tf_ebx r) (tf_edx r) (tf_ecx
  r) v (tf_gs r) (tf_fs r) (tf_es r) (tf_ds r) (tf_trapno r) (tf_err r)
  (tf_eip r) (tf_cs r) (tf_eflags r) (tf_esp r) (tf_ss r).
Definition set_tf_gs (v : Z) (r : trapframe) : trapframe := mk_trapframe
  (tf_edi r) (tf_esi r) (tf_ebp r) (tf_oesp r) (tf_ebx r) (tf_edx r) (tf_ecx
  r) (tf_eax r) v (tf_fs r) (tf_es r) (tf_ds r) (tf_trapno r) (tf_err r)
  (tf_eip r) (tf_cs r) (tf_eflags r) (tf_esp r) (tf_ss r).
Definition set_tf_fs (v : Z) (r : trapframe) : trapframe := mk_trapframe
  (tf_edi r) (tf_esi r) (tf_ebp r) (tf_oesp r) (tf_ebx r) (tf_edx r) (tf_ecx
  r) (tf_eax r) (tf_gs r) v (tf_es r) (tf_ds r) (tf_trapno r) (tf_err r)
  (tf_eip r) (tf_cs r) (tf_eflags r) (tf_esp r) (tf_ss r).
Definition set_tf_es (v : Z) (r : trapframe) : trapframe := mk_trapframe
  (tf_edi r) (tf_esi r) (tf_ebp r) (tf_oesp r) (tf_ebx r) (tf_edx r) (tf_ecx
  r) (tf_eax r) (tf_gs r) (tf_fs r) v (tf_ds r) (tf_trapno r) (tf_err r)
  (tf_eip r) (tf_cs r) (tf_eflags r) (tf_esp r) (tf_ss r).
Definition set_tf_ds (v : Z) (r : trapframe) : trapframe := mk_trapframe
  (tf_edi r) (tf_esi r) (tf_ebp r) (tf_oesp r) (tf_ebx r) (tf_edx r) (tf_ecx
  r) (tf_eax r) (tf_gs r) (tf_fs r) (tf_es r) v (tf_trapno r) (tf_err r)
  (tf_eip r) (tf_cs r) (tf_eflags r) (tf_esp r) (tf_ss r).
Definition set_tf_trapno (v : Z) (r : trapframe) : trapframe := mk_trapframe
  (tf_edi r) (tf_esi r) (tf_ebp r) (tf_oesp r) (tf_ebx r) (tf_edx r) (tf_ecx
  r) (tf_eax r) (tf_gs r) (tf_fs r) (tf_es r) (tf_ds r) v (tf_err r) (tf_eip
  r) (tf_cs r) (tf_eflags r) (tf_esp r) (tf_ss r).
Definition set_tf_err (v : Z) (r : trapframe) : trapframe := mk_trapframe
  (tf_edi r) (tf_esi r) (tf_ebp r) (tf_oesp r) (tf_ebx r) (tf_edx r) (tf_ecx
  r) (tf_eax r) (tf_gs r) (tf_fs r) (tf_es r) (tf_ds r) (tf_trapno r) v
  (tf_eip r) (tf_cs r) (tf_eflags r) (tf_esp r) (tf_ss r).
Definition set_tf_eip (v : Z) (r : trapframe) : trapframe := mk_trapframe
  (tf_edi r) (tf_esi r) (tf_ebp r) (tf_oesp r) (tf_ebx r) (tf_edx r) (tf_ecx
  r) (tf_eax r) (tf_gs r) (tf_fs r) (tf_es r) (tf_ds r) (tf_trapno r) (tf_err
  r) v (tf_cs r) (tf_eflags r) (tf_esp r) (tf_ss r).
Definition set_tf_cs (v : Z) (r : trapframe) : trapframe := mk_trapframe
  (tf_edi r) (tf_esi r) (tf_ebp r) (tf_oesp r) (tf_ebx r) (tf_edx r) (tf_ecx
  r) (tf_eax r) (tf_gs r) (tf_fs r) (tf_es r) (tf_ds r) (tf_trapno r) (tf_err
  r) (tf_eip r) v (tf_eflags r) (tf_esp r) (tf_ss r).
Definition set_tf_eflags (v : Z) (r : trapframe) : trapframe := mk_trapframe
  (tf_edi r) (tf_esi r) (tf_ebp r) (tf_oesp r) (tf_ebx r) (tf_edx r) (tf_ecx
  r) (tf_eax r) (tf_gs r) (tf_fs r) (tf_es r) (tf_ds r) (tf_trapno r) (tf_err
  r) (tf_eip r) (tf_cs r) v (tf_esp r) (tf_ss r).
Definition set_tf_esp (v : Z) (r : trapframe) : trapframe := mk_trapframe
  (tf_edi r) (tf_esi r) (tf_ebp r) (tf_oesp r) (tf_ebx r) (tf_edx r) (tf_ecx
  r) (tf_eax r) (tf_gs r) (tf_fs r) (tf_es r) (tf_ds r) (tf_trapno r) (tf_err
  r) (tf_eip r) (tf_cs r) (tf_eflags r) v (tf_ss r).
Definition set_tf_ss (v : Z) (r : trapframe) : trapframe := mk_trapframe
  (tf_edi r) (tf_esi r) (tf_ebp r) (tf_oesp r) (tf_ebx r) (tf_edx r) (tf_ecx
  r) (tf_eax r) (tf_gs r) (tf_fs r) (tf_es r) (tf_ds r) (tf_trapno r) (tf_err
  r) (tf_eip r) (tf_cs r) (tf_eflags r) (tf_esp r) v.

Definition set_c_edi (v : Z) (r : context) : context := mk_context v (c_esi r)
  (c_ebx r) (c_ebp r) (c_eip r).
Definition set_c_esi (v : Z) (r : context) : context := mk_context (c_edi r) v
  (c_ebx r) (c_ebp r) (c_eip r).
Definition set_c_ebx (v : Z) (r : context) : context := mk_context (c_edi r)
  (c_esi r) v (c_ebp r) (c_eip r).
Definition set_c_ebp (v : Z) (r : context) : context := mk_context (c_edi r)
  (c_esi r) (c_ebx r) v (c_eip r).
Definition set_c_eip (v : Z) (r : context) : context := mk_context (c_edi r)
  (c_esi r) (c_ebx r) (c_ebp r) v.

Definition set_p_sz (v : Z) (r : proc) : proc := mk_proc v (p_pgdir r)
  (p_kstack r) (p_state r) (p_pid r) (p_parent r) (p_tf r) (p_context r)
  (p_chan r) (p_killed r) (p_ofile r) (p_cwd r) (p_name r) (p_handlers r)
  (p_pending r).
Definition set_p_pgdir (v : Z) (r : proc) : proc := mk_proc (p_sz r) v
  (p_kstack r) (p_state r) (p_pid r) (p_parent r) (p_tf r) (p_context r)
  (p_chan r) (p_killed r) (p_ofile r) (p_cwd r) (p_name r) (p_handlers r)
  (p_pending r).
Definition set_p_kstack (v : Z) (r : proc) : proc := mk_proc (p_sz r) (p_pgdir
  r) v (p_state r) (p_pid r) (p_parent r) (p_tf r) (p_context r) (p_chan r)
  (p_killed r) (p_ofile r) (p_cwd r) (p_name r) (p_handlers r) (p_pending r).
Definition set_p_state (v : procstate) (r : proc) : proc := mk_proc (p_sz r)
  (p_pgdir r) (p_kstack r) v (p_pid r) (p_parent r) (p_tf r) (p_context r)
  (p_chan r) (p_killed r) (p_ofile r) (p_cwd r) (p_name r) (p_handlers r)
  (p_pending r).
Definition set_p_pid (v : Z) (r : proc) : proc := mk_proc (p_sz r) (p_pgdir r)
  (p_kstack r) (p_state r) v (p_parent r) (p_tf r) (p_context r) (p_chan r)
  (p_killed r) (p_ofile r) (p_cwd r) (p_name r) (p_handlers r) (p_pending r).
Definition set_p_parent (v : option nat) (r : proc) : proc := mk_proc (p_sz r)
  (p_pgdir r) (p_kstack r) (p_state r) (p_pid r) v (p_tf r) (p_context r)
  (p_chan r) (p_killed r) (p_ofile r) (p_cwd r) (p_name r) (p_handlers r)
  (p_pending r).
Definition set_p_tf (v : trapframe) (r : proc) : proc := mk_proc (p_sz r)
  (p_pgdir r) (p_kstack r) (p_state r) (p_pid r) (p_parent r) v (p_context r)
  (p_chan r) (p_killed r) (p_ofile r) (p_cwd r) (p_name r) (p_handlers r)
  (p_pending r).
Definition set_p_context (v : context) (r : proc) : proc := mk_proc (p_sz r)
  (p_pgdir r) (p_kstack r) (p_state r) (p_pid r) (p_parent r) (p_tf r) v
  (p_chan r) (p_killed r) (p_ofile r) (p_cwd r) (p_name r) (p_handlers r)
  (p_pending r).
Definition set_p_chan (v : chan) (r : proc) : proc := mk_proc (p_sz r)
  (p_pgdir r) (p_kstack r) (p_state r) (p_pid r) (p_parent r) (p_tf r)
  (p_context r) v (p_killed r) (p_ofile r) (p_cwd r) (p_name r) (p_handlers r)
  (p_pending r).
Definition set_p_killed (v : bool) (r : proc) : proc := mk_proc (p_sz r)
  (p_pgdir r) (p_kstack r) (p_state r) (p_pid r) (p_parent r) (p_tf r)
  (p_context r) (p_chan r) v (p_ofile r) (p_cwd r) (p_name r) (p_handlers r)
  (p_pending r).
Definition set_p_ofile (v : list (option nat)) (r : proc) : proc := mk_proc
  (p_sz r) (p_pgdir r) (p_kstack r) (p_state r) (p_pid r) (p_parent r) (p_tf
  r) (p_context r) (p_chan r) (p_killed r) v (p_cwd r) (p_name r) (p_handlers
  r) (p_pending r).
Definition set_p_cwd (v : option nat) (r : proc) : proc := mk_proc (p_sz r)
  (p_pgdir r) (p_kstack r) (p_state r) (p_pid r) (p_parent r) (p_tf r)
  (p_context r) (p_chan r) (p_killed r) (p_ofile r) v (p_name r) (p_handlers
  r) (p_pending r).
Definition set_p_name (v : list Z) (r : proc) : proc := mk_proc (p_sz r)
  (p_pgdir r) (p_kstack r) (p_state r) (p_pid r) (p_parent r) (p_tf r)
  (p_context r) (p_chan r) (p_killed r) (p_ofile r) (p_cwd r) v (p_handlers r)
  (p_pending r).
Definition set_p_handlers (v : list Z) (r : proc) : proc := mk_proc (p_sz r)
  (p_pgdir r) (p_kstack r) (p_state r) (p_pid r) (p_parent r) (p_tf r)
  (p_context r) (p_chan r) (p_killed r) (p_ofile r) (p_cwd r) (p_name r) v
  (p_pending r).
Definition set_p_pending (v : Z) (r : proc) : proc := mk_proc (p_sz r)
  (p_pgdir r) (p_kstack r) (p_state r) (p_pid r) (p_parent r) (p_tf r)
  (p_context r) (p_chan r) (p_killed r) (p_ofile r) (p_cwd r) (p_name r)
  (p_handlers r) v.

Definition set_m_type (v : Z) (r : message) : message := mk_message v (m_data
  r).
Definition set_m_data (v : list Z) (r : message) : message := mk_message
  (m_type r) v.

Definition set_q_messages (v : list message) (r : message_queue) :
  message_queue := mk_message_queue v (q_head r) (q_tail r) (q_count r).
Definition set_q_head (v : Z) (r : message_queue) : message_queue :=
  mk_message_queue (q_messages r) v (q_tail r) (q_count r).
Definition set_q_tail (v : Z) (r : message_queue) : message_queue :=
  mk_message_queue (q_messages r) (q_head r) v (q_count r).
Definition set_q_count (v : Z) (r : message_queue) : message_queue :=
  mk_message_queue (q_messages r) (q_head r) (q_tail r) v.

Definition set_pi_data (v : list Z) (r : pipe) : pipe := mk_pipe v (pi_nread
  r) (pi_nwrite r) (pi_readopen r) (pi_writeopen r).
Definition set_pi_nread (v : Z) (r : pipe) : pipe := mk_pipe (pi_data r) v
  (pi_nwrite r) (pi_readopen r) (pi_writeopen r).
Definition set_pi_nwrite (v : Z) (r : pipe) : pipe := mk_pipe (pi_data r)
  (pi_nread r) v (pi_readopen r) (pi_writeopen r).
Definition set_pi_readopen (v : bool) (r : pipe) : pipe := mk_pipe (pi_data r)
  (pi_nread r) (pi_nwrite r) v (pi_writeopen r).
Definition set_pi_writeopen (v : bool) (r : pipe) : pipe := mk_pipe (pi_data
  r) (pi_nread r) (pi_nwrite r) (pi_readopen r) v.

Definition set_f_type (v : ftype) (r : file) : file := mk_file v (f_ref r)
  (f_readable r) (f_writable r) (f_pipe r) (f_ip r) (f_off r).
Definition set_f_ref (v : Z) (r : file) : file := mk_file (f_type r) v
  (f_readable r) (f_writable r) (f_pipe r) (f_ip r) (f_off r).
Definition set_f_readable (v : bool) (r : file) : file := mk_file (f_type r)
  (f_ref r) v (f_writable r) (f_pipe r) (f_ip r) (f_off r).
Definition set_f_writable (v : bool) (r : file) : file := mk_file (f_type r)
  (f_ref r) (f_readable r) v (f_pipe r) (f_ip r) (f_off r).
Definition set_f_pipe (v : Z) (r : file) : file := mk_file (f_type r) (f_ref
  r) (f_readable r) (f_writable r) v (f_ip r) (f_off r).
Definition set_f_ip (v : option nat) (r : file) : file := mk_file (f_type r)
  (f_ref r) (f_readable r) (f_writable r) (f_pipe r) v (f_off r).
Definition set_f_off (v : Z) (r : file) : file := mk_file (f_type r) (f_ref r)
  (f_readable r) (f_writable r) (f_pipe r) (f_ip r) v.

Definition set_i_dev (v : Z) (r : inode) : inode := mk_inode v (i_inum r)
  (i_ref r) (i_lock r) (i_valid r) (i_type r) (i_major r) (i_minor r) (i_nlink
  r) (i_size r) (i_addrs r).
Definition set_i_inum (v : Z) (r : inode) : inode := mk_inode (i_dev r) v
  (i_ref r) (i_lock r) (i_valid r) (i_type r) (i_major r) (i_minor r) (i_nlink
  r) (i_size r) (i_addrs r).
Definition set_i_ref (v : Z) (r : inode) : inode := mk_inode (i_dev r) (i_inum
  r) v (i_lock r) (i_valid r) (i_type r) (i_major r) (i_minor r) (i_nlink r)
  (i_size r) (i_addrs r).
Definition set_i_lock (v : sleeplock) (r : inode) : inode := mk_inode (i_dev
  r) (i_inum r) (i_ref r) v (i_valid r) (i_type r) (i_major r) (i_minor r)
  (i_nlink r) (i_size r) (i_addrs r).
Definition set_i_valid (v : bool) (r : inode) : inode := mk_inode (i_dev r)
  (i_inum r) (i_ref r) (i_lock r) v (i_type r) (i_major r) (i_minor r)
  (i_nlink r) (i_size r) (i_addrs r).
Definition set_i_type (v : Z) (r : inode) : inode := mk_inode (i_dev r)
  (i_inum r) (i_ref r) (i_lock r) (i_valid r) v (i_major r) (i_minor r)
  (i_nlink r) (i_size r) (i_addrs r).
Definition set_i_major (v : Z) (r : inode) : inode := mk_inode (i_dev r)
  (i_inum r) (i_ref r) (i_lock r) (i_valid r) (i_type r) v (i_minor r)
  (i_nlink r) (i_size r) (i_addrs r).
Definition set_i_minor (v : Z) (r : inode) : inode := mk_inode (i_dev r)
  (i_inum r) (i_ref r) (i_lock r) (i_valid r) (i_type r) (i_major r) v
  (i_nlink r) (i_size r) (i_addrs r).
Definition set_i_nlink (v : Z) (r : inode) : inode := mk_inode (i_dev r)
  (i_inum r) (i_ref r) (i_lock r) (i_valid r) (i_type r) (i_major r) (i_minor
  r) v (i_size r) (i_addrs r).
Definition set_i_size (v : Z) (r : inode) : inode := mk_inode (i_dev r)
  (i_inum r) (i_ref r) (i_lock r) (i_valid r) (i_type r) (i_major r) (i_minor
  r) (i_nlink r) v (i_addrs r).
Definition set_i_addrs (v : list Z) (r : inode) : inode := mk_inode (i_dev r)
  (i_inum r) (i_ref r) (i_lock r) (i_valid r) (i_type r) (i_major r) (i_minor
  r) (i_nlink r) (i_size r) v.

Definition set_sb_size (v : Z) (r : superblock) : superblock := mk_superblock
  v (sb_nblocks r) (sb_ninodes r) (sb_nlog r) (sb_logstart r) (sb_inodestart
  r) (sb_bmapstart r).
Definition set_sb_nblocks (v : Z) (r : superblock) : superblock :=
  mk_superblock (sb_size r) v (sb_ninodes r) (sb_nlog r) (sb_logstart r)
  (sb_inodestart r) (sb_bmapstart r).
Definition set_sb_ninodes (v : Z) (r : superblock) : superblock :=
  mk_superblock (sb_size r) (sb_nblocks r) v (sb_nlog r) (sb_logstart r)
  (sb_inodestart r) (sb_bmapstart r).
Definition set_sb_nlog (v : Z) (r : superblock) : superblock := mk_superblock
  (sb_size r) (sb_nblocks r) (sb_ninodes r) v (sb_logstart r) (sb_inodestart
  r) (sb_bmapstart r).
Definition set_sb_logstart (v : Z) (r : superblock) : superblock :=
  mk_superblock (sb_size r) (sb_nblocks r) (sb_ninodes r) (sb_nlog r) v
  (sb_inodestart r) (sb_bmapstart r).
Definition set_sb_inodestart (v : Z) (r : superblock) : superblock :=
  mk_superblock (sb_size r) (sb_nblocks r) (sb_ninodes r) (sb_nlog r)
  (sb_logstart r) v (sb_bmapstart r).
Definition set_sb_bmapstart (v : Z) (r : superblock) : superblock :=
  mk_superblock (sb_size r) (sb_nblocks r) (sb_ninodes r) (sb_nlog r)
  (sb_logstart r) (sb_inodestart r) v.

Definition set_b_flags (v : Z) (r : buf) : buf := mk_buf v (b_dev r)
  (b_blockno r) (b_lock r) (b_refcnt r) (b_prev r) (b_next r) (b_data r).
Definition set_b_dev (v : Z) (r : buf) : buf := mk_buf (b_flags r) v
  (b_blockno r) (b_lock r) (b_refcnt r) (b_prev r) (b_next r) (b_data r).
Definition set_b_blockno (v : Z) (r : buf) : buf := mk_buf (b_flags r) (b_dev
  r) v (b_lock r) (b_refcnt r) (b_prev r) (b_next r) (b_data r).
Definition set_b_lock (v : sleeplock) (r : buf) : buf := mk_buf (b_flags r)
  (b_dev r) (b_blockno r) v (b_refcnt r) (b_prev r) (b_next r) (b_data r).
Definition set_b_refcnt (v : Z) (r : buf) : buf := mk_buf (b_flags r) (b_dev
  r) (b_blockno r) (b_lock r) v (b_prev r) (b_next r) (b_data r).
Definition set_b_prev (v : nat) (r : buf) : buf := mk_buf (b_flags r) (b_dev
  r) (b_blockno r) (b_lock r) (b_refcnt r) v (b_next r) (b_data r).
Definition set_b_next (v : nat) (r : buf) : buf := mk_buf (b_flags r) (b_dev
  r) (b_blockno r) (b_lock r) (b_refcnt r) (b_prev r) v (b_data r).
Definition set_b_data (v : list Z) (r : buf) : buf := mk_buf (b_flags r)
  (b_dev r) (b_blockno r) (b_lock r) (b_refcnt r) (b_prev r) (b_next r) v.

Definition set_bc_buf (v : list buf) (r : bcache) : bcache := mk_bcache v
  (bc_head_prev r) (bc_head_next r).
Definition set_bc_head_prev (v : nat) (r : bcache) : bcache := mk_bcache
  (bc_buf r) v (bc_head_next r).
Definition set_bc_head_next (v : nat) (r : bcache) : bcache := mk_bcache
  (bc_buf r) (bc_head_prev r) v.

Definition set_l_start (v : Z) (r : log) : log := mk_log v (l_size r)
  (l_outstanding r) (l_committing r) (l_dev r) (l_n r) (l_block r).
Definition set_l_size (v : Z) (r : log) : log := mk_log (l_start r) v
  (l_outstanding r) (l_committing r) (l_dev r) (l_n r) (l_block r).
Definition set_l_outstanding (v : Z) (r : log) : log := mk_log (l_start r)
  (l_size r) v (l_committing r) (l_dev r) (l_n r) (l_block r).
Definition set_l_committing (v : bool) (r : log) : log := mk_log (l_start r)
  (l_size r) (l_outstanding r) v (l_dev r) (l_n r) (l_block r).
Definition set_l_dev (v : Z) (r : log) : log := mk_log (l_start r) (l_size r)
  (l_outstanding r) (l_committing r) v (l_n r) (l_block r).
Definition set_l_n (v : Z) (r : log) : log := mk_log (l_start r) (l_size r)
  (l_outstanding r) (l_committing r) (l_dev r) v (l_block r).
Definition set_l_block (v : list Z) (r : log) : log := mk_log (l_start r)
  (l_size r) (l_outstanding r) (l_committing r) (l_dev r) (l_n r) v.

Definition set_in_buf (v : list Z) (r : input) : input := mk_input v (in_r r)
  (in_w r) (in_e r).
Definition set_in_r (v : Z) (r : input) : input := mk_input (in_buf r) v (in_w
  r) (in_e r).
Definition set_in_w (v : Z) (r : input) : input := mk_input (in_buf r) (in_r
  r) v (in_e r).
Definition set_in_e (v : Z) (r : input) : input := mk_input (in_buf r) (in_r
  r) (in_w r) v.

Definition set_cga_pos (v : Z) (r : cga) : cga := mk_cga v (cga_mem r).
Definition set_cga_mem (v : list Z) (r : cga) : cga := mk_cga (cga_pos r) v.

Definition set_km_use_lock (v : bool) (r : kmem) : kmem := mk_kmem v
  (km_freelist r).
Definition set_km_freelist (v : Z) (r : kmem) : kmem := mk_kmem (km_use_lock
  r) v.

Definition set_k_mem (v : Z -> Z) (r : kstate) : kstate := mk_kstate v (k_kmem
  r) (k_proc r) (k_nextpid r) (k_initproc r) (k_first r) (k_cur r) (k_held r)
  (k_ticks r) (k_msgq r) (k_shm r) (k_bcache r) (k_disk r) (k_disksize r)
  (k_wlog r) (k_log r) (k_sb r) (k_icache r) (k_ftable r) (k_pipes r) (k_input
  r) (k_out r) (k_end r) (k_data r) (k_cga r) (k_locking r) (k_panicked r).
Definition set_k_kmem (v : kmem) (r : kstate) : kstate := mk_kstate (k_mem r)
  v (k_proc r) (k_nextpid r) (k_initproc r) (k_first r) (k_cur r) (k_held r)
  (k_ticks r) (k_msgq r) (k_shm r) (k_bcache r) (k_disk r) (k_disksize r)
  (k_wlog r) (k_log r) (k_sb r) (k_icache r) (k_ftable r) (k_pipes r) (k_input
  r) (k_out r) (k_end r) (k_data r) (k_cga r) (k_locking r) (k_panicked r).
Definition set_k_proc (v : list proc) (r : kstate) : kstate := mk_kstate
  (k_mem r) (k_kmem r) v (k_nextpid r) (k_initproc r) (k_first r) (k_cur r)
  (k_held r) (k_ticks r) (k_msgq r) (k_shm r) (k_bcache r) (k_disk r)
  (k_disksize r) (k_wlog r) (k_log r) (k_sb r) (k_icache r) (k_ftable r)
  (k_pipes r) (k_input r) (k_out r) (k_end r) (k_data r) (k_cga r) (k_locking
  r) (k_panicked r).
Definition set_k_nextpid (v : Z) (r : kstate) : kstate := mk_kstate (k_mem r)
  (k_kmem r) (k_proc r) v (k_initproc r) (k_first r) (k_cur r) (k_held r)
  (k_ticks r) (k_msgq r) (k_shm r) (k_bcache r) (k_disk r) (k_disksize r)
  (k_wlog r) (k_log r) (k_sb r) (k_icache r) (k_ftable r) (k_pipes r) (k_input
  r) (k_out r) (k_end r) (k_data r) (k_cga r) (k_locking r) (k_panicked r).
Definition set_k_initproc (v : option nat) (r : kstate) : kstate := mk_kstate
  (k_mem r) (k_kmem r) (k_proc r) (k_nextpid r) v (k_first r) (k_cur r)
  (k_held r) (k_ticks r) (k_msgq r) (k_shm r) (k_bcache r) (k_disk r)
  (k_disksize r) (k_wlog r) (k_log r) (k_sb r) (k_icache r) (k_ftable r)
  (k_pipes r) (k_input r) (k_out r) (k_end r) (k_data r) (k_cga r) (k_locking
  r) (k_panicked r).
Definition set_k_first (v : bool) (r : kstate) : kstate := mk_kstate (k_mem r)
  (k_kmem r) (k_proc r) (k_nextpid r) (k_initproc r) v (k_cur r) (k_held r)
  (k_ticks r) (k_msgq r) (k_shm r) (k_bcache r) (k_disk r) (k_disksize r)
  (k_wlog r) (k_log r) (k_sb r) (k_icache r) (k_ftable r) (k_pipes r) (k_input
  r) (k_out r) (k_end r) (k_data r) (k_cga r) (k_locking r) (k_panicked r).
Definition set_k_cur (v : option nat) (r : kstate) : kstate := mk_kstate
  (k_mem r) (k_kmem r) (k_proc r) (k_nextpid r) (k_initproc r) (k_first r) v
  (k_held r) (k_ticks r) (k_msgq r) (k_shm r) (k_bcache r) (k_disk r)
  (k_disksize r) (k_wlog r) (k_log r) (k_sb r) (k_icache r) (k_ftable r)
  (k_pipes r) (k_input r) (k_out r) (k_end r) (k_data r) (k_cga r) (k_locking
  r) (k_panicked r).
Definition set_k_held (v : list lockid) (r : kstate) : kstate := mk_kstate
  (k_mem r) (k_kmem r) (k_proc r) (k_nextpid r) (k_initproc r) (k_first r)
  (k_cur r) v (k_ticks r) (k_msgq r) (k_shm r) (k_bcache r) (k_disk r)
  (k_disksize r) (k_wlog r) (k_log r) (k_sb r) (k_icache r) (k_ftable r)
  (k_pipes r) (k_input r) (k_out r) (k_end r) (k_data r) (k_cga r) (k_locking
  r) (k_panicked r).
Definition set_k_ticks (v : Z) (r : kstate) : kstate := mk_kstate (k_mem r)
  (k_kmem r) (k_proc r) (k_nextpid r) (k_initproc r) (k_first r) (k_cur r)
  (k_held r) v (k_msgq r) (k_shm r) (k_bcache r) (k_disk r) (k_disksize r)
  (k_wlog r) (k_log r) (k_sb r) (k_icache r) (k_ftable r) (k_pipes r) (k_input
  r) (k_out r) (k_end r) (k_data r) (k_cga r) (k_locking r) (k_panicked r).
Definition set_k_msgq (v : message_queue) (r : kstate) : kstate := mk_kstate
  (k_mem r) (k_kmem r) (k_proc r) (k_nextpid r) (k_initproc r) (k_first r)
  (k_cur r) (k_held r) (k_ticks r) v (k_shm r) (k_bcache r) (k_disk r)
  (k_disksize r) (k_wlog r) (k_log r) (k_sb r) (k_icache r) (k_ftable r)
  (k_pipes r) (k_input r) (k_out r) (k_end r) (k_data r) (k_cga r) (k_locking
  r) (k_panicked r).
Definition set_k_shm (v : Z) (r : kstate) : kstate := mk_kstate (k_mem r)
  (k_kmem r) (k_proc r) (k_nextpid r) (k_initproc r) (k_first r) (k_cur r)
  (k_held r) (k_ticks r) (k_msgq r) v (k_bcache r) (k_disk r) (k_disksize r)
  (k_wlog r) (k_log r) (k_sb r) (k_icache r) (k_ftable r) (k_pipes r) (k_input
  r) (k_out r) (k_end r) (k_data r) (k_cga r) (k_locking r) (k_panicked r).
Definition set_k_bcache (v : bcache) (r : kstate) : kstate := mk_kstate (k_mem
  r) (k_kmem r) (k_proc r) (k_nextpid r) (k_initproc r) (k_first r) (k_cur r)
  (k_held r) (k_ticks r) (k_msgq r) (k_shm r) v (k_disk r) (k_disksize r)
  (k_wlog r) (k_log r) (k_sb r) (k_icache r) (k_ftable r) (k_pipes r) (k_input
  r) (k_out r) (k_end r) (k_data r) (k_cga r) (k_locking r) (k_panicked r).
Definition set_k_disk (v : Z -> Z -> list Z) (r : kstate) : kstate :=
  mk_kstate (k_mem r) (k_kmem r) (k_proc r) (k_nextpid r) (k_initproc r)
  (k_first r) (k_cur r) (k_held r) (k_ticks r) (k_msgq r) (k_shm r) (k_bcache
  r) v (k_disksize r) (k_wlog r) (k_log r) (k_sb r) (k_icache r) (k_ftable r)
  (k_pipes r) (k_input r) (k_out r) (k_end r) (k_data r) (k_cga r) (k_locking
  r) (k_panicked r).
Definition set_k_disksize (v : Z) (r : kstate) : kstate := mk_kstate (k_mem r)
  (k_kmem r) (k_proc r) (k_nextpid r) (k_initproc r) (k_first r) (k_cur r)
  (k_held r) (k_ticks r) (k_msgq r) (k_shm r) (k_bcache r) (k_disk r) v
  (k_wlog r) (k_log r) (k_sb r) (k_icache r) (k_ftable r) (k_pipes r) (k_input
  r) (k_out r) (k_end r) (k_data r) (k_cga r) (k_locking r) (k_panicked r).
Definition set_k_wlog (v : list (Z * Z * list Z)) (r : kstate) : kstate :=
  mk_kstate (k_mem r) (k_kmem r) (k_proc r) (k_nextpid r) (k_initproc r)
  (k_first r) (k_cur r) (k_held r) (k_ticks r) (k_msgq r) (k_shm r) (k_bcache
  r) (k_disk r) (k_disksize r) v (k_log r) (k_sb r) (k_icache r) (k_ftable r)
  (k_pipes r) (k_input r) (k_out r) (k_end r) (k_data r) (k_cga r) (k_locking
  r) (k_panicked r).
Definition set_k_log (v : log) (r : kstate) : kstate := mk_kstate (k_mem r)
  (k_kmem r) (k_proc r) (k_nextpid r) (k_initproc r) (k_first r) (k_cur r)
  (k_held r) (k_ticks r) (k_msgq r) (k_shm r) (k_bcache r) (k_disk r)
  (k_disksize r) (k_wlog r) v (k_sb r) (k_icache r) (k_ftable r) (k_pipes r)
  (k_input r) (k_out r) (k_end r) (k_data r) (k_cga r) (k_locking r)
  (k_panicked r).
Definition set_k_sb (v : superblock) (r : kstate) : kstate := mk_kstate (k_mem
  r) (k_kmem r) (k_proc r) (k_nextpid r) (k_initproc r) (k_first r) (k_cur r)
  (k_held r) (k_ticks r) (k_msgq r) (k_shm r) (k_bcache r) (k_disk r)
  (k_disksize r) (k_wlog r) (k_log r) v (k_icache r) (k_ftable r) (k_pipes r)
  (k_input r) (k_out r) (k_end r) (k_data r) (k_cga r) (k_locking r)
  (k_panicked r).
Definition set_k_icache (v : list inode) (r : kstate) : kstate := mk_kstate
  (k_mem r) (k_kmem r) (k_proc r) (k_nextpid r) (k_initproc r) (k_first r)
  (k_cur r) (k_held r) (k_ticks r) (k_msgq r) (k_shm r) (k_bcache r) (k_disk
  r) (k_disksize r) (k_wlog r) (k_log r) (k_sb r) v (k_ftable r) (k_pipes r)
  (k_input r) (k_out r) (k_end r) (k_data r) (k_cga r) (k_locking r)
  (k_panicked r).
Definition set_k_ftable (v : list file) (r : kstate) : kstate := mk_kstate
  (k_mem r) (k_kmem r) (k_proc r) (k_nextpid r) (k_initproc r) (k_first r)
  (k_cur r) (k_held r) (k_ticks r) (k_msgq r) (k_shm r) (k_bcache r) (k_disk
  r) (k_disksize r) (k_wlog r) (k_log r) (k_sb r) (k_icache r) v (k_pipes r)
  (k_input r) (k_out r) (k_end r) (k_data r) (k_cga r) (k_locking r)
  (k_panicked r).
Definition set_k_pipes (v : Z -> pipe) (r : kstate) : kstate := mk_kstate
  (k_mem r) (k_kmem r) (k_proc r) (k_nextpid r) (k_initproc r) (k_first r)
  (k_cur r) (k_held r) (k_ticks r) (k_msgq r) (k_shm r) (k_bcache r) (k_disk
  r) (k_disksize r) (k_wlog r) (k_log r) (k_sb r) (k_icache r) (k_ftable r) v
  (k_input r) (k_out r) (k_end r) (k_data r) (k_cga r) (k_locking r)
  (k_panicked r).
Definition set_k_input (v : input) (r : kstate) : kstate := mk_kstate (k_mem
  r) (k_kmem r) (k_proc r) (k_nextpid r) (k_initproc r) (k_first r) (k_cur r)
  (k_held r) (k_ticks r) (k_msgq r) (k_shm r) (k_bcache r) (k_disk r)
  (k_disksize r) (k_wlog r) (k_log r) (k_sb r) (k_icache r) (k_ftable r)
  (k_pipes r) v (k_out r) (k_end r) (k_data r) (k_cga r) (k_locking r)
  (k_panicked r).
Definition set_k_out (v : list Z) (r : kstate) : kstate := mk_kstate (k_mem r)
  (k_kmem r) (k_proc r) (k_nextpid r) (k_initproc r) (k_first r) (k_cur r)
  (k_held r) (k_ticks r) (k_msgq r) (k_shm r) (k_bcache r) (k_disk r)
  (k_disksize r) (k_wlog r) (k_log r) (k_sb r) (k_icache r) (k_ftable r)
  (k_pipes r) (k_input r) v (k_end r) (k_data r) (k_cga r) (k_locking r)
  (k_panicked r).
Definition set_k_end (v : Z) (r : kstate) : kstate := mk_kstate (k_mem r)
  (k_kmem r) (k_proc r) (k_nextpid r) (k_initproc r) (k_first r) (k_cur r)
  (k_held r) (k_ticks r) (k_msgq r) (k_shm r) (k_bcache r) (k_disk r)
  (k_disksize r) (k_wlog r) (k_log r) (k_sb r) (k_icache r) (k_ftable r)
  (k_pipes r) (k_input r) (k_out r) v (k_data r) (k_cga r) (k_locking r)
  (k_panicked r).
Definition set_k_data (v : Z) (r : kstate) : kstate := mk_kstate (k_mem r)
  (k_kmem r) (k_proc r) (k_nextpid r) (k_initproc r) (k_first r) (k_cur r)
  (k_held r) (k_ticks r) (k_msgq r) (k_shm r) (k_bcache r) (k_disk r)
  (k_disksize r) (k_wlog r) (k_log r) (k_sb r) (k_icache r) (k_ftable r)
  (k_pipes r) (k_input r) (k_out r) (k_end r) v (k_cga r) (k_locking r)
  (k_panicked r).
Definition set_k_cga (v : cga) (r : kstate) : kstate := mk_kstate (k_mem r)
  (k_kmem r) (k_proc r) (k_nextpid r) (k_initproc r) (k_first r) (k_cur r)
  (k_held r) (k_ticks r) (k_msgq r) (k_shm r) (k_bcache r) (k_disk r)
  (k_disksize r) (k_wlog r) (k_log r) (k_sb r) (k_icache r) (k_ftable r)
  (k_pipes r) (k_input r) (k_out r) (k_end r) (k_data r) v (k_locking r)
  (k_panicked r).
Definition set_k_locking (v : bool) (r : kstate) : kstate := mk_kstate (k_mem
  r) (k_kmem r) (k_proc r) (k_nextpid r) (k_initproc r) (k_first r) (k_cur r)
  (k_held r) (k_ticks r) (k_msgq r) (k_shm r) (k_bcache r) (k_disk r)
  (k_disksize r) (k_wlog r) (k_log r) (k_sb r) (k_icache r) (k_ftable r)
  (k_pipes r) (k_input r) (k_out r) (k_end r) (k_data r) (k_cga r) v
  (k_panicked r).
Definition set_k_panicked (v : bool) (r : kstate) : kstate := mk_kstate (k_mem
  r) (k_kmem r) (k_proc r) (k_nextpid r) (k_initproc r) (k_first r) (k_cur r)
  (k_held r) (k_ticks r) (k_msgq r) (k_shm r) (k_bcache r) (k_disk r)
  (k_disksize r) (k_wlog r) (k_log r) (k_sb r) (k_icache r) (k_ftable r)
  (k_pipes r) (k_input r) (k_out r) (k_end r) (k_data r) (k_cga r) (k_locking
  r) v.

(** ** The kernel monad over [kstate] *)

Definition K (A : Type) : Type := M kstate A.

#[export] Instance inhabited_sleeplock : Inhabited sleeplock :=
  populate (mk_sleeplock false 0).
#[export] Instance inhabited_trapframe : Inhabited trapframe :=
  populate (mk_trapframe 0 0 0 0 0 0 0 0 0 0 0 0 0 0 0 0 0 0 0).
#[export] Instance inhabited_context : Inhabited context :=
  populate (mk_context 0 0 0 0 0).
#[export] Instance inhabited_proc : Inhabited proc :=
  populate (mk_proc 0 0 0 UNUSED 0 None inhabitant inhabitant ChanNull false
    (replicate NOFILE None) None (replicate 16 0) (replicate NUMSIGNALS 0) 0).
#[export] Instance inhabited_message : Inhabited message :=
  populate (mk_message 0 (replicate (Z.to_nat MSG_SIZE) 0)).
#[export] Instance inhabited_file : Inhabited file :=
  populate (mk_file FD_NONE 0 false false 0 None 0).
#[export] Instance inhabited_inode : Inhabited inode :=
  populate (mk_inode 0 0 0 inhabitant false 0 0 0 0 0 (replicate 13 0)).
#[export] Instance inhabited_buf : Inhabited buf :=
  populate (mk_buf 0 0 0 inhabitant 0 0 0 (replicate (Z.to_nat BSIZE) 0)).

(** Array element access through a pointer into a static array. *)
Definition procs (s : kstate) (p : nat) : proc := k_proc s !!! p.
Definition inodes (s : kstate) (i : nat) : inode := k_icache s !!! i.
Definition files (s : kstate) (f : nat) : file := k_ftable s !!! f.
Definition bufs (s : kstate) (b : nat) : buf := bc_buf (k_bcache s) !!! b.

Definition upd_proc (p : nat) (f : proc -> proc) (s : kstate) : kstate :=
  set_k_proc (alter f p (k_proc s)) s.
Definition upd_inode (i : nat) (f : inode -> inode) (s : kstate) : kstate :=
  set_k_icache (alter f i (k_icache s)) s.
Definition upd_file (i : nat) (f : file -> file) (s : kstate) : kstate :=
  set_k_ftable (alter f i (k_ftable s)) s.
Definition upd_buf (b : nat) (f : buf -> buf) (s : kstate) : kstate :=
  set_k_bcache (set_bc_buf (alter f b (bc_buf (k_bcache s))) (k_bcache s)) s.
Definition upd_log (f : log -> log) (s : kstate) : kstate :=
  set_k_log (f (k_log s)) s.
Definition upd_pipe (p : Z) (f : pipe -> pipe) (s : kstate) : kstate :=
  set_k_pipes (upd (k_pipes s) p (f (k_pipes s p))) s.

(** [struct x { ... } a[n]; a[i].f = ...] as seen through the accessors. *)
Lemma lookup_total_alter_eq {A} `{Inhabited A} (f : A -> A) (l : list A) i :
  (i < length l)%nat -> alter f i l !!! i = f (l !!! i).
Proof.
  intros Hi. destruct (lookup_lt_is_Some_2 l i Hi) as [x Hx].
  apply list_lookup_total_correct.
  rewrite list_lookup_alter_eq, Hx. simpl. f_equal. f_equal.
  symmetry. by apply list_lookup_total_correct.
Qed.

Lemma lookup_total_alter_ne {A} `{Inhabited A} (f : A -> A) (l : list A) i j :
  i <> j -> alter f i l !!! j = l !!! j.
Proof.
  intros Hij. rewrite !list_lookup_total_alt.
  by rewrite list_lookup_alter_ne.
Qed.

Lemma alter_alter {A} (f g : A -> A) (l : list A) i :
  alter f i (alter g i l) = alter (fun x => f (g x)) i l.
Proof.
  apply list_eq. intros j. destruct (decide (i = j)) as [->|Hne].
  - rewrite !list_lookup_alter_eq. by destruct (l !! j).
  - by rewrite !list_lookup_alter_ne.
Qed.

#[export] Hint Rewrite @lookup_total_alter_eq using (simpl in *; lia) : kernel.
#[export] Hint Rewrite @lookup_total_alter_ne using (simpl in *; congruence || lia) : kernel.
#[export] Hint Rewrite @length_alter : kernel.

(** Compute the fields of an updated [kstate]. *)
Ltac kred :=
  cbn [k_mem k_kmem k_proc k_nextpid k_initproc k_first k_cur k_held k_ticks
    k_msgq k_shm k_bcache k_disk k_disksize k_wlog k_log k_sb k_icache
    k_ftable k_pipes k_input k_out k_end k_data k_cga k_locking k_panicked
    set_k_mem set_k_kmem set_k_proc set_k_nextpid set_k_initproc set_k_first
    set_k_cur set_k_held set_k_ticks set_k_msgq set_k_shm set_k_bcache
    set_k_disk set_k_disksize set_k_wlog set_k_log set_k_sb set_k_icache
    set_k_ftable set_k_pipes set_k_input set_k_out set_k_end set_k_data
    set_k_cga set_k_locking set_k_panicked].
Tactic Notation "kred" "in" hyp(H) :=
  cbn [k_mem k_kmem k_proc k_nextpid k_initproc k_first k_cur k_held k_ticks
    k_msgq k_shm k_bcache k_disk k_disksize k_wlog k_log k_sb k_icache
    k_ftable k_pipes k_input k_out k_end k_data k_cga k_locking k_panicked
    set_k_mem set_k_kmem set_k_proc set_k_nextpid set_k_initproc set_k_first
    set_k_cur set_k_held set_k_ticks set_k_msgq set_k_shm set_k_bcache
    set_k_disk set_k_disksize set_k_wlog set_k_log set_k_sb set_k_icache
    set_k_ftable set_k_pipes set_k_input set_k_out set_k_end set_k_data
    set_k_cga set_k_locking set_k_panicked] in H.
