(* ===== verification/Demo.v ===== *)
(** Concrete machine states for the examples: one running process with one
    page of user memory, a message queue, and empty kernel tables. *)

From stdpp Require Import base list strings.
From Stdlib Require Import ZArith Lia.
From S2P Require Import Prelude State.

(** A process with one page at address 0, its page directory at physical
    0x1000, its page table at 0x2000 and its page at 0x3000.  Its stack
    pointer is 0x100, so its arguments are the words at 0x104 and 0x108. *)
Definition demo_mem (args : list Z) (bytes : list Z) : Z -> Z :=
  upd_list (upd_list (write32 (write32 (fun _ => 0) 0x1000 0x2007) 0x2000 0x3007)
    0x3104 (concat (map le32 args))) 0x3200 bytes.

Definition demo_proc : proc :=
  set_p_tf (set_tf_esp 0x100 inhabitant)
    (set_p_state RUNNING (set_p_pid 3 (set_p_pgdir (P2V 0x1000)
      (set_p_sz 0x1000 inhabitant)))).

(** The buffer cache as [binit] leaves it. *)
Definition demo_bcache : bcache :=
  mk_bcache
    (map (fun i => set_b_prev (S i) (set_b_next (if decide (i = 0)%nat then NBUF else pred i)
      inhabitant)) (seq 0 NBUF)) 0 29.

(** A kernel with one running process, a quiet machine otherwise. *)
Definition demo_state (mem : Z -> Z) (q : message_queue) : kstate :=
  mk_kstate mem (mk_kmem true 0) (demo_proc :: replicate 63 inhabitant) 4 (Some 0%nat)
    false (Some 0%nat) [] 0 q 0 demo_bcache (fun _ _ => replicate 512 0) 1000 []
    (mk_log 0 0 0 false 0 0 (replicate 30 0)) (mk_superblock 0 0 0 0 0 0 0)
    (replicate NINODE inhabitant) (replicate NFILE inhabitant)
    (fun _ => mk_pipe (replicate 512 0) 0 0 true true)
    (mk_input (replicate 128 0) 0 0 0) []
    (KERNBASE + EXTMEM) (KERNBASE + EXTMEM) (mk_cga 0 (replicate 2000 0)) true false.

Definition demo_kernel (args bytes : list Z) : kstate :=
  demo_state (demo_mem args bytes)
    (mk_message_queue (replicate 64 inhabitant) 0 0 0).
