(* ===== verification/CString.v ===== *)
(** The kernel's string library, string.c.

    [memset], [memcmp] and [memmove] work on memory, a map from addresses to
    bytes, because their operands may overlap.  The [str*] functions read a
    source through a pointer, here the function from offsets to bytes, and
    write an array, here a list; their callers never pass overlapping
    operands. *)

From stdpp Require Import base list.
From Stdlib Require Import ZArith Lia.
From S2P Require Import Prelude.

(** ** Memory blocks *)

(** [stosb] and [stosl] of x86.h: [cnt] bytes, or [cnt] words, from [a] up. *)
Fixpoint stosb (m : Z -> Z) (a data : Z) (cnt : nat) : Z -> Z :=
  match cnt with
  | O => m
  | S cnt => stosb (upd m a (u8 data)) (a + 1) data cnt
  end.

Fixpoint stosl (m : Z -> Z) (a data : Z) (cnt : nat) : Z -> Z :=
  match cnt with
  | O => m
  | S cnt => stosl (write32 m a data) (a + 4) data cnt
  end.

Definition memset (m : Z -> Z) (dst c n : Z) : Z -> Z :=
  if (dst mod 4 =? 0) && (n mod 4 =? 0) then
    let c := Z.land c 0xFF in
    stosl m dst
      (Z.lor (Z.lor (Z.lor (Z.shiftl c 24) (Z.shiftl c 16)) (Z.shiftl c 8)) c)
      (Z.to_nat (n / 4))
  else stosb m dst c (Z.to_nat n).

(** [memcmp]: the difference at the first byte that differs. *)
Fixpoint memcmp (m : Z -> Z) (s1 s2 : Z) (n : nat) : Z :=
  match n with
  | O => 0
  | S n => if negb (m s1 =? m s2) then m s1 - m s2
           else memcmp m (s1 + 1) (s2 + 1) n
  end.

(** The two loops of [memmove]: downwards and upwards. *)
Fixpoint copy_down (m : Z -> Z) (d s : Z) (n : nat) : Z -> Z :=
  match n with
  | O => m
  | S n => copy_down (upd m (d - 1) (m (s - 1))) (d - 1) (s - 1) n
  end.

Fixpoint copy_up (m : Z -> Z) (d s : Z) (n : nat) : Z -> Z :=
  match n with
  | O => m
  | S n => copy_up (upd m d (m s)) (d + 1) (s + 1) n
  end.

Definition memmove (m : Z -> Z) (dst src : Z) (n : nat) : Z -> Z :=
  if (src <? dst) && (dst <? src + Z.of_nat n)
  then copy_down m (dst + Z.of_nat n) (src + Z.of_nat n) n
  else copy_up m dst src n.

(** ** Strings *)

(** A [char *]: the byte at each offset. *)
Abbreviation ptr := (nat -> Z).

Definition shift (p : ptr) (k : nat) : ptr := fun i => p (k + i)%nat.

(** The pointer to the start of an array; out of the array it reads 0, which
    the callers never do. *)
Definition arr (l : list Z) : ptr := fun i => default 0 (l !! i).

(** The string at [p]: the bytes before the first NUL, [n] at most. *)
Fixpoint cstr (n : nat) (p : ptr) : list Z :=
  match n with
  | O => []
  | S n => if p O =? 0 then [] else p O :: cstr n (shift p 1)
  end.

Fixpoint strncmp (p q : ptr) (n : nat) : Z :=
  match n with
  | O => 0
  | S n => if negb (p O =? 0) && (p O =? q O)
           then strncmp (shift p 1) (shift q 1) n
           else u8 (p O) - u8 (q O)
  end.

(** The first loop of [strncpy] copies up to and including the NUL, the
    second pads. [i] is the index [s] points at, [n] what is left. *)
Fixpoint strncpy_pad (s : list Z) (i n : nat) : list Z :=
  match n with
  | O => s
  | S n => strncpy_pad (<[i:=0]> s) (S i) n
  end.

Fixpoint strncpy_loop (s : list Z) (t : ptr) (i n : nat) : list Z :=
  match n with
  | O => s
  | S n => let s := <[i:=t i]> s in
           if t i =? 0 then strncpy_pad s (S i) n else strncpy_loop s t (S i) n
  end.

Definition strncpy (s : list Z) (t : ptr) (n : Z) : list Z :=
  strncpy_loop s t 0 (Z.to_nat n).

(** Copy while [--n > 0] and the byte copied is not NUL, then write a NUL
    where [s] stands; [n] is the count left after the first decrement. *)
Fixpoint safestrcpy_loop (s : list Z) (t : ptr) (i n : nat) : list Z :=
  match n with
  | O => <[i:=0]> s
  | S n => let s := <[i:=t i]> s in
           if t i =? 0 then <[S i:=0]> s else safestrcpy_loop s t (S i) n
  end.

Definition safestrcpy (s : list Z) (t : ptr) (n : Z) : list Z :=
  if n <=? 0 then s else safestrcpy_loop s t 0 (Z.to_nat (n - 1)).

(** [for(n = 0; s[n]; n++)]; [fuel] bounds the search for the NUL. *)
Fixpoint strlen (fuel : nat) (s : ptr) (n : nat) : option nat :=
  match fuel with
  | O => None
  | S fuel => if s n =? 0 then Some n else strlen fuel s (S n)
  end.

(** ** [memset] is a fill, whichever instruction it uses *)

Lemma stosb_fill m a c n x :
  stosb m a c n x = fill m a (Z.of_nat n) (u8 c) x.
Proof.
  revert m a. induction n as [|n IH]; intros m a.
  - simpl. rewrite fill_out by lia. done.
  - simpl stosb. rewrite IH. unfold fill, upd. zcases.
Qed.

Lemma stosl_fill m a w c n x :
  le32 w = [c; c; c; c] ->
  stosl m a w n x = fill m a (4 * Z.of_nat n) c x.
Proof.
  intros Hw. revert m a. induction n as [|n IH]; intros m a.
  - simpl. rewrite fill_out by lia. done.
  - simpl stosl. rewrite IH.
    destruct (decide (a <= x < a + 4 * Z.of_nat (S n))) as [Hin|Hout].
    + rewrite (fill_in m) by lia.
      destruct (decide (x < a + 4)).
      * rewrite fill_out by lia. unfold write32. rewrite Hw.
        apply upd_list_in; [lia|].
        assert (x - a = 0 \/ x - a = 1 \/ x - a = 2 \/ x - a = 3)
          as [->|[->|[->| ->]]] by lia; reflexivity.
      * by rewrite fill_in by lia.
    + rewrite !fill_out by lia. unfold write32.
      apply upd_list_out. rewrite Hw. simpl. lia.
Qed.

(** Four copies of a byte make the word [memset] stores. *)
Lemma le32_splat c : 0 <= c < 256 ->
  le32 (Z.lor (Z.lor (Z.lor (Z.shiftl c 24) (Z.shiftl c 16)) (Z.shiftl c 8)) c)
  = [c; c; c; c].
Proof.
  intros Hc.
  assert (Hall : forallb (fun c => bool_decide (
     le32 (Z.lor (Z.lor (Z.lor (Z.shiftl c 24) (Z.shiftl c 16)) (Z.shiftl c 8)) c)
     = [c; c; c; c])) (map Z.of_nat (seq 0 256)) = true) by (vm_compute; done).
  rewrite forallb_forall in Hall.
  apply (bool_decide_eq_true_1 _), Hall.
  apply in_map_iff. exists (Z.to_nat c). split; [lia|]. apply in_seq. lia.
Qed.

Lemma memset_fill m dst c n x :
  0 <= n -> memset m dst c n x = fill m dst n (u8 c) x.
Proof.
  intros Hn. unfold memset.
  destruct ((dst mod 4 =? 0) && (n mod 4 =? 0)) eqn:E.
  - apply andb_true_iff in E as [_ E%Z.eqb_eq].
    assert (Hc : Z.land c 0xFF = u8 c).
    { change 0xFF with (Z.ones 8). rewrite Z.land_ones by lia. done. }
    rewrite Hc. cbv zeta.
    rewrite (stosl_fill m dst _ (u8 c)) by (apply le32_splat, u8_range).
    rewrite Z2Nat.id by (apply Z.div_pos; lia).
    replace (4 * (n / 4)) with n; [done|].
    pose proof (Z.div_mod n 4). lia.
  - rewrite stosb_fill. by rewrite Z2Nat.id by lia.
Qed.

(** ** [memmove] copies, whatever the overlap *)

Lemma copy_up_spec m d s n x :
  d <= s \/ s + Z.of_nat n <= d ->
  copy_up m d s n x =
  if (d <=? x) && (x <? d + Z.of_nat n) then m (s + (x - d)) else m x.
Proof.
  revert m d s. induction n as [|n IH]; intros m d s H.
  - cbn [copy_up]. zcases.
  - cbn [copy_up]. rewrite IH by lia. unfold upd. zcases; f_equal; lia.
Qed.

Lemma copy_down_spec m d s n x :
  s <= d ->
  copy_down m d s n x =
  if (d - Z.of_nat n <=? x) && (x <? d) then m (s + (x - d)) else m x.
Proof.
  revert m d s. induction n as [|n IH]; intros m d s H.
  - cbn [copy_down]. zcases.
  - cbn [copy_down]. rewrite IH by lia. unfold upd. zcases; f_equal; lia.
Qed.

Lemma memmove_copy m dst src n x :
  memmove m dst src n x =
  if (dst <=? x) && (x <? dst + Z.of_nat n) then m (src + (x - dst)) else m x.
Proof.
  unfold memmove. destruct ((src <? dst) && (dst <? src + Z.of_nat n)) eqn:E.
  - apply andb_true_iff in E as [E%Z.ltb_lt _].
    rewrite copy_down_spec by lia.
    replace (dst + Z.of_nat n - Z.of_nat n) with dst by lia.
    destruct (_ && _); [|done]. f_equal. lia.
  - apply andb_false_iff in E as [E%Z.ltb_ge|E%Z.ltb_ge];
      apply copy_up_spec; lia.
Qed.

Lemma memcmp_zero m a b n :
  memcmp m a b n = 0 <-> read_list m a n = read_list m b n.
Proof.
  revert a b. induction n as [|n IH]; intros a b; [done|].
  rewrite !read_list_S. simpl. destruct (m a =? m b) eqn:E; simpl.
  - apply Z.eqb_eq in E. rewrite IH, E. split; congruence.
  - apply Z.eqb_neq in E. split; [lia|congruence].
Qed.

(** ** Strings *)

Lemma cstr_ext n p q : (forall i, (i < n)%nat -> p i = q i) -> cstr n p = cstr n q.
Proof.
  revert p q. induction n as [|n IH]; intros p q H; [done|]. simpl.
  rewrite (H O) by lia. case_match; [done|]. f_equal. apply IH.
  intros i Hi. unfold shift. apply (H (1 + i)%nat). lia.
Qed.

Lemma cstr_S n p :
  cstr (S n) p = if p O =? 0 then [] else p O :: cstr n (shift p 1).
Proof. done. Qed.

Lemma cstr_shift n p i j : cstr n (shift (shift p i) j) = cstr n (shift p (i + j)).
Proof. apply cstr_ext. intros k _. unfold shift. f_equal. lia. Qed.

Lemma strncmp_eq_iff p q n :
  (forall i, 0 <= p i < 256) -> (forall i, 0 <= q i < 256) ->
  strncmp p q n = 0 <-> cstr n p = cstr n q.
Proof.
  revert p q. induction n as [|n IH]; intros p q Hp Hq; [done|]. simpl.
  rewrite !u8_small by auto.
  destruct (p O =? 0) eqn:E1; simpl.
  - apply Z.eqb_eq in E1. rewrite E1. destruct (q O =? 0) eqn:E2.
    + apply Z.eqb_eq in E2. rewrite E2. done.
    + apply Z.eqb_neq in E2. split; [lia|done].
  - destruct (p O =? q O) eqn:E2.
    + apply Z.eqb_eq in E2. rewrite <- E2, E1.
      rewrite IH by (intros i; unfold shift; auto). split; congruence.
    + apply Z.eqb_neq in E1, E2. split; [lia|].
      destruct (q O =? 0); congruence.
Qed.

Lemma length_safestrcpy_loop s t i n :
  length (safestrcpy_loop s t i n) = length s.
Proof.
  revert s i. induction n as [|n IH]; intros s i; simpl.
  - apply length_insert.
  - case_match; [by rewrite !length_insert|]. by rewrite IH, length_insert.
Qed.

Lemma length_safestrcpy s t n : length (safestrcpy s t n) = length s.
Proof. unfold safestrcpy. case_match; [done|]. apply length_safestrcpy_loop. Qed.

Lemma safestrcpy_loop_lt s t i n j :
  (j < i)%nat -> safestrcpy_loop s t i n !! j = s !! j.
Proof.
  revert s i. induction n as [|n IH]; intros s i Hj; simpl.
  - rewrite list_lookup_insert_ne by lia. done.
  - case_match; [|rewrite IH by lia];
      rewrite !list_lookup_insert_ne by lia; done.
Qed.

Lemma safestrcpy_loop_cstr s t i n :
  (i + n < length s)%nat ->
  cstr (S n) (shift (arr (safestrcpy_loop s t i n)) i) = cstr n (shift t i).
Proof.
  revert s i. induction n as [|n IH]; intros s i Hlen.
  - cbn [cstr safestrcpy_loop]. unfold shift, arr.
    rewrite Nat.add_0_r, list_lookup_insert_eq by lia. done.
  - cbn [safestrcpy_loop]. destruct (t i =? 0) eqn:E.
    + assert (Hz : arr (<[S i:=0]> (<[i:=t i]> s)) i = t i).
      { unfold arr.
        by rewrite list_lookup_insert_ne, list_lookup_insert_eq by lia. }
      cbn [cstr]. unfold shift. rewrite !Nat.add_0_r, Hz, E. done.
    + specialize (IH (<[i:=t i]> s) (S i)). rewrite length_insert in IH.
      remember (safestrcpy_loop (<[i:=t i]> s) t (S i) n) as r eqn:Hr.
      assert (Hri : arr r i = t i).
      { unfold arr. rewrite Hr, safestrcpy_loop_lt by lia.
        rewrite list_lookup_insert_eq by lia. done. }
      rewrite (cstr_S (S n)), (cstr_S n (shift t i)).
      replace (shift (arr r) i O) with (t i)
        by (unfold shift; by rewrite Nat.add_0_r).
      replace (shift t i O) with (t i) by (unfold shift; by rewrite Nat.add_0_r).
      rewrite E, !cstr_shift, !(Nat.add_1_r i), IH by lia. done.
Qed.

Lemma safestrcpy_cstr s t n :
  0 < n -> n <= Z.of_nat (length s) ->
  cstr (Z.to_nat n) (arr (safestrcpy s t n)) = cstr (Z.to_nat (n - 1)) t.
Proof.
  intros H1 H2. unfold safestrcpy. zbool.
  pose proof (safestrcpy_loop_cstr s t 0 (Z.to_nat (n - 1))) as H.
  replace (Z.to_nat n) with (S (Z.to_nat (n - 1))) by lia.
  apply H. lia.
Qed.

Lemma cstr_length n p : (length (cstr n p) <= n)%nat.
Proof.
  revert p. induction n as [|n IH]; intros p; simpl; [lia|].
  case_match; simpl; [lia|]. specialize (IH (shift p 1)). lia.
Qed.

Lemma length_strncpy_pad s i n : length (strncpy_pad s i n) = length s.
Proof.
  revert s i. induction n as [|n IH]; intros s i; simpl; [done|].
  by rewrite IH, length_insert.
Qed.

Lemma length_strncpy s t n : length (strncpy s t n) = length s.
Proof.
  unfold strncpy. generalize (Z.to_nat n) as k. generalize O as i. intros i k.
  revert s i. induction k as [|k IH]; intros s i; simpl; [done|].
  case_match; [by rewrite length_strncpy_pad, length_insert|].
  by rewrite IH, length_insert.
Qed.

Lemma strncpy_pad_lt s i n j : (j < i)%nat -> strncpy_pad s i n !! j = s !! j.
Proof.
  revert s i. induction n as [|n IH]; intros s i Hj; simpl; [done|].
  rewrite IH by lia. by rewrite list_lookup_insert_ne by lia.
Qed.

Lemma strncpy_loop_lt s t i n j : (j < i)%nat -> strncpy_loop s t i n !! j = s !! j.
Proof.
  revert s i. induction n as [|n IH]; intros s i Hj; simpl; [done|].
  case_match; [rewrite strncpy_pad_lt by lia|rewrite IH by lia]; by rewrite list_lookup_insert_ne by lia.
Qed.

Lemma shift_O p i : shift p i O = p i.
Proof. unfold shift. by rewrite Nat.add_0_r. Qed.

Lemma strncpy_loop_cstr s t i n : (i + n <= length s)%nat ->
  cstr n (shift (arr (strncpy_loop s t i n)) i) = cstr n (shift t i).
Proof.
  revert s i. induction n as [|n IH]; intros s i Hlen; [done|]. cbn [strncpy_loop].
  rewrite !cstr_S, !shift_O.
  destruct (t i =? 0) eqn:E.
  - assert (arr (strncpy_pad (<[i:=t i]> s) (S i) n) i = t i) as ->; [|by rewrite E].
    unfold arr. by rewrite strncpy_pad_lt, list_lookup_insert_eq by lia.
  - assert (arr (strncpy_loop (<[i:=t i]> s) t (S i) n) i = t i) as ->
      by (unfold arr; by rewrite strncpy_loop_lt, list_lookup_insert_eq by lia).
    rewrite E. f_equal. rewrite !cstr_shift, !(Nat.add_1_r i).
    apply IH. rewrite length_insert. lia.
Qed.

(** The string [strncpy] makes is the source's, cut at [n]. *)
Lemma strncpy_cstr s t n : n <= Z.of_nat (length s) ->
  cstr (Z.to_nat n) (arr (strncpy s t n)) = cstr (Z.to_nat n) t.
Proof. intros H. apply (strncpy_loop_cstr s t 0). lia. Qed.

Lemma strlen_spec fuel s n k :
  (forall i, (n <= i < n + k)%nat -> s i <> 0) -> s (n + k)%nat = 0 ->
  (k < fuel)%nat -> strlen fuel s n = Some (n + k)%nat.
Proof.
  revert n k. induction fuel as [|fuel IH]; intros n k Hnz Hz Hf; [lia|].
  simpl. destruct k as [|k].
  - rewrite Nat.add_0_r in *. rewrite Hz. done.
  - rewrite (proj2 (Z.eqb_neq (s n) 0)) by (apply Hnz; lia).
    rewrite (IH (S n) k); [f_equal; lia| |f_equal|lia].
    + intros i Hi. apply Hnz. lia.
    + rewrite <- Hz. f_equal. lia.
Qed.
