(* ===== verification/Sched.v ===== *)
(** Locks as the running CPU sees them, and the process switch primitives of
    proc.c: [sched], [yield], [sleep], [wakeup] and [kill].

    [k_held] lists the spinlocks this CPU holds.  [acquire] and [release] here
    are the locks' contract, which Spinlock.v derives from spinlock.c: a CPU
    that holds a lock panics when it acquires it again, a CPU that does not
    hold it panics when it releases it, and [ncli] is the number of locks held.

    [sched] ends with [swtch], so a function that calls it has the outcome
    [Switch]; what runs when the scheduler switches back is a definition of
    its own ([sleep_resume], [yield_resume]). *)

From stdpp Require Import base list sets strings.
From Stdlib Require Import ZArith Lia.
From S2P Require Import Prelude State Demo.

Open Scope kernel_scope.

(** ** Locks *)

Definition holding (l : lockid) (s : kstate) : bool :=
  bool_decide (l ∈ k_held s).

Definition acquire (l : lockid) : K unit :=
  h <- gets (holding l) ;;
  if h then panic "acquire"
  else modify (fun s => set_k_held (l :: k_held s) s).

Definition release (l : lockid) : K unit :=
  h <- gets (holding l) ;;
  if h then modify (fun s => set_k_held (filter (.≠ l) (k_held s)) s)
  else panic "release".

(** [mycpu()->ncli]: one pushcli per lock held. *)
Definition ncli (s : kstate) : nat := length (k_held s).

(** [myproc()], and [myproc()] dereferenced: a null pointer faults in the
    kernel, where [trap] panics. *)
Definition myproc : K (option nat) := gets k_cur.

Definition curproc : K nat :=
  p <- myproc ;;
  match p with Some p => ret p | None => panic "trap" end.

(** ** Giving up the CPU *)

Definition sched {A} : K A :=
  p <- curproc ;;
  h <- gets (holding L_ptable) ;;
  if negb h then panic "sched ptable.lock" else
  n <- gets ncli ;;
  if negb (n =? 1)%nat then panic "sched locks" else
  st <- gets (fun s => p_state (procs s p)) ;;
  if decide (st = RUNNING) then panic "sched running" else
  fun s => Switch s.

Definition yield : K unit :=
  acquire L_ptable ;;;
  p <- curproc ;;
  modify (upd_proc p (set_p_state RUNNABLE)) ;;;
  sched.

(** What [yield] runs when the process is scheduled again. *)
Definition yield_resume : K unit := release L_ptable.

(** [sleep] up to its [swtch]. *)
Definition sleep {A} (ch : chan) (lk : option lockid) : K A :=
  p <- myproc ;;
  match p with
  | None => panic "sleep"
  | Some p =>
    match lk with
    | None => panic "sleep without lk"
    | Some lk =>
      (if decide (lk = L_ptable) then ret tt
       else acquire L_ptable ;;; release lk) ;;;
      modify (upd_proc p (set_p_chan ch)) ;;;
      modify (upd_proc p (set_p_state SLEEPING)) ;;;
      sched
    end
  end.

(** [sleep] after its [swtch]: tidy up and take the caller's lock again. *)
Definition sleep_resume (lk : lockid) : K unit :=
  p <- curproc ;;
  modify (upd_proc p (set_p_chan ChanNull)) ;;;
  if decide (lk = L_ptable) then ret tt
  else release L_ptable ;;; acquire lk.

(** ** Waking up *)

Definition wake_one (ch : chan) (p : proc) : proc :=
  if decide (p_state p = SLEEPING /\ p_chan p = ch)
  then set_p_state RUNNABLE p else p.

Definition wakeup1 (ch : chan) : K unit :=
  modify (fun s => set_k_proc (map (wake_one ch) (k_proc s)) s).

Definition wakeup (ch : chan) : K unit :=
  acquire L_ptable ;;; wakeup1 ch ;;; release L_ptable.

(** [kill]: the scan for the first slot whose pid matches. *)
Definition kill (pid : Z) : K Z :=
  acquire L_ptable ;;;
  tbl <- gets k_proc ;;
  match list_find (fun p => p_pid p = pid) tbl with
  | Some (i, p) =>
    modify (upd_proc i (set_p_killed true)) ;;;
    (if decide (p_state p = SLEEPING)
     then modify (upd_proc i (set_p_state RUNNABLE)) else ret tt) ;;;
    release L_ptable ;;; ret 0
  | None => release L_ptable ;;; ret (-1)
  end.

(** ** Lock lemmas *)

Lemma acquire_ok l s :
  l ∉ k_held s -> acquire l s = Ret tt (set_k_held (l :: k_held s) s).
Proof.
  intros H. unfold acquire. mrun. unfold holding.
  rewrite bool_decide_eq_false_2 by done. done.
Qed.

Lemma acquire_held l s : l ∈ k_held s -> acquire l s = Panic "acquire" s.
Proof.
  intros H. unfold acquire. mrun. unfold holding.
  rewrite bool_decide_eq_true_2 by done. done.
Qed.

Lemma filter_not_in (l : lockid) (h : list lockid) : l ∉ h -> filter (.≠ l) h = h.
Proof.
  intros Hl. induction h as [|x h IH]; [done|].
  apply not_elem_of_cons in Hl as [Hx Hl].
  rewrite filter_cons_True by congruence. f_equal. auto.
Qed.

(** Releasing the lock taken last gives back the locks held before. *)
Lemma release_ok l h s :
  k_held s = l :: h -> l ∉ h -> release l s = Ret tt (set_k_held h s).
Proof.
  intros Hh Hl. unfold release. mrun. unfold holding. rewrite Hh.
  rewrite bool_decide_eq_true_2 by set_solver. unfold modify.
  rewrite Hh, filter_cons_False by (intros []; done).
  rewrite filter_not_in by done. done.
Qed.

Lemma release_free l s : l ∉ k_held s -> release l s = Panic "release" s.
Proof.
  intros H. unfold release. mrun. unfold holding.
  rewrite bool_decide_eq_false_2 by done. done.
Qed.

Lemma set_k_held_set h1 h2 s : set_k_held h1 (set_k_held h2 s) = set_k_held h1 s.
Proof. done. Qed.

Lemma set_k_held_id s : set_k_held (k_held s) s = s.
Proof. by destruct s. Qed.

Lemma set_k_proc_set t1 t2 s : set_k_proc t1 (set_k_proc t2 s) = set_k_proc t1 s.
Proof. done. Qed.

Lemma set_k_proc_id s : set_k_proc (k_proc s) s = s.
Proof. by destruct s. Qed.

#[export] Hint Rewrite set_k_held_set set_k_held_id : kernel.

(** A body run under a lock it does not touch. *)
Lemma wakeup_ok ch s :
  L_ptable ∉ k_held s ->
  wakeup ch s = Ret tt (set_k_proc (map (wake_one ch) (k_proc s)) s).
Proof.
  intros H. unfold wakeup.
  mstep (acquire_ok _ _ H). unfold wakeup1. mrun.
  rewrite (release_ok L_ptable (k_held s)) by (simpl; done). done.
Qed.

Lemma wake_one_state ch p :
  p_state (wake_one ch p) =
  if decide (p_state p = SLEEPING /\ p_chan p = ch) then RUNNABLE else p_state p.
Proof. unfold wake_one. case_decide; done. Qed.

Lemma length_wakeup_map ch (l : list proc) : length (map (wake_one ch) l) = length l.
Proof. apply length_map. Qed.

Lemma procs_wakeup ch s p :
  (p < length (k_proc s))%nat ->
  procs (set_k_proc (map (wake_one ch) (k_proc s)) s) p = wake_one ch (procs s p).
Proof.
  intros Hp. unfold procs. simpl.
  destruct (lookup_lt_is_Some_2 (k_proc s) p Hp) as [x Hx].
  rewrite (list_lookup_total_correct _ _ _ Hx).
  apply list_lookup_total_correct. rewrite list_lookup_fmap, Hx. done.
Qed.

Lemma procs_upd_eq p f s :
  (p < length (k_proc s))%nat -> procs (upd_proc p f s) p = f (procs s p).
Proof. intros H. unfold procs, upd_proc. simpl. by apply lookup_total_alter_eq. Qed.

Lemma procs_upd_ne p q f s : p <> q -> procs (upd_proc p f s) q = procs s q.
Proof. intros H. unfold procs, upd_proc. simpl. by apply lookup_total_alter_ne. Qed.

Lemma length_upd_proc p f s : length (k_proc (upd_proc p f s)) = length (k_proc s).
Proof. unfold upd_proc. simpl. apply length_alter. Qed.

#[export] Hint Rewrite length_upd_proc : kernel.

(** ** [sleep] *)

(** The state [sleep(chan, lk)] hands to the scheduler. *)
Definition asleep (p : nat) (ch : chan) (s : kstate) : kstate :=
  set_k_held [L_ptable]
    (upd_proc p (set_p_state SLEEPING) (upd_proc p (set_p_chan ch) s)).

Lemma sched_switch {A} p s :
  k_cur s = Some p -> k_held s = [L_ptable] -> p_state (procs s p) <> RUNNING ->
  sched (A := A) s = Switch s.
Proof.
  intros Hc Hh Hst. unfold sched, curproc, myproc. mrun. rewrite Hc. mrun.
  unfold holding, ncli. rewrite Hh. simpl. mrun. rewrite Hh. simpl. mrun.
  rewrite decide_False by done. done.
Qed.

Lemma sleep_switch {A} ch lk p s :
  k_cur s = Some p -> (p < length (k_proc s))%nat ->
  k_held s = [lk] -> lk <> L_ptable ->
  sleep (A := A) ch (Some lk) s = Switch (asleep p ch s).
Proof.
  intros Hc Hp Hh Hlk. unfold sleep, myproc. mrun. rewrite Hc.
  rewrite decide_False by done. mrun.
  assert (Hn : L_ptable ∉ k_held s) by (rewrite Hh; set_solver).
  mstep (acquire_ok _ _ Hn).
  assert (Hr : release lk (set_k_held (L_ptable :: k_held s) s)
             = Ret tt (set_k_held [L_ptable] s)).
  { unfold release. mrun. unfold holding. simpl. rewrite Hh.
    rewrite bool_decide_eq_true_2 by set_solver. unfold modify. simpl.
    rewrite filter_cons_True, filter_cons_False by (done || intros []; done).
    done. }
  mstep Hr. mrun. unfold asleep.
  rewrite (sched_switch p); try done.
  rewrite !procs_upd_eq by (autorewrite with kernel; done). done.
Qed.

(** Sleeping with a second lock held is caught by [sched]. *)
Lemma sleep_two_locks {A} ch lk l p s :
  k_cur s = Some p -> k_held s = [lk; l] -> lk <> L_ptable -> l <> L_ptable ->
  lk <> l ->
  exists s', sleep (A := A) ch (Some lk) s = Panic "sched locks" s'.
Proof.
  intros Hc Hh Hlk Hl Hne. unfold sleep, myproc. mrun. rewrite Hc.
  rewrite decide_False by done. mrun.
  assert (Hn : L_ptable ∉ k_held s) by (rewrite Hh; set_solver).
  mstep (acquire_ok _ _ Hn).
  assert (Hr : release lk (set_k_held (L_ptable :: k_held s) s)
             = Ret tt (set_k_held [L_ptable; l] s)).
  { unfold release. mrun. unfold holding. simpl. rewrite Hh.
    rewrite bool_decide_eq_true_2 by set_solver. unfold modify. simpl.
    rewrite filter_cons_True, filter_cons_False, filter_cons_True
      by (done || intros []; done). done. }
  mstep Hr. mrun. unfold sched, curproc, myproc. mrun.
  simpl. rewrite Hc. mrun. eexists. reflexivity.
Qed.

Lemma sched_never_returns {A} (a : A) s s' : sched s = Ret a s' -> False.
Proof.
  unfold sched, curproc, myproc. intros H.
  repeat (apply bind_inv in H as (? & ? & _ & H); try case_match; try done).
Qed.

Lemma sleep_never_returns {A} (a : A) ch lk s s' : sleep ch lk s = Ret a s' -> False.
Proof.
  unfold sleep, myproc. intros H. apply bind_inv in H as (? & ? & _ & H).
  destruct x as [p|]; [|done]. destruct lk as [lk|]; [|done].
  do 3 (apply bind_inv in H as (? & ? & _ & H)).
  by apply sched_never_returns in H.
Qed.

(** ** Frames: what the locks and the switch primitives leave alone *)

(** A part of the state that neither the locks held nor the process table
    determine. *)
Definition ind_locks {B} (f : kstate -> B) : Prop :=
  forall s h, f (set_k_held h s) = f s.
Definition ind_procs {B} (f : kstate -> B) : Prop :=
  forall s t, f (set_k_proc t s) = f s.

Lemma keeps_acquire {B} (f : kstate -> B) l : ind_locks f -> keeps f (acquire l).
Proof. intros H. unfold acquire. frame. apply keeps_modify. intros s. apply H. Qed.

Lemma keeps_release {B} (f : kstate -> B) l : ind_locks f -> keeps f (release l).
Proof. intros H. unfold release. frame. apply keeps_modify. intros s. apply H. Qed.

Lemma keeps_curproc {B} (f : kstate -> B) : keeps f curproc.
Proof. unfold curproc, myproc. frame. Qed.

Lemma keeps_sched {B A} (f : kstate -> B) : keeps f (sched (A := A)).
Proof. unfold sched, curproc, myproc. frame. Qed.

#[export] Hint Resolve keeps_acquire keeps_release keeps_curproc keeps_sched : frame.

Lemma keeps_upd_proc {B} (f : kstate -> B) p g :
  ind_procs f -> keeps f (modify (upd_proc p g)).
Proof. intros H. apply keeps_modify. intros s. apply H. Qed.

#[export] Hint Resolve keeps_upd_proc : frame.

Lemma keeps_sleep {B A} (f : kstate -> B) ch lk :
  ind_locks f -> ind_procs f -> keeps f (sleep (A := A) ch lk).
Proof. intros Hl Hp. unfold sleep, myproc. frame. Qed.

Lemma keeps_wakeup {B} (f : kstate -> B) ch :
  ind_locks f -> ind_procs f -> keeps f (wakeup ch).
Proof.
  intros Hl Hp. unfold wakeup, wakeup1. frame.
  apply keeps_modify. intros s. apply Hp.
Qed.

#[export] Hint Resolve keeps_sleep keeps_wakeup : frame.
#[export] Hint Extern 1 (ind_locks _) => (intros ? ?; reflexivity) : frame.
#[export] Hint Extern 1 (ind_procs _) => (intros ? ?; reflexivity) : frame.

(** ** Sleep and wake-up *)


