(* ===== verification/Spinlock.v ===== *)
(** Spinlocks, spinlock.c, on a machine with any number of CPUs.

    The rest of the development sees locks from one CPU, as the list of those
    it holds (Sched.v).  Here [acquire], [release], [holding], [pushcli] and
    [popcli] are modelled by the memory accesses they make, which the CPUs
    interleave: [holding] reads [locked] and [cpu] in two steps, [acquire]
    exchanges [locked] and only then records the CPU.  The theorem is that
    every interleaving behaves as if each CPU worked on its own list.

    Memory is sequentially consistent ([xchg] and [__sync_synchronize] are
    there to make it so), and the call stack recorded in [pcs] for debugging
    is left out. *)

From stdpp Require Import base list sets strings.
From Stdlib Require Import ZArith Lia.
From S2P Require Import Prelude State Sched.

Open Scope Z_scope.

(** ** The machine *)

Record spinlock : Type := mk_spinlock { locked : bool; lcpu : option nat }.

(** Where a CPU is: outside the functions of this file, in one of them with
    its next memory access, or stopped by [panic]. *)
Inductive pc : Type :=
| Outside
| AcqHolding (l : lockid)     (* in acquire: holding reads lk->locked *)
| AcqHolding2 (l : lockid)    (* in acquire: holding reads lk->cpu *)
| AcqXchg (l : lockid)        (* in acquire: xchg *)
| AcqRecord (l : lockid)      (* in acquire: lk->cpu = mycpu() *)
| RelHolding (l : lockid)     (* in release: holding reads lk->locked *)
| RelHolding2 (l : lockid)    (* in release: holding reads lk->cpu *)
| RelClear (l : lockid)       (* in release: lk->cpu = 0 *)
| RelUnlock (l : lockid)      (* in release: lk->locked = 0 *)
| RelPop                      (* in release: popcli *)
| Panicked (msg : string).

(** The parts of [struct cpu] used here, and the interrupt flag. *)
Record cpu : Type := mk_cpu { c_pc : pc; c_ncli : Z; c_intena : bool; c_if : bool }.

Record machine : Type := mk_machine { m_locks : lockid -> spinlock; m_cpus : nat -> cpu }.

Definition set_pc (p : pc) (c : cpu) : cpu := mk_cpu p (c_ncli c) (c_intena c) (c_if c).

Definition pushcli (c : cpu) : cpu :=
  mk_cpu (c_pc c) (c_ncli c + 1)
    (if c_ncli c =? 0 then c_if c else c_intena c) false.

Definition popcli (c : cpu) : cpu :=
  if c_if c then set_pc (Panicked "popcli - interruptible") c else
  let n := c_ncli c - 1 in
  if n <? 0 then mk_cpu (Panicked "popcli") n (c_intena c) (c_if c) else
  mk_cpu (c_pc c) n (c_intena c) (if (n =? 0) && c_intena c then true else c_if c).

(** [popcli] followed by going to [p], unless it panicked. *)
Definition popcli_to (p : pc) (c : cpu) : cpu :=
  match c_pc (popcli c) with Panicked _ => popcli c | _ => set_pc p (popcli c) end.

Definition set_cpu (i : nat) (c : cpu) (m : machine) : machine :=
  mk_machine (m_locks m) (fun j => if decide (j = i) then c else m_cpus m j).
Definition set_lock (l : lockid) (lk : spinlock) (m : machine) : machine :=
  mk_machine (fun k => if decide (k = l) then lk else m_locks m k) (m_cpus m).

(** What a step decides: the lock changed hands, or a caller was caught. *)
Inductive event : Type :=
| Acquired (i : nat) (l : lockid)
| Released (i : nat) (l : lockid)
| BadAcquire (i : nat) (l : lockid)
| BadRelease (i : nat) (l : lockid).

(** The next access of CPU [i] inside the functions; [None] when it is
    outside or stopped. *)
Definition cpu_step (i : nat) (m : machine) : option (machine * option event) :=
  let c := m_cpus m i in
  match c_pc c with
  | Outside | Panicked _ => None
  | AcqHolding l =>
    Some (if locked (m_locks m l) then (set_cpu i (set_pc (AcqHolding2 l) (pushcli c)) m, None)
          else (set_cpu i (popcli_to (AcqXchg l) (pushcli c)) m, None))
  | AcqHolding2 l =>
    Some (if decide (lcpu (m_locks m l) = Some i)
          then (set_cpu i (popcli_to (Panicked "acquire") c) m, Some (BadAcquire i l))
          else (set_cpu i (popcli_to (AcqXchg l) c) m, None))
  | AcqXchg l =>
    let m' := set_lock l (mk_spinlock true (lcpu (m_locks m l))) m in
    Some (if locked (m_locks m l) then (m', None)
          else (set_cpu i (set_pc (AcqRecord l) c) m', Some (Acquired i l)))
  | AcqRecord l =>
    Some (set_cpu i (set_pc Outside c)
            (set_lock l (mk_spinlock (locked (m_locks m l)) (Some i)) m), None)
  | RelHolding l =>
    Some (if locked (m_locks m l) then (set_cpu i (set_pc (RelHolding2 l) (pushcli c)) m, None)
          else (set_cpu i (popcli_to (Panicked "release") (pushcli c)) m, Some (BadRelease i l)))
  | RelHolding2 l =>
    Some (if decide (lcpu (m_locks m l) = Some i)
          then (set_cpu i (popcli_to (RelClear l) c) m, None)
          else (set_cpu i (popcli_to (Panicked "release") c) m, Some (BadRelease i l)))
  | RelClear l =>
    Some (set_cpu i (set_pc (RelUnlock l) c)
            (set_lock l (mk_spinlock (locked (m_locks m l)) None) m), None)
  | RelUnlock l =>
    Some (set_cpu i (set_pc RelPop c)
            (set_lock l (mk_spinlock false (lcpu (m_locks m l))) m), Some (Released i l))
  | RelPop => Some (set_cpu i (popcli_to Outside c) m, None)
  end.

(** A CPU outside may call either function, and the kernel may enable or
    disable interrupts where it holds no lock. *)
Inductive step : machine -> option event -> machine -> Prop :=
| step_inside i m m' e : cpu_step i m = Some (m', e) -> step m e m'
| step_acquire i l m : c_pc (m_cpus m i) = Outside ->
    step m None (set_cpu i (set_pc (AcqHolding l) (pushcli (m_cpus m i))) m)
| step_release i l m : c_pc (m_cpus m i) = Outside ->
    step m None (set_cpu i (set_pc (RelHolding l) (m_cpus m i)) m)
| step_flag i b m : c_pc (m_cpus m i) = Outside -> c_ncli (m_cpus m i) = 0 ->
    step m None (set_cpu i (mk_cpu Outside 0 (c_intena (m_cpus m i)) b) m).

(** Runs, with the events in order. *)
Inductive run : machine -> list event -> machine -> Prop :=
| run_nil m : run m [] m
| run_snoc m tr m' e m'' : run m tr m' -> step m' e m'' -> run m (tr ++ option_list e) m''.

(** After [initlock] of every lock, no CPU holding any. *)
Definition initlock : spinlock := mk_spinlock false None.

Definition initial (m : machine) : Prop :=
  (forall l, m_locks m l = initlock) /\
  (forall i, c_pc (m_cpus m i) = Outside /\ c_ncli (m_cpus m i) = 0).

(** ** The specification: each CPU has a list of the locks it holds *)

Definition upd_held (i : nat) (x : list lockid) (h : nat -> list lockid) : nat -> list lockid :=
  fun j => if decide (j = i) then x else h j.

Inductive spec_step : (nat -> list lockid) -> event -> (nat -> list lockid) -> Prop :=
| spec_acquired h i l : (forall j, l ∉ h j) ->
    spec_step h (Acquired i l) (upd_held i (l :: h i) h)
| spec_released h i l : l ∈ h i ->
    spec_step h (Released i l) (upd_held i (filter (.≠ l) (h i)) h)
| spec_bad_acquire h i l : l ∈ h i -> spec_step h (BadAcquire i l) h
| spec_bad_release h i l : l ∉ h i -> spec_step h (BadRelease i l) h.

Inductive spec_run : (nat -> list lockid) -> list event -> (nat -> list lockid) -> Prop :=
| spec_nil h : spec_run h [] h
| spec_snoc h tr h' e h'' : spec_run h tr h' -> spec_step h' e h'' -> spec_run h (tr ++ [e]) h''.

(** ** The simulation *)

(** CPU [i] is between the exchange that took [l] and the store that frees it. *)
Definition in_cs (m : machine) (i : nat) (l : lockid) : Prop :=
  lcpu (m_locks m l) = Some i \/ c_pc (m_cpus m i) = AcqRecord l \/
  c_pc (m_cpus m i) = RelUnlock l.

(** [pushcli]s that are not for a lock held. *)
Definition extra (p : pc) : Z :=
  match p with
  | AcqHolding _ | AcqXchg _ | RelHolding2 _ | RelPop => 1
  | AcqHolding2 _ => 2
  | _ => 0
  end.

Definition pc_ok (p : pc) (h : list lockid) : Prop :=
  match p with AcqXchg l => l ∉ h | RelClear l => l ∈ h | _ => True end.

Definition cpu_ok (h : list lockid) (c : cpu) : Prop :=
  match c_pc c with
  | Panicked msg => msg = "acquire" \/ msg = "release"
  | p => c_ncli c = Z.of_nat (length h) + extra p /\ (0 < c_ncli c -> c_if c = false) /\ pc_ok p h
  end.

Definition transit (p : pc) : bool :=
  match p with AcqRecord _ | RelUnlock _ => true | _ => false end.

Record sim (m : machine) (h : nat -> list lockid) : Prop := {
  sim_cs : forall i l, l ∈ h i <-> in_cs m i l;
  sim_nodup : forall i, NoDup (h i);
  sim_excl : forall i j l, l ∈ h i -> l ∈ h j -> i = j;
  sim_locked : forall l, locked (m_locks m l) = true <-> exists i, l ∈ h i;
  sim_none : forall i l, c_pc (m_cpus m i) = AcqRecord l \/ c_pc (m_cpus m i) = RelUnlock l ->
    lcpu (m_locks m l) = None;
  sim_cpu : forall i, cpu_ok (h i) (m_cpus m i) }.

Lemma cpu_set_eq i c m : m_cpus (set_cpu i c m) i = c.
Proof. simpl. by rewrite decide_True. Qed.

Lemma cpu_set_ne i j c m : j <> i -> m_cpus (set_cpu i c m) j = m_cpus m j.
Proof. intros. simpl. by rewrite decide_False. Qed.

Lemma lock_set_eq l lk m : m_locks (set_lock l lk m) l = lk.
Proof. simpl. by rewrite decide_True. Qed.

Lemma lock_set_ne l k lk m : k <> l -> m_locks (set_lock l lk m) k = m_locks m k.
Proof. intros. simpl. by rewrite decide_False. Qed.

(** A step of CPU [i] that touches no lock. *)
Lemma sim_local i c m h :
  sim m h -> transit (c_pc (m_cpus m i)) = false -> transit (c_pc c) = false ->
  cpu_ok (h i) c -> sim (set_cpu i c m) h.
Proof.
  intros [Hcs Hnd Hex Hlk Hno Hcpu] Ht Ht' Hok.
  assert (forall j p, (p = c_pc (m_cpus (set_cpu i c m) j)) ->
    transit p = true -> p = c_pc (m_cpus m j)) as Hpc.
  { intros j p -> Hp. destruct (decide (j = i)) as [->|].
    - rewrite cpu_set_eq in Hp. congruence.
    - by rewrite cpu_set_ne. }
  split; try done.
  - intros j l. rewrite Hcs. unfold in_cs. change (m_locks (set_cpu i c m)) with (m_locks m).
    destruct (decide (j = i)) as [->|]; [|by rewrite cpu_set_ne].
    rewrite cpu_set_eq. split; intros [?|[E|E]]; try (by left);
      rewrite E in *; done.
  - intros j l Hj. apply (Hno j). destruct Hj as [E|E]; [left|right]; symmetry; by apply Hpc.
  - intros j. destruct (decide (j = i)) as [->|]; [by rewrite cpu_set_eq|by rewrite cpu_set_ne].
Qed.

(** The interrupt counter. *)
Lemma popcli_spec c :
  c_if c = false -> 0 < c_ncli c ->
  popcli c = mk_cpu (c_pc c) (c_ncli c - 1) (c_intena c) ((c_ncli c - 1 =? 0) && c_intena c).
Proof.
  intros Hi Hn. unfold popcli. rewrite Hi. destruct (Z.ltb_spec (c_ncli c - 1) 0); [lia|].
  f_equal. by destruct ((c_ncli c - 1 =? 0) && c_intena c).
Qed.

Lemma popcli_to_spec p c :
  c_if c = false -> 0 < c_ncli c -> (forall msg, c_pc c <> Panicked msg) ->
  exists b, popcli_to p c = mk_cpu p (c_ncli c - 1) (c_intena c) b /\
    (0 < c_ncli c - 1 -> b = false).
Proof.
  intros Hi Hn Hp. unfold popcli_to. rewrite popcli_spec by done. cbn [c_pc].
  eexists. split; [destruct (c_pc c); [done..|]; by destruct (Hp msg)|].
  intros. by destruct (Z.eqb_spec (c_ncli c - 1) 0); [lia|].
Qed.

Lemma popcli_to_ok h p c :
  c_if c = false -> 0 < c_ncli c -> (forall msg, c_pc c <> Panicked msg) ->
  match p with
  | Panicked msg => msg = "acquire" \/ msg = "release"
  | _ => c_ncli c = Z.of_nat (length h) + extra p + 1 /\ pc_ok p h
  end ->
  cpu_ok h (popcli_to p c) /\ c_pc (popcli_to p c) = p.
Proof.
  intros Hi Hn Hc Hp. destruct (popcli_to_spec p c Hi Hn Hc) as (b & -> & Hb).
  unfold cpu_ok. cbn [c_pc c_ncli c_if]. split; [|done].
  destruct p; simpl in *; try done; destruct Hp; split_and!; auto; lia.
Qed.

(** ** Steps *)

(** Membership after a step of CPU [i] on lock [l]. *)
Lemma upd_held_eq i x h : upd_held i x h i = x.
Proof. unfold upd_held. by rewrite decide_True. Qed.

Lemma upd_held_ne i j x h : j <> i -> upd_held i x h j = h j.
Proof. intros. unfold upd_held. by rewrite decide_False. Qed.

Lemma sim_free l m h : sim m h -> locked (m_locks m l) = false ->
  (forall j, l ∉ h j) /\ lcpu (m_locks m l) = None.
Proof.
  intros Hs Hl. assert (forall j, l ∉ h j) as Hn.
  { intros j Hj. assert (locked (m_locks m l) = true); [|congruence].
    apply (sim_locked _ _ Hs). by exists j. }
  split; [done|]. destruct (lcpu (m_locks m l)) as [j|] eqn:E; [|done].
  destruct (Hn j). apply (sim_cs _ _ Hs). by left.
Qed.

Lemma sim_acquired i l m h :
  sim m h -> c_pc (m_cpus m i) = AcqXchg l -> locked (m_locks m l) = false ->
  sim (set_cpu i (set_pc (AcqRecord l) (m_cpus m i))
        (set_lock l (mk_spinlock true (lcpu (m_locks m l))) m))
    (upd_held i (l :: h i) h).
Proof.
  intros Hs Epc Hl. destruct (sim_free l m h Hs Hl) as [Hn Hc].
  pose proof (sim_cpu _ _ Hs i) as Hok. unfold cpu_ok in Hok. rewrite Epc in Hok.
  destruct Hs as [Hcs Hnd Hex Hlk Hno Hcpu]. split.
  - intros j k. unfold in_cs, upd_held. simpl.
    specialize (Hcs j k). unfold in_cs in Hcs. pose proof (Hn j).
    destruct (decide (j = i)) as [->|], (decide (k = l)) as [->|]; simpl;
      rewrite ?Hc, ?Epc in *; set_solver.
  - intros j. unfold upd_held. case_decide; [|done]. constructor; [apply Hn|apply Hnd].
  - intros j j' k. unfold upd_held. pose proof (Hn j). pose proof (Hn j').
    repeat case_decide; subst; rewrite ?elem_of_cons; try done; intros.
    + destruct_or!; subst; try done. by eapply Hex.
    + destruct_or!; subst; try done. by eapply Hex.
    + by eapply Hex.
  - intros k. simpl. destruct (decide (k = l)) as [->|]; simpl.
    + split; [|done]. intros _. exists i. rewrite upd_held_eq. by left.
    + rewrite Hlk. unfold upd_held. split; intros [j Hj]; exists j; case_decide; set_solver.
  - intros j k. simpl. destruct (decide (j = i)) as [->|]; simpl.
    + intros [E|E]; [|done]. injection E as ->. by rewrite decide_True.
    + intros Hj. specialize (Hno _ _ Hj). by destruct (decide (k = l)) as [->|].
  - intros j. simpl. unfold upd_held. case_decide; [|apply Hcpu]. subst.
    unfold cpu_ok. simpl in *. destruct Hok as (? & ? & ?). split_and!; try done. lia.
Qed.

Lemma sim_recorded i l m h :
  sim m h -> c_pc (m_cpus m i) = AcqRecord l ->
  sim (set_cpu i (set_pc Outside (m_cpus m i))
        (set_lock l (mk_spinlock (locked (m_locks m l)) (Some i)) m)) h.
Proof.
  intros Hs Epc. pose proof (sim_cpu _ _ Hs i) as Hok. unfold cpu_ok in Hok. rewrite Epc in Hok.
  pose proof (sim_none _ _ Hs i l (or_introl Epc)) as Hc.
  assert (l ∈ h i) as Hi by (apply (sim_cs _ _ Hs); right; by left).
  destruct Hs as [Hcs Hnd Hex Hlk Hno Hcpu]. split; try done.
  - intros j k. rewrite Hcs. unfold in_cs. simpl.
    destruct (decide (j = i)) as [->|]; destruct (decide (k = l)) as [->|]; simpl;
      rewrite ?Epc, ?Hc; [naive_solver..| |naive_solver].
    split; [|naive_solver]. intros [?|Hj]; [done|].
    destruct (Hex i j l); [done| |done]. apply Hcs. by right.
  - intros k. rewrite <- Hlk. simpl. by destruct (decide (k = l)) as [->|].
  - intros j k. simpl. destruct (decide (j = i)) as [->|]; simpl; [naive_solver|].
    intros Hj. specialize (Hno _ _ Hj). destruct (decide (k = l)) as [->|]; [|done].
    destruct (Hex i j l); [done| |done]. apply Hcs. by right.
  - intros j. simpl. case_decide; [|apply Hcpu]. subst. exact Hok.
Qed.

Lemma sim_cleared i l m h :
  sim m h -> c_pc (m_cpus m i) = RelClear l ->
  sim (set_cpu i (set_pc (RelUnlock l) (m_cpus m i))
        (set_lock l (mk_spinlock (locked (m_locks m l)) None) m)) h.
Proof.
  intros Hs Epc. pose proof (sim_cpu _ _ Hs i) as Hok. unfold cpu_ok in Hok. rewrite Epc in Hok.
  destruct Hok as (Hn & Hf & Hi). simpl in Hi.
  destruct Hs as [Hcs Hnd Hex Hlk Hno Hcpu]. split; try done.
  - intros j k. rewrite Hcs. unfold in_cs. simpl.
    destruct (decide (j = i)) as [->|]; destruct (decide (k = l)) as [->|]; simpl;
      rewrite ?Epc; [|naive_solver| |naive_solver].
    + apply Hcs in Hi. unfold in_cs in Hi. rewrite Epc in Hi. naive_solver.
    + split; [|naive_solver]. intros [E|Hj]; [|by right].
      destruct (Hex i j l); [done| |done]. apply Hcs. by left.
  - intros k. rewrite <- Hlk. simpl. by destruct (decide (k = l)) as [->|].
  - intros j k. simpl. destruct (decide (j = i)) as [->|]; simpl.
    + intros [E|E]; [done|]. injection E as ->. by rewrite decide_True.
    + intros Hj. specialize (Hno _ _ Hj). by destruct (decide (k = l)) as [->|].
  - intros j. simpl. case_decide; [|apply Hcpu]. subst. done.
Qed.

Lemma length_filter_ne (l : lockid) h :
  NoDup h -> l ∈ h -> S (length (filter (.≠ l) h)) = length h.
Proof.
  intros Hnd Hl. induction Hnd as [|k h Hk Hnd IH]; [by apply elem_of_nil in Hl|].
  rewrite filter_cons. case_decide as Hd; simpl.
  - rewrite IH; [done|]. set_solver.
  - assert (k = l) as -> by (by destruct (decide (k = l))).
    by rewrite filter_not_in.
Qed.

Lemma sim_released i l m h :
  sim m h -> c_pc (m_cpus m i) = RelUnlock l ->
  sim (set_cpu i (set_pc RelPop (m_cpus m i))
        (set_lock l (mk_spinlock false (lcpu (m_locks m l))) m))
    (upd_held i (filter (.≠ l) (h i)) h).
Proof.
  intros Hs Epc. pose proof (sim_cpu _ _ Hs i) as Hok. unfold cpu_ok in Hok. rewrite Epc in Hok.
  pose proof (sim_none _ _ Hs i l (or_intror Epc)) as Hc.
  assert (l ∈ h i) as Hi by (apply (sim_cs _ _ Hs); right; by right).
  destruct Hs as [Hcs Hnd Hex Hlk Hno Hcpu].
  assert (forall j, j <> i -> l ∉ h j) as Hoth by (intros j Hj Hl; by destruct Hj; eapply Hex).
  split.
  - intros j k. unfold in_cs, upd_held. simpl. pose proof (Hcs j k) as Hjk.
    unfold in_cs in Hjk. destruct (decide (j = i)) as [->|Hj]; simpl.
    + rewrite list_elem_of_filter, Hjk, Epc. destruct (decide (k = l)) as [->|]; simpl;
        rewrite ?Hc; naive_solver.
    + rewrite Hjk. destruct (decide (k = l)) as [->|]; simpl; naive_solver.
  - intros j. unfold upd_held. case_decide; [|done]. by apply NoDup_filter.
  - intros j j' k Hj Hj'. apply (Hex j j' k).
    + revert Hj. unfold upd_held. case_decide; [|done]. subst. rewrite list_elem_of_filter. tauto.
    + revert Hj'. unfold upd_held. case_decide; [|done]. subst. rewrite list_elem_of_filter. tauto.
  - intros k. unfold upd_held. simpl. destruct (decide (k = l)) as [->|]; simpl.
    + split; [done|]. intros [j Hj]. case_decide as Hd; [|by destruct (Hoth j Hd)].
      apply list_elem_of_filter in Hj. tauto.
    + rewrite Hlk. split; intros [j Hj]; exists j; case_decide; subst;
        try apply list_elem_of_filter; try done. apply list_elem_of_filter in Hj. tauto.
  - intros j k. simpl. destruct (decide (j = i)) as [->|]; simpl; [naive_solver|].
    intros Hj. specialize (Hno _ _ Hj). by destruct (decide (k = l)) as [->|].
  - intros j. simpl. unfold upd_held. case_decide; [|apply Hcpu]. subst.
    pose proof (length_filter_ne l (h i) (Hnd i) Hi). unfold cpu_ok. simpl in *.
    destruct Hok as (? & ? & ?). split_and!; try done. lia.
Qed.

Lemma cpu_push h c p :
  c_ncli c = Z.of_nat (length h) + extra p - 1 -> 0 <= c_ncli c ->
  (forall msg, p <> Panicked msg) -> pc_ok p h -> cpu_ok h (set_pc p (pushcli c)).
Proof.
  intros Hn H0 Hp Hok. unfold cpu_ok. simpl.
  destruct p; try done; simpl in *; first [by destruct (Hp msg)|split_and!; [lia|done..]].
Qed.

(** The CPU as [holding] left it when it does not hold the lock. *)
Lemma in_cs_lcpu i l m h :
  sim m h -> transit (c_pc (m_cpus m i)) = false -> l ∈ h i <-> lcpu (m_locks m l) = Some i.
Proof.
  intros Hs Ht. rewrite (sim_cs _ _ Hs). unfold in_cs. split; [|by left].
  intros [?|[E|E]]; [done|rewrite E in Ht; done..].
Qed.

(** A step inside the functions either keeps the lists or does to them what
    its event says. *)
Definition simulates (h : nat -> list lockid) (m' : machine) (e : option event) : Prop :=
  match e with
  | None => sim m' h
  | Some e => exists h', spec_step h e h' /\ sim m' h'
  end.

(** Ending [holding] with [popcli]. *)
Lemma sim_popcli i p c m h :
  sim m h -> transit (c_pc (m_cpus m i)) = false -> transit p = false ->
  c_if c = false -> 0 < c_ncli c -> (forall msg, c_pc c <> Panicked msg) ->
  match p with
  | Panicked msg => msg = "acquire" \/ msg = "release"
  | _ => c_ncli c = Z.of_nat (length (h i)) + extra p + 1 /\ pc_ok p (h i)
  end -> sim (set_cpu i (popcli_to p c) m) h.
Proof.
  intros Hs Ht Hp Hif Hn Hc Hok. destruct (popcli_to_ok (h i) p c Hif Hn Hc Hok) as [Ho E].
  apply sim_local; try done. by rewrite E.
Qed.

Lemma sim_acquire_step i m m' e h :
  sim m h -> cpu_step i m = Some (m', e) ->
  (exists l, c_pc (m_cpus m i) = AcqHolding l \/ c_pc (m_cpus m i) = AcqHolding2 l \/
     c_pc (m_cpus m i) = AcqXchg l \/ c_pc (m_cpus m i) = AcqRecord l) ->
  simulates h m' e.
Proof.
  intros Hs Hstep (l & Hpc). pose proof (sim_cpu _ _ Hs i) as Hc.
  unfold cpu_step, cpu_ok in *.
  destruct Hpc as [Epc|[Epc|[Epc|Epc]]]; rewrite Epc in Hc, Hstep; destruct Hc as (Hn & Hf & Hok);
    simpl in Hn, Hok.
  - destruct (locked (m_locks m l)) eqn:El; simplify_eq; simpl.
    + apply sim_local; [done|by rewrite Epc|done|]. apply cpu_push; simpl; done || lia.
    + apply sim_popcli; simpl; try done; try by rewrite Epc. { lia. }
      split; [lia|]. by apply (sim_free _ _ _ Hs El).
  - assert (l ∈ h i <-> lcpu (m_locks m l) = Some i) as Hin
      by (eapply in_cs_lcpu; [done|by rewrite Epc]).
    destruct (decide (lcpu (m_locks m l) = Some i)) as [E|E]; simplify_eq; simpl.
    + exists h. split; [constructor; by apply Hin|].
      apply sim_popcli; simpl; try done; try (by rewrite Epc); try lia; auto with lia.
    + apply sim_popcli; simpl; try done; try (by rewrite Epc); try lia; [auto with lia|].
      split; [lia|]. by rewrite Hin.
  - destruct (locked (m_locks m l)) eqn:El; simplify_eq; simpl.
    + destruct Hs as [Hcs Hnd Hex Hlk Hno Hcpu].
      assert (forall k, m_locks (set_lock l (mk_spinlock true (lcpu (m_locks m l))) m) k =
        m_locks m k) as Heq.
      { intros k. simpl. case_decide; [|done]. subst. rewrite <- El. by destruct (m_locks m l). }
      split; try done; intros; unfold in_cs; rewrite ?Heq; auto. by eapply Hno.
    + exists (upd_held i (l :: h i) h). split; [|by apply sim_acquired].
      constructor. by apply (sim_free _ _ _ Hs El).
  - simplify_eq. simpl. by apply sim_recorded.
Qed.

Lemma sim_release_step i m m' e h :
  sim m h -> cpu_step i m = Some (m', e) ->
  c_pc (m_cpus m i) = RelPop \/
  (exists l, c_pc (m_cpus m i) = RelHolding l \/ c_pc (m_cpus m i) = RelHolding2 l \/
     c_pc (m_cpus m i) = RelClear l \/ c_pc (m_cpus m i) = RelUnlock l) ->
  simulates h m' e.
Proof.
  intros Hs Hstep Hpc. pose proof (sim_cpu _ _ Hs i) as Hc.
  unfold cpu_step, cpu_ok in *.
  destruct Hpc as [Epc|[l [Epc|[Epc|[Epc|Epc]]]]]; rewrite Epc in Hc, Hstep;
    destruct Hc as (Hn & Hf & Hok); simpl in Hn, Hok.
  - simplify_eq. simpl. apply sim_popcli; simpl; try done; try (by rewrite Epc); try lia;
      auto with lia.
  - destruct (locked (m_locks m l)) eqn:El; simplify_eq; simpl.
    + apply sim_local; [done|by rewrite Epc|done|]. apply cpu_push; simpl; done || lia.
    + exists h. split; [constructor; by apply (sim_free _ _ _ Hs El)|].
      apply sim_popcli; simpl; try done; try (by rewrite Epc); [lia|by right].
  - assert (l ∈ h i <-> lcpu (m_locks m l) = Some i) as Hin
      by (eapply in_cs_lcpu; [done|by rewrite Epc]).
    destruct (decide (lcpu (m_locks m l) = Some i)) as [E|E]; simplify_eq; simpl.
    + apply sim_popcli; simpl; try done; try (by rewrite Epc); try lia; [auto with lia|].
      split; [lia|]. by apply Hin.
    + exists h. split; [constructor; by rewrite Hin|].
      apply sim_popcli; simpl; try done; try (by rewrite Epc); try lia; auto with lia.
  - simplify_eq. simpl. by apply sim_cleared.
  - simplify_eq. simpl. exists (upd_held i (filter (.≠ l) (h i)) h).
    split; [|by apply sim_released]. constructor. apply (sim_cs _ _ Hs). right. by right.
Qed.

Lemma sim_step m e m' h : sim m h -> step m e m' -> simulates h m' e.
Proof.
  intros Hs Hst. destruct Hst as [i m m' e Hc|i l m Hp|i l m Hp|i b m Hp Hz].
  - destruct (c_pc (m_cpus m i)) eqn:Epc; try by (unfold cpu_step in Hc; rewrite Epc in Hc).
    1-4: apply (sim_acquire_step i m m' e h Hs Hc); naive_solver.
    all: apply (sim_release_step i m m' e h Hs Hc); naive_solver.
  - pose proof (sim_cpu _ _ Hs i) as Hc. unfold cpu_ok in Hc. rewrite Hp in Hc.
    destruct Hc as (Hn & _ & _). simpl in Hn.
    apply sim_local; [done|by rewrite Hp|done|]. apply cpu_push; simpl; done || lia.
  - pose proof (sim_cpu _ _ Hs i) as Hc. unfold cpu_ok in Hc. rewrite Hp in Hc.
    apply sim_local; [done|by rewrite Hp|done|exact Hc].
  - pose proof (sim_cpu _ _ Hs i) as Hc. unfold cpu_ok in Hc. rewrite Hp in Hc.
    destruct Hc as (Hn & _ & _).
    apply sim_local; [done|by rewrite Hp|done|]. unfold cpu_ok. simpl in *.
    split_and!; [lia|lia|done].
Qed.

Lemma sim_initial m : initial m -> sim m (fun _ => []).
Proof.
  intros [Hl Hc]. split.
  - intros i l. unfold in_cs. rewrite Hl, (proj1 (Hc i)). split; [by intros ?%elem_of_nil|].
    intros [?|[?|?]]; done.
  - intros. constructor.
  - intros i j l ?%elem_of_nil. done.
  - intros l. rewrite Hl. split; [done|]. by intros [? ?%elem_of_nil].
  - intros i l. by rewrite Hl.
  - intros i. unfold cpu_ok. destruct (Hc i) as [-> ->]. simpl. split_and!; [done|lia|done].
Qed.

Lemma run_sim m0 tr m : initial m0 -> run m0 tr m ->
  exists h, spec_run (fun _ => []) tr h /\ sim m h.
Proof.
  intros H0. induction 1 as [m|m tr m' e m'' _ IH Hst].
  { exists (fun _ => []). split; [constructor|by apply sim_initial]. }
  destruct (IH H0) as (h & Hr & Hs). pose proof (sim_step _ _ _ _ Hs Hst) as H.
  destruct e as [e|]; simpl in *.
  - destruct H as (h' & Hsp & Hs'). exists h'. split; [|done]. by eapply spec_snoc.
  - rewrite app_nil_r. by exists h.
Qed.

(** What [Sched.acquire] and [Sched.release] do to the list of the running CPU
    is what the specification does. *)
Lemma sched_agrees h i e h' s : spec_step h e h' -> k_held s = h i ->
  match e with
  | Acquired j l => j = i -> acquire l s = Ret tt (set_k_held (h' i) s)
  | Released j l => j = i -> release l s = Ret tt (set_k_held (h' i) s)
  | BadAcquire j l => j = i -> acquire l s = Panic "acquire" s
  | BadRelease j l => j = i -> release l s = Panic "release" s
  end.
Proof.
  intros Hsp Hh. destruct Hsp as [h j l Hl|h j l Hl|h j l Hl|h j l Hl]; intros ->.
  - rewrite acquire_ok by (rewrite Hh; apply Hl). by rewrite upd_held_eq, Hh.
  - rewrite upd_held_eq. unfold release, bind, gets, holding, modify.
    rewrite bool_decide_true by (by rewrite Hh). by rewrite Hh.
  - apply acquire_held. by rewrite Hh.
  - apply release_free. by rewrite Hh.
Qed.

(** C12: spinlocks provide mutual exclusion under every interleaving: the
    acquisitions, releases and panics of any run are those of CPUs that each
    keep a list of the locks they hold, as [Sched.acquire] and
    [Sched.release] do, no lock is ever in two lists, [holding] is never
    wrong though it reads the lock in two steps, and a CPU that is between
    calls has counted one [pushcli] per lock it holds and runs with interrupts
    off as long as it holds one. *)
Theorem spinlock_refines m0 tr m :
  initial m0 -> run m0 tr m ->
  exists h, spec_run (fun _ => []) tr h /\
    (forall i j l, l ∈ h i -> l ∈ h j -> i = j) /\
    (forall i, match c_pc (m_cpus m i) with
     | Outside => c_ncli (m_cpus m i) = Z.of_nat (length (h i)) /\
         (h i <> [] -> c_if (m_cpus m i) = false) /\
         forall l, (locked (m_locks m l) && bool_decide (lcpu (m_locks m l) = Some i)) =
           bool_decide (l ∈ h i)
     | Panicked msg => msg = "acquire" \/ msg = "release"
     | _ => True
     end).
Proof.
  intros H0 Hr. destruct (run_sim m0 tr m H0 Hr) as (h & Hsp & Hs). exists h.
  split; [done|]. split; [apply (sim_excl _ _ Hs)|]. intros i.
  pose proof (sim_cpu _ _ Hs i) as Hc. unfold cpu_ok in Hc.
  destruct (c_pc (m_cpus m i)) eqn:Epc; try done. destruct Hc as (Hn & Hf & _). simpl in Hn.
  split_and!; [lia| |].
  - intros Hne. apply Hf. destruct (h i); [done|]. simpl in Hn. lia.
  - intros l. pose proof (in_cs_lcpu i l m h Hs) as Hin. rewrite Epc in Hin.
    rewrite (bool_decide_ext _ _ (Hin eq_refl)).
    destruct (locked (m_locks m l)) eqn:El; [done|]. simpl. symmetry.
    apply bool_decide_eq_false. by rewrite (proj2 (sim_free _ _ _ Hs El)).
Qed.

(** Running a given schedule; actions that are not possible are skipped. *)
Inductive action : Type := Go (i : nat) | CallAcquire (i : nat) (l : lockid)
  | CallRelease (i : nat) (l : lockid).

Definition act (a : action) (m : machine) : option (machine * option event) :=
  match a with
  | Go i => cpu_step i m
  | CallAcquire i l =>
    match c_pc (m_cpus m i) with
    | Outside => Some (set_cpu i (set_pc (AcqHolding l) (pushcli (m_cpus m i))) m, None)
    | _ => None
    end
  | CallRelease i l =>
    match c_pc (m_cpus m i) with
    | Outside => Some (set_cpu i (set_pc (RelHolding l) (m_cpus m i)) m, None)
    | _ => None
    end
  end.

Fixpoint drive (sch : list action) (m : machine) (tr : list event) : machine * list event :=
  match sch with
  | [] => (m, tr)
  | a :: sch =>
    match act a m with
    | Some (m', e) => drive sch m' (tr ++ option_list e)
    | None => drive sch m tr
    end
  end.

Lemma drive_run m0 sch : forall m tr, run m0 tr m ->
  run m0 (drive sch m tr).2 (drive sch m tr).1.
Proof.
  induction sch as [|a sch IH]; intros m tr Hr; simpl; [done|].
  destruct (act a m) as [[m' e]|] eqn:E; [|by apply IH].
  apply IH. eapply run_snoc; [done|]. destruct a as [i|i l|i l]; simpl in E.
  - by eapply step_inside.
  - destruct (c_pc (m_cpus m i)) eqn:Ep; simplify_eq. by apply step_acquire.
  - destruct (c_pc (m_cpus m i)) eqn:Ep; simplify_eq. by apply step_release.
Qed.

(** Two CPUs: the second spins until the first releases the lock, then takes
    it, and is caught when it acquires it again. *)
Definition demo_machine : machine :=
  mk_machine (fun _ => initlock) (fun _ => mk_cpu Outside 0 false true).

Definition demo_schedule : list action :=
  [CallAcquire 0 L_kmem; Go 0; Go 0; CallAcquire 1 L_kmem; Go 1; Go 0; Go 1; Go 1; Go 1;
   CallRelease 0 L_kmem; Go 0; Go 0; Go 0; Go 1; Go 0; Go 1; Go 0; Go 1;
   CallAcquire 1 L_kmem; Go 1; Go 1].

Lemma spinlock_refines_witness :
  exists h, spec_run (fun _ => [])
      [Acquired 0 L_kmem; Released 0 L_kmem; Acquired 1 L_kmem; BadAcquire 1 L_kmem] h /\
    (forall i j l, l ∈ h i -> l ∈ h j -> i = j) /\
    (forall i, match c_pc (m_cpus (drive demo_schedule demo_machine []).1 i) with
     | Outside => c_ncli (m_cpus (drive demo_schedule demo_machine []).1 i) =
           Z.of_nat (length (h i)) /\
         (h i <> [] -> c_if (m_cpus (drive demo_schedule demo_machine []).1 i) = false) /\
         forall l, (locked (m_locks (drive demo_schedule demo_machine []).1 l) &&
             bool_decide (lcpu (m_locks (drive demo_schedule demo_machine []).1 l) = Some i)) =
           bool_decide (l ∈ h i)
     | Panicked msg => msg = "acquire" \/ msg = "release"
     | _ => True
     end).
Proof.
  apply (spinlock_refines demo_machine); [done|].
  exact (drive_run demo_machine demo_schedule demo_machine [] (run_nil _)).
Defined.
