(* ===== verification/Cons.v ===== *)
(** Console output, the first half of console.c: the screen, [consputc],
    [printint] and [cprintf].

    [k_out] collects the bytes sent to the serial port and [k_cga] is the
    screen.  [panic] is the [Panic] outcome; what it prints is not modelled. *)

From stdpp Require Import base list sets strings.
From Stdlib Require Import ZArith Lia.
From Stdlib Require Ascii String.
From S2P Require Import Prelude State Demo Sched.

Open Scope kernel_scope.

(** The bytes of a constant string. *)
Definition bytes_of (str : string) : list Z :=
  map (fun c => Z.of_N (Ascii.N_of_ascii c)) (String.list_ascii_of_string str).

(** ** The screen *)

Definition BACKSPACE : Z := 0x100.

(** The new cursor position and cells for a character. *)
Definition cga_char (c pos : Z) (mem : list Z) : Z * list Z :=
  if c =? 10 then (pos + (80 - pos mod 80), mem)
  else if c =? BACKSPACE then ((if 0 <? pos then pos - 1 else pos), mem)
  else (pos + 1, <[Z.to_nat pos := Z.lor (Z.land c 0xff) 0x0700]> mem).

(** Move rows 1 to 23 up and clear from the cursor to the end of row 23. *)
Definition cga_scroll (pos : Z) (mem : list Z) : Z * list Z :=
  let mem := splice 0 (take (23 * 80) (drop 80 mem)) mem in
  let pos := pos - 80 in
  (pos, splice (Z.to_nat pos) (replicate (Z.to_nat (24 * 80 - pos)) 0) mem).

Definition cgaputc (c : Z) : K unit :=
  g <- gets k_cga ;;
  let '(pos, mem) := cga_char c (cga_pos g) (cga_mem g) in
  if (pos <? 0) || (25 * 80 <? pos) then panic "pos under/overflow" else
  let '(pos, mem) := if 24 <=? pos / 80 then cga_scroll pos mem else (pos, mem) in
  modify (set_k_cga (mk_cga pos (<[Z.to_nat pos := Z.lor 32 0x0700]> mem))).

(** ** Characters *)

Definition uartputc (c : Z) : K unit :=
  modify (fun s => set_k_out (k_out s ++ [u8 c]) s).

Definition consputc (c : Z) : K unit :=
  panicked <- gets k_panicked ;;
  if (panicked : bool) then spin else
  (if c =? BACKSPACE then uartputc 8 ;;; uartputc 32 ;;; uartputc 8
   else uartputc c) ;;;
  cgaputc c.

(** ** Numbers *)

Definition digits : list Z := bytes_of "0123456789abcdef".

(** [do { buf[i++] = digits[x % base]; } while((x /= base) != 0)]: the digits,
    least significant first; 32 rounds are enough for a 32-bit number. *)
Fixpoint digit_loop (digits : list Z) (x base : Z) (fuel : nat) : list Z :=
  match fuel with
  | O => []
  | S fuel =>
    digits !!! Z.to_nat (x mod base) ::
    (if x / base =? 0 then [] else digit_loop digits (x / base) base fuel)
  end.

(** What [printint] prints, in order. *)
Definition int_chars (digits : list Z) (xx base : Z) (sign : bool) : list Z :=
  let neg := sign && (xx <? 0) in
  let x := if neg then u32 (- xx) else u32 xx in
  reverse (digit_loop digits x base 32 ++ (if neg then [45] else [])).

Definition printint (xx base : Z) (sign : bool) : K unit :=
  mfor consputc (int_chars digits xx base sign).

(** ** Formats *)

(** An argument of [cprintf]: a word, or a string ([None] for a null pointer). *)
Inductive parg : Type := PInt (x : Z) | PStr (str : option (list Z)).

Definition arg_int (a : option parg) : Z := match a with Some (PInt x) => x | _ => 0 end.
Definition arg_str (a : option parg) : list Z :=
  match a with Some (PStr (Some str)) => str | _ => bytes_of "(null)" end.

Fixpoint cprintf_loop (fmt : list Z) (args : list parg) : K unit :=
  match fmt with
  | [] => ret tt
  | c :: fmt =>
    if negb (c =? 37) then consputc c ;;; cprintf_loop fmt args else
    match fmt with
    | [] => ret tt
    | c :: fmt =>
      if c =? 100 then
        printint (arg_int (head args)) 10 true ;;; cprintf_loop fmt (tail args)
      else if (c =? 120) || (c =? 112) then
        printint (arg_int (head args)) 16 false ;;; cprintf_loop fmt (tail args)
      else if c =? 115 then
        mfor consputc (arg_str (head args)) ;;; cprintf_loop fmt (tail args)
      else if c =? 37 then consputc 37 ;;; cprintf_loop fmt args
      else consputc 37 ;;; consputc c ;;; cprintf_loop fmt args
    end
  end.

Definition cprintf (fmt : list Z) (args : list parg) : K unit :=
  locking <- gets k_locking ;;
  (if (locking : bool) then acquire L_cons else ret tt) ;;;
  cprintf_loop fmt args ;;;
  if (locking : bool) then release L_cons else ret tt.

(** [cprintf] of a line without conversions. *)
Definition cputs (str : string) : K unit := cprintf (bytes_of str ++ [10]) [].

(** [consoleclear] *)
Definition consoleclear : K unit :=
  acquire L_cons ;;;
  modify (fun s => set_k_cga (mk_cga 0
    (splice 0 (replicate (25 * 80) (Z.lor 32 0x0700)) (cga_mem (k_cga s)))) s) ;;;
  release L_cons.

(** ** The cursor stays on the screen *)

Definition cga_ok (g : cga) : Prop :=
  0 <= cga_pos g < 24 * 80 /\ length (cga_mem g) = (25 * 80)%nat.

#[export] Instance cga_ok_dec g : Decision (cga_ok g).
Proof. unfold cga_ok. apply _. Defined.

Lemma cgaputc_ok c s :
  cga_ok (k_cga s) -> exists g, cgaputc c s = Ret tt (set_k_cga g s) /\ cga_ok g.
Proof.
  intros [Hp Hl]. unfold cgaputc. mrun.
  destruct (cga_char c (cga_pos (k_cga s)) (cga_mem (k_cga s))) as [pos mem] eqn:E.
  assert (Hpos : 0 <= pos <= 24 * 80 /\ length mem = (25 * 80)%nat).
  { unfold cga_char in E. revert E.
    repeat case_match; intros E; injection E as <- <-; rewrite ?length_insert;
      split; try done; try lia.
    - pose proof (Z.div_mod (cga_pos (k_cga s)) 80). pose proof (Z.mod_pos_bound (cga_pos (k_cga s)) 80).
      assert (cga_pos (k_cga s) / 80 <= 23) by (apply Z.lt_succ_r, Z.div_lt_upper_bound; lia).
      lia. }
  destruct Hpos as [Hpos Hml]. zbool. cbn [orb].
  destruct (24 <=? pos / 80) eqn:Esc.
  - unfold cga_scroll. eexists. split; [reflexivity|]. split; cbn [cga_pos cga_mem].
    + assert (24 * 80 <= pos) by (apply Z.leb_le in Esc; pose proof (Z.mul_div_le pos 80); lia). lia.
    + rewrite length_insert, !length_splice; rewrite ?length_take, ?length_drop, ?length_replicate,
        ?length_splice; rewrite ?length_take, ?length_drop; lia.
  - eexists. split; [reflexivity|]. split; cbn [cga_pos cga_mem].
    + apply Z.leb_gt in Esc. pose proof (Z.div_mod pos 80). pose proof (Z.mod_pos_bound pos 80). lia.
    + by rewrite length_insert.
Qed.

(** What a character sends to the serial port. *)
Definition serial (c : Z) : list Z := if c =? BACKSPACE then [8; 32; 8] else [u8 c].

(** The characters a format stands for. *)
Fixpoint printed (fmt : list Z) (args : list parg) : list Z :=
  match fmt with
  | [] => []
  | c :: fmt =>
    if negb (c =? 37) then c :: printed fmt args else
    match fmt with
    | [] => []
    | c :: fmt =>
      if c =? 100 then int_chars digits (arg_int (head args)) 10 true ++ printed fmt (tail args)
      else if (c =? 120) || (c =? 112)
      then int_chars digits (arg_int (head args)) 16 false ++ printed fmt (tail args)
      else if c =? 115 then arg_str (head args) ++ printed fmt (tail args)
      else if c =? 37 then 37 :: printed fmt args
      else 37 :: c :: printed fmt args
    end
  end.

(** [m] prints the characters [cs]. *)
Definition prints (m : K unit) (cs : list Z) : Prop :=
  forall s, cga_ok (k_cga s) -> k_panicked s = false ->
  exists g, m s = Ret tt (set_k_out (k_out s ++ concat (map serial cs)) (set_k_cga g s)) /\
    cga_ok g.

Lemma prints_ret : prints (ret tt) [].
Proof.
  intros s Hg Hp. exists (k_cga s). simpl. rewrite app_nil_r. split; [|done].
  by destruct s.
Qed.

Lemma prints_bind m1 cs1 m2 cs2 :
  prints m1 cs1 -> prints m2 cs2 -> prints (m1 ;;; m2) (cs1 ++ cs2).
Proof.
  intros H1 H2 s Hg Hp. destruct (H1 s Hg Hp) as (g1 & E1 & Hg1). mstep E1.
  destruct (H2 (set_k_out (k_out s ++ concat (map serial cs1)) (set_k_cga g1 s)) Hg1 Hp) as (g2 & E2 & Hg2). exists g2. rewrite E2. split; [|done].
  kred. rewrite map_app, concat_app, app_assoc. done.
Qed.

Lemma prints_consputc c : prints (consputc c) [c].
Proof.
  intros s Hg Hp. unfold consputc. mrun. rewrite Hp. unfold serial, uartputc. simpl.
  rewrite app_nil_r. destruct (c =? BACKSPACE); mrun.
  - destruct (cgaputc_ok c (set_k_out (k_out s ++ [8; 32; 8]) s)) as (g & E & Hg'); [done|].
    kred. rewrite <- !app_assoc. simpl app. exists g. split; [|done]. apply E.
  - destruct (cgaputc_ok c (set_k_out (k_out s ++ [u8 c]) s)) as (g & E & Hg'); [done|].
    exists g. split; [|done]. apply E.
Qed.

Lemma prints_mfor cs : prints (mfor consputc cs) cs.
Proof.
  induction cs as [|c cs IH]; [apply prints_ret|]. cbn [mfor].
  apply (prints_bind _ [c]); [apply prints_consputc|done].
Qed.

Lemma prints_cprintf_loop n : forall fmt args,
  (length fmt <= n)%nat -> prints (cprintf_loop fmt args) (printed fmt args).
Proof.
  induction n as [|n IH]; intros fmt args Hn.
  { destruct fmt; [apply prints_ret|simpl in Hn; lia]. }
  destruct fmt as [|c fmt]; [apply prints_ret|]. simpl in Hn. cbn [cprintf_loop printed].
  destruct (negb (c =? 37)).
  { apply (prints_bind _ [c]); [apply prints_consputc|apply IH; lia]. }
  destruct fmt as [|c' fmt]; [apply prints_ret|]. simpl in Hn.
  repeat case_match;
    repeat first [ apply IH; simpl; lia
                 | apply prints_mfor
                 | apply (prints_bind _ [37])
                 | apply (prints_bind _ [c'])
                 | apply prints_bind
                 | apply prints_consputc ].
Qed.

Lemma cprintf_ok fmt args s :
  cga_ok (k_cga s) -> k_panicked s = false -> L_cons ∉ k_held s ->
  exists g, cprintf fmt args s =
      Ret tt (set_k_out (k_out s ++ concat (map serial (printed fmt args))) (set_k_cga g s)) /\
    cga_ok g.
Proof.
  intros Hg Hp Hl. unfold cprintf. mrun.
  pose proof (prints_cprintf_loop _ fmt args (le_n _)) as Hpr.
  destruct (k_locking s).
  - mstep (acquire_ok _ _ Hl). destruct (Hpr (set_k_held (L_cons :: k_held s) s) Hg Hp)
      as (g & E & Hg'). mstep E. exists g. split; [|done].
    rewrite (release_ok _ (k_held s)) by done. reflexivity.
  - mrun. destruct (Hpr s Hg Hp) as (g & E & Hg'). mstep E. exists g. by split.
Qed.

(** [cprintf] always returns: from a state where the console's lock is
    free and the cursor is on the screen it sends exactly the characters the
    format stands for to the serial port, keeps the cursor on the screen (so
    the panic in [cgaputc] is unreachable) and changes nothing else. *)
Theorem cprintf_prints fmt args s :
  cga_ok (k_cga s) -> k_panicked s = false -> L_cons ∉ k_held s ->
  exists g, cprintf fmt args s =
      Ret tt (set_k_out (k_out s ++ concat (map serial (printed fmt args))) (set_k_cga g s)) /\
    cga_ok g.
Proof. apply cprintf_ok. Qed.

Lemma cprintf_prints_witness :
  exists g, cprintf (bytes_of "%d: %x %s%%!") [PInt (-12); PInt 255; PStr None]
      (demo_kernel [] []) =
      Ret tt (set_k_out (bytes_of "-12: ff (null)%!") (set_k_cga g (demo_kernel [] []))) /\
    cga_ok g.
Proof.
  apply (cprintf_prints (bytes_of "%d: %x %s%%!") [PInt (-12); PInt 255; PStr None]
    (demo_kernel [] [])); by_eval.
Defined.

(** Printing with [cons.lock] held panics, because [cprintf] takes the
    lock again. *)
Lemma cprintf_locked fmt args s :
  k_locking s = true -> L_cons ∈ k_held s -> cprintf fmt args s = Panic "acquire" s.
Proof.
  intros Hk Hl. unfold cprintf. mrun. rewrite Hk. by mstep (acquire_held _ _ Hl).
Qed.
