(* ===== verification/Kalloc.v ===== *)
(** The physical page allocator, kalloc.c.

    The free list is threaded through the free pages themselves: the first
    word of a free page is the address of the next one.  [free_pages] relates
    the memory and [kmem.freelist] to the list of free pages. *)

From stdpp Require Import base list sets strings.
From Stdlib Require Import ZArith Lia.
From S2P Require Import Prelude State Demo CString Sched.

Open Scope kernel_scope.

(** ** Operations *)

(** Memory through a kernel pointer: the kernel maps physical memory at
    [KERNBASE]. *)
Definition load32 (v : Z) (s : kstate) : Z := read32 (k_mem s) (V2P v).
Definition store32 (v w : Z) (s : kstate) : kstate :=
  set_k_mem (write32 (k_mem s) (V2P v) w) s.
Definition kmemset (v c n : Z) (s : kstate) : kstate :=
  set_k_mem (memset (k_mem s) (V2P v) c n) s.

Definition set_freelist (r : Z) (s : kstate) : kstate :=
  set_k_kmem (set_km_freelist r (k_kmem s)) s.

Definition kfree (v : Z) : K unit :=
  e <- gets k_end ;;
  if negb (v mod PGSIZE =? 0) || (v <? e) || (PHYSTOP <=? V2P v)
  then panic "kfree" else
  (* Fill with junk to catch dangling refs. *)
  modify (kmemset v 1 PGSIZE) ;;;
  use_lock <- gets (fun s => km_use_lock (k_kmem s)) ;;
  when use_lock (acquire L_kmem) ;;;
  r <- gets (fun s => km_freelist (k_kmem s)) ;;
  modify (store32 v r) ;;;
  modify (set_freelist v) ;;;
  when use_lock (release L_kmem).

Definition kalloc : K Z :=
  use_lock <- gets (fun s => km_use_lock (k_kmem s)) ;;
  when use_lock (acquire L_kmem) ;;;
  r <- gets (fun s => km_freelist (k_kmem s)) ;;
  (if negb (r =? 0) then
     next <- gets (load32 r) ;; modify (set_freelist next)
   else ret tt) ;;;
  when use_lock (release L_kmem) ;;;
  ret r.

(** [for(; p + PGSIZE <= vend; p += PGSIZE) kfree(p)]: [n] iterations, the
    number of whole pages between [p] and [vend]. *)
Fixpoint freerange_loop (p : Z) (n : nat) : K unit :=
  match n with
  | O => ret tt
  | S n => kfree p ;;; freerange_loop (p + PGSIZE) n
  end.

Definition freerange (vstart vend : Z) : K unit :=
  let p := PGROUNDUP vstart in
  freerange_loop p (Z.to_nat ((vend - p) / PGSIZE)).

Definition kinit1 (vstart vend : Z) : K unit :=
  modify (fun s => set_k_kmem (set_km_use_lock false (k_kmem s)) s) ;;;
  freerange vstart vend.

Definition kinit2 (vstart vend : Z) : K unit :=
  freerange vstart vend ;;;
  modify (fun s => set_k_kmem (set_km_use_lock true (k_kmem s)) s).

(** ** The free list *)

(** A page [kfree] accepts. *)
Definition is_page (e p : Z) : Prop :=
  p mod PGSIZE = 0 /\ e <= p /\ KERNBASE <= p < KERNBASE + PHYSTOP.

Fixpoint chain (m : Z -> Z) (e a : Z) (l : list Z) : Prop :=
  match l with
  | [] => a = 0
  | p :: l => a = p /\ is_page e p /\ chain m e (read32 m (V2P p)) l
  end.

(** [l] is the list of free pages, in the order [kalloc] hands them out. *)
Definition free_pages (s : kstate) (l : list Z) : Prop :=
  NoDup l /\ chain (k_mem s) (k_end s) (km_freelist (k_kmem s)) l.

(** The allocator's lock is not held. *)
Definition kmem_ready (s : kstate) : Prop := L_kmem ∉ k_held s.

(** ** Lemmas *)

Lemma V2P_page e p : is_page e p -> V2P p = p - KERNBASE.
Proof.
  intros (_ & _ & H). unfold V2P. apply u32_small.
  unfold KERNBASE, PHYSTOP in *. lia.
Qed.

(** Distinct pages are a page apart. *)
Lemma pages_apart e p q :
  is_page e p -> is_page e q -> p <> q ->
  V2P p + PGSIZE <= V2P q \/ V2P q + PGSIZE <= V2P p.
Proof.
  intros Hp Hq Hne. rewrite (V2P_page e p), (V2P_page e q) by done.
  destruct Hp as (Hp & _ & _), Hq as (Hq & _ & _).
  pose proof (Z.div_mod p PGSIZE). pose proof (Z.div_mod q PGSIZE).
  unfold PGSIZE in *. lia.
Qed.

(** The chain depends only on the memory of its pages. *)
Lemma chain_ext m m' e a l :
  (forall p x, p ∈ l -> is_page e p -> V2P p <= x < V2P p + PGSIZE ->
     m' x = m x) ->
  chain m e a l -> chain m' e a l.
Proof.
  revert a. induction l as [|p l IH]; intros a Hext Hc; [done|].
  destruct Hc as (-> & Hp & Hc). split; [done|]. split; [done|].
  replace (read32 m' (V2P p)) with (read32 m (V2P p)).
  - apply IH; [|done]. intros q x Hq. apply Hext. set_solver.
  - unfold read32, read_list. f_equal. apply map_ext_in. intros i Hi.
    apply in_seq in Hi. symmetry. apply (Hext p); [set_solver|done|].
    unfold PGSIZE. lia.
Qed.

Lemma chain_pages m e a l : chain m e a l -> Forall (is_page e) l.
Proof.
  revert a. induction l as [|p l IH]; intros a H; [done|].
  destruct H as (_ & Hp & H). constructor; eauto.
Qed.

Lemma is_page_nonzero e p : is_page e p -> p <> 0.
Proof. intros (_ & _ & H). unfold KERNBASE in *. lia. Qed.

Lemma is_page_u32 e p : is_page e p -> u32 p = p.
Proof.
  intros (_ & _ & H). apply u32_small. unfold KERNBASE, PHYSTOP in *. lia.
Qed.

Lemma when_acquire (b : bool) l s :
  l ∉ k_held s ->
  when b (acquire l) s =
  Ret tt (set_k_held (if b then l :: k_held s else k_held s) s).
Proof.
  intros H. destruct b; simpl; [by apply acquire_ok|].
  by rewrite set_k_held_id.
Qed.

Lemma when_release (b : bool) l h s :
  k_held s = (if b then l :: h else h) -> l ∉ h ->
  when b (release l) s = Ret tt (set_k_held h s).
Proof.
  intros Hh H. destruct b; simpl; [by apply release_ok|].
  rewrite <- Hh. by rewrite set_k_held_id.
Qed.

(** What [kfree] leaves: the page full of ones but for its first word, the
    link to the old head. *)
Definition freed (v : Z) (s : kstate) : kstate :=
  set_freelist v (store32 v (km_freelist (k_kmem s)) (kmemset v 1 PGSIZE s)).

Lemma kfree_ok v s :
  kmem_ready s -> is_page (k_end s) v -> kfree v s = Ret tt (freed v s).
Proof.
  intros Hr (Ha & He & Hk). unfold kfree. mrun.
  rewrite Ha, Z.eqb_refl. unfold V2P at 1. rewrite u32_small
    by (unfold KERNBASE, PHYSTOP in *; lia).
  zbool. mrun.
  mstep (when_acquire (km_use_lock (k_kmem s)) L_kmem (kmemset v 1 PGSIZE s) Hr).
  mrun. rewrite (when_release _ _ (k_held s)); [|done|done].
  unfold freed, set_freelist, store32, kmemset. simpl. by destruct s.
Qed.

Lemma kfree_bad v s :
  v mod PGSIZE <> 0 \/ v < k_end s \/ PHYSTOP <= V2P v ->
  kfree v s = Panic "kfree" s.
Proof.
  intros H. unfold kfree. mrun.
  replace (_ || _ || _) with true; [done|]. symmetry.
  apply orb_true_iff. destruct H as [H|[H|H]].
  - left. apply orb_true_iff. left. apply negb_true_iff, Z.eqb_neq. done.
  - left. apply orb_true_iff. right. apply Z.ltb_lt. done.
  - right. apply Z.leb_le. done.
Qed.

Lemma freed_mem_out v s e x :
  is_page e v -> x < V2P v \/ V2P v + PGSIZE <= x ->
  k_mem (freed v s) x = k_mem s x.
Proof.
  intros Hv Hx. unfold freed, store32, kmemset. simpl. unfold write32.
  rewrite upd_list_out by (unfold PGSIZE in *; simpl; lia).
  rewrite memset_fill by done. by apply fill_out.
Qed.

Lemma freed_link v s : load32 v (freed v s) = u32 (km_freelist (k_kmem s)).
Proof. unfold load32, freed, store32. simpl. apply read32_write32. Qed.

(** [kfree] pushes a page on the free list. *)
Lemma kfree_push v s l :
  free_pages s l -> is_page (k_end s) v -> v ∉ l -> free_pages (freed v s) (v :: l).
Proof.
  intros [Hnd Hch] Hv Hl. split; [by constructor|].
  pose proof (chain_pages _ _ _ _ Hch) as Hpg. rewrite Forall_forall in Hpg.
  simpl. split; [done|]. split; [done|].
  change (read32 _ (V2P v)) with (load32 v (freed v s)). rewrite freed_link.
  assert (Hu : u32 (km_freelist (k_kmem s)) = km_freelist (k_kmem s)).
  { destruct l as [|p l]; simpl in Hch; [by rewrite Hch|].
    destruct Hch as (-> & Hp & _). by eapply is_page_u32. }
  rewrite Hu. eapply chain_ext; [|exact Hch].
  intros p x Hp Hpp Hx. apply (freed_mem_out v s (k_end s)); [done|].
  destruct (pages_apart _ v p Hv Hpp) as [|]; [congruence|lia|lia].
Qed.

(** [kalloc] pops the free list, and returns 0 when it is empty. *)
Lemma kalloc_pop p l s :
  kmem_ready s -> free_pages s (p :: l) ->
  kalloc s = Ret p (set_freelist (load32 p s) s) /\
  free_pages (set_freelist (load32 p s) s) l.
Proof.
  intros Hr [Hnd Hch]. pose proof Hch as (Hf & Hp & Hch').
  split.
  - unfold kalloc. mrun. mstep (when_acquire (km_use_lock (k_kmem s)) _ _ Hr).
    mrun. simpl. rewrite Hf.
    rewrite (proj2 (Z.eqb_neq p 0)) by (by eapply is_page_nonzero).
    simpl. mrun. mstep (when_release (km_use_lock (k_kmem s)) L_kmem (k_held s)
      (set_freelist (load32 p s) (set_k_held (if km_use_lock (k_kmem s)
          then L_kmem :: k_held s else k_held s) s)) eq_refl Hr).
    unfold ret, set_freelist. simpl. by destruct s.
  - split; [by inversion Hnd|]. exact Hch'.
Qed.

Lemma kalloc_empty s :
  kmem_ready s -> free_pages s [] -> kalloc s = Ret 0 s.
Proof.
  intros Hr [_ Hf]. simpl in Hf. unfold kalloc. mrun.
  mstep (when_acquire (km_use_lock (k_kmem s)) _ _ Hr).
  mrun. simpl. rewrite Hf. simpl. mrun.
  mstep (when_release (km_use_lock (k_kmem s)) L_kmem (k_held s)
    (set_k_held (if km_use_lock (k_kmem s)
          then L_kmem :: k_held s else k_held s) s) eq_refl Hr).
  unfold ret. simpl. by rewrite set_k_held_set, set_k_held_id.
Qed.

(** ** Building the free list *)

(** Masking the offset off rounds down to a page. *)
Lemma mask_floor y :
  0 <= y < 2 ^ 32 -> Z.land y (u32 (Z.lnot (PGSIZE - 1))) = y / PGSIZE * PGSIZE.
Proof.
  intros Hy. replace (u32 (Z.lnot (PGSIZE - 1))) with (Z.ldiff (Z.ones 32) (Z.ones 12))
    by reflexivity.
  replace (y / PGSIZE * PGSIZE) with (Z.shiftl (Z.shiftr y 12) 12)
    by (by rewrite Z.shiftl_mul_pow2, Z.shiftr_div_pow2 by lia).
  rewrite <- Z.ldiff_ones_r by lia. apply Z.bits_inj'. intros i Hi.
  rewrite Z.land_spec, !Z.ldiff_spec. destruct (decide (i < 32)).
  - rewrite (Z.ones_spec_low 32) by lia. by rewrite andb_true_l.
  - rewrite (Z.ones_spec_high 32) by lia. simpl.
    rewrite (Z.bits_above_log2 y); [done|lia|].
    destruct (decide (y = 0)) as [->|]; [simpl; lia|].
    assert (Z.log2 y < 32); [|lia]. apply Z.log2_lt_pow2; lia.
Qed.

Lemma PGROUNDUP_spec x :
  0 <= x -> x + PGSIZE <= 2 ^ 32 ->
  PGROUNDUP x mod PGSIZE = 0 /\ x <= PGROUNDUP x < x + PGSIZE.
Proof.
  intros H0 H1. unfold PGROUNDUP.
  rewrite u32_small by (unfold PGSIZE in *; lia).
  set (y := x + PGSIZE - 1). rewrite mask_floor by (unfold y, PGSIZE in *; lia).
  split; [apply Z.mod_mul; unfold PGSIZE; lia|].
  pose proof (Z.div_mod y PGSIZE). pose proof (Z.mod_pos_bound y PGSIZE).
  unfold y, PGSIZE in *. lia.
Qed.

(** The pages [p], [p + PGSIZE], ...: [n] of them, last one first. *)
Fixpoint page_run (p : Z) (n : nat) : list Z :=
  match n with
  | O => []
  | S n => page_run (p + PGSIZE) n ++ [p]
  end.

Lemma length_page_run p n : length (page_run p n) = n.
Proof. revert p. induction n as [|n IH]; intros p; [done|]. cbn [page_run]. rewrite length_app, IH. simpl. lia. Qed.

Lemma elem_of_page_run q p n :
  q ∈ page_run p n -> p <= q < p + Z.of_nat n * PGSIZE.
Proof.
  revert p. induction n as [|n IH]; intros p H; simpl in H; [set_solver|].
  apply elem_of_app in H as [H|H].
  - apply IH in H. unfold PGSIZE in *. lia.
  - apply list_elem_of_singleton in H. unfold PGSIZE. lia.
Qed.

Lemma freerange_loop_ok n : forall p s l,
  kmem_ready s -> free_pages s l ->
  p mod PGSIZE = 0 -> k_end s <= p -> KERNBASE <= p ->
  p + Z.of_nat n * PGSIZE <= KERNBASE + PHYSTOP ->
  (forall q, q ∈ l -> q < p \/ p + Z.of_nat n * PGSIZE <= q) ->
  exists s', freerange_loop p n s = Ret tt s' /\
    free_pages s' (page_run p n ++ l) /\
    s' = set_k_mem (k_mem s') (set_k_kmem (set_km_freelist (km_freelist (k_kmem s')) (k_kmem s)) s) /\
    forall x, x < p - KERNBASE \/ p - KERNBASE + Z.of_nat n * PGSIZE <= x -> k_mem s' x = k_mem s x.
Proof.
  induction n as [|n IH]; intros p s l Hr Hf Ha He Hk Hhi Hdis.
  - exists s. split_and!; [done..| |done]. destruct s as [? []]. done.
  - assert (Hp : is_page (k_end s) p).
    { repeat split; [done|done|done|unfold PGSIZE in *; lia]. }
    assert (Hnl : p ∉ l).
    { intros Hin. apply Hdis in Hin. unfold PGSIZE in *. lia. }
    cbn [freerange_loop]. mstep (kfree_ok p s Hr Hp).
    destruct (IH (p + PGSIZE) (freed p s) (p :: l)) as (s' & Hrun & Hf' & Hs & Hx).
    + exact Hr.
    + by apply kfree_push.
    + rewrite Z.add_mod, Ha, Z_mod_same_full by (unfold PGSIZE; lia). done.
    + change (k_end (freed p s)) with (k_end s). unfold PGSIZE in *. lia.
    + unfold PGSIZE in *. lia.
    + unfold PGSIZE in *. lia.
    + intros q Hq. apply elem_of_cons in Hq as [->|Hq];
        [unfold PGSIZE; lia|]. apply Hdis in Hq. unfold PGSIZE in *. lia.
    + exists s'. split; [done|]. split; [|split].
      * simpl. rewrite <- app_assoc. exact Hf'.
      * rewrite Hs at 1. reflexivity.
      * intros x Hout. rewrite Hx by (unfold PGSIZE in *; lia).
        apply (freed_mem_out p s (k_end s)); [done|]. rewrite (V2P_page _ _ Hp). unfold PGSIZE in *. lia.
Qed.

(** A page run holds every whole page of its range. *)
Lemma page_run_elem q p n :
  q mod PGSIZE = 0 -> p mod PGSIZE = 0 -> p <= q < p + Z.of_nat n * PGSIZE -> q ∈ page_run p n.
Proof.
  revert p. induction n as [|n IH]; intros p Hq Hp H; [lia|]. simpl.
  apply elem_of_app. destruct (decide (q = p)) as [->|]; [right; by left|left].
  apply IH; [done| |].
  - rewrite Z.add_mod, Hp, Z_mod_same_full by (unfold PGSIZE; lia). done.
  - pose proof (Z.div_mod q PGSIZE). pose proof (Z.div_mod p PGSIZE). unfold PGSIZE in *. lia.
Qed.

(** C17: the allocator is a stack of free pages.  [kalloc] returns the page
    freed last and takes it off, or returns 0 and changes nothing when no page
    is free; [kfree] of a page that is not free pushes it, writes to no other
    page, and the lists never hold a page twice, so that two calls of
    [kalloc] never return the same page; [kfree] of anything else than an
    aligned page of the machine's memory panics. *)
Theorem kalloc_refines_stack s l :
  kmem_ready s -> free_pages s l ->
  match l with
  | [] => kalloc s = Ret 0 s
  | p :: l' => is_page (k_end s) p /\ p ∉ l' /\
      exists s', kalloc s = Ret p s' /\ free_pages s' l' /\ k_mem s' = k_mem s
  end /\
  (forall v, is_page (k_end s) v -> v ∉ l ->
     exists s', kfree v s = Ret tt s' /\ free_pages s' (v :: l) /\
       forall x, x < V2P v \/ V2P v + PGSIZE <= x -> k_mem s' x = k_mem s x) /\
  (forall v, v mod PGSIZE <> 0 \/ v < k_end s \/ PHYSTOP <= V2P v ->
     kfree v s = Panic "kfree" s).
Proof.
  intros Hr Hf. split_and!.
  - destruct l as [|p l]; [by apply kalloc_empty|].
    destruct (kalloc_pop p l s Hr Hf) as [E Hf'].
    destruct Hf as [Hnd (_ & Hp & _)]. apply NoDup_cons in Hnd as [Hni _].
    split; [done|]. split; [done|]. by exists (set_freelist (load32 p s) s).
  - intros v Hv Hl. exists (freed v s). split; [by apply kfree_ok|].
    split; [by apply kfree_push|]. intros x Hx. by eapply freed_mem_out.
  - intros v. apply kfree_bad.
Qed.

(** [freerange], the memory it writes included. *)
Lemma freerange_ok vstart vend s l :
  kmem_ready s -> free_pages s l -> k_end s <= vstart -> KERNBASE <= vstart ->
  vstart + PGSIZE <= vend -> vend <= KERNBASE + PHYSTOP ->
  (forall q, q ∈ l -> q < vstart \/ vend <= q) ->
  exists s' new, freerange vstart vend s = Ret tt s' /\ free_pages s' (new ++ l) /\
    (forall q, q ∈ new <-> q mod PGSIZE = 0 /\ vstart <= q /\ q + PGSIZE <= vend) /\
    (vend - vstart) / PGSIZE - 1 <= Z.of_nat (length new) /\
    s' = set_k_mem (k_mem s') (set_k_kmem (set_km_freelist (km_freelist (k_kmem s')) (k_kmem s)) s) /\
    forall x, x < vstart - KERNBASE \/ vend - KERNBASE <= x -> k_mem s' x = k_mem s x.
Proof.
  intros Hr Hf He Hk Hlo Hhi Hdis. unfold freerange.
  destruct (PGROUNDUP_spec vstart) as [Ha Hb];
    [unfold KERNBASE, PHYSTOP, PGSIZE in *; lia..|].
  set (p := PGROUNDUP vstart) in *. set (n := Z.to_nat ((vend - p) / PGSIZE)).
  assert (0 <= (vend - p) / PGSIZE) as Hn0 by (apply Z.div_pos; unfold PGSIZE in *; lia).
  assert (p + Z.of_nat n * PGSIZE <= vend < p + Z.of_nat n * PGSIZE + PGSIZE) as Hn.
  { subst n. rewrite Z2Nat.id by done. pose proof (Z.div_mod (vend - p) PGSIZE).
    pose proof (Z.mod_pos_bound (vend - p) PGSIZE). unfold PGSIZE in *. lia. }
  destruct (freerange_loop_ok n p s l Hr Hf Ha) as (s' & E & Hf' & Hs & Hx); [lia..| |].
  { intros q Hq. destruct (Hdis q Hq); lia. }
  exists s', (page_run p n). split; [done|]. split; [done|]. split; [|split; [|split; [done|intros x Hout; apply Hx; lia]]].
  2:{ rewrite length_page_run. subst n. rewrite Z2Nat.id by done.
      replace ((vend - vstart) / PGSIZE - 1) with ((vend - vstart - PGSIZE) / PGSIZE).
      - apply Z.div_le_mono; [done|]. unfold PGSIZE in *. lia.
      - replace (vend - vstart - PGSIZE) with (vend - vstart + (-1) * PGSIZE) by lia. rewrite Z.div_add by done. lia. }
  intros q. split.
  - intros Hq. pose proof (elem_of_page_run _ _ _ Hq).
    destruct Hf' as [_ Hch%chain_pages]. rewrite Forall_forall in Hch.
    destruct (Hch q) as (Hqa & _); [set_solver|]. split; [done|].
    pose proof (Z.div_mod q PGSIZE). pose proof (Z.div_mod p PGSIZE). unfold PGSIZE in *. lia.
  - intros (Hqa & Hql & Hqh). apply page_run_elem; [done..|].
    pose proof (Z.div_mod q PGSIZE). pose proof (Z.div_mod p PGSIZE). unfold PGSIZE in *. lia.
Qed.

(** [freerange], and so [kinit1] and [kinit2], frees exactly the whole pages
    between its bounds, on top of those that are free already. *)
Theorem freerange_frees_pages vstart vend s l :
  kmem_ready s -> free_pages s l -> k_end s <= vstart -> KERNBASE <= vstart ->
  vstart + PGSIZE <= vend -> vend <= KERNBASE + PHYSTOP ->
  (forall q, q ∈ l -> q < vstart \/ vend <= q) ->
  exists s' new, freerange vstart vend s = Ret tt s' /\ free_pages s' (new ++ l) /\
    forall q, q ∈ new <-> q mod PGSIZE = 0 /\ vstart <= q /\ q + PGSIZE <= vend.
Proof.
  intros. destruct (freerange_ok vstart vend s l) as (s' & new & E & Hf & Hq & _); [done..|]. by exists s', new.
Qed.

(** A machine with no free page yet. *)
Definition demo_boot : kstate := demo_kernel [] [].

Lemma freerange_frees_pages_witness :
  exists s' new, freerange 0x80400010 0x80404000 demo_boot = Ret tt s' /\
    free_pages s' (new ++ []) /\
    forall q, q ∈ new <-> q mod PGSIZE = 0 /\ 0x80400010 <= q /\ q + PGSIZE <= 0x80404000.
Proof.
  apply (freerange_frees_pages 0x80400010 0x80404000 demo_boot []);
    [by_eval|split; [constructor|reflexivity]|by_eval..|].
  intros q Hq. by apply elem_of_nil in Hq.
Defined.

Lemma kalloc_refines_stack_witness :
  exists s', kfree 0x80400000 demo_boot = Ret tt s' /\ free_pages s' [0x80400000] /\
    forall x, x < V2P 0x80400000 \/ V2P 0x80400000 + PGSIZE <= x ->
      k_mem s' x = k_mem demo_boot x.
Proof.
  apply (kalloc_refines_stack demo_boot []);
    [by_eval|split; [constructor|reflexivity]| |by_eval].
  by_eval.
Defined.
