(* ===== verification/Vm.v ===== *)
(** Page tables, vm.c.

    A page directory and its page tables are pages of physical memory that
    the code reads and writes word by word.  [mmu] is the processor's address
    translation, against which the tables are judged. *)

From stdpp Require Import base list sets strings.
From Stdlib Require Import ZArith Lia.
From S2P Require Import Prelude State CString Sched Cons Kalloc.

Open Scope kernel_scope.

(** ** Address translation *)

Definition pde_of (m : Z -> Z) (pgdir va : Z) : Z :=
  read32 m (V2P pgdir + 4 * PDX va).

Definition pte_of (m : Z -> Z) (pgdir va : Z) : Z :=
  read32 m (PTE_ADDR (pde_of m pgdir va) + 4 * PTX va).

(** The physical address of [va] under the page directory [pgdir], if both
    levels are present. *)
Definition mmu (m : Z -> Z) (pgdir va : Z) : option Z :=
  if has (pde_of m pgdir va) PTE_P && has (pte_of m pgdir va) PTE_P
  then Some (PTE_ADDR (pte_of m pgdir va) + va mod PGSIZE) else None.

(** ** Operations *)

(** The address of the PTE for [va], 0 when there is none. *)
Definition walkpgdir (pgdir va : Z) (alloc : bool) : K Z :=
  let pde := pgdir + 4 * PDX va in
  e <- gets (load32 pde) ;;
  if has e PTE_P then ret (P2V (PTE_ADDR e) + 4 * PTX va) else
  if negb alloc then ret 0 else
  pgtab <- kalloc ;;
  if pgtab =? 0 then ret 0 else
  modify (kmemset pgtab 0 PGSIZE) ;;;
  modify (store32 pde (Z.lor (Z.lor (Z.lor (V2P pgtab) PTE_P) PTE_W) PTE_U)) ;;;
  ret (pgtab + 4 * PTX va).

Fixpoint mappages_loop (fuel : nat) (pgdir a last pa perm : Z) : K Z :=
  match fuel with
  | O => spin
  | S fuel =>
    pte <- walkpgdir pgdir a true ;;
    if pte =? 0 then ret (-1) else
    e <- gets (load32 pte) ;;
    if has e PTE_P then panic "remap" else
    modify (store32 pte (Z.lor (Z.lor pa perm) PTE_P)) ;;;
    if a =? last then ret 0
    else mappages_loop fuel pgdir (u32 (a + PGSIZE)) last (u32 (pa + PGSIZE)) perm
  end.

(** One iteration per page from [va]'s to the one holding [va + size - 1]. *)
Definition mappages (pgdir va size pa perm : Z) : K Z :=
  let a := PGROUNDDOWN va in
  let last := PGROUNDDOWN (u32 (va + size - 1)) in
  mappages_loop (S (Z.to_nat (u32 (last - a) / PGSIZE))) pgdir a last pa perm.

(** [for(; a < oldsz; a += PGSIZE)]; a missing page table skips to the next
    directory entry. *)
Fixpoint deallocuvm_loop (fuel : nat) (pgdir a oldsz : Z) : K unit :=
  match fuel with
  | O => spin
  | S fuel =>
    if negb (a <? oldsz) then ret tt else
    pte <- walkpgdir pgdir a false ;;
    a <- (if pte =? 0 then ret (u32 (PGADDR (PDX a + 1) 0 0 - PGSIZE)) else
     e <- gets (load32 pte) ;;
     if has e PTE_P then
       let pa := PTE_ADDR e in
       if pa =? 0 then panic "kfree" else
       kfree (P2V pa) ;;;
       modify (store32 pte 0) ;;;
       ret a
     else ret a) ;;
    deallocuvm_loop fuel pgdir (u32 (a + PGSIZE)) oldsz
  end.

Definition deallocuvm (pgdir oldsz newsz : Z) : K Z :=
  if oldsz <=? newsz then ret oldsz else
  deallocuvm_loop (S (S (Z.to_nat (oldsz / PGSIZE)))) pgdir (PGROUNDUP newsz) oldsz ;;;
  ret newsz.

Definition freevm (pgdir : Z) : K unit :=
  if pgdir =? 0 then panic "freevm: no pgdir" else
  deallocuvm pgdir KERNBASE 0 ;;;
  mfor (fun i =>
    e <- gets (load32 (pgdir + 4 * Z.of_nat i)) ;;
    if has e PTE_P then kfree (P2V (PTE_ADDR e)) else ret tt)
    (seq 0 NPDENTRIES) ;;;
  kfree pgdir.

(** The rows of [kmap]: virtual start, physical start and end, permission. *)
Definition kmap (data : Z) : list (Z * Z * Z * Z) :=
  [ (KERNBASE, 0, EXTMEM, PTE_W);
    (KERNLINK, V2P KERNLINK, V2P data, 0);
    (data, V2P data, PHYSTOP, PTE_W);
    (DEVSPACE, DEVSPACE, 0, PTE_W) ].

Fixpoint setupkvm_loop (pgdir : Z) (ks : list (Z * Z * Z * Z)) : K Z :=
  match ks with
  | [] => ret pgdir
  | (virt, phys_start, phys_end, perm) :: ks =>
    r <- mappages pgdir virt (u32 (phys_end - phys_start)) phys_start perm ;;
    if r <? 0 then freevm pgdir ;;; ret 0 else setupkvm_loop pgdir ks
  end.

Definition setupkvm : K Z :=
  pgdir <- kalloc ;;
  if pgdir =? 0 then ret 0 else
  modify (kmemset pgdir 0 PGSIZE) ;;;
  if DEVSPACE <? P2V PHYSTOP then panic "PHYSTOP too high" else
  data <- gets k_data ;;
  setupkvm_loop pgdir (kmap data).

(** The checks of [switchuvm]; the segment and [cr3] loads are hardware. *)
Definition switchuvm (p : option nat) : K unit :=
  match p with
  | None => panic "switchuvm: no process"
  | Some p =>
    pr <- gets (fun s => procs s p) ;;
    if p_kstack pr =? 0 then panic "switchuvm: no kstack" else
    if p_pgdir pr =? 0 then panic "switchuvm: no pgdir" else ret tt
  end.

(** [memmove] of bytes into the kernel's view of memory. *)
Definition store_bytes (v : Z) (bs : list Z) (s : kstate) : kstate :=
  set_k_mem (upd_list (k_mem s) (V2P v) bs) s.

Definition inituvm (pgdir : Z) (init : list Z) : K unit :=
  let sz := Z.of_nat (length init) in
  if PGSIZE <=? sz then panic "inituvm: more than a page" else
  mem <- kalloc ;;
  if mem =? 0 then panic "trap" (* memset of a null pointer faults *) else
  modify (kmemset mem 0 PGSIZE) ;;;
  mappages pgdir 0 PGSIZE (V2P mem) (Z.lor PTE_W PTE_U) ;;;
  modify (store_bytes mem init).

Fixpoint allocuvm_loop (fuel : nat) (pgdir a oldsz newsz : Z) : K Z :=
  match fuel with
  | O => spin
  | S fuel =>
    if negb (a <? newsz) then ret newsz else
    mem <- kalloc ;;
    if mem =? 0 then
      cputs "allocuvm out of memory" ;;;
      deallocuvm pgdir newsz oldsz ;;; ret 0
    else
      modify (kmemset mem 0 PGSIZE) ;;;
      r <- mappages pgdir a PGSIZE (V2P mem) (Z.lor PTE_W PTE_U) ;;
      if r <? 0 then
        cputs "allocuvm out of memory (2)" ;;;
        deallocuvm pgdir newsz oldsz ;;; kfree mem ;;; ret 0
      else allocuvm_loop fuel pgdir (u32 (a + PGSIZE)) oldsz newsz
  end.

Definition allocuvm (pgdir oldsz newsz : Z) : K Z :=
  if KERNBASE <=? newsz then ret 0 else
  if newsz <? oldsz then ret oldsz else
  allocuvm_loop (S (S (Z.to_nat ((newsz - oldsz) / PGSIZE)))) pgdir
    (PGROUNDUP oldsz) oldsz newsz.

Definition clearpteu (pgdir uva : Z) : K unit :=
  pte <- walkpgdir pgdir uva false ;;
  if pte =? 0 then panic "clearpteu" else
  e <- gets (load32 pte) ;;
  modify (store32 pte (Z.land e (Z.lnot PTE_U))).

(** The copy loop of [copyuvm]; [None] is its [goto bad]. *)
Fixpoint copyuvm_loop (fuel : nat) (pgdir d i sz : Z) : K (option Z) :=
  match fuel with
  | O => spin
  | S fuel =>
    if negb (i <? sz) then ret (Some d) else
    pte <- walkpgdir pgdir i false ;;
    if pte =? 0 then panic "copyuvm: pte should exist" else
    e <- gets (load32 pte) ;;
    if negb (has e PTE_P) then panic "copyuvm: page not present" else
    let pa := PTE_ADDR e in
    let flags := PTE_FLAGS e in
    mem <- kalloc ;;
    if mem =? 0 then ret None else
    modify (fun s => set_k_mem
      (memmove (k_mem s) (V2P mem) pa (Z.to_nat PGSIZE)) s) ;;;
    r <- mappages d i PGSIZE (V2P mem) flags ;;
    if r <? 0 then kfree mem ;;; ret None
    else copyuvm_loop fuel pgdir d (u32 (i + PGSIZE)) sz
  end.

Definition copyuvm (pgdir sz : Z) : K Z :=
  d <- setupkvm ;;
  if d =? 0 then ret 0 else
  r <- copyuvm_loop (S (S (Z.to_nat (sz / PGSIZE)))) pgdir d 0 sz ;;
  match r with
  | Some d => ret d
  | None => freevm d ;;; ret 0
  end.

(** A null PTE pointer is dereferenced as the code does: it faults. *)
Definition uva2ka (pgdir uva : Z) : K Z :=
  pte <- walkpgdir pgdir uva false ;;
  if pte =? 0 then panic "trap" else
  e <- gets (load32 pte) ;;
  if negb (has e PTE_P) then ret 0 else
  if negb (has e PTE_U) then ret 0 else
  ret (P2V (PTE_ADDR e)).

(** [copyout]: [buf] holds the bytes still to copy. *)
Fixpoint copyout_loop (fuel : nat) (pgdir va : Z) (buf : list Z) : K Z :=
  match fuel with
  | O => spin
  | S fuel =>
    let len := Z.of_nat (length buf) in
    if negb (0 <? len) then ret 0 else
    let va0 := PGROUNDDOWN va in
    pa0 <- uva2ka pgdir va0 ;;
    if pa0 =? 0 then ret (-1) else
    let n := PGSIZE - (va - va0) in
    let n := if len <? n then len else n in
    modify (store_bytes (pa0 + (va - va0)) (take (Z.to_nat n) buf)) ;;;
    copyout_loop fuel pgdir (u32 (va0 + PGSIZE)) (drop (Z.to_nat n) buf)
  end.

Definition copyout (pgdir va : Z) (p : list Z) : K Z :=
  copyout_loop (S (length p)) pgdir va p.

(** [growproc] of proc.c. *)
Definition growproc (n : Z) : K Z :=
  p <- curproc ;;
  pr <- gets (fun s => procs s p) ;;
  let sz := p_sz pr in
  if 0 <? n then
    sz <- allocuvm (p_pgdir pr) sz (u32 (sz + n)) ;;
    if sz =? 0 then ret (-1) else
    modify (upd_proc p (set_p_sz sz)) ;;; switchuvm (Some p) ;;; ret 0
  else if n <? 0 then
    sz <- deallocuvm (p_pgdir pr) sz (u32 (sz + n)) ;;
    if sz =? 0 then ret (-1) else
    modify (upd_proc p (set_p_sz sz)) ;;; switchuvm (Some p) ;;; ret 0
  else
    modify (upd_proc p (set_p_sz sz)) ;;; switchuvm (Some p) ;;; ret 0.
