(* ===== verification/PageTable.v ===== *)
(** Correctness of the page tables that vm.c builds, against the processor's
    translation [mmu].

    [pt_wf] says that a page directory and its page tables are distinct pages
    of the machine, none of them free; [entry] is the page table entry the
    processor finds for an address.  [walkpgdir] never changes an entry, a
    store through the pointer it returns changes exactly one, and so
    [mappages] maps the pages it is asked to and no other. *)

From stdpp Require Import base list sets strings.
From Stdlib Require Import ZArith Lia.
From S2P Require Import Prelude State Demo CString Sched Kalloc Vm.

Open Scope kernel_scope.

(** ** Bits *)

Lemma PTE_ADDR_floor x : 0 <= x < 2 ^ 32 -> PTE_ADDR x = x / PGSIZE * PGSIZE.
Proof. apply mask_floor. Qed.

Lemma PGROUNDDOWN_floor x : 0 <= x < 2 ^ 32 -> PGROUNDDOWN x = x / PGSIZE * PGSIZE.
Proof. apply mask_floor. Qed.

Lemma PDX_eq va : 0 <= va -> PDX va = va / 2 ^ 22 mod 1024.
Proof.
  intros. unfold PDX, PDXSHIFT. rewrite Z.shiftr_div_pow2 by lia.
  change 0x3FF with (Z.ones 10). by rewrite Z.land_ones by lia.
Qed.

Lemma PTX_eq va : 0 <= va -> PTX va = va / 4096 mod 1024.
Proof.
  intros. unfold PTX, PTXSHIFT. rewrite Z.shiftr_div_pow2 by lia.
  change 0x3FF with (Z.ones 10). by rewrite Z.land_ones by lia.
Qed.

Lemma PDX_range va : 0 <= va -> 0 <= PDX va < 1024.
Proof. intros. rewrite PDX_eq by done. apply Z.mod_pos_bound. lia. Qed.

Lemma PTX_range va : 0 <= va -> 0 <= PTX va < 1024.
Proof. intros. rewrite PTX_eq by done. apply Z.mod_pos_bound. lia. Qed.

(** The two indices determine the page. *)
Lemma same_page va va' :
  0 <= va < 2 ^ 32 -> 0 <= va' < 2 ^ 32 ->
  PDX va = PDX va' /\ PTX va = PTX va' <-> va / PGSIZE = va' / PGSIZE.
Proof.
  intros H H'. rewrite !PDX_eq, !PTX_eq by lia.
  assert (forall x, x / 2 ^ 22 = x / 4096 / 1024) as Hd.
  { intros x. by rewrite Z.div_div by lia. }
  rewrite !Hd. unfold PGSIZE.
  assert (forall x, 0 <= x < 2 ^ 32 -> x / 4096 / 1024 mod 1024 = x / 4096 / 1024) as Hm.
  { intros x Hx. apply Z.mod_small. split; [repeat apply Z.div_pos; lia|].
    apply Z.div_lt_upper_bound; [lia|]. apply Z.div_lt_upper_bound; lia. }
  rewrite !Hm by done. split; [|by intros ->].
  intros [E1 E2]. rewrite (Z.div_mod (va / 4096) 1024), (Z.div_mod (va' / 4096) 1024) by lia.
  by rewrite E1, E2.
Qed.

(** Flags are added to an aligned address. *)
Lemma lor_flags pa f : pa mod PGSIZE = 0 -> 0 <= f < PGSIZE -> Z.lor pa f = pa + f.
Proof.
  intros Hp Hf. rewrite <- Z.lxor_lor, Z.add_nocarry_lxor; try done.
  all: replace pa with (Z.shiftl (pa / PGSIZE) 12)
    by (rewrite Z.shiftl_mul_pow2 by lia; change (2 ^ 12) with PGSIZE;
        pose proof (Z.div_mod pa PGSIZE); unfold PGSIZE in *; lia).
  all: replace f with (Z.land f (Z.ones 12))
    by (rewrite Z.land_ones by lia; apply Z.mod_small; exact Hf).
  all: apply Z.bits_inj'; intros i Hi; rewrite !Z.land_spec, Z.bits_0;
    destruct (decide (i < 12));
    [rewrite Z.shiftl_spec_low by done; done
    |rewrite (Z.ones_spec_high 12) by lia; by rewrite !andb_false_r].
Qed.

Lemma has_P_odd x : has x PTE_P = Z.odd x.
Proof.
  unfold has, PTE_P. change 1 with (Z.ones 1) at 1. rewrite Z.land_ones by lia.
  change (2 ^ 1) with 2. rewrite Zmod_odd. by destruct (Z.odd x).
Qed.

(** An entry made of an aligned address and flags with [PTE_P]. *)
Definition mk_pte (pa f : Z) : Z := Z.lor (Z.lor pa f) PTE_P.

Lemma mk_pte_spec pa f :
  pa mod PGSIZE = 0 -> 0 <= pa < 2 ^ 32 -> 0 <= f < PGSIZE ->
  0 <= mk_pte pa f < 2 ^ 32 /\ has (mk_pte pa f) PTE_P = true /\ PTE_ADDR (mk_pte pa f) = pa.
Proof.
  intros Ha Hp Hf. unfold mk_pte. rewrite <- Z.lor_assoc.
  assert (0 <= Z.lor f PTE_P < PGSIZE) as Hg.
  { split; [apply Z.lor_nonneg; unfold PTE_P; lia|].
    destruct (decide (f = 0)) as [->|]; [done|].
    change PGSIZE with (2 ^ 12). apply Z.log2_lt_pow2.
    { assert (0 <= Z.lor f PTE_P) by (apply Z.lor_nonneg; unfold PTE_P; lia).
      assert (Z.lor f PTE_P <> 0); [|lia]. intros E%Z.lor_eq_0_iff. unfold PTE_P in E. lia. }
    rewrite Z.log2_lor by (unfold PTE_P; lia). unfold PTE_P.
    assert (Z.log2 f < 12); [|simpl; lia]. apply Z.log2_lt_pow2; unfold PGSIZE in *; lia. }
  rewrite lor_flags by done. set (g := Z.lor f PTE_P) in *.
  assert (pa + g < 2 ^ 32) as Hlt.
  { pose proof (Z.div_mod pa PGSIZE). unfold PGSIZE in *. lia. }
  split; [lia|]. split.
  - rewrite has_P_odd, Z.odd_add.
    assert (Z.odd g = true) as -> by (subst g; rewrite <- Z.bit0_odd, Z.lor_spec; apply orb_true_r).
    assert (Z.odd pa = false) as ->; [|done].
    pose proof (Z.div_mod pa PGSIZE). replace pa with (2 * (2048 * (pa / PGSIZE)))
      by (unfold PGSIZE in *; lia). by rewrite Z.odd_mul.
  - rewrite PTE_ADDR_floor by lia. pose proof (Z.div_mod pa PGSIZE).
    replace (pa + g) with (g + pa / PGSIZE * PGSIZE) by (unfold PGSIZE in *; lia).
    rewrite Z.div_add, (Z.div_small g) by (unfold PGSIZE in *; lia). unfold PGSIZE in *. lia.
Qed.

(** ** Tables in memory *)

Definition dir_entry (m : Z -> Z) (pgdir i : Z) : Z := read32 m (V2P pgdir + 4 * i).

(** The page table of directory entry [i], as a kernel pointer. *)
Definition tab (m : Z -> Z) (pgdir i : Z) : Z := P2V (PTE_ADDR (dir_entry m pgdir i)).

Definition present (m : Z -> Z) (pgdir i : Z) : Prop :=
  0 <= i < 1024 /\ has (dir_entry m pgdir i) PTE_P = true.

(** The entry the processor finds for [va], 0 when there is no table. *)
Definition entry (m : Z -> Z) (pgdir va : Z) : Z :=
  if has (pde_of m pgdir va) PTE_P then pte_of m pgdir va else 0.

(** The directory and its tables are distinct pages, and none is in [l], the
    list of free pages. *)
Record pt_wf (m : Z -> Z) (e pgdir : Z) (l : list Z) : Prop := {
  wf_dir : is_page e pgdir;
  wf_dir_used : pgdir ∉ l;
  wf_tab i : present m pgdir i -> is_page e (tab m pgdir i) /\ tab m pgdir i <> pgdir /\
    tab m pgdir i ∉ l /\ PTE_ADDR (dir_entry m pgdir i) = V2P (tab m pgdir i);
  wf_inj i j : present m pgdir i -> present m pgdir j -> tab m pgdir i = tab m pgdir j -> i = j }.

(** The pages a directory owns. *)
Definition owned (m : Z -> Z) (pgdir q : Z) : Prop :=
  q = pgdir \/ exists i, present m pgdir i /\ tab m pgdir i = q.

Lemma mmu_entry m pgdir va :
  mmu m pgdir va =
    if has (entry m pgdir va) PTE_P
    then Some (PTE_ADDR (entry m pgdir va) + va mod PGSIZE) else None.
Proof.
  unfold mmu, entry. destruct (has (pde_of m pgdir va) PTE_P); [done|]. reflexivity.
Qed.

Lemma V2P_off e p k : is_page e p -> 0 <= k < PGSIZE -> V2P (p + k) = V2P p + k.
Proof.
  intros Hp Hk. rewrite (V2P_page e p Hp). destruct Hp as (Ha & _ & Hp). unfold V2P.
  rewrite u32_small; [lia|]. unfold KERNBASE, PHYSTOP, PGSIZE in *. lia.
Qed.

Lemma P2V_V2P e p : is_page e p -> P2V (V2P p) = p.
Proof.
  intros Hp. rewrite (V2P_page e p Hp). destruct Hp as (_ & _ & Hp). unfold P2V.
  rewrite u32_small; [lia|]. unfold KERNBASE, PHYSTOP in *. lia.
Qed.

Lemma V2P_range e p : is_page e p -> 0 <= V2P p < 2 ^ 32 /\ V2P p mod PGSIZE = 0.
Proof.
  intros Hp. rewrite (V2P_page e p Hp). destruct Hp as (Ha & _ & Hp).
  split; [unfold KERNBASE, PHYSTOP in *; lia|].
  rewrite Zminus_mod, Ha. by change (KERNBASE mod PGSIZE) with 0.
Qed.

(** Memory that agrees on a page gives the same words there. *)
Definition agree (m m' : Z -> Z) (p : Z) : Prop :=
  forall x, V2P p <= x < V2P p + PGSIZE -> m' x = m x.

Lemma read32_agree m m' p k : agree m m' p -> 0 <= k -> k + 4 <= PGSIZE ->
  read32 m' (V2P p + k) = read32 m (V2P p + k).
Proof.
  intros Ha Hk Hk4. unfold read32, read_list. f_equal. apply map_ext_in. intros i Hi.
  apply in_seq in Hi. apply Ha. lia.
Qed.

Lemma dir_entry_agree m m' pgdir i :
  agree m m' pgdir -> 0 <= i < 1024 -> dir_entry m' pgdir i = dir_entry m pgdir i.
Proof. intros Ha Hi. unfold dir_entry. apply read32_agree; [done|unfold PGSIZE; lia..]. Qed.

Lemma pte_word m e pgdir l va : pt_wf m e pgdir l -> 0 <= va ->
  has (pde_of m pgdir va) PTE_P = true ->
  entry m pgdir va = read32 m (V2P (tab m pgdir (PDX va)) + 4 * PTX va).
Proof.
  intros Hwf Hva Hp. unfold entry, pte_of. rewrite Hp.
  destruct (wf_tab _ _ _ _ Hwf (PDX va)) as (_ & _ & _ & E); [by split; [apply PDX_range|]|].
  change (pde_of m pgdir va) with (dir_entry m pgdir (PDX va)). by rewrite E.
Qed.

(** A directory that is not written to keeps its tables. *)
Lemma dir_agree m m' e pgdir l :
  pt_wf m e pgdir l -> agree m m' pgdir ->
  (forall va, 0 <= va -> pde_of m' pgdir va = pde_of m pgdir va) /\
  (forall i, present m pgdir i -> tab m' pgdir i = tab m pgdir i) /\
  pt_wf m' e pgdir l /\ (forall q, owned m' pgdir q <-> owned m pgdir q).
Proof.
  intros [W1 W2 W3 W4] Ha.
  assert (forall i, 0 <= i < 1024 -> dir_entry m' pgdir i = dir_entry m pgdir i) as Hd
    by (intros; by apply dir_entry_agree).
  assert (forall i, present m' pgdir i <-> present m pgdir i) as Hpr.
  { intros i. unfold present. split; intros [Hi H]; split; try done;
      [by rewrite <- Hd|by rewrite Hd]. }
  assert (forall i, present m pgdir i -> tab m' pgdir i = tab m pgdir i) as Ht.
  { intros i [Hi _]. unfold tab. by rewrite Hd. }
  split_and!; [|done| |].
  - intros va Hva. apply (Hd (PDX va)). by apply PDX_range.
  - split; [done..| |].
    + intros i Hi%Hpr. rewrite (Ht i Hi), Hd by apply Hi. by apply W3.
    + intros i j Hi%Hpr Hj%Hpr. rewrite (Ht i Hi), (Ht j Hj). by apply W4.
  - intros q. unfold owned. split; (intros [->|(i & Hi & Hq)]; [by left|right]); exists i.
    + apply Hpr in Hi. by rewrite (Ht i Hi) in Hq.
    + rewrite (Ht i Hi). by rewrite Hpr.
Qed.

(** Writes outside the table of an entry do not change it. *)
Lemma entry_agree m m' e pgdir l va :
  pt_wf m e pgdir l -> agree m m' pgdir -> 0 <= va ->
  (has (pde_of m pgdir va) PTE_P = true -> agree m m' (tab m pgdir (PDX va))) ->
  entry m' pgdir va = entry m pgdir va.
Proof.
  intros Hwf Had Hva Ha. destruct (dir_agree m m' e pgdir l Hwf Had) as (Hpde & Ht & Hwf' & _).
  pose proof (PTX_range va Hva).
  destruct (has (pde_of m pgdir va) PTE_P) eqn:E; [|unfold entry; by rewrite Hpde, E by done].
  rewrite (pte_word m' e pgdir l va) by (done || by rewrite Hpde).
  rewrite (pte_word m e pgdir l va) by done.
  rewrite Ht by (split; [by apply PDX_range|done]).
  apply read32_agree; [by apply Ha|unfold PGSIZE; lia..].
Qed.

(** Writes outside the owned pages do not matter. *)
Lemma pt_agree m m' e pgdir l :
  pt_wf m e pgdir l -> (forall q, owned m pgdir q -> agree m m' q) ->
  pt_wf m' e pgdir l /\ (forall va, 0 <= va -> entry m' pgdir va = entry m pgdir va) /\
  (forall q, owned m' pgdir q <-> owned m pgdir q).
Proof.
  intros Hwf Ha. assert (agree m m' pgdir) as Had by (apply Ha; by left).
  destruct (dir_agree m m' e pgdir l Hwf Had) as (_ & _ & Hwf' & Ho).
  split_and!; [done| |done]. intros va Hva. eapply entry_agree; [done..|].
  intros Hp. apply Ha. right. exists (PDX va). split; [|done]. split; [by apply PDX_range|done].
Qed.

(** ** Storing an entry *)

Lemma pages_disjoint e p q x k :
  is_page e p -> is_page e q -> p <> q -> V2P q <= x < V2P q + PGSIZE -> 0 <= k -> k + 4 <= PGSIZE ->
  x < V2P p + k \/ V2P p + k + 4 <= x.
Proof. intros Hp Hq Hne Hx Hk Hk4. destruct (pages_apart e p q Hp Hq Hne); lia. Qed.

Lemma write32_agree m e p q k v :
  is_page e p -> is_page e q -> p <> q -> 0 <= k -> k + 4 <= PGSIZE ->
  agree m (write32 m (V2P p + k) v) q.
Proof.
  intros Hp Hq Hne Hk Hk4 x Hx. unfold write32. apply upd_list_out. simpl.
  destruct (pages_disjoint e p q x k Hp Hq Hne Hx Hk Hk4); lia.
Qed.

Lemma store_pte m e pgdir l va v :
  pt_wf m e pgdir l -> 0 <= va < 2 ^ 32 -> has (pde_of m pgdir va) PTE_P = true ->
  0 <= v < 2 ^ 32 ->
  let t := tab m pgdir (PDX va) in
  let m' := write32 m (V2P t + 4 * PTX va) v in
  pt_wf m' e pgdir l /\
  (forall va', 0 <= va' < 2 ^ 32 -> entry m' pgdir va' =
     if decide (va' / PGSIZE = va / PGSIZE) then v else entry m pgdir va') /\
  (forall q, owned m' pgdir q <-> owned m pgdir q) /\
  (forall q, is_page e q -> ~ owned m pgdir q -> agree m m' q) /\
  (forall i, present m' pgdir i -> present m pgdir i).
Proof.
  intros Hwf Hva Hp Hv t m'. pose proof (PDX_range va ltac:(lia)) as Hdx.
  pose proof (PTX_range va ltac:(lia)) as Htx.
  pose proof Hwf as [W1 W2 W3 W4].
  destruct (W3 (PDX va)) as (Ht & Htd & _ & _); [done|]. fold t in Ht, Htd.
  assert (forall q, is_page e q -> q <> t -> agree m m' q) as Hag.
  { intros q Hq Hne. apply (write32_agree m e); [done..|by apply not_eq_sym|lia|unfold PGSIZE; lia]. }
  assert (agree m m' pgdir) as Had by (apply Hag; [done|by apply not_eq_sym]).
  destruct (dir_agree m m' e pgdir l Hwf Had) as (Hpde & Htab & Hwf' & Ho).
  split; [done|]. split_and!; [|done| |].
  - intros va' Hva'. pose proof (PTX_range va' ltac:(lia)) as Htx'.
    destruct (decide (PDX va' = PDX va)) as [Ex|Hne].
    + assert (has (pde_of m pgdir va') PTE_P = true) as Hp' by (unfold pde_of in *; by rewrite Ex).
      rewrite (pte_word m' e pgdir l va'), (pte_word m e pgdir l va')
        by (lia || done || (rewrite Hpde by lia; done)).
      rewrite Ex, Htab by done. fold t. unfold m'.
      destruct (decide (PTX va' = PTX va)) as [Et|Hnt].
      * rewrite decide_True by (by apply same_page). rewrite Et, read32_write32.
        by apply u32_small.
      * rewrite decide_False by (by intros [_ ?]%same_page). apply read32_write32_ne. lia.
    + rewrite decide_False by (by intros [? _]%same_page).
      apply (entry_agree m m' e pgdir l); [done..|lia|]. intros Hp'.
      assert (present m pgdir (PDX va')) as Hi by (split; [apply PDX_range; lia|done]).
      apply Hag; [by apply W3|]. intros Eq. apply Hne. by apply W4.
  - intros q Hq Hnq. apply Hag; [done|]. intros ->. apply Hnq. right. by exists (PDX va).
  - intros i [Hi H]. split; [done|]. by rewrite <- (dir_entry_agree m m' pgdir i Had Hi).
Qed.

(** ** [walkpgdir] *)

(** The state in which a page directory can be changed. *)
Record vm_ok (s : kstate) (pgdir : Z) (l : list Z) : Prop := {
  vm_ready : kmem_ready s;
  vm_free : free_pages s l;
  vm_pt : pt_wf (k_mem s) (k_end s) pgdir l }.

(** Only memory and the free list differ. *)
Definition only_mem (s s' : kstate) : Prop :=
  s' = set_k_mem (k_mem s') (set_k_kmem (set_km_freelist (km_freelist (k_kmem s')) (k_kmem s)) s).

(** [s'] has more tables than [s], no other page was written, and pages were
    taken off the free list [l] only, each to become a table. *)
Record grown (pgdir : Z) (s s' : kstate) (l l' : list Z) : Prop := {
  gr_vm : vm_ok s' pgdir l';
  gr_suffix : l' `suffix_of` l;
  gr_owned q : owned (k_mem s) pgdir q -> owned (k_mem s') pgdir q;
  gr_new q : owned (k_mem s') pgdir q -> owned (k_mem s) pgdir q \/ q ∈ l;
  gr_taken q : q ∈ l -> q ∈ l' \/ owned (k_mem s') pgdir q;
  gr_frame q : is_page (k_end s) q -> ~ owned (k_mem s') pgdir q -> agree (k_mem s) (k_mem s') q;
  gr_only : only_mem s s' }.

Lemma grown_refl pgdir s l : vm_ok s pgdir l -> grown pgdir s s l l.
Proof. intros H. split; try done; [by left|by left|by destruct s as [? []]]. Qed.

Lemma grown_trans pgdir s1 s2 s3 l1 l2 l3 :
  grown pgdir s1 s2 l1 l2 -> grown pgdir s2 s3 l2 l3 -> grown pgdir s1 s3 l1 l3.
Proof.
  intros [V1 S1 O1 N1 T1 F1 E1] [V2 S2 O2 N2 T2 F2 E2].
  assert (k_end s2 = k_end s1) as Ee by (rewrite E1; done).
  split; [done|by etrans|auto| | | |].
  - intros q [Hq|Hq]%N2; [by apply N1|]. right. destruct S1 as [k ->]. set_solver.
  - intros q [Hq|Hq]%T1; [by apply T2|right; by apply O2].
  - intros q Hq Ho x Hx. rewrite (F2 q) by (rewrite ?Ee; done).
    apply (F1 q); auto.
  - unfold only_mem in *. rewrite E2, E1. done.
Qed.

Lemma load_pde e pgdir va s :
  is_page e pgdir -> 0 <= va -> load32 (pgdir + 4 * PDX va) s = pde_of (k_mem s) pgdir va.
Proof.
  intros Hp Hva. pose proof (PDX_range va Hva). unfold load32, pde_of.
  by rewrite (V2P_off e) by (done || unfold PGSIZE; lia).
Qed.

Lemma walk_present pgdir va alloc l s :
  vm_ok s pgdir l -> 0 <= va -> has (pde_of (k_mem s) pgdir va) PTE_P = true ->
  walkpgdir pgdir va alloc s = Ret (tab (k_mem s) pgdir (PDX va) + 4 * PTX va) s.
Proof.
  intros [_ _ Hwf] Hva Hp. unfold walkpgdir. mrun.
  rewrite (load_pde (k_end s)) by (done || apply Hwf). by rewrite Hp.
Qed.

(** The table [walkpgdir] adds: a zeroed page and a directory entry. *)
Definition add_table (m : Z -> Z) (pgdir p va : Z) : Z -> Z :=
  write32 (memset m (V2P p) 0 PGSIZE) (V2P pgdir + 4 * PDX va) (mk_pte (V2P p) 7).

Lemma add_table_mem m e pgdir p va :
  is_page e pgdir -> is_page e p -> pgdir <> p -> 0 <= va < 2 ^ 32 ->
  let m' := add_table m pgdir p va in
  (forall q, is_page e q -> q <> pgdir -> q <> p -> agree m m' q) /\
  (forall i, 0 <= i < 1024 -> dir_entry m' pgdir i =
     if decide (i = PDX va) then mk_pte (V2P p) 7 else dir_entry m pgdir i) /\
  (forall k, 0 <= k -> k + 4 <= PGSIZE -> read32 m' (V2P p + k) = 0).
Proof.
  intros Hd Hp Hne Hva m'. pose proof (PDX_range va ltac:(lia)) as Hdx.
  set (m1 := memset m (V2P p) 0 PGSIZE).
  assert (forall q, is_page e q -> q <> p -> agree m m1 q) as Hag1.
  { intros q Hq Hqp x Hx. unfold m1. rewrite memset_fill by done. apply fill_out.
    destruct (pages_apart e p q Hp Hq); [by apply not_eq_sym|lia|lia]. }
  assert (forall q, is_page e q -> q <> pgdir -> agree m1 m' q) as Hag2.
  { intros q Hq Hqd. apply (write32_agree m1 e); [done..|by apply not_eq_sym|lia|unfold PGSIZE; lia]. }
  split_and!.
  - intros q Hq H1 H2 x Hx. rewrite (Hag2 q) by done. by apply (Hag1 q).
  - intros i Hi. unfold dir_entry, m', add_table. fold m1. case_decide as Hc.
    + rewrite Hc, read32_write32. apply u32_small.
      destruct (V2P_range e p Hp) as [Hpr Hpa]. apply mk_pte_spec; [done..|unfold PGSIZE; lia].
    + rewrite read32_write32_ne by lia. apply (dir_entry_agree m m1); [by apply Hag1|done].
  - intros k Hk Hk4. rewrite (read32_agree m1) by (try apply Hag2; done || congruence).
    unfold read32, read_list, m1.
    rewrite (map_ext_in _ (fun _ => 0)); [done|]. intros i [_ Hi]%in_seq.
    rewrite memset_fill by done. apply fill_in. unfold PGSIZE in *. lia.
Qed.

Lemma add_table_pt m e pgdir p l va :
  pt_wf m e pgdir (p :: l) -> NoDup (p :: l) -> is_page e p -> 0 <= va < 2 ^ 32 ->
  has (pde_of m pgdir va) PTE_P = false ->
  let m' := add_table m pgdir p va in
  pt_wf m' e pgdir l /\ tab m' pgdir (PDX va) = p /\
  has (pde_of m' pgdir va) PTE_P = true /\
  (forall q, owned m' pgdir q <-> owned m pgdir q \/ q = p) /\
  (forall i, present m' pgdir i <-> present m pgdir i \/ i = PDX va).
Proof.
  intros [W1 W2 W3 W4] Hnd Hpg Hva Hnp m'.
  pose proof (PDX_range va ltac:(lia)) as Hdx.
  destruct (V2P_range e p Hpg) as [Hpr Hpa].
  destruct (mk_pte_spec (V2P p) 7 Hpa Hpr) as (Hvr & Hvp & Hvad); [unfold PGSIZE; lia|].
  destruct (add_table_mem m e pgdir p va W1 Hpg) as (_ & Hd & _); [set_solver|done|]. fold m' in Hd.
  assert (forall i, present m' pgdir i <-> present m pgdir i \/ i = PDX va) as Hpres.
  { intros i. unfold present. split.
    - intros [Hi H]. rewrite Hd in H by done. case_decide; [by right|by left].
    - intros [[Hi H]| ->]; (split; [done|]); rewrite Hd by done; case_decide; subst; done. }
  assert (forall i, 0 <= i < 1024 -> tab m' pgdir i =
    if decide (i = PDX va) then p else tab m pgdir i) as Ht.
  { intros i Hi. unfold tab. rewrite Hd by done. case_decide; [|done].
    rewrite Hvad. by eapply P2V_V2P. }
  assert (forall i, present m pgdir i -> i <> PDX va) as Hold.
  { intros i [_ Hi] ->. unfold pde_of in Hnp. unfold dir_entry in Hi. congruence. }
  apply NoDup_cons in Hnd as [Hni _].
  split_and!; [| | | |exact Hpres].
  - split; [done|set_solver| |].
    + intros i Hi. rewrite Ht, Hd by apply Hi. apply Hpres in Hi as [Hi| ->].
      * rewrite !decide_False by by apply Hold. destruct (W3 i Hi) as (? & ? & ? & ?). set_solver.
      * rewrite !decide_True by done. split_and!; try done. set_solver.
    + intros i j Hi Hj. rewrite (Ht i), (Ht j) by (apply Hi || apply Hj).
      assert (forall k, present m pgdir k -> p <> tab m pgdir k) as Hnew.
      { intros k Hk E. destruct (W3 k Hk) as (_ & _ & Hn & _). rewrite <- E in Hn. set_solver. }
      apply Hpres in Hi as [Hi| ->], Hj as [Hj| ->];
        rewrite ?(decide_False _ _ (Hold _ Hi)), ?(decide_False _ _ (Hold _ Hj)), ?decide_True by done.
      * by apply W4.
      * intros E. by destruct (Hnew i).
      * intros E. by destruct (Hnew j).
      * done.
  - by rewrite Ht, decide_True.
  - change (pde_of m' pgdir va) with (dir_entry m' pgdir (PDX va)). by rewrite Hd, decide_True.
  - intros q. unfold owned. split.
    + intros [->|(i & Hi & Hq)]; [by left; left|]. rewrite Ht in Hq by apply Hi.
      apply Hpres in Hi as [Hi| ->].
      * rewrite decide_False in Hq by by apply Hold. left. right. by exists i.
      * rewrite decide_True in Hq by done. by right.
    + intros [[->|(i & Hi & Hq)]| ->]; [by left|right..].
      * exists i. split; [apply Hpres; by left|]. rewrite Ht, decide_False by (apply Hi || by apply Hold).
        done.
      * exists (PDX va). split; [apply Hpres; by right|]. by rewrite Ht, decide_True.
Qed.

Lemma add_table_entry m e pgdir p l va va' :
  pt_wf m e pgdir (p :: l) -> NoDup (p :: l) -> is_page e p -> 0 <= va < 2 ^ 32 ->
  has (pde_of m pgdir va) PTE_P = false -> 0 <= va' < 2 ^ 32 ->
  entry (add_table m pgdir p va) pgdir va' = entry m pgdir va'.
Proof.
  intros Hwf Hnd Hpg Hva Hnp Hva'.
  destruct (add_table_pt m e pgdir p l va Hwf Hnd Hpg Hva Hnp) as (Hwf' & Htab & Hp & _ & _).
  pose proof Hwf as [W1 W2 W3 W4].
  destruct (add_table_mem m e pgdir p va W1 Hpg) as (Hag & Hd & Hz); [set_solver|done|].
  pose proof (PDX_range va' ltac:(lia)) as Hdx. pose proof (PTX_range va' ltac:(lia)) as Htx.
  destruct (decide (PDX va' = PDX va)) as [Ex|Hne].
  - rewrite (pte_word _ e pgdir l va') by (done || lia || (unfold pde_of in *; by rewrite Ex)).
    rewrite Ex, Htab, Hz by (unfold PGSIZE; lia). unfold entry.
    unfold pde_of in *. rewrite Ex. by rewrite Hnp.
  - assert (pde_of (add_table m pgdir p va) pgdir va' = pde_of m pgdir va') as Hpde.
    { change (dir_entry (add_table m pgdir p va) pgdir (PDX va') = dir_entry m pgdir (PDX va')).
      by rewrite Hd, decide_False by done. }
    destruct (has (pde_of m pgdir va') PTE_P) eqn:E; [|unfold entry; by rewrite Hpde, E].
    rewrite (pte_word _ e pgdir l va') by (done || lia || by rewrite Hpde).
    rewrite (pte_word m e pgdir (p :: l) va') by (done || lia).
    assert (present m pgdir (PDX va')) as Hi by done.
    assert (tab (add_table m pgdir p va) pgdir (PDX va') = tab m pgdir (PDX va')) as ->.
    { unfold tab. by rewrite Hd, decide_False by done. }
    destruct (W3 _ Hi) as (Hq & Hqd & Hql & _).
    apply read32_agree; [apply Hag; [done..|set_solver]|unfold PGSIZE; lia..].
Qed.

(** [walkpgdir] with [alloc] and no table, by what [kalloc] returns. *)
Lemma walk_kalloc pgdir va l s r s' :
  vm_ok s pgdir l -> 0 <= va < 2 ^ 32 -> has (pde_of (k_mem s) pgdir va) PTE_P = false ->
  kalloc s = Ret r s' -> walkpgdir pgdir va true s =
    if r =? 0 then Ret 0 s' else Ret (r + 4 * PTX va) (set_k_mem (add_table (k_mem s') pgdir r va) s').
Proof.
  intros [Hr Hf Hwf] Hva Hp E. pose proof (wf_dir _ _ _ _ Hwf) as Hd. unfold walkpgdir. mrun.
  rewrite (load_pde (k_end s)) by (done || lia). rewrite Hp. mrun. mstep E.
  destruct (r =? 0); [done|]. mrun. unfold ret, store32, kmemset, add_table. kred.
  rewrite (V2P_off (k_end s)) by (done || pose proof (PDX_range va ltac:(lia)); unfold PGSIZE; lia).
  unfold mk_pte. by rewrite <- !(Z.lor_assoc (V2P r)).
Qed.

(** A table is made of the first free page. *)
Definition table_added (pgdir va p : Z) (s : kstate) : kstate :=
  set_k_mem (add_table (k_mem s) pgdir p va) (set_freelist (load32 p s) s).

Lemma walk_new pgdir va p l s :
  vm_ok s pgdir (p :: l) -> 0 <= va < 2 ^ 32 -> has (pde_of (k_mem s) pgdir va) PTE_P = false ->
  let s' := table_added pgdir va p s in
  walkpgdir pgdir va true s = Ret (tab (k_mem s') pgdir (PDX va) + 4 * PTX va) s' /\
  grown pgdir s s' (p :: l) l /\ has (pde_of (k_mem s') pgdir va) PTE_P = true /\
  tab (k_mem s') pgdir (PDX va) = p /\
  (forall va', 0 <= va' < 2 ^ 32 -> entry (k_mem s') pgdir va' = entry (k_mem s) pgdir va') /\
  (forall i, present (k_mem s') pgdir i -> present (k_mem s) pgdir i \/ i = PDX va).
Proof.
  intros Hvm Hva Hp. pose proof Hvm as [Hr Hf Hwf]. pose proof (wf_dir _ _ _ _ Hwf) as Hd.
  destruct (kalloc_pop p l s Hr Hf) as [E Hf']. pose proof Hf as [Hnd (_ & Hpg & _)].
  unfold table_added. set (s1 := set_freelist (load32 p s) s) in *. cbv zeta. kred.
  destruct (add_table_pt _ _ _ _ _ _ Hwf Hnd Hpg Hva Hp) as (Hwf' & Htab & Hp' & Ho & Hpres).
  destruct (add_table_mem (k_mem s) (k_end s) pgdir p va Hd Hpg) as (Hag & _ & _);
    [pose proof (wf_dir_used _ _ _ _ Hwf); set_solver|done|].
  split_and!; [| |done|done| |intros i; apply Hpres].
  - rewrite (walk_kalloc _ _ _ _ _ _ Hvm Hva Hp E), (proj2 (Z.eqb_neq _ _)) by by eapply is_page_nonzero.
    by rewrite Htab.
  - apply NoDup_cons in Hnd as [Hni Hnd]. split; kred.
    + split; [exact Hr| |done]. destruct Hf' as [_ Hch]. split; [done|]. kred.
      eapply chain_ext; [|exact Hch]. intros q x Hq Hqp Hx. kred. apply (Hag q); [done| | |done].
      * intros ->. pose proof (wf_dir_used _ _ _ _ Hwf). set_solver.
      * by intros ->.
    + by exists [p].
    + intros q Hq. apply Ho. by left.
    + intros q [Hq| ->]%Ho; [by left|right; by left].
    + intros q [->|Hq]%elem_of_cons; [right; apply Ho; by right|by left].
    + intros q Hq Hnq. apply Hag; [done|..]; intros ->; apply Hnq, Ho; [left; by left|by right].
    + unfold only_mem. kred. by destruct s as [? []].
  - intros va' Hva'. by eapply add_table_entry.
Qed.

(** [walkpgdir] with [alloc]: out of memory, or a pointer to the entry, with
    every entry as before. *)
Lemma walk_alloc pgdir va l s :
  vm_ok s pgdir l -> 0 <= va < 2 ^ 32 ->
  (l = [] /\ walkpgdir pgdir va true s = Ret 0 s) \/
  (exists s' l',
     walkpgdir pgdir va true s = Ret (tab (k_mem s') pgdir (PDX va) + 4 * PTX va) s' /\
     grown pgdir s s' l l' /\ has (pde_of (k_mem s') pgdir va) PTE_P = true /\
     (forall va', 0 <= va' < 2 ^ 32 ->
       entry (k_mem s') pgdir va' = entry (k_mem s) pgdir va') /\
     (forall i, present (k_mem s') pgdir i -> present (k_mem s) pgdir i \/ i = PDX va)).
Proof.
  intros Hvm Hva. destruct (has (pde_of (k_mem s) pgdir va) PTE_P) eqn:Hp.
  { right. exists s, l. split; [apply (walk_present pgdir va true l); [done|lia|done]|].
    split_and!; [by apply grown_refl|done|done|by left]. }
  destruct l as [|p l].
  - left. split; [done|].
    by rewrite (walk_kalloc _ _ _ _ _ _ Hvm Hva Hp (kalloc_empty s (vm_ready _ _ _ Hvm) (vm_free _ _ _ Hvm))).
  - right. exists (table_added pgdir va p s), l.
    destruct (walk_new pgdir va p l s Hvm Hva Hp) as (E & G & Hp' & _ & He & Hpr). done.
Qed.

(** A store through that pointer. *)
Lemma store_entry pgdir va v l s :
  vm_ok s pgdir l -> 0 <= va < 2 ^ 32 -> has (pde_of (k_mem s) pgdir va) PTE_P = true ->
  0 <= v < 2 ^ 32 ->
  let s' := store32 (tab (k_mem s) pgdir (PDX va) + 4 * PTX va) v s in
  grown pgdir s s' l l /\
  (forall va', 0 <= va' < 2 ^ 32 -> entry (k_mem s') pgdir va' =
     if decide (va' / PGSIZE = va / PGSIZE) then v else entry (k_mem s) pgdir va') /\
  (forall i, present (k_mem s') pgdir i -> present (k_mem s) pgdir i).
Proof.
  intros [Hr Hf Hwf] Hva Hp Hv s'.
  destruct (store_pte _ _ _ _ va v Hwf Hva Hp Hv) as (Hwf' & He & Ho & Hag & Hpr).
  assert (present (k_mem s) pgdir (PDX va)) as Hi by (split; [apply PDX_range; lia|done]).
  destruct (wf_tab _ _ _ _ Hwf _ Hi) as (Ht & _).
  assert (k_mem s' = write32 (k_mem s) (V2P (tab (k_mem s) pgdir (PDX va)) + 4 * PTX va) v) as Em.
  { subst s'. unfold store32. kred. f_equal. apply (V2P_off (k_end s)); [done|].
    pose proof (PTX_range va ltac:(lia)). unfold PGSIZE. lia. }
  split; [|by rewrite Em]. split; rewrite ?Em.
  - split; [exact Hr| |by rewrite Em]. destruct Hf as [Hnd Hch]. split; [done|].
    rewrite Em. eapply chain_ext; [|exact Hch]. intros q x Hq Hqp Hx. apply (Hag q); [done| |done].
    intros [->|(i & Hi' & <-)].
    + by destruct (wf_dir_used _ _ _ _ Hwf).
    + by destruct (wf_tab _ _ _ _ Hwf i Hi') as (_ & _ & ? & _).
  - done.
  - intros q. apply Ho.
  - intros q Hq. left. by apply Ho.
  - by left.
  - intros q Hq Hnq. apply Hag; [done|]. by rewrite <- Ho.
  - unfold only_mem. subst s'. unfold store32. kred. by destruct s as [? []].
Qed.

Lemma load_entry pgdir va l s :
  vm_ok s pgdir l -> 0 <= va < 2 ^ 32 -> has (pde_of (k_mem s) pgdir va) PTE_P = true ->
  load32 (tab (k_mem s) pgdir (PDX va) + 4 * PTX va) s = entry (k_mem s) pgdir va /\
  tab (k_mem s) pgdir (PDX va) + 4 * PTX va <> 0.
Proof.
  intros [Hr Hf Hwf] Hva Hp. pose proof (PTX_range va ltac:(lia)) as Htx.
  assert (present (k_mem s) pgdir (PDX va)) as Hi by (split; [apply PDX_range; lia|done]).
  destruct (wf_tab _ _ _ _ Hwf _ Hi) as (Ht & _).
  rewrite (pte_word _ _ _ _ _ Hwf) by (lia || done). unfold load32.
  rewrite (V2P_off (k_end s)) by (done || unfold PGSIZE; lia). split; [done|].
  destruct Ht as (_ & _ & Ht). unfold KERNBASE in *. lia.
Qed.

(** ** [mappages] *)

Lemma page_of a va :
  a mod PGSIZE = 0 -> (va / PGSIZE = a / PGSIZE <-> a <= va < a + PGSIZE).
Proof.
  intros Ha. pose proof (Z.div_mod va PGSIZE). pose proof (Z.mod_pos_bound va PGSIZE).
  pose proof (Z.div_mod a PGSIZE). unfold PGSIZE in *. lia.
Qed.

(** One round: the page of [a] is mapped, or memory is short. *)
Lemma mappages_round pgdir a pa perm last l s fuel :
  vm_ok s pgdir l -> 0 <= a < 2 ^ 32 -> pa mod PGSIZE = 0 -> 0 <= pa < 2 ^ 32 ->
  0 <= perm < PGSIZE -> has (entry (k_mem s) pgdir a) PTE_P = false ->
  (l = [] /\ mappages_loop (S fuel) pgdir a last pa perm s = Ret (-1) s) \/
  (exists s' l', mappages_loop (S fuel) pgdir a last pa perm s =
      (if a =? last then ret 0
       else mappages_loop fuel pgdir (u32 (a + PGSIZE)) last (u32 (pa + PGSIZE)) perm) s' /\
    grown pgdir s s' l l' /\
    (forall va, 0 <= va < 2 ^ 32 -> entry (k_mem s') pgdir va =
      if decide (va / PGSIZE = a / PGSIZE) then mk_pte pa perm else entry (k_mem s) pgdir va) /\
    (forall i, present (k_mem s') pgdir i -> present (k_mem s) pgdir i \/ i = PDX a)).
Proof.
  intros Hvm Ha Hpa Hpr Hperm Hnp.
  destruct (walk_alloc pgdir a l s Hvm Ha) as [[-> E]|(s1 & l1 & E & G & Hp & He & Hpi)].
  { left. split; [done|]. cbn [mappages_loop]. by mstep E. }
  right. destruct (load_entry pgdir a l1 s1 (gr_vm _ _ _ _ _ G) Ha Hp) as [Hl Hnz].
  destruct (mk_pte_spec pa perm Hpa Hpr Hperm) as (Hv & _ & _).
  destruct (store_entry pgdir a (mk_pte pa perm) l1 s1 (gr_vm _ _ _ _ _ G) Ha Hp Hv) as (G2 & He2 & Hpi2).
  eexists _, l1. split_and!; [|by eapply grown_trans| |].
  - cbn [mappages_loop]. mstep E. rewrite (proj2 (Z.eqb_neq _ _) Hnz). mrun.
    rewrite Hl, He, Hnp by done. mrun. done.
  - intros va Hva. rewrite He2 by done. case_decide; [done|]. by apply He.
  - intros i Hi. by apply Hpi, Hpi2.
Qed.

Lemma mappages_loop_ok pgdir perm : 0 <= perm < PGSIZE -> forall n a pa l s fuel,
  vm_ok s pgdir l -> a mod PGSIZE = 0 -> pa mod PGSIZE = 0 -> 0 <= a -> 0 <= pa ->
  a + (Z.of_nat n + 1) * PGSIZE <= 2 ^ 32 -> pa + (Z.of_nat n + 1) * PGSIZE <= 2 ^ 32 ->
  (n < fuel)%nat ->
  (forall va, a <= va < a + (Z.of_nat n + 1) * PGSIZE ->
     has (entry (k_mem s) pgdir va) PTE_P = false) ->
  exists r s' l',
    mappages_loop fuel pgdir a (a + Z.of_nat n * PGSIZE) pa perm s = Ret r s' /\
    grown pgdir s s' l l' /\
    (forall va, 0 <= va < 2 ^ 32 -> ~ a <= va < a + (Z.of_nat n + 1) * PGSIZE ->
       entry (k_mem s') pgdir va = entry (k_mem s) pgdir va) /\
    (forall i, present (k_mem s') pgdir i -> present (k_mem s) pgdir i \/
       exists va, a <= va < a + (Z.of_nat n + 1) * PGSIZE /\ i = PDX va) /\
    ((r = 0 /\ forall va, a <= va < a + (Z.of_nat n + 1) * PGSIZE ->
        entry (k_mem s') pgdir va = mk_pte (pa + (va / PGSIZE * PGSIZE - a)) perm) \/
     (r = -1 /\ l' = [])).
Proof.
  intros Hperm. induction n as [|n IH]; intros a pa l s fuel Hvm Ha Hpa Ha0 Hpa0 Hhi Hphi Hf Hnp;
    (destruct fuel as [|fuel]; [lia|]);
    match goal with |- context [mappages_loop _ _ _ ?last _ _ _] => set (last' := last) end;
    (destruct (mappages_round pgdir a pa perm last' l s fuel)
      as [[-> E]|(s1 & l1 & E & G & He & Hpi)];
      [done|unfold PGSIZE in *; lia|done|unfold PGSIZE in *; lia|done
      |apply Hnp; unfold PGSIZE in *; lia|by exists (-1), s, []; split_and!; auto using grown_refl|]).
  - exists 0, s1, l1. rewrite E. unfold last'. rewrite (proj2 (Z.eqb_eq _ _)) by lia.
    split_and!; [done|done| |intros i [?| ->]%Hpi; [by left|right; exists a; split; [unfold PGSIZE; lia|done]]
      |left; split; [done|]]; intros va Hva; [intros Hout|].
    + rewrite He, decide_False; [done| |done]. rewrite page_of by done. lia.
    + assert (va / PGSIZE = a / PGSIZE) as Eq by (apply page_of; [done|lia]).
      rewrite He by (unfold PGSIZE in *; lia). rewrite decide_True by done. f_equal.
      rewrite Eq. pose proof (Z.div_mod a PGSIZE). unfold PGSIZE in *. lia.
  - rewrite (proj2 (Z.eqb_neq _ _)) in E by (unfold last', PGSIZE in *; lia).
    rewrite !u32_small in E by (unfold PGSIZE in *; lia).
    replace last' with (a + PGSIZE + Z.of_nat n * PGSIZE) in * by (unfold last', PGSIZE; lia).
    assert (forall x, x mod PGSIZE = 0 -> (x + PGSIZE) mod PGSIZE = 0) as Hal.
    { intros x Hx. rewrite Z.add_mod, Hx, Z_mod_same_full by (unfold PGSIZE; lia). done. }
    destruct (IH (a + PGSIZE) (pa + PGSIZE) l1 s1 fuel) as (r & s2 & l2 & E2 & G2 & Hout & Hpi2 & Hres);
      [apply G|by apply Hal|by apply Hal|unfold PGSIZE in *; lia..| |].
    { intros va Hva. rewrite He by (unfold PGSIZE in *; lia).
      rewrite decide_False by (rewrite page_of by done; lia).
      apply Hnp. unfold PGSIZE in *. lia. }
    exists r, s2, l2. split; [by rewrite E|]. split; [by eapply grown_trans|]. split; [|split].
    + intros va Hva Hnot. rewrite Hout by (unfold PGSIZE in *; lia). rewrite He by done.
      rewrite decide_False; [done|]. rewrite page_of by done. unfold PGSIZE in *. lia.
    + intros i [[?| ->]%Hpi|(va & Hva & ->)]%Hpi2; [by left|right; exists a|right; exists va];
        (split; [unfold PGSIZE in *; lia|done]).
    + destruct Hres as [[-> Hin]|Hfail]; [left|by right]. split; [done|]. intros va Hva.
      destruct (decide (va < a + PGSIZE)) as [Hlt|Hge].
      * rewrite Hout by (unfold PGSIZE in *; lia). rewrite He by (unfold PGSIZE in *; lia).
        assert (va / PGSIZE = a / PGSIZE) as Eq by (apply page_of; [done|lia]).
        rewrite decide_True by done. f_equal. rewrite Eq.
        pose proof (Z.div_mod a PGSIZE). unfold PGSIZE in *. lia.
      * rewrite Hin by (unfold PGSIZE in *; lia). f_equal. unfold PGSIZE. lia.
Qed.

(** The pages that hold the bytes from [va] on. *)
Definition page_lo (va : Z) : Z := PGROUNDDOWN va.
Definition page_hi (va size : Z) : Z := PGROUNDDOWN (va + size - 1) + PGSIZE.

Lemma mmu_same m m' pgdir va :
  entry m' pgdir va = entry m pgdir va -> mmu m' pgdir va = mmu m pgdir va.
Proof. intros E. by rewrite !mmu_entry, E. Qed.

(** [mappages] on a well-formed directory and addresses that are not mapped yet. *)
Lemma mappages_ok pgdir va size pa perm l s :
  vm_ok s pgdir l -> 0 <= va -> 0 < size -> va + size <= 2 ^ 32 ->
  pa mod PGSIZE = 0 -> 0 <= pa -> pa + (page_hi va size - page_lo va) <= 2 ^ 32 ->
  0 <= perm < PGSIZE ->
  (forall va', page_lo va <= va' < page_hi va size -> mmu (k_mem s) pgdir va' = None) ->
  exists r s' l', mappages pgdir va size pa perm s = Ret r s' /\ grown pgdir s s' l l' /\
    (forall va', 0 <= va' < 2 ^ 32 -> ~ page_lo va <= va' < page_hi va size ->
       mmu (k_mem s') pgdir va' = mmu (k_mem s) pgdir va') /\
    (forall i, present (k_mem s') pgdir i -> present (k_mem s) pgdir i \/
       exists va', page_lo va <= va' < page_hi va size /\ i = PDX va') /\
    ((r = 0 /\ forall va', page_lo va <= va' < page_hi va size ->
        mmu (k_mem s') pgdir va' = Some (pa + (va' - page_lo va))) \/
     (r = -1 /\ l' = [])).
Proof.
  intros Hvm Hva Hsz Hhi Hpa Hpa0 Hphi Hperm Hnp. unfold page_lo, page_hi in *.
  rewrite !PGROUNDDOWN_floor in * by lia. unfold mappages.
  rewrite (u32_small (va + size - 1)), !PGROUNDDOWN_floor by lia.
  set (a := va / PGSIZE * PGSIZE) in *. set (last := (va + size - 1) / PGSIZE * PGSIZE) in *.
  assert (a mod PGSIZE = 0) as Ha by (apply Z.mod_mul; unfold PGSIZE; lia).
  assert (0 <= a /\ a <= last /\ last + PGSIZE <= 2 ^ 32) as (Ha0 & Hal & Hlast).
  { subst a last. pose proof (Z.div_le_mono va (va + size - 1) PGSIZE).
    pose proof (Z.div_mod (va + size - 1) PGSIZE). pose proof (Z.mod_pos_bound (va + size - 1) PGSIZE).
    pose proof (Z.div_pos va PGSIZE). unfold PGSIZE in *. lia. }
  set (n := Z.to_nat ((last - a) / PGSIZE)).
  assert (last = a + Z.of_nat n * PGSIZE) as Hn.
  { subst n. rewrite Z2Nat.id by (apply Z.div_pos; unfold PGSIZE in *; lia).
    assert (((last - a) / PGSIZE) * PGSIZE = last - a); [|lia].
    subst a last. rewrite <- Z.mul_sub_distr_r, Z.div_mul by (unfold PGSIZE; lia). done. }
  rewrite u32_small by lia. fold n.
  assert (forall x, a <= x < a + (Z.of_nat n + 1) * PGSIZE <-> a <= x < last + PGSIZE) as Hrng
    by (intros; unfold PGSIZE in *; lia).
  destruct (mappages_loop_ok pgdir perm Hperm n a pa l s (S n) Hvm Ha Hpa Ha0 Hpa0)
    as (r & s' & l' & E & G & Hout & Hpi & Hres); [unfold PGSIZE in *; lia..| |].
  { intros va' Hva'%Hrng. specialize (Hnp va' Hva'). rewrite mmu_entry in Hnp.
    by destruct (has _ _). }
  exists r, s', l'. rewrite Hn. split; [done|]. split; [done|]. split; [|split].
  - intros va' Hr' Hnot. apply mmu_same, Hout; [done|]. rewrite Hrng. lia.
  - intros i [?|(va' & Hv' & ->)]%Hpi; [by left|right]. exists va'. split; [|done]. rewrite Hrng in Hv'. lia.
  - destruct Hres as [[-> Hin]|Hfail]; [left|by right]. split; [done|]. intros va' Hva'.
    rewrite mmu_entry, Hin by (apply Hrng; lia).
    assert (a <= va' / PGSIZE * PGSIZE < last + PGSIZE) as Hfl.
    { pose proof (Z.div_mod va' PGSIZE). pose proof (Z.mod_pos_bound va' PGSIZE).
      pose proof (Z.div_mod a PGSIZE). unfold PGSIZE in *. lia. }
    destruct (mk_pte_spec (pa + (va' / PGSIZE * PGSIZE - a)) perm) as (_ & -> & ->); [|lia|done|].
    + rewrite Z.add_mod, Hpa, Zminus_mod, Ha, Z.mod_mul by (unfold PGSIZE; lia). done.
    + f_equal. pose proof (Z.div_mod va' PGSIZE). unfold PGSIZE in *. lia.
Qed.

(** [mappages] builds the translation it is asked for.  On a well-formed
    page directory and addresses that are not mapped yet it returns 0 and
    then every address of the pages holding [va .. va+size) translates to
    the corresponding one from [pa] on, or it returns -1, only when no page
    is free any more; in both cases no other address translates differently,
    the directory stays well-formed, new tables come from the free list and
    no page outside the tables is written. *)
Theorem mappages_maps pgdir va size pa perm l s :
  vm_ok s pgdir l -> 0 <= va -> 0 < size -> va + size <= 2 ^ 32 ->
  pa mod PGSIZE = 0 -> 0 <= pa -> pa + (page_hi va size - page_lo va) <= 2 ^ 32 ->
  0 <= perm < PGSIZE ->
  (forall va', page_lo va <= va' < page_hi va size -> mmu (k_mem s) pgdir va' = None) ->
  exists r s' l', mappages pgdir va size pa perm s = Ret r s' /\ grown pgdir s s' l l' /\
    (forall va', 0 <= va' < 2 ^ 32 -> ~ page_lo va <= va' < page_hi va size ->
       mmu (k_mem s') pgdir va' = mmu (k_mem s) pgdir va') /\
    ((r = 0 /\ forall va', page_lo va <= va' < page_hi va size ->
        mmu (k_mem s') pgdir va' = Some (pa + (va' - page_lo va))) \/
     (r = -1 /\ l' = [])).
Proof.
  intros. destruct (mappages_ok pgdir va size pa perm l s) as (r & s' & l' & E & G & Ho & _ & H'); [done..|].
  by exists r, s', l'.
Qed.

(** A page that is mapped already is caught. *)
Lemma mappages_remap pgdir va size pa perm l s :
  vm_ok s pgdir l -> 0 <= va < 2 ^ 32 -> is_Some (mmu (k_mem s) pgdir (page_lo va)) ->
  mappages pgdir va size pa perm s = Panic "remap" s.
Proof.
  intros Hvm Hva [x Hx]. unfold mappages, page_lo in *.
  assert (0 <= PGROUNDDOWN va < 2 ^ 32) as Hr.
  { rewrite PGROUNDDOWN_floor by done. pose proof (Z.div_mod va PGSIZE).
    pose proof (Z.mod_pos_bound va PGSIZE). pose proof (Z.div_pos va PGSIZE). unfold PGSIZE in *. lia. }
  set (a := PGROUNDDOWN va) in *. cbn [mappages_loop].
  assert (has (pde_of (k_mem s) pgdir a) PTE_P = true /\
    has (entry (k_mem s) pgdir a) PTE_P = true) as [Hp He].
  { unfold mmu in Hx. unfold entry. destruct (has (pde_of _ _ _) _), (has (pte_of _ _ _) _) eqn:E; done. }
  mstep (walk_present pgdir a true l s Hvm ltac:(lia) Hp).
  destruct (load_entry pgdir a l s Hvm Hr Hp) as [Hl Hnz].
  rewrite (proj2 (Z.eqb_neq _ _) Hnz). mrun. by rewrite Hl, He.
Qed.

(** A page of zeros is a directory that maps nothing. *)
Lemma zero_dir m e pgdir l :
  is_page e pgdir -> pgdir ∉ l -> (forall x, V2P pgdir <= x < V2P pgdir + PGSIZE -> m x = 0) ->
  pt_wf m e pgdir l /\ (forall va, 0 <= va -> mmu m pgdir va = None) /\
  (forall q, owned m pgdir q <-> q = pgdir).
Proof.
  intros Hp Hl Hz. assert (forall i, 0 <= i < 1024 -> dir_entry m pgdir i = 0) as Hd.
  { intros i Hi. unfold dir_entry, read32, read_list.
    rewrite (map_ext_in _ (fun _ => 0)); [done|]. intros j [_ Hj]%in_seq. apply Hz.
    unfold PGSIZE. lia. }
  assert (forall i, ~ present m pgdir i) as Hn by (intros i [Hi H]; by rewrite Hd in H).
  split_and!.
  - split; [done..| |]; [intros i Hi|intros i j Hi]; by destruct (Hn i).
  - intros va Hva. unfold mmu. change (pde_of m pgdir va) with (dir_entry m pgdir (PDX va)).
    by rewrite Hd by by apply PDX_range.
  - intros q. split; [|by left]. intros [->|(i & Hi & _)]; [done|by destruct (Hn i)].
Qed.

(** The pages a directory owns are not free. *)
Lemma owned_used m e pgdir l q :
  pt_wf m e pgdir l -> owned m pgdir q -> is_page e q /\ q ∉ l.
Proof.
  intros [W1 W2 W3 W4] [->|(i & Hi & <-)]; [done|]. destruct (W3 i Hi) as (? & _ & ? & _). done.
Qed.

(** Taking a page off the free list and writing to it. *)
Lemma vm_ok_take pgdir p l s m' :
  vm_ok s pgdir (p :: l) ->
  (forall q, is_page (k_end s) q -> q <> p -> agree (k_mem s) m' q) ->
  let s' := set_k_mem m' (set_freelist (load32 p s) s) in
  kalloc s = Ret p (set_freelist (load32 p s) s) /\ p <> 0 /\ vm_ok s' pgdir l /\
  (forall va, 0 <= va -> entry m' pgdir va = entry (k_mem s) pgdir va) /\
  (forall q, owned m' pgdir q <-> owned (k_mem s) pgdir q).
Proof.
  intros [Hr Hf Hwf] Hag s'. destruct (kalloc_pop p l s Hr Hf) as [E Hf'].
  pose proof Hf as [Hnd (_ & Hpg & _)]. apply NoDup_cons in Hnd as [Hni Hnd].
  destruct (pt_agree (k_mem s) m' (k_end s) pgdir (p :: l) Hwf) as (Hwf' & He & Ho).
  { intros q Ho. destruct (owned_used _ _ _ _ _ Hwf Ho) as [Hq Hql].
    apply Hag; [done|]. intros ->. apply Hql. by left. }
  split; [done|]. split; [by eapply is_page_nonzero|]. split; [|done]. split; [exact Hr| |].
  - destruct Hf' as [_ Hch]. split; [done|]. eapply chain_ext; [|exact Hch].
    intros q x Hq Hqp Hx. apply (Hag q); [done| |done]. by intros ->.
  - destruct Hwf' as [W1 W2 W3 W4]. split; [done|set_solver| |done].
    intros i Hi. destruct (W3 i Hi) as (? & ? & ? & ?). set_solver.
Qed.

(** Filling a page leaves the others alone. *)
Lemma memset_page_agree m e p q c : is_page e p -> is_page e q -> q <> p ->
  agree m (memset m (V2P p) c PGSIZE) q.
Proof.
  intros Hp Hq Hne x Hx. rewrite memset_fill by done. rewrite fill_out; [done|].
  destruct (pages_apart e p q Hp Hq); [by apply not_eq_sym|lia|lia].
Qed.

Lemma vm_ok_alloc pgdir p l s c :
  vm_ok s pgdir (p :: l) ->
  let s' := kmemset p c PGSIZE (set_freelist (load32 p s) s) in
  kalloc s = Ret p (set_freelist (load32 p s) s) /\ p <> 0 /\ vm_ok s' pgdir l /\
  forall va, 0 <= va -> entry (k_mem s') pgdir va = entry (k_mem s) pgdir va.
Proof.
  intros Hvm s'. pose proof (vm_free _ _ _ Hvm) as [_ (_ & Hpg & _)].
  destruct (vm_ok_take pgdir p l s (memset (k_mem s) (V2P p) c PGSIZE) Hvm)
    as (E & Hnz & Hvm' & He & _); [|done].
  intros q Hq Hne. by apply (memset_page_agree _ (k_end s)).
Qed.

(** An empty directory and one free page. *)
Definition demo_vm : kstate := freed 0x80402000 demo_boot.

Lemma demo_vm_ok : vm_ok demo_vm 0x80400000 [0x80402000] /\
  (forall va, 0 <= va -> mmu (k_mem demo_vm) 0x80400000 va = None) /\
  (forall q, owned (k_mem demo_vm) 0x80400000 q <-> q = 0x80400000).
Proof.
  assert (is_page (k_end demo_boot) 0x80402000) as Hp by by_eval.
  destruct (zero_dir (k_mem demo_vm) (k_end demo_boot) 0x80400000 [0x80402000]) as (Hwf & Hn);
    [by_eval..| |].
  { intros x Hx. change (V2P 0x80400000) with 0x400000 in Hx. unfold demo_vm.
    rewrite (freed_mem_out _ _ (k_end demo_boot)) by (done || (change (V2P 0x80402000) with 0x402000;
      unfold PGSIZE in *; lia)).
    change (k_mem demo_boot) with (demo_mem [] []). unfold demo_mem, write32.
    rewrite !upd_list_out; [done|simpl; lia..]. }
  split; [|done]. split; [by_eval| |done].
  apply (kfree_push _ _ []); [split; [constructor|reflexivity]|done|by_eval].
Qed.

Lemma mappages_maps_witness :
  exists r s' l', mappages 0x80400000 0x5008 0x1000 0x7000 6 demo_vm = Ret r s' /\
    grown 0x80400000 demo_vm s' [0x80402000] l' /\
    (forall va', 0 <= va' < 2 ^ 32 -> ~ page_lo 0x5008 <= va' < page_hi 0x5008 0x1000 ->
       mmu (k_mem s') 0x80400000 va' = mmu (k_mem demo_vm) 0x80400000 va') /\
    ((r = 0 /\ forall va', page_lo 0x5008 <= va' < page_hi 0x5008 0x1000 ->
        mmu (k_mem s') 0x80400000 va' = Some (0x7000 + (va' - page_lo 0x5008))) \/
     (r = -1 /\ l' = [])).
Proof.
  apply (mappages_maps 0x80400000 0x5008 0x1000 0x7000 6 [0x80402000] demo_vm);
    [apply demo_vm_ok|by_eval..|split; by_eval|].
  intros va' [Hlo _]. apply demo_vm_ok. etransitivity; [|exact Hlo]. by_eval.
Defined.
