(* ===== verification/Freevm.v ===== *)
(** Giving an address space back: [deallocuvm] and [freevm] of vm.c.

    [uvm_ok] is a page directory with the pages of a process: every user page
    is a page of its own, neither free nor a page table.  [deallocuvm] puts
    the user pages of a range on the free list and leaves the rest of the
    address space as it was; [freevm] puts all of it there, the user pages,
    the page tables and the directory, each once and nothing else. *)

From stdpp Require Import base list sets strings.
From Stdlib Require Import ZArith Lia.
From S2P Require Import Prelude State Demo CString Sched Kalloc Vm PageTable.

Open Scope Z_scope.
Open Scope kernel_scope.

(** ** User pages *)

(** The page [va] is in, as a kernel pointer. *)
Definition page_at (m : Z -> Z) (pgdir va : Z) : Z := P2V (PTE_ADDR (entry m pgdir va)).

Definition mapped (m : Z -> Z) (pgdir va : Z) : Prop :=
  0 <= va < KERNBASE /\ has (entry m pgdir va) PTE_P = true.

(** A page of the user's half of the address space. *)
Definition user_page (m : Z -> Z) (pgdir q : Z) : Prop :=
  exists va, mapped m pgdir va /\ page_at m pgdir va = q.

(** [uvm_end]: the kernel is linked above [KERNBASE]. *)
Record uvm_ok (s : kstate) (pgdir : Z) (l : list Z) : Prop := {
  uvm_end : KERNBASE < k_end s;
  uvm_vm : vm_ok s pgdir l;
  uvm_page va : mapped (k_mem s) pgdir va ->
    is_page (k_end s) (page_at (k_mem s) pgdir va) /\ page_at (k_mem s) pgdir va ∉ l /\
    ~ owned (k_mem s) pgdir (page_at (k_mem s) pgdir va) /\
    PTE_ADDR (entry (k_mem s) pgdir va) = V2P (page_at (k_mem s) pgdir va);
  uvm_inj va va' : mapped (k_mem s) pgdir va -> mapped (k_mem s) pgdir va' ->
    page_at (k_mem s) pgdir va = page_at (k_mem s) pgdir va' -> va / PGSIZE = va' / PGSIZE }.

Lemma page_at_entry m m' pgdir va :
  entry m' pgdir va = entry m pgdir va -> page_at m' pgdir va = page_at m pgdir va.
Proof. intros E. unfold page_at. by rewrite E. Qed.

(** An address space with no user page. *)
Lemma uvm_ok_empty s pgdir l : KERNBASE < k_end s -> vm_ok s pgdir l ->
  (forall va, 0 <= va < KERNBASE -> has (entry (k_mem s) pgdir va) PTE_P = false) ->
  uvm_ok s pgdir l.
Proof.
  intros Hend Hvm Hn. assert (forall va, ~ mapped (k_mem s) pgdir va) as Hm.
  { intros va [Hr Hp]. by rewrite Hn in Hp. }
  split; [done..|intros va H|intros va va' H]; by destruct (Hm va).
Qed.

Lemma entry_page m pgdir va va' :
  0 <= va < 2 ^ 32 -> 0 <= va' < 2 ^ 32 -> va / PGSIZE = va' / PGSIZE ->
  entry m pgdir va = entry m pgdir va'.
Proof.
  intros H H' E. apply same_page in E as [E1 E2]; [|done..].
  unfold entry, pte_of, pde_of. by rewrite E1, E2.
Qed.

(** Freeing a page that the directory does not own. *)
Lemma vm_ok_free pgdir q l s :
  vm_ok s pgdir l -> is_page (k_end s) q -> q ∉ l -> ~ owned (k_mem s) pgdir q ->
  let s' := freed q s in
  kfree q s = Ret tt s' /\ vm_ok s' pgdir (q :: l) /\
  (forall va, 0 <= va -> entry (k_mem s') pgdir va = entry (k_mem s) pgdir va) /\
  (forall q', owned (k_mem s') pgdir q' <-> owned (k_mem s) pgdir q') /\
  (forall q', is_page (k_end s) q' -> q' <> q -> agree (k_mem s) (k_mem s') q').
Proof.
  intros [Hr Hf Hwf] Hq Hql Hno s'.
  assert (forall q', is_page (k_end s) q' -> q' <> q -> agree (k_mem s) (k_mem s') q') as Hag.
  { intros q' Hq' Hne x Hx. apply (freed_mem_out q s (k_end s)); [done|].
    destruct (pages_apart (k_end s) q q' Hq Hq'); [by apply not_eq_sym|lia|lia]. }
  destruct (pt_agree (k_mem s) (k_mem s') (k_end s) pgdir l Hwf) as (Hwf' & He & Ho).
  { intros q' Ho. apply Hag; [by eapply owned_used|]. by intros ->. }
  split; [by apply kfree_ok|]. split; [|done]. split; [exact Hr|by apply kfree_push|].
  destruct Hwf' as [W1 W2 W3 W4].
  assert (forall q', owned (k_mem s') pgdir q' -> q' <> q) as Hnq by (intros q' Ho'%Ho ->; done).
  split; [done| | |done].
  - rewrite elem_of_cons. intros [E|?]; [|done]. by apply (Hnq pgdir); [left|].
  - intros i Hi. destruct (W3 i Hi) as (? & ? & ? & ?). split_and!; [done..| |done].
    rewrite elem_of_cons. intros [E|?]; [|done]. by apply (Hnq (tab (k_mem s') pgdir i)); [right; exists i|].
Qed.

(** ** Unmapping a range *)

(** [s'] is [s] without the user pages of [lo .. hi), which are on the free
    list now. *)
Record unmapped (pgdir lo hi : Z) (s s' : kstate) (l l' : list Z) : Prop := {
  un_uvm : uvm_ok s' pgdir l';
  un_in va : 0 <= va < 2 ^ 32 -> lo <= va < hi -> has (entry (k_mem s') pgdir va) PTE_P = false;
  un_out va : 0 <= va < 2 ^ 32 -> ~ lo <= va < hi -> entry (k_mem s') pgdir va = entry (k_mem s) pgdir va;
  un_list q : q ∈ l' <-> q ∈ l \/
    exists va, lo <= va < hi /\ mapped (k_mem s) pgdir va /\ page_at (k_mem s) pgdir va = q;
  un_owned q : owned (k_mem s') pgdir q <-> owned (k_mem s) pgdir q;
  un_frame q : is_page (k_end s) q -> ~ owned (k_mem s) pgdir q -> q ∉ l' -> agree (k_mem s) (k_mem s') q;
  un_only : only_mem s s' }.

Lemma only_mem_end s s' : only_mem s s' -> k_end s' = k_end s.
Proof. intros ->. done. Qed.

Lemma only_mem_trans s1 s2 s3 : only_mem s1 s2 -> only_mem s2 s3 -> only_mem s1 s3.
Proof. unfold only_mem. intros -> ->. done. Qed.

Lemma freed_only v s : only_mem s (freed v s).
Proof. unfold only_mem, freed, set_freelist, store32, kmemset. kred. by destruct s as [? []]. Qed.

Lemma unmapped_nil pgdir lo hi s l : uvm_ok s pgdir l -> hi <= lo -> unmapped pgdir lo hi s s l l.
Proof.
  intros Hu Hle. split; try done; try lia; [|by destruct s as [? []]].
  intros q. split; [by left|]. intros [?|(va & ? & _)]; [done|lia].
Qed.

(** A range with nothing mapped in front of one that is unmapped. *)
Lemma unmapped_skip pgdir lo mid hi s s' l l' :
  unmapped pgdir mid hi s s' l l' -> 0 <= lo <= mid ->
  (forall va, lo <= va < mid -> has (entry (k_mem s) pgdir va) PTE_P = false) ->
  unmapped pgdir lo hi s s' l l'.
Proof.
  intros [U I O L Ow F E] Hle Hn. split; [done| | | |done..].
  - intros va Hr Hva. destruct (decide (mid <= va < hi)) as [|Hno]; [by apply I|].
    rewrite O by done. apply Hn. lia.
  - intros va Hr Hva. apply O; [done|lia].
  - intros q. rewrite L. split; (intros [?|(va & Hva & Hm & Hq)]; [by left|]).
    + right. exists va. split; [lia|done].
    + destruct (decide (va < mid)); [|right; exists va; split; [lia|done]].
      destruct Hm as [_ Hm]. rewrite Hn in Hm by lia. done.
Qed.

Lemma unmapped_trans pgdir lo mid hi s1 s2 s3 l1 l2 l3 :
  lo <= mid <= hi -> unmapped pgdir lo mid s1 s2 l1 l2 -> unmapped pgdir mid hi s2 s3 l2 l3 ->
  unmapped pgdir lo hi s1 s3 l1 l3.
Proof.
  intros Hle [U1 I1 O1 L1 W1 F1 E1] [U2 I2 O2 L2 W2 F2 E2].
  pose proof (only_mem_end _ _ E1) as Ee.
  split; [done| | | | | |by eapply only_mem_trans].
  - intros va Hr Hva. destruct (decide (mid <= va)); [apply I2; [done|lia]|].
    rewrite O2 by (done || lia). apply I1; [done|lia].
  - intros va Hr Hva. rewrite O2, O1 by (done || lia). done.
  - intros q. rewrite L2, L1.
    assert (forall va, mid <= va -> 0 <= va < KERNBASE ->
      (mapped (k_mem s2) pgdir va <-> mapped (k_mem s1) pgdir va) /\
      page_at (k_mem s2) pgdir va = page_at (k_mem s1) pgdir va) as Hmp.
    { intros va Hva Hr. assert (entry (k_mem s2) pgdir va = entry (k_mem s1) pgdir va) as Ev
        by (apply O1; unfold KERNBASE in *; lia).
      unfold mapped, page_at. by rewrite Ev. }
    split.
    + intros [[?|(va & Hva & Hm & Hq)]|(va & Hva & Hm & Hq)]; [by left|right; exists va..].
      * split; [lia|done].
      * destruct (Hmp va ltac:(lia) (proj1 Hm)) as [Hm' Hp'].
        rewrite <- Hp'. split; [lia|]. by rewrite <- Hm'.
    + intros [?|(va & Hva & Hm & Hq)]; [by left; left|]. destruct (decide (va < mid)).
      * left. right. exists va. split; [lia|done].
      * right. exists va. destruct (Hmp va ltac:(lia) (proj1 Hm)) as [Hm' Hp'].
        rewrite Hp'. split; [lia|]. by rewrite Hm'.
  - intros q. by rewrite W2, W1.
  - intros q Hq Ho Hl x Hx. rewrite (F2 q); [|by rewrite Ee|by rewrite W1|done|done].
    apply (F1 q); [done..| |done]. rewrite L2 in Hl. tauto.
Qed.

(** ** [deallocuvm] *)

(** No page taken, no table more. *)
Lemma grown_same pgdir s s' l : grown pgdir s s' l l ->
  forall q, owned (k_mem s') pgdir q <-> owned (k_mem s) pgdir q.
Proof.
  intros G q. split; [|apply G]. intros Ho.
  destruct (gr_new _ _ _ _ _ G q Ho) as [|Hq]; [done|].
  by destruct (owned_used _ _ _ _ _ (vm_pt _ _ _ (gr_vm _ _ _ _ _ G)) Ho).
Qed.

(** The page of [a] is freed and its entry cleared. *)
Lemma unmap_page pgdir a l s :
  uvm_ok s pgdir l -> mapped (k_mem s) pgdir a -> a mod PGSIZE = 0 ->
  let q := page_at (k_mem s) pgdir a in
  let s' := store32 (tab (k_mem s) pgdir (PDX a) + 4 * PTX a) 0 (freed q s) in
  kfree q s = Ret tt (freed q s) /\ unmapped pgdir a (a + PGSIZE) s s' l (q :: l).
Proof.
  intros Hu Hm Ha q s'. pose proof Hu as [Hend Hvm Hpg Hinj]. pose proof Hm as [Hr Hp].
  assert (0 <= a < 2 ^ 32) as Hr' by (unfold KERNBASE in Hr; lia).
  destruct (Hpg a Hm) as (Hq & Hql & Hno & _). fold q in Hq, Hql, Hno.
  destruct (vm_ok_free pgdir q l s Hvm Hq Hql Hno) as (E & Hvm1 & He1 & Ho1 & Hag).
  assert (has (pde_of (k_mem s) pgdir a) PTE_P = true) as Hd
    by (unfold entry in Hp; by destruct (has (pde_of _ _ _) _)).
  destruct (dir_agree (k_mem s) (k_mem (freed q s)) (k_end s) pgdir l (vm_pt _ _ _ Hvm))
    as (Hpde & Htab & _).
  { apply Hag; [apply Hvm|]. intros Eq. apply Hno. rewrite <- Eq. by left. }
  destruct (store_entry pgdir a 0 (q :: l) (freed q s) Hvm1 Hr') as (G & He & _);
    [by rewrite Hpde by lia|lia|].
  rewrite Htab in G, He by (split; [apply PDX_range; lia|done]). fold s' in G, He.
  assert (forall va, 0 <= va < 2 ^ 32 -> entry (k_mem s') pgdir va =
    if decide (a <= va < a + PGSIZE) then 0 else entry (k_mem s) pgdir va) as Hent.
  { intros va Hva. rewrite He, He1 by (done || lia). pose proof (page_of a va Ha).
    repeat case_decide; try done; tauto. }
  assert (forall q', owned (k_mem s') pgdir q' <-> owned (k_mem s) pgdir q') as Ho.
  { intros q'. by rewrite <- Ho1, (grown_same _ _ _ _ G). }
  assert (forall va, mapped (k_mem s') pgdir va -> mapped (k_mem s) pgdir va /\
    va / PGSIZE <> a / PGSIZE /\ entry (k_mem s') pgdir va = entry (k_mem s) pgdir va) as Hold.
  { intros va [Hva Hpv]. rewrite Hent in Hpv by (unfold KERNBASE in *; lia).
    case_decide as Hc; [done|]. split; [done|]. rewrite page_of by done. split; [done|].
    rewrite Hent by (unfold KERNBASE in *; lia). by rewrite decide_False. }
  split; [done|]. split.
  - split; [exact Hend|apply G|..].
    + intros va (Hv & Hne & Ev)%Hold. unfold page_at. rewrite Ev. fold (page_at (k_mem s) pgdir va).
      destruct (Hpg va Hv) as (? & ? & ? & ?). split_and!; [done| |by rewrite Ho|done].
      rewrite elem_of_cons. intros [Eq|?]; [|done]. by apply Hne, Hinj.
    + intros va va' (Hv & _ & Ev)%Hold (Hv' & _ & Ev')%Hold. unfold page_at. rewrite Ev, Ev'.
      by apply Hinj.
  - intros va Hva Hin. by rewrite Hent, decide_True.
  - intros va Hva Hin. by rewrite Hent, decide_False.
  - intros q'. rewrite elem_of_cons. split.
    + intros [->|?]; [right|by left]. exists a. split; [unfold PGSIZE; lia|done].
    + intros [?|(va & Hva & Hmv & <-)]; [by right|left]. unfold q, page_at.
      f_equal. f_equal. apply entry_page; [destruct Hmv; unfold KERNBASE in *; lia|done|]. by apply page_of.
  - done.
  - intros q' Hq' Hno' [Hne Hnl]%not_elem_of_cons x Hx.
    rewrite (gr_frame _ _ _ _ _ G q'); [|done|by rewrite Ho|done]. by apply (Hag q').
  - eapply only_mem_trans; [apply freed_only|apply G].
Qed.

(** A missing page table: nothing is mapped up to the next directory entry. *)
Lemma skip_table m pgdir a : 0 <= a < KERNBASE -> has (pde_of m pgdir a) PTE_P = false ->
  let n := PGADDR (PDX a + 1) 0 0 in
  n mod PGSIZE = 0 /\ a < n <= KERNBASE /\
  (forall va, a <= va < n -> has (entry m pgdir va) PTE_P = false) /\
  u32 (u32 (n - PGSIZE) + PGSIZE) = n.
Proof.
  intros Ha Hp n. unfold KERNBASE in *.
  assert (a / 2 ^ 22 mod 1024 = a / 2 ^ 22) as Hs.
  { apply Z.mod_small. split; [apply Z.div_pos; lia|apply Z.div_lt_upper_bound; lia]. }
  assert (a / 2 ^ 22 < 512) by (apply Z.div_lt_upper_bound; lia).
  pose proof (Z.div_pos a (2 ^ 22)). pose proof (Z.div_mod a (2 ^ 22)). pose proof (Z.mod_pos_bound a (2 ^ 22)).
  assert (n = (a / 2 ^ 22 + 1) * 2 ^ 22) as En.
  { subst n. unfold PGADDR, PDXSHIFT. rewrite PDX_eq, Hs, Z.shiftl_mul_pow2, Z.shiftl_0_l, !Z.lor_0_r by lia.
    apply u32_small. lia. }
  split_and!; [|lia|lia| |].
  - rewrite En. replace ((a / 2 ^ 22 + 1) * 2 ^ 22) with ((a / 2 ^ 22 + 1) * 1024 * PGSIZE) by (unfold PGSIZE; lia).
    by apply Z.mod_mul.
  - intros va Hva. unfold entry, pde_of in *. replace (PDX va) with (PDX a); [by rewrite Hp|].
    rewrite !PDX_eq by lia. f_equal. apply Z.div_unique with (va - 2 ^ 22 * (a / 2 ^ 22)); lia.
  - unfold PGSIZE. rewrite !u32_small by (rewrite ?u32_small; lia). lia.
Qed.

Lemma next_page a : a mod PGSIZE = 0 -> (a + PGSIZE) mod PGSIZE = 0.
Proof. intros Ha. by rewrite Z.add_mod, Ha, Z_mod_same_full by (unfold PGSIZE; lia). Qed.

(** What one round does to the address [a]: free the page if there is one, or
    skip. *)
Lemma deallocuvm_loop_ok pgdir oldsz hi : oldsz <= KERNBASE -> hi mod PGSIZE = 0 -> oldsz <= hi < oldsz + PGSIZE ->
  forall fuel a s l, uvm_ok s pgdir l -> a mod PGSIZE = 0 -> 0 <= a ->
  oldsz - a <= (Z.of_nat fuel - 1) * PGSIZE -> (0 < fuel)%nat ->
  exists s' l', deallocuvm_loop fuel pgdir a oldsz s = Ret tt s' /\ unmapped pgdir a hi s s' l l'.
Proof.
  intros Hold Hhi Hr. induction fuel as [|fuel IH]; intros a s l Hu Ha Ha0 Hf Hf0; [lia|].
  assert (forall x, x mod PGSIZE = 0 -> x < oldsz -> x + PGSIZE <= hi) as Hup.
  { intros x Hx Hlt. pose proof (Z.div_mod x PGSIZE ltac:(done)). pose proof (Z.div_mod hi PGSIZE ltac:(done)).
    unfold PGSIZE in *. lia. }
  cbn [deallocuvm_loop]. destruct (Z.ltb_spec a oldsz) as [Hlt|Hge]; cbn [negb].
  2:{ exists s, l. split; [done|]. apply unmapped_nil; [done|].
    pose proof (Z.div_mod a PGSIZE ltac:(done)). pose proof (Z.div_mod hi PGSIZE ltac:(done)). unfold PGSIZE in *. lia. }
  assert (u32 (a + PGSIZE) = a + PGSIZE) as Eu by (apply u32_small; unfold PGSIZE, KERNBASE in *; lia).
  specialize (Hup a Ha Hlt). pose proof Hu as [Hend Hvm Hpg _].
  destruct (has (pde_of (k_mem s) pgdir a) PTE_P) eqn:Hp.
  - mstep (walk_present pgdir a false l s Hvm Ha0 Hp).
    destruct (load_entry pgdir a l s Hvm) as [Hl Hnz]; [unfold KERNBASE in *; lia|done|].
    rewrite (proj2 (Z.eqb_neq _ _) Hnz). mrun. rewrite Hl.
    destruct (has (entry (k_mem s) pgdir a) PTE_P) eqn:Hpe.
    + assert (mapped (k_mem s) pgdir a) as Hm by (split; [lia|done]).
      destruct (unmap_page pgdir a l s Hu Hm Ha) as [Ek Hun].
      destruct (Hpg a Hm) as (Hq & _ & _ & Ead).
      assert (PTE_ADDR (entry (k_mem s) pgdir a) <> 0) as Hpa.
      { intros E0. rewrite Ead, (V2P_page _ _ Hq) in E0. destruct Hq as (_ & ? & _). lia. }
      rewrite (proj2 (Z.eqb_neq _ _) Hpa). fold (page_at (k_mem s) pgdir a). mrun. mstep Ek. mrun. rewrite Eu.
      destruct (IH (a + PGSIZE) _ _ (un_uvm _ _ _ _ _ _ _ Hun)) as (s' & l' & E & Hun');
        [by apply next_page|unfold PGSIZE in *; lia..|].
      exists s', l'. split; [done|]. eapply unmapped_trans; [|done..]. unfold PGSIZE in *; lia.
    + mrun. rewrite Eu. destruct (IH (a + PGSIZE) s l Hu) as (s' & l' & E & Hun');
        [by apply next_page|unfold PGSIZE in *; lia..|].
      exists s', l'. split; [done|]. eapply unmapped_skip; [done|unfold PGSIZE; lia|].
      intros va Hva. rewrite (entry_page _ _ va a); [done|unfold PGSIZE, KERNBASE in *; lia..|]. by apply page_of.
  - destruct (skip_table (k_mem s) pgdir a ltac:(lia) Hp) as (Hn & Hrn & Hnone & En).
    unfold walkpgdir. mrun. rewrite (load_pde (k_end s)) by (done || apply Hvm). rewrite Hp. mrun.
    cbn [Z.eqb]. mrun. rewrite En. destruct (IH (PGADDR (PDX a + 1) 0 0) s l Hu Hn) as (s' & l' & E & Hun'); [lia| | |].
    { pose proof (Z.div_mod a PGSIZE ltac:(done)).
      pose proof (Z.div_mod (PGADDR (PDX a + 1) 0 0) PGSIZE ltac:(done)). unfold PGSIZE in *. lia. }
    { unfold PGSIZE in *. lia. }
    exists s', l'. split; [done|]. eapply unmapped_skip; [done|lia|done].
Qed.

Lemma deallocuvm_ok pgdir oldsz newsz s l :
  uvm_ok s pgdir l -> 0 <= newsz < oldsz -> oldsz <= KERNBASE ->
  exists s' l', deallocuvm pgdir oldsz newsz s = Ret newsz s' /\
    unmapped pgdir (PGROUNDUP newsz) (PGROUNDUP oldsz) s s' l l'.
Proof.
  intros Hu Hn Ho. unfold KERNBASE in Ho.
  destruct (PGROUNDUP_spec newsz) as [A1 B1]; [lia|unfold PGSIZE; lia|].
  destruct (PGROUNDUP_spec oldsz) as [A2 B2]; [lia|unfold PGSIZE; lia|].
  destruct (deallocuvm_loop_ok pgdir oldsz (PGROUNDUP oldsz) Ho A2 B2
    (S (S (Z.to_nat (oldsz / PGSIZE)))) (PGROUNDUP newsz) s l Hu A1) as (s' & l' & E & Hun); [lia| |lia|].
  { rewrite !Nat2Z.inj_succ, Z2Nat.id by (apply Z.div_pos; unfold PGSIZE; lia).
    pose proof (Z.div_mod oldsz PGSIZE ltac:(done)). pose proof (Z.mod_pos_bound oldsz PGSIZE ltac:(done)).
    unfold PGSIZE in *. lia. }
  exists s', l'. split; [|done]. unfold deallocuvm. rewrite (proj2 (Z.leb_gt _ _)) by lia. by mstep E.
Qed.

(** ** [freevm] *)

(** The loop over the directory: each table is freed, the directory is only
    read.  [m] is the memory before. *)
Lemma free_tables m pgdir e l0 : pt_wf m e pgdir l0 -> forall ns s l,
  kmem_ready s -> free_pages s l -> k_end s = e -> agree m (k_mem s) pgdir -> pgdir ∉ l ->
  NoDup ns -> Forall (fun i => Z.of_nat i < 1024) ns ->
  (forall i, i ∈ ns -> present m pgdir (Z.of_nat i) -> tab m pgdir (Z.of_nat i) ∉ l) ->
  exists s' l', mfor (fun i =>
      e <- gets (load32 (pgdir + 4 * Z.of_nat i)) ;;
      if has e PTE_P then kfree (P2V (PTE_ADDR e)) else ret tt) ns s = Ret tt s' /\
    kmem_ready s' /\ free_pages s' l' /\ only_mem s s' /\ pgdir ∉ l' /\
    (forall q, q ∈ l' <-> q ∈ l \/ exists i, i ∈ ns /\ present m pgdir (Z.of_nat i) /\ tab m pgdir (Z.of_nat i) = q) /\
    (forall q, is_page e q -> q ∉ l' -> agree (k_mem s) (k_mem s') q).
Proof.
  intros Hwf. induction ns as [|i ns IH]; intros s l Hr Hf He Ha Hd Hnd Hlt Hfr.
  { exists s, l. split_and!; try done; [by destruct s as [? []]|]. intros q. split; [by left|]. intros [?|(i & Hi & _)]; [done|set_solver]. }
  apply NoDup_cons in Hnd as [Hi Hnd]. apply Forall_cons in Hlt as [Hlt Hlts]. cbn [mfor].
  assert (load32 (pgdir + 4 * Z.of_nat i) s = dir_entry m pgdir (Z.of_nat i)) as El.
  { unfold load32. rewrite (V2P_off e) by (apply Hwf || (unfold PGSIZE; lia)).
    apply (dir_entry_agree m); [done|lia]. }
  mrun. rewrite El. destruct (has (dir_entry m pgdir (Z.of_nat i)) PTE_P) eqn:Hp.
  - assert (present m pgdir (Z.of_nat i)) as Hpr by (split; [lia|done]).
    destruct (wf_tab _ _ _ _ Hwf _ Hpr) as (Hpg & Hne & _ & _). fold (tab m pgdir (Z.of_nat i)).
    set (t := tab m pgdir (Z.of_nat i)) in *. assert (t ∉ l) as Htl by (apply Hfr; [by left|done]).
    mstep (kfree_ok t s Hr ltac:(by rewrite He)).
    assert (forall q, is_page e q -> q <> t -> agree (k_mem s) (k_mem (freed t s)) q) as Hag.
    { intros q Hq Hqt x Hx. apply (freed_mem_out t s e); [done|].
      destruct (pages_apart e t q Hpg Hq); [by apply not_eq_sym|lia|lia]. }
    destruct (IH (freed t s) (t :: l)) as (s' & l' & E & Hr' & Hf' & Ho & Hd' & Hl & Hfrm); try done.
    + apply kfree_push; [done|by rewrite He|done].
    + intros x Hx. rewrite (Hag pgdir) by (apply Hwf || done || by apply not_eq_sym). by apply Ha.
    + apply not_elem_of_cons. split; [by apply not_eq_sym|done].
    + intros j Hj Hpj. apply not_elem_of_cons. split; [|apply Hfr; [by right|done]].
      intros Eq. apply Hi. apply (wf_inj _ _ _ _ Hwf) in Eq; [|done..]. by apply Nat2Z.inj in Eq as <-.
    + exists s', l'. pose proof (only_mem_trans _ _ _ (freed_only t s) Ho). split_and!; [done..| |].
      * intros q. rewrite Hl, elem_of_cons. split.
        -- intros [[->|?]|(j & Hj & Hpj)]; [right; exists i; split; [by left|done]|by left|right; exists j; split; [by right|done]].
        -- intros [?|(j & [->|Hj]%elem_of_cons & Hpj & Eq)]; [left; by right|left; left; by rewrite <- Eq|right; by exists j].
      * intros q Hq Hql x Hx. rewrite (Hfrm q) by done. apply (Hag q); [done| |done]. intros ->. apply Hql, Hl. left. by left.
  - rewrite bind_ret_l. destruct (IH s l) as (s' & l' & E & Hr' & Hf' & Ho & Hd' & Hl & Hfrm); try done.
    { intros j Hj. apply Hfr. by right. }
    exists s', l'. split_and!; try done. intros q. rewrite Hl. split; (intros [?|(j & Hj & Hpj & Eq)]; [by left|right]).
    + exists j. split; [by right|done].
    + apply elem_of_cons in Hj as [->|Hj]; [|by exists j]. destruct Hpj as [_ Hpj]. congruence.
Qed.

Lemma present_nat m pgdir q :
  (exists i, i ∈ seq 0 NPDENTRIES /\ present m pgdir (Z.of_nat i) /\ tab m pgdir (Z.of_nat i) = q) <->
  (exists i, present m pgdir i /\ tab m pgdir i = q).
Proof.
  split; [intros (i & _ & H); by exists (Z.of_nat i)|]. intros (i & Hp & Hq). exists (Z.to_nat i).
  pose proof (proj1 Hp). rewrite Z2Nat.id by lia. split; [|done]. apply elem_of_seq. unfold NPDENTRIES. lia.
Qed.

(** [freevm] on an address space with or without user pages: its pages, and
    no others, are free afterwards. *)
Lemma freevm_ok pgdir s l : uvm_ok s pgdir l ->
  exists s' l', freevm pgdir s = Ret tt s' /\ kmem_ready s' /\ free_pages s' l' /\ only_mem s s' /\
    (forall q, q ∈ l' <-> q ∈ l \/ owned (k_mem s) pgdir q \/ user_page (k_mem s) pgdir q) /\
    (forall q, is_page (k_end s) q -> q ∉ l' -> agree (k_mem s) (k_mem s') q).
Proof.
  intros Hu. destruct (deallocuvm_ok pgdir KERNBASE 0 s l Hu) as (s1 & l1 & E1 & [U1 _ _ L1 W1 F1 O1]); [done..|].
  pose proof (only_mem_end _ _ O1) as Ee. pose proof (uvm_vm _ _ _ U1) as [Hr1 Hf1 Hwf1].
  assert (is_page (k_end s) pgdir) as Hpd by apply Hu.
  destruct (free_tables (k_mem s1) pgdir (k_end s) l1 ltac:(by rewrite <- Ee) (seq 0 NPDENTRIES) s1 l1)
    as (s2 & l2 & E2 & Hr2 & Hf2 & O2 & Hd2 & L2 & F2); try done;
    [apply Hwf1|apply NoDup_ListNoDup, seq_NoDup| |..].
  { apply Forall_forall. intros i Hi%elem_of_seq. unfold NPDENTRIES in Hi. lia. }
  { intros i _ Hi. by apply (wf_tab _ _ _ _ Hwf1). }
  pose proof (only_mem_end _ _ O2) as Ee2.
  assert (kfree pgdir s2 = Ret tt (freed pgdir s2)) as E3 by (apply kfree_ok; [done|by rewrite Ee2, Ee]).
  assert (forall q, q ∈ pgdir :: l2 <-> q ∈ l \/ owned (k_mem s) pgdir q \/ user_page (k_mem s) pgdir q) as Hl.
  { intros q. rewrite elem_of_cons, L2, L1, <- W1, present_nat. unfold owned, user_page.
    assert ((exists va, PGROUNDUP 0 <= va < PGROUNDUP KERNBASE /\ mapped (k_mem s) pgdir va /\ page_at (k_mem s) pgdir va = q)
      <-> exists va, mapped (k_mem s) pgdir va /\ page_at (k_mem s) pgdir va = q) as ->; [|tauto].
    split; [intros (va & _ & H); by exists va|]. intros (va & H & Hq). exists va. split; [exact (proj1 H)|done]. }
  exists (freed pgdir s2), (pgdir :: l2). split_and!; [|done| | |exact Hl|].
  - unfold freevm. rewrite (proj2 (Z.eqb_neq _ _)) by by eapply is_page_nonzero. mstep E1. mstep E2. done.
  - apply kfree_push; [done|by rewrite Ee2, Ee|done].
  - eapply only_mem_trans; [done|]. eapply only_mem_trans; [done|]. apply freed_only.
  - intros q Hq Hql x Hx.
    assert (q <> pgdir /\ q ∉ l2) as [Hne Hq2] by (by apply not_elem_of_cons).
    assert (~ owned (k_mem s) pgdir q /\ q ∉ l1) as [Hno Hq1].
    { rewrite Hl in Hql. split; [tauto|]. intros Hc. apply Hq2, L2. by left. }
    rewrite (freed_mem_out pgdir s2 (k_end s)); [|done|].
    + rewrite (F2 q) by done. by apply (F1 q).
    + destruct (pages_apart (k_end s) pgdir q Hpd Hq); [by apply not_eq_sym|lia|lia].
Qed.
