(* ===== verification/Kvm.v ===== *)
(** The kernel half of an address space: [setupkvm] of vm.c.

    Every page directory of the system is made by [setupkvm].  The theorem says
    what the processor translates with it: the kernel's addresses to all of
    physical memory, the devices to themselves, and nothing else, so that the
    kernel can run in the address space of any process. *)

From stdpp Require Import base list sets strings.
From Stdlib Require Import ZArith Lia.
From S2P Require Import Prelude State Demo CString Sched Kalloc Vm PageTable Freevm.

Open Scope Z_scope.
Open Scope kernel_scope.

(** The translation that [kmap] describes. *)
Definition kernel_map (va : Z) : option Z :=
  if (KERNBASE <=? va) && (va <? KERNBASE + PHYSTOP) then Some (va - KERNBASE)
  else if DEVSPACE <=? va then Some va else None.

Lemma kernel_map_user va : 0 <= va < KERNBASE -> kernel_map va = None.
Proof.
  intros Hva. unfold kernel_map. rewrite (proj2 (Z.leb_gt _ _)), (proj2 (Z.leb_gt DEVSPACE va)); [done|..];
    unfold DEVSPACE, KERNBASE in *; lia.
Qed.

(** A row of [kmap] that is whole pages. *)
Record row_ok (virt ps pe : Z) : Prop := {
  rk_virt : virt mod PGSIZE = 0;
  rk_start : ps mod PGSIZE = 0;
  rk_size : u32 (pe - ps) mod PGSIZE = 0;
  rk_pos : 0 < u32 (pe - ps);
  rk_range : 0 <= virt /\ 0 <= ps /\ virt + u32 (pe - ps) <= 2 ^ 32 /\ ps + u32 (pe - ps) <= 2 ^ 32 }.

Lemma row_pages virt size : virt mod PGSIZE = 0 -> size mod PGSIZE = 0 -> 0 <= virt -> 0 < size -> virt + size <= 2 ^ 32 ->
  page_lo virt = virt /\ page_hi virt size = virt + size.
Proof.
  intros Hv Hs H0 Hp Hr. unfold page_lo, page_hi. rewrite !PGROUNDDOWN_floor by lia.
  pose proof (Z.div_mod virt PGSIZE ltac:(done)). pose proof (Z.div_mod size PGSIZE ltac:(done)).
  replace ((virt + size - 1) / PGSIZE) with (virt / PGSIZE + size / PGSIZE - 1).
  - unfold PGSIZE in *. lia.
  - apply Z.div_unique with (PGSIZE - 1); unfold PGSIZE in *; lia.
Qed.

(** What the rows [ks] translate [va] to. *)
Fixpoint rows_map (ks : list (Z * Z * Z * Z)) (va : Z) : option Z :=
  match ks with
  | [] => None
  | (virt, ps, pe, _) :: ks => if decide (virt <= va < virt + u32 (pe - ps)) then Some (ps + (va - virt)) else rows_map ks va
  end.

(** Rows that have no address in common. *)
Definition rows_apart : Z * Z * Z * Z -> Z * Z * Z * Z -> Prop := fun '(v1, p1, e1, _) '(v2, p2, e2, _) =>
  forall va, ~ (v1 <= va < v1 + u32 (e1 - p1) /\ v2 <= va < v2 + u32 (e2 - p2)).

Lemma rows_map_apart virt ps pe perm ks va : Forall (rows_apart (virt, ps, pe, perm)) ks ->
  virt <= va < virt + u32 (pe - ps) -> rows_map ks va = None.
Proof.
  intros Hd Hin. induction ks as [|[[[v2 p2] e2] q2] ks IH]; [done|]. apply Forall_cons in Hd as [H1 Hd]. cbn [rows_map].
  rewrite decide_False; [by apply IH|]. intros H2. by apply (H1 va).
Qed.

(** The loop over the rows: everything is mapped, or memory is short and the
    directory is given back. *)
Lemma setupkvm_loop_ok pgdir ks : forall s l, vm_ok s pgdir l ->
  Forall (fun '(virt, ps, pe, perm) => row_ok virt ps pe /\ 0 <= perm < PGSIZE) ks ->
  (forall va, 0 <= va < 2 ^ 32 -> is_Some (rows_map ks va) -> mmu (k_mem s) pgdir va = None) ->
  ForallOrdPairs rows_apart ks ->
  exists s' l', grown pgdir s s' l l' /\
    (forall va, 0 <= va < 2 ^ 32 -> rows_map ks va = None -> mmu (k_mem s') pgdir va = mmu (k_mem s) pgdir va) /\
    (forall i, present (k_mem s') pgdir i -> present (k_mem s) pgdir i \/
       exists va, 0 <= va < 2 ^ 32 /\ is_Some (rows_map ks va) /\ i = PDX va) /\
    (setupkvm_loop pgdir ks s = Ret pgdir s' /\
       (forall va, 0 <= va < 2 ^ 32 -> mmu (k_mem s') pgdir va = match rows_map ks va with Some pa => Some pa | None => mmu (k_mem s) pgdir va end)
     \/ l' = [] /\ setupkvm_loop pgdir ks s = (freevm pgdir ;;; ret 0) s').
Proof.
  induction ks as [|[[[virt ps] pe] perm] ks IH]; intros s l Hvm Hrows Hfree Hdis; cbn [setupkvm_loop rows_map] in *.
  { exists s, l. split_and!; [by apply grown_refl|done|by left|by left]. }
  apply Forall_cons in Hrows as [[[R1 R2 R3 R4 (R5 & R6 & R7 & R8)] Hperm] Hrows]. inversion Hdis as [|? ? Hd1 Hd2]; subst.
  set (size := u32 (pe - ps)) in *. destruct (row_pages virt size R1 R3 R5 R4 R7) as [Hlo Hhi].
  destruct (mappages_ok pgdir virt size ps perm l s Hvm R5 R4 R7 R2 R6 ltac:(rewrite Hlo, Hhi; lia) Hperm) as (r & s1 & l1 & E & G & Hout & Hpi & Hres).
  { intros va Hva. rewrite Hlo, Hhi in Hva. apply Hfree; [lia|]. rewrite decide_True by lia. done. }
  rewrite Hlo, Hhi in *.
  assert (forall i, present (k_mem s1) pgdir i -> present (k_mem s) pgdir i \/ exists va, 0 <= va < 2 ^ 32 /\
    is_Some (if decide (virt <= va < virt + size) then Some (ps + (va - virt)) else rows_map ks va) /\ i = PDX va) as Hpi1.
  { intros i [?|(va & Hva & ->)]%Hpi; [by left|right]. exists va. rewrite decide_True by done. split_and!; [lia|lia|done|done]. }
  mstep E. destruct Hres as [[-> Hin]|[-> ->]].
  - destruct (IH s1 l1 (gr_vm _ _ _ _ _ G) Hrows) as (s' & l' & G' & Hsame & Hpi' & Hcase); [|done|].
    + intros va Hva Hsome. assert (~ virt <= va < virt + size) as Hn.
      { intros Hc. rewrite (rows_map_apart _ _ _ _ _ _ Hd1 Hc) in Hsome. by destruct Hsome. }
      rewrite Hout by done. apply Hfree; [done|]. by rewrite decide_False.
    + exists s', l'. split; [by eapply grown_trans|]. split.
      { intros va Hva Hn. case_decide; [done|]. by rewrite Hsame, Hout. }
      split.
      { intros i [?|(va & Hva & Hs & ->)]%Hpi'; [by apply Hpi1|right]. exists va. split; [done|]. by case_decide. }
      destruct Hcase as [[E' Hmap]|Hcase]; [left|by right].
      split; [done|]. intros va Hva. rewrite Hmap by done. case_decide as Hc.
      * rewrite (rows_map_apart _ _ _ _ _ _ Hd1 Hc). by apply Hin.
      * by rewrite Hout.
  - exists s1, []. split; [done|]. split; [|split; [done|by right]]. intros va Hva Hn. case_decide; [done|]. by apply Hout.
Qed.

(** A new directory: a page off the free list, filled with zeroes. *)
Lemma new_dir s p l : kmem_ready s -> free_pages s (p :: l) ->
  let s1 := kmemset p 0 PGSIZE (set_freelist (load32 p s) s) in
  kalloc s = Ret p (set_freelist (load32 p s) s) /\ p <> 0 /\ vm_ok s1 p l /\
  (forall va, 0 <= va -> mmu (k_mem s1) p va = None) /\
  (forall q, owned (k_mem s1) p q <-> q = p) /\
  (forall q, is_page (k_end s) q -> q <> p -> agree (k_mem s) (k_mem s1) q).
Proof.
  intros Hr Hf s1. destruct (kalloc_pop p l s Hr Hf) as [E Hf1]. pose proof Hf as [Hnd (_ & Hpg & _)].
  apply NoDup_cons in Hnd as [Hni Hnd].
  assert (forall q, is_page (k_end s) q -> q <> p -> agree (k_mem s) (k_mem s1) q) as Hag.
  { intros q Hq Hne x Hx. subst s1. unfold kmemset. kred. rewrite memset_fill by done.
    rewrite fill_out; [done|]. destruct (pages_apart (k_end s) p q Hpg Hq); [by apply not_eq_sym|lia|lia]. }
  destruct (zero_dir (k_mem s1) (k_end s) p l Hpg Hni) as (Hwf & Hn & Ho).
  { intros x Hx. subst s1. unfold kmemset. kred. rewrite memset_fill by done. by rewrite fill_in. }
  split_and!; try done; [by eapply is_page_nonzero|]. split; [done| |done].
  destruct Hf1 as [_ Hch]. split; [done|]. eapply chain_ext; [|exact Hch].
  intros q x Hq Hqp Hx. apply (Hag q); [done| |done]. by intros ->.
Qed.

(** The rows of [kmap] are whole pages, have no address in common, and describe
    [kernel_map]. *)
Section Rows.
Context (data : Z) (Hal : data mod PGSIZE = 0) (Hd : KERNLINK < data < KERNBASE + PHYSTOP).

Lemma kmap_ok : Forall (fun '(virt, ps, pe, perm) => row_ok virt ps pe /\ 0 <= perm < PGSIZE) (kmap data).
Proof using Hal Hd.
  assert (V2P data = data - KERNBASE) as Hv.
  { unfold V2P. apply u32_small. unfold KERNLINK, KERNBASE, EXTMEM, PHYSTOP in *. lia. }
  assert (forall k, (k * PGSIZE - data) mod PGSIZE = 0 /\ (data - k * PGSIZE) mod PGSIZE = 0) as Hm.
  { intros k. pose proof (Z.div_mod data PGSIZE ltac:(done)) as H. rewrite Hal in H. rewrite H.
    split; [replace (k * PGSIZE - (PGSIZE * (data / PGSIZE) + 0)) with ((k - data / PGSIZE) * PGSIZE) by lia
      |replace (PGSIZE * (data / PGSIZE) + 0 - k * PGSIZE) with ((data / PGSIZE - k) * PGSIZE) by lia]; by apply Z.mod_mul. }
  unfold kmap. rewrite Hv. change (V2P KERNLINK) with 0x100000.
  unfold KERNLINK, KERNBASE, EXTMEM, PHYSTOP in Hd.
  assert (u32 (data - KERNBASE - 0x100000) = data - 0x80100000) as E1.
  { unfold KERNBASE. rewrite u32_small by lia. lia. }
  assert (u32 (PHYSTOP - (data - KERNBASE)) = 0x8E000000 - data) as E2.
  { unfold KERNBASE, PHYSTOP. rewrite u32_small by lia. lia. }
  apply List.Forall_cons; [split; [split|]; by_eval || (split_and!; by_eval)|].
  apply List.Forall_cons; [split; [|by_eval]; split; rewrite ?E1; [by_eval|by_eval|exact (proj2 (Hm 0x80100))|lia|unfold KERNLINK, KERNBASE, EXTMEM; lia]|].
  apply List.Forall_cons; [split; [|by_eval]; split; rewrite ?E2; [done|exact (proj2 (Hm 0x80000))|exact (proj1 (Hm 0x8E000))|lia|unfold KERNBASE; lia]|].
  apply List.Forall_cons; [split; [split|]; by_eval || (split_and!; by_eval)|apply List.Forall_nil].
Qed.

(** The rows with their sizes worked out. *)
Lemma kmap_rows : V2P data = data - 0x80000000 /\ u32 (V2P data - V2P KERNLINK) = data - 0x80100000 /\
  u32 (PHYSTOP - V2P data) = 0x8E000000 - data.
Proof using Hd.
  unfold KERNLINK, KERNBASE, EXTMEM, PHYSTOP in *. assert (V2P data = data - 0x80000000) as -> by (unfold V2P, KERNBASE; apply u32_small; lia).
  change (V2P (0x80000000 + 0x100000)) with 0x100000. rewrite !u32_small by lia. lia.
Qed.

Lemma kmap_map va : 0 <= va < 2 ^ 32 -> rows_map (kmap data) va = kernel_map va.
Proof using Hd.
  intros Hva. destruct kmap_rows as (E1 & E2 & E3). unfold kmap. cbn [rows_map]. rewrite E2, E3, E1. unfold kernel_map.
  change (u32 (EXTMEM - 0)) with 0x100000. change (u32 (0 - DEVSPACE)) with 0x2000000. change (V2P KERNLINK) with 0x100000.
  change DEVSPACE with 0xFE000000. unfold KERNLINK, KERNBASE, EXTMEM, PHYSTOP in *.
  destruct (Z.leb_spec 0x80000000 va), (Z.ltb_spec va (0x80000000 + 0xE000000)), (Z.leb_spec 0xFE000000 va); cbn [andb];
    repeat case_decide; first [lia|f_equal; lia|done].
Qed.

Lemma kmap_apart : ForallOrdPairs rows_apart (kmap data).
Proof using Hd.
  destruct kmap_rows as (E1 & E2 & E3). unfold kmap.
  assert (u32 (EXTMEM - 0) = 0x100000) as E0 by done. assert (u32 (0 - DEVSPACE) = 0x2000000) as E4 by done.
  unfold KERNLINK, KERNBASE, EXTMEM, PHYSTOP in *. change DEVSPACE with 0xFE000000 in *.
  repeat first [apply FOP_cons|apply FOP_nil|apply List.Forall_cons|apply List.Forall_nil]; intros va; lia.
Qed.
End Rows.

(** The pages of a directory with its kernel half: 56 tables for 224 megabytes
    of memory, 8 for the devices. *)
Definition KVM_PAGES : nat := 65.

(** What [setupkvm] leaves when it returns the directory [p], made with pages of
    the free list [l]. *)
Record kvm_made (s s' : kstate) (p : Z) (l l' : list Z) : Prop := {
  km_vm : vm_ok s' p l';
  km_map va : 0 <= va < 2 ^ 32 -> mmu (k_mem s') p va = kernel_map va;
  km_pages q : q ∈ l <-> q ∈ l' \/ owned (k_mem s') p q;
  km_frame q : is_page (k_end s) q -> ~ owned (k_mem s') p q -> agree (k_mem s) (k_mem s') q;
  km_used : (length l <= KVM_PAGES + length l')%nat;
  km_only : only_mem s s' }.

(** The pages of [l] are free again, no other page was written. *)
Record given_back (s s' : kstate) (l : list Z) : Prop := {
  gb_ready : kmem_ready s';
  gb_free : exists l', free_pages s' l' /\ l' ≡ₚ l;
  gb_frame q : is_page (k_end s) q -> q ∉ l -> agree (k_mem s) (k_mem s') q;
  gb_only : only_mem s s' }.

Lemma page_off_mmu m pgdir va : mmu m pgdir va = None <-> has (entry m pgdir va) PTE_P = false.
Proof. rewrite mmu_entry. by destruct (has _ _). Qed.

(** Freeing a directory whose pages all came off the list [l]. *)
Lemma freevm_gives_back p s s' l l' : uvm_ok s' p l' -> free_pages s l -> only_mem s s' ->
  (forall q, q ∈ l <-> q ∈ l' \/ owned (k_mem s') p q \/ user_page (k_mem s') p q) ->
  (forall q, is_page (k_end s) q -> q ∉ l -> agree (k_mem s) (k_mem s') q) ->
  exists s'', freevm p s' = Ret tt s'' /\ given_back s s'' l.
Proof.
  intros Hu [Hnd _] Ho Hl Hfrm. destruct (freevm_ok p s' l' Hu) as (s'' & l'' & E & Hr & Hf & Ho' & Hl'' & Hfrm').
  pose proof (only_mem_end _ _ Ho) as Ee.
  assert (forall q, q ∈ l'' <-> q ∈ l) as Heq by (intros q; by rewrite Hl'', Hl).
  exists s''. split; [done|]. split; [done| | |by eapply only_mem_trans].
  - exists l''. split; [done|]. apply NoDup_Permutation; [apply Hf|done|done].
  - intros q Hq Hql x Hx. rewrite (Hfrm' q); [by apply (Hfrm q)|by rewrite Ee|by rewrite Heq|done].
Qed.

(** The directory and the free list while [setupkvm] builds. *)
Lemma grown_pages s s0 s' p l l' : grown p s0 s' l l' -> p ∉ l ->
  (forall q, owned (k_mem s0) p q <-> q = p) -> (forall q, is_page (k_end s) q -> q <> p -> agree (k_mem s) (k_mem s0) q) ->
  only_mem s s0 ->
  (forall q, q ∈ p :: l <-> q ∈ l' \/ owned (k_mem s') p q) /\
  (forall q, is_page (k_end s) q -> ~ owned (k_mem s') p q -> agree (k_mem s) (k_mem s') q).
Proof.
  intros [Hvm [k Hk] Ho Hn Ht Hfrm _] Hp H0 Hag Ho0. pose proof (only_mem_end _ _ Ho0) as Ee. split.
  - intros q. rewrite elem_of_cons. split.
    + intros [->|Hq]; [right; by left|by apply Ht].
    + intros [Hq|[Hq|Hq]%Hn]; [right; rewrite Hk; set_solver|left; by apply H0|by right].
  - intros q Hq Hno x Hx. rewrite (Hfrm q) by (done || by rewrite Ee). apply (Hag q); [done| |done].
    intros ->. apply Hno. by left.
Qed.

Definition kvm_tables (m : Z -> Z) (p : Z) : list Z := map (tab m p) (seqZ 512 56 ++ seqZ 1016 8).

Lemma kernel_pdx va : 0 <= va < 2 ^ 32 -> is_Some (kernel_map va) -> PDX va ∈ seqZ 512 56 ++ seqZ 1016 8.
Proof.
  intros Hva Hs. rewrite elem_of_app, !elem_of_seqZ, PDX_eq by lia.
  assert (va / 2 ^ 22 mod 1024 = va / 2 ^ 22) as ->.
  { apply Z.mod_small. split; [apply Z.div_pos; lia|apply Z.div_lt_upper_bound; lia]. }
  pose proof (Z.div_mod va (2 ^ 22) ltac:(lia)). pose proof (Z.mod_pos_bound va (2 ^ 22) ltac:(lia)).
  unfold kernel_map, KERNBASE, PHYSTOP, DEVSPACE in Hs. destruct (Z.leb_spec 0x80000000 va), (Z.ltb_spec va (0x80000000 + 0xE000000)),
    (Z.leb_spec 0xFE000000 va); cbn [andb] in Hs; first [by destruct Hs|lia].
Qed.

(** All the pages of a list are the directory or tables of the kernel's half. *)
Lemma kvm_pages_bound m p l : NoDup l -> (forall q, q ∈ l -> owned m p q) ->
  (forall i, present m p i -> exists va, 0 <= va < 2 ^ 32 /\ is_Some (kernel_map va) /\ i = PDX va) ->
  (length l <= KVM_PAGES)%nat.
Proof.
  intros Hnd Ho Hp. change KVM_PAGES with (length (p :: kvm_tables m p)).
  apply submseteq_length, NoDup_submseteq; [done|]. intros q Hq. rewrite elem_of_cons.
  destruct (Ho q Hq) as [->|(i & Hi & <-)]; [by left|right]. destruct (Hp i Hi) as (va & Hva & Hs & ->).
  apply list_elem_of_fmap. exists (PDX va). split; [done|]. by apply kernel_pdx.
Qed.

Lemma setupkvm_ok s p l : KERNBASE < k_end s -> kmem_ready s -> free_pages s (p :: l) ->
  k_data s mod PGSIZE = 0 -> KERNLINK < k_data s < KERNBASE + PHYSTOP ->
  (exists s' l', setupkvm s = Ret p s' /\ l' `suffix_of` l /\ kvm_made s s' p (p :: l) l') \/
  (exists s', setupkvm s = Ret 0 s' /\ given_back s s' (p :: l) /\ (length (p :: l) <= KVM_PAGES)%nat).
Proof.
  intros Hend Hr Hf Hal Hd. destruct (new_dir s p l Hr Hf) as (E & Hnz & Hvm & Hnone & Hown & Hag). unfold setupkvm. mstep E.
  rewrite (proj2 (Z.eqb_neq _ _) Hnz). mrun. change (DEVSPACE <? P2V PHYSTOP) with false. cbn match. mrun.
  set (s1 := kmemset p 0 PGSIZE (set_freelist (load32 p s) s)) in *. change (k_data s1) with (k_data s).
  destruct (setupkvm_loop_ok p (kmap (k_data s)) s1 l Hvm (kmap_ok _ Hal Hd)) as (s' & l' & G & Hsame & Hpi & Hcase);
    [intros va Hva _; apply Hnone; lia|by apply kmap_apart|].
  assert (only_mem s s1) as Ho1 by (unfold only_mem, s1, kmemset, set_freelist; kred; by destruct s as [? []]).
  pose proof Hf as [Hnd _]. apply NoDup_cons in Hnd as [Hpl _].
  destruct (grown_pages s s1 s' p l l' G Hpl Hown Hag Ho1) as [Hpages Hfrm].
  assert (only_mem s s') as Ho by (eapply only_mem_trans; [done|apply G]).
  assert (forall i, present (k_mem s') p i -> exists va, 0 <= va < 2 ^ 32 /\ is_Some (kernel_map va) /\ i = PDX va) as Hpk.
  { intros i [Hi|(va & Hva & Hs & ->)]%Hpi; [|exists va; by rewrite kmap_map in Hs].
    destruct (wf_tab _ _ _ _ (vm_pt _ _ _ Hvm) i Hi) as (_ & Hne & _). destruct Hne. apply Hown. right. by exists i. }
  destruct Hcase as [[E' Hmap]|[-> E']]; [left|right]; rewrite E'.
  - exists s', l'. split; [done|]. split; [apply G|]. split; [apply G| |done..| |done].
    + intros va Hva. rewrite Hmap, kmap_map by done. destruct (kernel_map va); [done|]. apply Hnone. lia.
    + destruct (gr_suffix _ _ _ _ _ G) as [k ->]. pose proof (proj1 Hf) as Hnd. rewrite app_comm_cons in Hnd, Hpages |- *.
      apply NoDup_app in Hnd as (Hnk & Hd2 & _). rewrite length_app. apply Nat.add_le_mono_r.
      apply (kvm_pages_bound (k_mem s') p); [done| |done]. intros q Hq.
      destruct (proj1 (Hpages q)) as [Hc|]; [apply elem_of_app; by left| |done]. by destruct (Hd2 q Hq).
  - assert (forall va, 0 <= va < KERNBASE -> has (entry (k_mem s') p va) PTE_P = false) as Hoff.
    { intros va Hva. apply page_off_mmu. rewrite Hsame; [apply Hnone; lia|unfold KERNBASE in *; lia|].
      rewrite kmap_map by (done || unfold KERNBASE in *; lia). by apply kernel_map_user. }
    destruct (freevm_gives_back p s s' (p :: l) []) as (s'' & E2 & Hgb); try done.
    + apply uvm_ok_empty; [by rewrite (only_mem_end _ _ Ho)|apply G|done].
    + intros q. rewrite Hpages. split; [tauto|]. intros [?|[?|(va & [Hva Hm] & _)]]; [by left|by right|].
      by rewrite (Hoff va Hva) in Hm.
    + intros q Hq Hql. apply Hfrm; [done|]. intros Hc. apply Hql, Hpages. by right.
    + exists s''. split; [by mstep E2|]. split; [done|].
      apply (kvm_pages_bound (k_mem s') p); [apply Hf|intros q Hq; by apply Hpages in Hq as [Hq%not_elem_of_nil|]|done].
Qed.

(** C18: [setupkvm] maps the kernel.  With pages free and the kernel's data on a page
    boundary inside physical memory it returns a page directory with which the
    processor translates the addresses from [KERNBASE] on to physical memory from
    0 to [PHYSTOP], those of the devices to themselves, and no other address; the
    directory is well-formed, the pages that left the free list are its own, and
    no other page is written.  When no page is left for a table it returns 0, and
    every page it took is free again; with more than [KVM_PAGES] free pages that
    does not happen. *)
Theorem setupkvm_maps s p l : KERNBASE < k_end s -> kmem_ready s -> free_pages s (p :: l) ->
  k_data s mod PGSIZE = 0 -> KERNLINK < k_data s < KERNBASE + PHYSTOP ->
  (exists s' l', setupkvm s = Ret p s' /\ l' `suffix_of` l /\ kvm_made s s' p (p :: l) l') \/
  (exists s', setupkvm s = Ret 0 s' /\ given_back s s' (p :: l) /\ (length (p :: l) <= KVM_PAGES)%nat).
Proof. apply setupkvm_ok. Qed.

(** A kernel with its data at 0x80110000 and one free page. *)
Definition demo_kvm : kstate := set_k_data 0x80110000 demo_vm.

Lemma set_data_ok v s pgdir l : vm_ok s pgdir l -> kmem_ready (set_k_data v s) /\ free_pages (set_k_data v s) l.
Proof. intros [H1 H2 _]. exact (conj H1 H2). Qed.

Lemma setupkvm_maps_witness :
  (exists s' l', setupkvm demo_kvm = Ret 0x80402000 s' /\ l' `suffix_of` [] /\ kvm_made demo_kvm s' 0x80402000 [0x80402000] l') \/
  (exists s', setupkvm demo_kvm = Ret 0 s' /\ given_back demo_kvm s' [0x80402000] /\ (length [0x80402000] <= KVM_PAGES)%nat).
Proof.
  apply (setupkvm_maps demo_kvm 0x80402000 []).
  - reflexivity.
  - exact (proj1 (set_data_ok 0x80110000 _ _ _ (proj1 demo_vm_ok))).
  - exact (proj2 (set_data_ok 0x80110000 _ _ _ (proj1 demo_vm_ok))).
  - reflexivity.
  - split; reflexivity.
Defined.
