(* ===== verification/Uvm.v ===== *)
(** Copying an address space: [copyuvm] of vm.c, the memory half of [fork].

    The theorem says what the child's page directory translates to: the
    kernel's half is that of [setupkvm], and every user page of the parent is
    a page of its own with the same bytes and the same permissions.  When
    memory runs out, on a table or on a page, everything taken is free again. *)

From stdpp Require Import base list sets strings.
From Stdlib Require Import ZArith Lia.
From S2P Require Import Prelude State Demo CString Sched Kalloc Vm PageTable Freevm Kvm.

Open Scope Z_scope.
Open Scope kernel_scope.

(** ** Flags *)

Lemma PTE_FLAGS_mod x : PTE_FLAGS x = x mod PGSIZE.
Proof. unfold PTE_FLAGS. change 0xFFF with (Z.ones 12). by rewrite Z.land_ones by lia. Qed.

Lemma PTE_FLAGS_range x : 0 <= PTE_FLAGS x < PGSIZE.
Proof. rewrite PTE_FLAGS_mod. by apply Z.mod_pos_bound. Qed.

(** An entry made with the flags of an entry that is present. *)
Lemma mk_pte_flags pa x : pa mod PGSIZE = 0 -> has x PTE_P = true ->
  PTE_FLAGS (mk_pte pa (PTE_FLAGS x)) = PTE_FLAGS x.
Proof.
  intros Ha Hp. unfold mk_pte. rewrite <- Z.lor_assoc.
  assert (Z.lor (PTE_FLAGS x) PTE_P = PTE_FLAGS x) as ->.
  { unfold has in Hp. apply negb_true_iff, Z.eqb_neq in Hp. unfold PTE_FLAGS, PTE_P in *.
    apply Z.bits_inj'. intros i Hi. rewrite Z.lor_spec. destruct (decide (i = 0)) as [->|Hne].
    - rewrite Z.land_spec. assert (Z.testbit x 0 = true) as ->; [|done].
      rewrite Z.bit0_odd. change 1 with (Z.ones 1) in Hp. rewrite Z.land_ones in Hp by lia.
      change (2 ^ 1) with 2 in Hp. rewrite Zmod_odd in Hp. by destruct (Z.odd x).
    - assert (Z.testbit 1 i = false) as ->; [|by rewrite orb_false_r].
      change 1 with (2 ^ 0). apply Z.pow2_bits_false. done. }
  rewrite lor_flags by (done || apply PTE_FLAGS_range). rewrite PTE_FLAGS_mod, Z.add_mod, Ha by done.
  rewrite Z.add_0_l, !PTE_FLAGS_mod, !Z.mod_mod by done. done.
Qed.

(** ** One page *)

(** [mappages] of a single page. *)
Lemma mappages_one pgdir a pa perm l s :
  vm_ok s pgdir l -> a mod PGSIZE = 0 -> 0 <= a < KERNBASE -> pa mod PGSIZE = 0 -> 0 <= pa < 2 ^ 32 ->
  0 <= perm < PGSIZE -> has (entry (k_mem s) pgdir a) PTE_P = false ->
  (l = [] /\ mappages pgdir a PGSIZE pa perm s = Ret (-1) s) \/
  (exists s' l', mappages pgdir a PGSIZE pa perm s = Ret 0 s' /\ grown pgdir s s' l l' /\
    forall va, 0 <= va < 2 ^ 32 -> entry (k_mem s') pgdir va =
      if decide (a <= va < a + PGSIZE) then mk_pte pa perm else entry (k_mem s) pgdir va).
Proof.
  intros Hvm Ha Hr Hpa Hpr Hperm Hnp. unfold KERNBASE in Hr.
  assert (PGROUNDDOWN a = a /\ PGROUNDDOWN (u32 (a + PGSIZE - 1)) = a) as [E1 E2].
  { pose proof (Z.div_mod a PGSIZE ltac:(done)). rewrite u32_small by (unfold PGSIZE; lia).
    rewrite !PGROUNDDOWN_floor by (unfold PGSIZE; lia). split; [unfold PGSIZE in *; lia|].
    replace ((a + PGSIZE - 1) / PGSIZE) with (a / PGSIZE); [unfold PGSIZE in *; lia|].
    apply Z.div_unique with (PGSIZE - 1); unfold PGSIZE in *; lia. }
  unfold mappages. rewrite E1, E2, Z.sub_diag. change (Z.to_nat (u32 0 / PGSIZE)) with 0%nat.
  destruct (mappages_round pgdir a pa perm a l s 0 Hvm ltac:(lia) Hpa Hpr Hperm Hnp)
    as [[-> E]|(s' & l' & E & G & He & _)]; [by left|right].
  exists s', l'. rewrite Z.eqb_refl in E. split; [done|]. split; [done|]. intros va Hva. rewrite He by done.
  pose proof (page_of a va Ha). repeat case_decide; tauto || done.
Qed.

(** The pages of an address space and the free ones. *)
Definition pages (m : Z -> Z) (pgdir : Z) (l : list Z) (q : Z) : Prop :=
  q ∈ l \/ owned m pgdir q \/ user_page m pgdir q.

(** The same directory and user pages, with a free list that has no page of
    the address space. *)
Lemma uvm_ok_ext s s' pgdir l l' : uvm_ok s pgdir l -> vm_ok s' pgdir l' -> k_end s' = k_end s ->
  (forall va, 0 <= va < 2 ^ 32 -> entry (k_mem s') pgdir va = entry (k_mem s) pgdir va) ->
  (forall q, owned (k_mem s') pgdir q <-> owned (k_mem s) pgdir q) -> 
  (forall q, q ∈ l' -> q ∈ l \/ ~ user_page (k_mem s) pgdir q) ->
  uvm_ok s' pgdir l' /\ (forall q, user_page (k_mem s') pgdir q <-> user_page (k_mem s) pgdir q).
Proof.
  intros [Hend Hvm Hpg Hinj] Hvm' Ee He Ho Hsub.
  assert (forall va, (mapped (k_mem s') pgdir va <-> mapped (k_mem s) pgdir va) /\
    (0 <= va < KERNBASE -> page_at (k_mem s') pgdir va = page_at (k_mem s) pgdir va /\
       entry (k_mem s') pgdir va = entry (k_mem s) pgdir va)) as Hm.
  { intros va. unfold mapped, page_at. split; [|intros Hva; by rewrite He by (unfold KERNBASE in *; lia)].
    split; intros [Hva ?]; (split; [done|]); [rewrite <- He|rewrite He]; unfold KERNBASE in *; (done || lia). }
  split; [split; [by rewrite Ee|done|..]|].
  - intros va Hv. destruct (Hm va) as [Hm1 Hm2]. destruct (Hm2 (proj1 Hv)) as [-> ->]. apply Hm1 in Hv.
    destruct (Hpg va Hv) as (? & ? & ? & ?). rewrite Ee, Ho. split_and!; [done| |done..].
    intros [?|Hn]%Hsub; [done|]. apply Hn. by exists va.
  - intros va va' Hv Hv'. destruct (Hm va) as [Hm1 Hm2], (Hm va') as [Hm1' Hm2'].
    destruct (Hm2 (proj1 Hv)) as [-> _], (Hm2' (proj1 Hv')) as [-> _]. apply Hinj; tauto.
  - intros q. unfold user_page. split; intros (va & Hv & Hq); exists va; destruct (Hm va) as [Hm1 Hm2];
      destruct (Hm2 (proj1 Hv)) as [E _]; [rewrite <- E|rewrite E]; tauto.
Qed.

Lemma uvm_ok_sub s s' pgdir l l' : uvm_ok s pgdir l -> vm_ok s' pgdir l' -> k_end s' = k_end s ->
  (forall va, 0 <= va < 2 ^ 32 -> entry (k_mem s') pgdir va = entry (k_mem s) pgdir va) ->
  (forall q, owned (k_mem s') pgdir q <-> owned (k_mem s) pgdir q) -> l' ⊆ l ->
  uvm_ok s' pgdir l' /\ (forall q, user_page (k_mem s') pgdir q <-> user_page (k_mem s) pgdir q).
Proof. intros Hu Hvm Ee He Ho Hsub. apply (uvm_ok_ext s s' pgdir l l'); auto. Qed.

Lemma pt_wf_sub m e pgdir l l' : pt_wf m e pgdir l -> l' ⊆ l -> pt_wf m e pgdir l'.
Proof.
  intros [W1 W2 W3 W4] Hsub. split; [done|by intros ?%Hsub| |done].
  intros i Hi. destruct (W3 i Hi) as (? & ? & ? & ?). split_and!; [done..| |done]. by intros ?%Hsub.
Qed.

(** A new entry for the page [p], taken off the free list of [s]; in [s1] it
    has its contents, in [s2] it is mapped at [a]. *)
Section NewPage.
Context (s s1 s2 : kstate) (pgdir p a perm : Z) (l l2 : list Z).
Context (Hu : uvm_ok s pgdir (p :: l)) (Hvm1 : vm_ok s1 pgdir l) (Ee : k_end s1 = k_end s).
Context (He1 : forall va, 0 <= va -> entry (k_mem s1) pgdir va = entry (k_mem s) pgdir va).
Context (Ho1 : forall q, owned (k_mem s1) pgdir q <-> owned (k_mem s) pgdir q).
Context (Ha : a mod PGSIZE = 0) (Har : 0 <= a < KERNBASE) (Hperm : 0 <= perm < PGSIZE).
Context (Hnp : has (entry (k_mem s) pgdir a) PTE_P = false) (G : grown pgdir s1 s2 l l2).
Context (He2 : forall va, 0 <= va < 2 ^ 32 -> entry (k_mem s2) pgdir va =
  if decide (a <= va < a + PGSIZE) then mk_pte (V2P p) perm else entry (k_mem s1) pgdir va).

Lemma new_page : is_page (k_end s) p /\ p ∉ l.
Proof using Hu.
  pose proof (vm_free _ _ _ (uvm_vm _ _ _ Hu)) as [Hnd (_ & Hp & _)]. by apply NoDup_cons in Hnd as [Hpl _].
Qed.

Lemma new_page_in va : a <= va < a + PGSIZE -> va / PGSIZE = a / PGSIZE /\
  entry (k_mem s2) pgdir va = mk_pte (V2P p) perm /\ mapped (k_mem s2) pgdir va /\
  page_at (k_mem s2) pgdir va = p /\ PTE_ADDR (entry (k_mem s2) pgdir va) = V2P p.
Proof using Hu Ha Har Hperm He2.
  destruct new_page as [Hp _]. destruct (V2P_range (k_end s) p Hp) as [Hvr Hva].
  destruct (mk_pte_spec (V2P p) perm Hva Hvr Hperm) as (_ & Hmp & Hma).
  intros Hv. assert (0 <= va < KERNBASE) as Hvk.
  { pose proof (Z.div_mod a PGSIZE ltac:(done)). unfold KERNBASE, PGSIZE in *. lia. }
  unfold mapped, page_at. rewrite He2, decide_True by (done || unfold KERNBASE in *; lia). rewrite Hma.
  split_and!; [by apply page_of|done|lia|lia|done|by eapply P2V_V2P|done].
Qed.

Lemma new_page_out va : mapped (k_mem s) pgdir va \/ mapped (k_mem s2) pgdir va /\ ~ a <= va < a + PGSIZE ->
  ~ a <= va < a + PGSIZE /\ mapped (k_mem s) pgdir va /\ mapped (k_mem s2) pgdir va /\
  entry (k_mem s2) pgdir va = entry (k_mem s) pgdir va /\ page_at (k_mem s2) pgdir va = page_at (k_mem s) pgdir va /\
  page_at (k_mem s) pgdir va <> p.
Proof using Hu He1 Ha Har Hnp He2.
  intros Hv. assert (0 <= va < KERNBASE) as Hr by (destruct Hv as [[? _]|[[? _] _]]; done).
  assert (~ a <= va < a + PGSIZE) as Hn.
  { destruct Hv as [[_ Hm]|[_ Hn]]; [|done]. intros Hc.
    rewrite (entry_page _ _ va a) in Hm; [congruence|unfold KERNBASE in *; lia..|by apply page_of]. }
  assert (entry (k_mem s2) pgdir va = entry (k_mem s) pgdir va) as Ev.
  { rewrite He2, decide_False by (done || unfold KERNBASE in *; lia). apply He1. lia. }
  assert (mapped (k_mem s) pgdir va) as Hm by (destruct Hv as [?|[[_ Hm] _]]; [done|]; split; [done|congruence]).
  assert (mapped (k_mem s2) pgdir va) as Hm2 by (split; [done|rewrite Ev; apply Hm]).
  do 4 (split; [done|]). split; [unfold page_at; by rewrite Ev|].
  destruct (uvm_page _ _ _ Hu va Hm) as (_ & Hc & _). intros E. apply Hc. rewrite E. by left.
Qed.

Lemma new_page_owned q : owned (k_mem s2) pgdir q -> q <> p /\ (owned (k_mem s) pgdir q \/ q ∈ l).
Proof using Hu Ho1 G.
  intros [Hq%Ho1|Hq]%(gr_new _ _ _ _ _ G); (split; [intros ->|auto]); [|by destruct new_page].
  destruct (owned_used _ _ _ _ _ (vm_pt _ _ _ (uvm_vm _ _ _ Hu)) Hq) as [_ Hc]. apply Hc. by left.
Qed.

Lemma new_page_uvm : uvm_ok s2 pgdir l2.
Proof using All.
  destruct new_page as [Hp Hpl]. destruct (gr_suffix _ _ _ _ _ G) as [k Hk].
  pose proof (only_mem_end _ _ (gr_only _ _ _ _ _ G)) as Ee2. rewrite Ee in Ee2.
  split; [rewrite Ee2; apply Hu|apply G|..].
  - intros va Hv. rewrite Ee2. destruct (decide (a <= va < a + PGSIZE)) as [Hc|Hc].
    + destruct (new_page_in va Hc) as (_ & _ & _ & -> & ->). split_and!; [done| |by intros [? _]%new_page_owned|done]. set_solver.
    + destruct (new_page_out va (or_intror (conj Hv Hc))) as (_ & Hv' & _ & -> & -> & _).
      destruct (uvm_page _ _ _ Hu va Hv') as (? & Hl & Hno & ?). split_and!; [done| | |done].
      * intros Hc2. apply Hl. right. rewrite Hk. set_solver.
      * intros [_ [?|?]]%new_page_owned; [done|]. apply Hl. by right.
  - intros va va' Hv Hv'. destruct (decide (a <= va < a + PGSIZE)) as [Hc|Hc], (decide (a <= va' < a + PGSIZE)) as [Hc'|Hc'].
    + intros _. destruct (new_page_in va Hc) as (-> & _), (new_page_in va' Hc') as (-> & _). done.
    + destruct (new_page_in va Hc) as (_ & _ & _ & -> & _), (new_page_out va' (or_intror (conj Hv' Hc'))) as (_ & _ & _ & _ & -> & Hne).
      intros ?. by destruct Hne.
    + destruct (new_page_in va' Hc') as (_ & _ & _ & -> & _), (new_page_out va (or_intror (conj Hv Hc))) as (_ & _ & _ & _ & -> & Hne). done.
    + destruct (new_page_out va (or_intror (conj Hv Hc))) as (_ & Hv1 & _ & _ & -> & _),
        (new_page_out va' (or_intror (conj Hv' Hc'))) as (_ & Hv1' & _ & _ & -> & _). by apply (uvm_inj _ _ _ Hu).
Qed.

Lemma new_page_pages q : pages (k_mem s2) pgdir l2 q <-> pages (k_mem s) pgdir (p :: l) q.
Proof using All.
  destruct (gr_suffix _ _ _ _ _ G) as [k Hk]. unfold pages. rewrite elem_of_cons. split.
  - intros [Hq|[Hq|(va & Hv & Hq)]]; [left; right; rewrite Hk; set_solver|apply new_page_owned in Hq as [_ [?|?]]; auto|].
    destruct (decide (a <= va < a + PGSIZE)) as [Hc|Hc].
    + destruct (new_page_in va Hc) as (_ & _ & _ & E & _). left. left. congruence.
    + destruct (new_page_out va (or_intror (conj Hv Hc))) as (_ & Hv' & _ & _ & E & _). right. right. exists va. split; [done|congruence].
  - intros [[->|Hq]|[Hq|(va & Hv & Hq)]].
    + right. right. exists a. destruct (new_page_in a) as (_ & _ & Hm & E & _); [unfold PGSIZE; lia|done].
    + apply (gr_taken _ _ _ _ _ G) in Hq as [?|?]; auto.
    + right. left. apply G. by apply Ho1.
    + destruct (new_page_out va (or_introl Hv)) as (_ & _ & Hv' & _ & E & _). right. right. exists va. split; [done|congruence].
Qed.
End NewPage.

(** [s'] has the address space of [s] plus, at [a], the page [p] with the
    contents it has in [m1]. *)
Record page_added (s s' : kstate) (m1 : Z -> Z) (pgdir p a perm : Z) (l l' : list Z) : Prop := {
  pa_uvm : uvm_ok s' pgdir l';
  pa_entry va : 0 <= va < 2 ^ 32 -> entry (k_mem s') pgdir va =
    if decide (a <= va < a + PGSIZE) then mk_pte (V2P p) perm else entry (k_mem s) pgdir va;
  pa_pages q : pages (k_mem s') pgdir l' q <-> pages (k_mem s) pgdir l q;
  pa_new : agree m1 (k_mem s') p;
  pa_frame q : is_page (k_end s) q -> q <> p -> ~ owned (k_mem s') pgdir q -> agree (k_mem s) (k_mem s') q;
  pa_only : only_mem s s' }.

(** [s'] has the address space of [s], and the page [p] is free as it was. *)
Record page_returned (s s' : kstate) (pgdir p : Z) (l : list Z) : Prop := {
  pr_uvm : uvm_ok s' pgdir l;
  pr_entry va : 0 <= va < 2 ^ 32 -> entry (k_mem s') pgdir va = entry (k_mem s) pgdir va;
  pr_pages q : pages (k_mem s') pgdir l q <-> pages (k_mem s) pgdir l q;
  pr_frame q : is_page (k_end s) q -> q <> p -> agree (k_mem s) (k_mem s') q;
  pr_only : only_mem s s' }.

(** [kalloc], a write to the page, and [mappages] of it. *)
Lemma take_page pgdir p l s m1 a perm : uvm_ok s pgdir (p :: l) ->
  (forall q, is_page (k_end s) q -> q <> p -> agree (k_mem s) m1 q) ->
  a mod PGSIZE = 0 -> 0 <= a < KERNBASE -> 0 <= perm < PGSIZE -> has (entry (k_mem s) pgdir a) PTE_P = false ->
  let s1 := set_k_mem m1 (set_freelist (load32 p s) s) in
  kalloc s = Ret p (set_freelist (load32 p s) s) /\ p <> 0 /\
  ((exists s', l = [] /\ mappages pgdir a PGSIZE (V2P p) perm s1 = Ret (-1) s1 /\ kfree p s1 = Ret tt s' /\
      page_returned s s' pgdir p (p :: l)) \/
   (exists s' l', mappages pgdir a PGSIZE (V2P p) perm s1 = Ret 0 s' /\
      page_added s s' m1 pgdir p a perm (p :: l) l')).
Proof.
  intros Hu Hag Ha Har Hperm Hnp s1.
  destruct (vm_ok_take pgdir p l s m1 (uvm_vm _ _ _ Hu) Hag) as (E & Hnz & Hvm1 & He1 & Ho1). fold s1 in Hvm1.
  pose proof (vm_free _ _ _ (uvm_vm _ _ _ Hu)) as [Hnd (_ & Hp & _)]. apply NoDup_cons in Hnd as [Hpl _].
  destruct (V2P_range (k_end s) p Hp) as [Hvr Hva].
  assert (only_mem s s1) as Ho by (unfold only_mem, s1, set_freelist; kred; by destruct s as [? []]).
  split; [done|]. split; [done|].
  assert (~ owned m1 pgdir p) as Hno.
  { rewrite Ho1. intros Hc. destruct (owned_used _ _ _ _ _ (vm_pt _ _ _ (uvm_vm _ _ _ Hu)) Hc) as [_ Hc']. apply Hc'. by left. }
  destruct (mappages_one pgdir a (V2P p) perm l s1 Hvm1 Ha Har Hva Hvr Hperm) as [[-> Em]|(s2 & l2 & Em & G & He2)].
  { change (k_mem s1) with m1. by rewrite He1 by lia. }
  - left. destruct (vm_ok_free pgdir p [] s1 Hvm1 Hp Hpl Hno) as (Ef & Hvm2 & He2 & Ho2 & Hag2).
    exists (freed p s1). do 3 (split; [done|]).
    assert (forall va, 0 <= va < 2 ^ 32 -> entry (k_mem (freed p s1)) pgdir va = entry (k_mem s) pgdir va) as He.
    { intros va Hv. rewrite He2 by lia. apply He1. lia. }
    assert (forall q, owned (k_mem (freed p s1)) pgdir q <-> owned (k_mem s) pgdir q) as Hoo by (intros q; rewrite Ho2; apply Ho1).
    destruct (uvm_ok_sub s (freed p s1) pgdir [p] [p] Hu Hvm2 eq_refl He Hoo ltac:(done)) as [Hu' Hup].
    split; [done..| | |].
    + intros q. unfold pages. by rewrite Hoo, Hup.
    + intros q Hq Hne x Hx. rewrite (Hag2 q) by done. by apply (Hag q).
    + eapply only_mem_trans; [done|apply freed_only].
  - right. exists s2, l2. split; [done|].
    assert (is_page (k_end s1) p) as Hp1 by done. assert (k_end s1 = k_end s) as Ee by done.
    split.
    + exact (new_page_uvm s s1 s2 pgdir p a perm l l2 Hu Hvm1 Ee He1 Ho1 Ha Har Hperm Hnp G He2).
    + intros va Hv. rewrite He2 by done. case_decide; [done|]. apply He1. lia.
    + exact (new_page_pages s s1 s2 pgdir p a perm l l2 Hu Hvm1 Ee He1 Ho1 Ha Har Hperm Hnp G He2).
    + intros x Hx. apply (gr_frame _ _ _ _ _ G p); [done| |done].
      intros Hc. by destruct (new_page_owned s s1 s2 pgdir p l l2 Hu Ho1 G p Hc).
    + intros q Hq Hne Hn x Hx. rewrite (gr_frame _ _ _ _ _ G q) by done. by apply (Hag q).
    + eapply only_mem_trans; [done|apply G].
Qed.

(** ** Unmapping, again: the pages are the same, in other places *)

Lemma unmapped_pages pgdir lo hi s s' l l' q : unmapped pgdir lo hi s s' l l' ->
  pages (k_mem s') pgdir l' q <-> pages (k_mem s) pgdir l q.
Proof.
  intros [Uu Ui Uo Ul Uw Uf Uon]. unfold pages. rewrite Uw, Ul. unfold user_page. split.
  - intros [[?|(va & _ & H)]|[?|(va & [Hva Hv] & Hq)]]; [by left|right; right; by exists va|right; by left|right; right; exists va].
    assert (entry (k_mem s') pgdir va = entry (k_mem s) pgdir va) as Ev.
    { apply Uo; [unfold KERNBASE in *; lia|]. intros Hc. rewrite Ui in Hv by (done || unfold KERNBASE in *; lia). done. }
    unfold mapped. rewrite <- Ev, <- (page_at_entry _ _ _ _ Ev). done.
  - intros [?|[?|(va & Hv & Hq)]]; [by left; left|right; by left|]. destruct (decide (lo <= va < hi)) as [Hc|Hc].
    + left. right. by exists va.
    + right. right. exists va. destruct Hv as [Hva Hv].
      assert (entry (k_mem s') pgdir va = entry (k_mem s) pgdir va) as Ev by (apply Uo; [unfold KERNBASE in *; lia|done]).
      unfold mapped. rewrite Ev, (page_at_entry _ _ _ _ Ev). done.
Qed.

(** The other user pages keep their bytes. *)
Lemma unmapped_bytes pgdir lo hi s s' l l' va pa : uvm_ok s pgdir l -> unmapped pgdir lo hi s s' l l' ->
  0 <= va < KERNBASE -> ~ lo <= va < hi -> mmu (k_mem s) pgdir va = Some pa -> k_mem s' pa = k_mem s pa.
Proof.
  intros Hu [Uu Ui Uo Ul Uw Uf Uon] Hva Hn Hpa. rewrite mmu_entry in Hpa. destruct (has _ _) eqn:Hp; [|done]. injection Hpa as <-.
  assert (entry (k_mem s') pgdir va = entry (k_mem s) pgdir va) as Ev by (apply Uo; [unfold KERNBASE in *; lia|done]).
  destruct (uvm_page _ _ _ Hu va (conj Hva Hp)) as (Hq & _ & Hno & ->).
  destruct (uvm_page _ _ _ Uu va) as (_ & Hl & _ & _); [split; [done|by rewrite Ev]|].
  rewrite (page_at_entry _ _ _ _ Ev) in Hl. apply (Uf _ Hq Hno Hl).
  pose proof (Z.mod_pos_bound va PGSIZE ltac:(done)). lia.
Qed.

(** ** [copyuvm] *)

(** An address space [d] made with pages of the free list [l0] of [s0]. *)
Record built (s0 : kstate) (l0 : list Z) (d : Z) (s : kstate) (l : list Z) : Prop := {
  bu_uvm : uvm_ok s d l;
  bu_pages q : pages (k_mem s) d l q <-> q ∈ l0;
  bu_frame q : is_page (k_end s0) q -> q ∉ l0 -> agree (k_mem s0) (k_mem s) q;
  bu_only : only_mem s0 s }.

(** At [va] the directory [d] has, in [s], the byte and the flags that [pgdir]
    has in [s0]. *)
Definition copy_of (s0 s : kstate) (pgdir d va : Z) : Prop :=
  exists pa pa', mmu (k_mem s0) pgdir va = Some pa /\ mmu (k_mem s) d va = Some pa' /\
    k_mem s pa' = k_mem s0 pa /\
    PTE_FLAGS (entry (k_mem s) d va) = PTE_FLAGS (entry (k_mem s0) pgdir va).

(** The pages below [i] are copied, no page is mapped from there on. *)
Record copied (s0 : kstate) (l0 : list Z) (pgdir d i : Z) (s : kstate) (l : list Z) : Prop := {
  cp_built : built s0 l0 d s l;
  cp_kernel va : KERNBASE <= va < 2 ^ 32 -> mmu (k_mem s) d va = kernel_map va;
  cp_rest va : i <= va < KERNBASE -> mmu (k_mem s) d va = None;
  cp_done va : 0 <= va < i -> copy_of s0 s pgdir d va }.

(** Address spaces that were there before keep their tables and pages. *)
Lemma built_parent s0 l0 pgdir d s l : uvm_ok s0 pgdir l0 -> built s0 l0 d s l ->
  uvm_ok s pgdir l /\ (forall va, 0 <= va < 2 ^ 32 -> entry (k_mem s) pgdir va = entry (k_mem s0) pgdir va).
Proof.
  intros Hu [Hud Hpg Hfrm Ho]. pose proof (only_mem_end _ _ Ho) as Ee. pose proof (uvm_vm _ _ _ Hu) as [_ _ Hwf].
  destruct (pt_agree (k_mem s0) (k_mem s) (k_end s0) pgdir l0 Hwf) as (Hwf' & He & Hown).
  { intros q Hq. by apply Hfrm; destruct (owned_used _ _ _ _ _ Hwf Hq). }
  assert (l ⊆ l0) as Hsub by (intros q Hq; apply Hpg; by left).
  split; [|intros; apply He; lia]. eapply uvm_ok_sub; [done| |done|intros; apply He; lia|done|done].
  destruct (uvm_vm _ _ _ Hud) as [Hr Hf _]. split; [done..|]. rewrite Ee. by eapply pt_wf_sub.
Qed.

(** A user page keeps its bytes when others are written. *)
Lemma user_bytes s m' pgdir l va pa : uvm_ok s pgdir l -> 0 <= va < KERNBASE -> mmu (k_mem s) pgdir va = Some pa ->
  (forall q, is_page (k_end s) q -> q ∉ l -> ~ owned (k_mem s) pgdir q -> user_page (k_mem s) pgdir q -> agree (k_mem s) m' q) ->
  m' pa = k_mem s pa.
Proof.
  intros Hu Hva Hpa Hag. rewrite mmu_entry in Hpa. destruct (has _ _) eqn:Hm; [|done]. injection Hpa as <-.
  destruct (uvm_page _ _ _ Hu va (conj Hva Hm)) as (Hq & Hl & Ho & ->). apply (Hag _ Hq Hl Ho); [by exists va|].
  pose proof (Z.mod_pos_bound va PGSIZE ltac:(done)). lia.
Qed.

(** A page of the parent keeps its bytes. *)
Lemma built_bytes s0 l0 pgdir d s l va pa : uvm_ok s0 pgdir l0 -> built s0 l0 d s l -> 0 <= va < KERNBASE ->
  mmu (k_mem s0) pgdir va = Some pa -> k_mem s pa = k_mem s0 pa.
Proof.
  intros Hu [_ _ Hfrm _] Hva Hpa. eapply user_bytes; [done..|]. auto.
Qed.

(** So does a page of the address space that a page is added to. *)
Lemma added_bytes s s' m1 d p a perm l l' va pa : uvm_ok s d (p :: l) -> page_added s s' m1 d p a perm (p :: l) l' ->
  0 <= va < KERNBASE -> ~ a <= va < a + PGSIZE -> mmu (k_mem s) d va = Some pa -> k_mem s' pa = k_mem s pa.
Proof.
  intros Hu [Pu Pe Pp Pn Pf Po] Hva Hn Hpa. rewrite mmu_entry in Hpa. destruct (has _ _) eqn:Hp; [|done]. injection Hpa as <-.
  assert (entry (k_mem s') d va = entry (k_mem s) d va) as Ev by (rewrite Pe, decide_False by (unfold KERNBASE in *; lia); done).
  destruct (uvm_page _ _ _ Hu va (conj Hva Hp)) as (Hq & Hl & _ & ->).
  destruct (uvm_page _ _ _ Pu va) as (_ & _ & Hno & _); [split; [done|by rewrite Ev]|].
  rewrite (page_at_entry _ _ _ _ Ev) in Hno. apply (Pf _ Hq); [|done|].
  - intros E. apply Hl. rewrite E. by left.
  - pose proof (Z.mod_pos_bound va PGSIZE ltac:(done)). lia.
Qed.

(** The page that is added is a copy. *)
Lemma copied_new s0 l0 pgdir d i s p l s' l' va : uvm_ok s0 pgdir l0 -> built s0 l0 d s (p :: l) ->
  i mod PGSIZE = 0 -> 0 <= i < KERNBASE -> has (entry (k_mem s0) pgdir i) PTE_P = true ->
  page_added s s' (memmove (k_mem s) (V2P p) (PTE_ADDR (entry (k_mem s) pgdir i)) (Z.to_nat PGSIZE)) d p i
    (PTE_FLAGS (entry (k_mem s) pgdir i)) (p :: l) l' ->
  i <= va < i + PGSIZE -> copy_of s0 s' pgdir d va.
Proof.
  intros Hu Hb Hi Hir Hpi [_ Pe _ Pn _ _] Hv.
  destruct (built_parent s0 l0 pgdir d s (p :: l) Hu Hb) as [_ Hpe].
  pose proof (vm_free _ _ _ (uvm_vm _ _ _ (bu_uvm _ _ _ _ _ Hb))) as [_ (_ & Hp & _)].
  assert (0 <= va < KERNBASE) as Hva by (pose proof (Z.div_mod i PGSIZE ltac:(done)); unfold KERNBASE, PGSIZE in *; lia).
  assert (entry (k_mem s0) pgdir va = entry (k_mem s0) pgdir i) as Ev
    by (apply entry_page; [unfold KERNBASE in *; lia..|by apply page_of]).
  rewrite Hpe in * by (unfold KERNBASE in *; lia).
  assert (mmu (k_mem s0) pgdir va = Some (PTE_ADDR (entry (k_mem s0) pgdir i) + va mod PGSIZE)) as Em
    by (by rewrite mmu_entry, Ev, Hpi).
  rewrite <- Ev in *. set (e := entry (k_mem s0) pgdir va) in *.
  destruct (V2P_range (k_end s) p Hp) as [Hvr Hva'].
  destruct (mk_pte_spec (V2P p) (PTE_FLAGS e) Hva' Hvr (PTE_FLAGS_range e)) as (_ & Hmp & Hma).
  pose proof (Z.mod_pos_bound va PGSIZE ltac:(done)) as Hoff.
  exists (PTE_ADDR e + va mod PGSIZE), (V2P p + va mod PGSIZE).
  rewrite (mmu_entry (k_mem s')), Pe, decide_True by (unfold KERNBASE in *; lia). rewrite Hmp, Hma.
  split_and!; [done..| |by apply mk_pte_flags].
  rewrite Pn by lia. rewrite <- (built_bytes s0 l0 pgdir d s (p :: l) va _ Hu Hb Hva Em).
  rewrite memmove_copy. change (Z.of_nat (Z.to_nat PGSIZE)) with PGSIZE. zbool. cbn [andb]. f_equal. lia.
Qed.

(** One more page is copied. *)
Lemma copied_step s0 l0 pgdir d i s p l s' l' : uvm_ok s0 pgdir l0 -> copied s0 l0 pgdir d i s (p :: l) ->
  i mod PGSIZE = 0 -> 0 <= i < KERNBASE -> has (entry (k_mem s0) pgdir i) PTE_P = true ->
  page_added s s' (memmove (k_mem s) (V2P p) (PTE_ADDR (entry (k_mem s) pgdir i)) (Z.to_nat PGSIZE)) d p i
    (PTE_FLAGS (entry (k_mem s) pgdir i)) (p :: l) l' ->
  copied s0 l0 pgdir d (i + PGSIZE) s' l'.
Proof.
  intros Hu [Hb Hk Hrest Hdone] Hi Hir Hpi Hadd. pose proof Hadd as [Pu Pe Pp Pn Pf Po].
  destruct (built_parent s0 l0 pgdir d s (p :: l) Hu Hb) as [_ Hpe]. pose proof Hb as [Hud Hpg Hfrm Ho].
  pose proof (only_mem_end _ _ Ho) as Ee.
  pose proof (vm_free _ _ _ (uvm_vm _ _ _ Hud)) as [Hnd (_ & Hp & _)].
  assert (i + PGSIZE <= KERNBASE) as Hik.
  { pose proof (Z.div_mod i PGSIZE ltac:(done)). unfold KERNBASE, PGSIZE in *. lia. }
  assert (forall va, 0 <= va < 2 ^ 32 -> ~ i <= va < i + PGSIZE -> mmu (k_mem s') d va = mmu (k_mem s) d va) as Hsame.
  { intros va Hva Hn. apply mmu_same. by rewrite Pe, decide_False. }
  assert (forall q, is_page (k_end s) q -> ~ pages (k_mem s) d (p :: l) q -> agree (k_mem s) (k_mem s') q) as Hkeep.
  { intros q Hq Hn. apply Pf; [done| |].
    - intros ->. apply Hn. left. by left.
    - intros Hc. apply Hn, Pp. right. by left. }
  split; [split; [done| | |by eapply only_mem_trans]|..].
  - intros q. by rewrite Pp.
  - intros q Hq Hl x Hx. rewrite (Hkeep q); [by apply (Hfrm q)|by rewrite Ee|by rewrite Hpg|done].
  - intros va Hva. rewrite Hsame by (unfold KERNBASE in *; lia). by apply Hk.
  - intros va Hva. rewrite Hsame by (unfold KERNBASE, PGSIZE in *; lia). apply Hrest. unfold PGSIZE in *. lia.
  - intros va Hva. destruct (decide (va < i)) as [Hlt|Hge].
    + destruct (Hdone va ltac:(lia)) as (pa & pa' & E1 & E2 & E3 & E4). exists pa, pa'.
      rewrite Hsame, Pe, decide_False by (unfold KERNBASE in *; lia). split_and!; [done..| |done]. rewrite <- E3.
      eapply (added_bytes _ _ _ _ _ _ _ _ _ va); [exact Hud|exact Hadd|lia|lia|done].
    + eapply copied_new; [done..|lia].
Qed.

(** [memmove] to a page leaves the others alone. *)
Lemma memmove_page_agree m e p q src : is_page e p -> is_page e q -> q <> p ->
  agree m (memmove m (V2P p) src (Z.to_nat PGSIZE)) q.
Proof.
  intros Hp Hq Hne x Hx. rewrite memmove_copy. change (Z.of_nat (Z.to_nat PGSIZE)) with PGSIZE.
  destruct (pages_apart e p q Hp Hq); [by apply not_eq_sym|..]; zcases.
Qed.

(** A page that could not be mapped: the address space is as it was. *)
Lemma returned_built s0 l0 d s s' p l : built s0 l0 d s (p :: l) -> page_returned s s' d p (p :: l) ->
  built s0 l0 d s' (p :: l).
Proof.
  intros [Hu Hpg Hfrm Ho] [Ru _ Rp Rf Ro]. split; [done| | |by eapply only_mem_trans].
  - intros q. by rewrite Rp.
  - intros q Hq Hl x Hx. rewrite (Rf q); [by apply (Hfrm q)|by rewrite (only_mem_end _ _ Ho)| |done].
    intros ->. apply Hl, Hpg. left. by left.
Qed.

Lemma copyuvm_loop_ok s0 l0 pgdir d sz : uvm_ok s0 pgdir l0 -> 0 <= sz <= KERNBASE ->
  (forall va, 0 <= va < sz -> has (entry (k_mem s0) pgdir va) PTE_P = true) ->
  forall fuel i s l, copied s0 l0 pgdir d i s l -> i mod PGSIZE = 0 -> 0 <= i <= PGROUNDUP sz ->
  sz - i <= (Z.of_nat fuel - 1) * PGSIZE -> (0 < fuel)%nat ->
  exists s' l', copyuvm_loop fuel pgdir d i sz s = Ret (Some d) s' /\ copied s0 l0 pgdir d (PGROUNDUP sz) s' l' \/
    copyuvm_loop fuel pgdir d i sz s = Ret None s' /\ built s0 l0 d s' l'.
Proof.
  intros Hu Hsz Hpres. destruct (PGROUNDUP_spec sz) as [Hal Hr]; [lia|unfold KERNBASE, PGSIZE in *; lia|].
  induction fuel as [|fuel IH]; intros i s l Hc Hi Hir Hf Hf0; [lia|]. cbn [copyuvm_loop].
  pose proof (Z.div_mod i PGSIZE ltac:(done)) as Di. pose proof (Z.div_mod (PGROUNDUP sz) PGSIZE ltac:(done)) as Dh.
  destruct (Z.ltb_spec i sz) as [Hlt|Hge]; cbn [negb].
  2:{ exists s, l. left. split; [done|]. replace (PGROUNDUP sz) with i; [done|]. unfold PGSIZE in *. lia. }
  pose proof Hc as [Hb Hk Hrest Hdone]. destruct (built_parent s0 l0 pgdir d s l Hu Hb) as [Hup Hpe].
  assert (0 <= i < 2 ^ 32) as Hi32 by (unfold KERNBASE in *; lia).
  pose proof (Hpres i ltac:(lia)) as Hpi. rewrite <- Hpe in Hpi by done.
  assert (has (pde_of (k_mem s) pgdir i) PTE_P = true) as Hd by (unfold entry in Hpi; by destruct (has (pde_of _ _ _) _)).
  mstep (walk_present pgdir i false l s (uvm_vm _ _ _ Hup) ltac:(lia) Hd).
  destruct (load_entry pgdir i l s (uvm_vm _ _ _ Hup) Hi32 Hd) as [Hl Hnz].
  rewrite (proj2 (Z.eqb_neq _ _) Hnz). mrun. rewrite Hl, Hpi. mrun.
  pose proof (uvm_vm _ _ _ (bu_uvm _ _ _ _ _ Hb)) as [Hready Hfree _].
  destruct l as [|p l]; [mstep (kalloc_empty s Hready Hfree); exists s, []; by right|].
  pose proof Hfree as [_ (_ & Hp & _)].
  destruct (take_page d p l s (memmove (k_mem s) (V2P p) (PTE_ADDR (entry (k_mem s) pgdir i)) (Z.to_nat PGSIZE)) i
    (PTE_FLAGS (entry (k_mem s) pgdir i)) (bu_uvm _ _ _ _ _ Hb)) as (Ek & Hp0 & Hcase).
  { intros q Hq Hne. by apply (memmove_page_agree _ (k_end s)). }
  { done. }
  { lia. }
  { apply PTE_FLAGS_range. }
  { apply page_off_mmu, Hrest. lia. }
  mstep Ek. rewrite (proj2 (Z.eqb_neq _ _) Hp0). rewrite (bind_Ret _ _ _ _ _ (modify_eq _ _)). kred.
  destruct Hcase as [(s' & _ & Em & Ef & Hret)|(s' & l' & Em & Hadd)]; mstep Em.
  - cbn [Z.ltb Z.compare]. mstep Ef. exists s', (p :: l). right. split; [done|]. by eapply returned_built.
  - cbn [Z.ltb Z.compare]. rewrite u32_small by (unfold KERNBASE, PGSIZE in *; lia).
    apply (IH _ s' l'); [|by apply next_page|unfold PGSIZE in *; lia..].
    eapply copied_step; [done..|lia|apply Hpres; lia|done].
Qed.

(** What [fork] relies on: the child [d] has copies of the user pages below
    [sz] and the kernel's half, the parent is as it was, and the two share no
    page. *)
Record uvm_copied (s : kstate) (pgdir sz : Z) (l : list Z) (s' : kstate) (d : Z) (l' : list Z) : Prop := {
  uc_child : uvm_ok s' d l';
  uc_parent : uvm_ok s' pgdir l';
  uc_same va : 0 <= va < 2 ^ 32 -> entry (k_mem s') pgdir va = entry (k_mem s) pgdir va;
  uc_frame q : is_page (k_end s) q -> q ∉ l -> agree (k_mem s) (k_mem s') q;
  uc_pages q : q ∈ l <-> q ∈ l' \/ owned (k_mem s') d q \/ user_page (k_mem s') d q;
  uc_copy va : 0 <= va < PGROUNDUP sz -> copy_of s s' pgdir d va;
  uc_rest va : PGROUNDUP sz <= va < KERNBASE -> mmu (k_mem s') d va = None;
  uc_kernel va : KERNBASE <= va < 2 ^ 32 -> mmu (k_mem s') d va = kernel_map va;
  uc_only : only_mem s s' }.

(** The directory that [setupkvm] made is where the copy starts. *)
Lemma kvm_made_copied s pgdir s' p l l' : KERNBASE < k_end s -> kvm_made s s' p (p :: l) l' ->
  copied s (p :: l) pgdir p 0 s' l'.
Proof.
  intros Hend [Kv Km Kp Kf _ Ko]. pose proof (only_mem_end _ _ Ko) as Ee.
  assert (forall va, 0 <= va < KERNBASE -> mmu (k_mem s') p va = None) as Hn.
  { intros va Hva. rewrite Km by (unfold KERNBASE in *; lia). by apply kernel_map_user. }
  split; [|intros va Hva; apply Km; unfold KERNBASE in *; lia|done|lia]. split; [| | |done].
  - apply uvm_ok_empty; [by rewrite Ee|done|]. intros va Hva. by apply page_off_mmu, Hn.
  - intros q. rewrite Kp. unfold pages. split; [|tauto]. intros [?|[?|(va & [Hva Hm] & _)]]; [auto..|].
    apply Hn, page_off_mmu in Hva. congruence.
  - intros q Hq Hl. apply Kf; [done|]. intros Hc. apply Hl, Kp. by right.
Qed.

Lemma copyuvm_ok s pgdir p l sz : uvm_ok s pgdir (p :: l) ->
  k_data s mod PGSIZE = 0 -> KERNLINK < k_data s < KERNBASE + PHYSTOP -> 0 <= sz <= KERNBASE ->
  (forall va, 0 <= va < sz -> is_Some (mmu (k_mem s) pgdir va)) ->
  (exists s' l', copyuvm pgdir sz s = Ret p s' /\ uvm_copied s pgdir sz (p :: l) s' p l') \/
  (exists s', copyuvm pgdir sz s = Ret 0 s' /\ given_back s s' (p :: l)).
Proof.
  intros Hu Hal Hd Hsz Hpres. pose proof (uvm_vm _ _ _ Hu) as [Hr Hf _]. unfold copyuvm.
  destruct (setupkvm_ok s p l (uvm_end _ _ _ Hu) Hr Hf Hal Hd) as [(s1 & l1 & E & _ & Hk)|(s1 & E & Hgb & _)]; mstep E;
    [|right; by exists s1].
  pose proof Hf as [_ (_ & Hp & _)]. rewrite (proj2 (Z.eqb_neq _ _)) by by eapply is_page_nonzero.
  pose proof (kvm_made_copied s pgdir s1 p l l1 (uvm_end _ _ _ Hu) Hk) as Hc.
  destruct (copyuvm_loop_ok s (p :: l) pgdir p sz Hu Hsz) with (fuel := S (S (Z.to_nat (sz / PGSIZE)))) (i := 0) (s := s1) (l := l1)
    as (s2 & l2 & [[E2 H2]|[E2 Hb]]); [|done|done| | |lia|mstep E2..].
  - intros va Hva. destruct (Hpres va Hva) as [x Hx]. rewrite mmu_entry in Hx. by destruct (has _ _).
  - destruct (PGROUNDUP_spec sz) as [_ ?]; [lia|unfold KERNBASE, PGSIZE in *; lia|]. lia.
  - rewrite !Nat2Z.inj_succ, Z2Nat.id by (apply Z.div_pos; unfold PGSIZE; lia).
    pose proof (Z.div_mod sz PGSIZE ltac:(done)). pose proof (Z.mod_pos_bound sz PGSIZE ltac:(done)). unfold PGSIZE in *. lia.
  - left. exists s2, l2. split; [done|]. destruct H2 as [Hb Hker Hrest Hdone]. destruct (built_parent _ _ _ _ _ _ Hu Hb) as [Hup Hpe].
    destruct Hb as [Hud Hpg Hfrm Ho]. split; try done. intros q. symmetry. apply Hpg.
  - right. destruct Hb as [Hud Hpg Hfrm Ho]. destruct (freevm_gives_back p s s2 (p :: l) l2) as (s3 & E3 & Hgb); [done..| |done|].
    + intros q. symmetry. apply Hpg.
    + exists s3. split; [|done]. by mstep E3.
Qed.

(** A process with one page at 0, of the bytes 1, and one free page. *)
Definition demo_dir : Z := 0x80400000.
Definition demo_free : kstate := set_k_data 0x80110000 (freed 0x80401000 demo_vm).
Definition demo_space : kstate :=
  store32 0x80401000 (mk_pte 0x403000 6) (table_added demo_dir 0 0x80401000 demo_free).

Lemma set_data_vm v s d l : vm_ok s d l -> vm_ok (set_k_data v s) d l /\ k_mem (set_k_data v s) = k_mem s.
Proof. intros [H1 H2 H3]. split; [|done]. split; [exact H1|exact H2|exact H3]. Qed.

Lemma demo_free_ok : vm_ok demo_free demo_dir [0x80401000; 0x80402000] /\
  (forall va, 0 <= va -> mmu (k_mem demo_free) demo_dir va = None) /\
  (forall q, owned (k_mem demo_free) demo_dir q <-> q = demo_dir).
Proof.
  destruct demo_vm_ok as (Hvm & Hn & Ho).
  destruct (vm_ok_free demo_dir 0x80401000 [0x80402000] demo_vm Hvm) as (_ & Hvm' & He & Ho' & _); [by_eval| | |].
  - intros H%list_elem_of_singleton. discriminate H.
  - intros H%Ho. discriminate H.
  - destruct (set_data_vm 0x80110000 _ _ _ Hvm') as [Hvm2 Em]. fold demo_free in Hvm2, Em. rewrite Em.
    split; [exact Hvm2|]. split.
    + intros va Hva. rewrite <- (Hn va Hva). exact (mmu_same _ _ _ _ (He va Hva)).
    + intros q. rewrite <- Ho. exact (Ho' q).
Qed.

(** A directory with one page, at 0. *)
Lemma one_page_ok s d l q perm : KERNBASE < k_end s -> vm_ok s d l -> is_page (k_end s) q -> q ∉ l ->
  ~ owned (k_mem s) d q -> 0 <= perm < PGSIZE ->
  (forall va, 0 <= va < PGSIZE -> entry (k_mem s) d va = mk_pte (V2P q) perm) ->
  (forall va, PGSIZE <= va < KERNBASE -> has (entry (k_mem s) d va) PTE_P = false) ->
  uvm_ok s d l /\ (forall va, 0 <= va < PGSIZE -> is_Some (mmu (k_mem s) d va)) /\
  (forall va, PGSIZE <= va < KERNBASE -> mmu (k_mem s) d va = None).
Proof.
  intros Hend Hvm Hq Hl Ho Hperm Hin Hout. destruct (V2P_range _ q Hq) as [Hr Ha].
  destruct (mk_pte_spec (V2P q) perm Ha Hr Hperm) as (_ & Hp & Hpa).
  assert (forall va, mapped (k_mem s) d va -> 0 <= va < PGSIZE /\ page_at (k_mem s) d va = q) as Hm.
  { intros va [Hva Hm]. destruct (decide (va < PGSIZE)); [|rewrite Hout in Hm; [done|lia]].
    split; [lia|]. unfold page_at. rewrite Hin, Hpa by lia. by eapply P2V_V2P. }
  split; [split; [done..| |]|split; [|intros va Hva; by apply page_off_mmu, Hout]].
  - intros va (Hva & ->)%Hm. rewrite Hin, Hpa by done. done.
  - intros va va' [H1 _]%Hm [H2 _]%Hm _. by rewrite !Z.div_small.
  - intros va Hva. rewrite mmu_entry, Hin, Hp by done. done.
Qed.

Lemma demo_space_ok : uvm_ok demo_space demo_dir [0x80402000] /\
  (forall va, 0 <= va < PGSIZE -> is_Some (mmu (k_mem demo_space) demo_dir va)) /\
  (forall va, PGSIZE <= va < KERNBASE -> mmu (k_mem demo_space) demo_dir va = None).
Proof.
  destruct demo_free_ok as (Hvm & Hn & Ho).
  assert (has (pde_of (k_mem demo_free) demo_dir 0) PTE_P = false) as Hp by by_eval.
  destruct (walk_new demo_dir 0 0x80401000 [0x80402000] demo_free Hvm ltac:(lia) Hp) as (_ & G & Hp' & Ht & He & _).
  destruct (mk_pte_spec 0x403000 6 eq_refl ltac:(lia) ltac:(unfold PGSIZE; lia)) as (Hv & Hpp & Hpa).
  destruct (store_entry demo_dir 0 (mk_pte 0x403000 6) [0x80402000] _ (gr_vm _ _ _ _ _ G) ltac:(lia) Hp' Hv) as (G2 & He2 & _).
  rewrite Ht in G2, He2. change (0x80401000 + 4 * PTX 0) with 0x80401000 in G2, He2. fold demo_space in G2, He2.
  apply (one_page_ok demo_space demo_dir [0x80402000] 0x80403000 6); [by_eval|apply G2|by_eval| | |unfold PGSIZE; lia|..].
  - intros H%list_elem_of_singleton. discriminate H.
  - intros Hc. apply (gr_new _ _ _ _ _ G2) in Hc as [Hc|Hc%list_elem_of_singleton]; [|discriminate Hc].
    apply (gr_new _ _ _ _ _ G) in Hc as [Hc%Ho|Hc]; [discriminate Hc|].
    apply elem_of_cons in Hc as [Hc|Hc%list_elem_of_singleton]; discriminate Hc.
  - intros va Hva. rewrite He2 by (unfold PGSIZE in *; lia). rewrite Z.div_small by exact Hva. reflexivity.
  - intros va Hva. unfold PGSIZE, KERNBASE in Hva. rewrite He2 by lia. rewrite decide_False.
    + rewrite He by lia. apply page_off_mmu, Hn. lia.
    + unfold PGSIZE. change (0 / 4096) with 0. intros E. pose proof (Z.div_mod va 4096). pose proof (Z.mod_pos_bound va 4096). lia.
Qed.




(** C21: [freevm] gives an address space back.  It returns, and the free pages are
    then the ones that were free, the user pages of the process, its page
    tables and its directory, each once; no other page is written, and nothing
    but memory and the free list changes. *)
Theorem freevm_frees pgdir s l : uvm_ok s pgdir l ->
  exists s' l', freevm pgdir s = Ret tt s' /\ kmem_ready s' /\ free_pages s' l' /\ only_mem s s' /\
    (forall q, q ∈ l' <-> pages (k_mem s) pgdir l q) /\
    (forall q, is_page (k_end s) q -> ~ pages (k_mem s) pgdir l q -> agree (k_mem s) (k_mem s') q).
Proof.
  intros Hu. destruct (freevm_ok pgdir s l Hu) as (s' & l' & E & Hr & Hf & Ho & Hl & Hfrm).
  exists s', l'. split_and!; try done. intros q Hq Hn. apply Hfrm; [done|]. by rewrite Hl.
Qed.

Lemma freevm_frees_witness : exists s' l', freevm demo_dir demo_space = Ret tt s' /\ kmem_ready s' /\
  free_pages s' l' /\ only_mem demo_space s' /\
  (forall q, q ∈ l' <-> pages (k_mem demo_space) demo_dir [0x80402000] q) /\
  (forall q, is_page (k_end demo_space) q -> ~ pages (k_mem demo_space) demo_dir [0x80402000] q -> agree (k_mem demo_space) (k_mem s') q).
Proof. apply (freevm_frees demo_dir demo_space [0x80402000]). exact (proj1 demo_space_ok). Defined.
