(* ===== verification/Allocuvm.v ===== *)
(** Growing an address space: [allocuvm] of vm.c, under [sbrk] and [exec].

    The new pages are zeroed and writable by the user; the old ones keep
    their translation and their bytes.  When memory runs out what was added
    is taken away again. *)

From stdpp Require Import base list sets strings.
From Stdlib Require Import ZArith Lia.
From S2P Require Import Prelude State Demo CString Sched Cons Kalloc Vm PageTable Freevm Kvm Uvm.

Open Scope Z_scope.
Open Scope kernel_scope.

(** A user address whose byte is 0 and which the user can write. *)
Definition zero_at (m : Z -> Z) (pgdir va : Z) : Prop :=
  exists pa, mmu m pgdir va = Some pa /\ m pa = 0 /\
    PTE_FLAGS (entry m pgdir va) = Z.lor (Z.lor PTE_P PTE_W) PTE_U.

(** The address space of [s0] with the pages of [lo .. a) added; the pages of
    [k] are off the free list for now. *)
Record extended (s0 : kstate) (l0 : list Z) (pgdir lo a : Z) (s : kstate) (l k : list Z) : Prop := {
  ex_uvm : uvm_ok s pgdir l;
  ex_pages q : pages (k_mem s) pgdir l q \/ q ∈ k <-> pages (k_mem s0) pgdir l0 q;
  ex_new va : lo <= va < a -> zero_at (k_mem s) pgdir va;
  ex_old va : 0 <= va < 2 ^ 32 -> ~ lo <= va < a -> entry (k_mem s) pgdir va = entry (k_mem s0) pgdir va;
  ex_bytes va pa : 0 <= va < KERNBASE -> mmu (k_mem s0) pgdir va = Some pa -> k_mem s pa = k_mem s0 pa;
  ex_frame q : is_page (k_end s0) q -> ~ pages (k_mem s0) pgdir l0 q -> agree (k_mem s0) (k_mem s) q;
  ex_end : k_end s = k_end s0 }.

(** The address space of [s0], as far as the user can see. *)
Record unchanged (s0 : kstate) (l0 : list Z) (pgdir : Z) (s : kstate) (l k : list Z) : Prop := {
  nc_uvm : uvm_ok s pgdir l;
  nc_pages q : pages (k_mem s) pgdir l q \/ q ∈ k <-> pages (k_mem s0) pgdir l0 q;
  nc_mmu va : 0 <= va < 2 ^ 32 -> mmu (k_mem s) pgdir va = mmu (k_mem s0) pgdir va;
  nc_bytes va pa : 0 <= va < KERNBASE -> mmu (k_mem s0) pgdir va = Some pa -> k_mem s pa = k_mem s0 pa;
  nc_frame q : is_page (k_end s0) q -> ~ pages (k_mem s0) pgdir l0 q -> agree (k_mem s0) (k_mem s) q;
  nc_end : k_end s = k_end s0 }.

(** The console can print. *)
Record console_ready (s : kstate) : Prop := {
  cr_cga : cga_ok (k_cga s);
  cr_panicked : k_panicked s = false;
  cr_lock : L_cons ∉ k_held s }.

Section Growing.
Context (s0 : kstate) (l0 : list Z) (pgdir lo hi : Z).
Context (Hlo : lo mod PGSIZE = 0) (Hhi : hi mod PGSIZE = 0) (Hr : 0 <= lo <= hi) (Hk : hi <= KERNBASE).
Context (Hnone : forall va, lo <= va < hi -> mmu (k_mem s0) pgdir va = None).

(** The page added at [a] is zero. *)
Lemma added_zero s s' a p l l' : uvm_ok s pgdir (p :: l) -> 0 <= a < KERNBASE -> a mod PGSIZE = 0 ->
  page_added s s' (memset (k_mem s) (V2P p) 0 PGSIZE) pgdir p a (Z.lor PTE_W PTE_U) (p :: l) l' ->
  forall va, a <= va < a + PGSIZE -> zero_at (k_mem s') pgdir va.
Proof.
  intros Hu Ha Hal [Pu Pe Pp Pn Pf Po] va Hva.
  pose proof (vm_free _ _ _ (uvm_vm _ _ _ Hu)) as [_ (_ & Hp & _)]. destruct (V2P_range (k_end s) p Hp) as [Hvr Hv].
  destruct (mk_pte_spec (V2P p) (Z.lor PTE_W PTE_U) Hv Hvr ltac:(done)) as (_ & Hmp & Hma).
  pose proof (Z.mod_pos_bound va PGSIZE ltac:(done)) as Hoff.
  exists (V2P p + va mod PGSIZE). rewrite mmu_entry, Pe, decide_True by (done || unfold KERNBASE, PGSIZE in *; lia).
  rewrite Hmp, Hma. split; [done|]. split.
  - rewrite Pn by lia. rewrite memset_fill by done. apply fill_in. lia.
  - replace (mk_pte (V2P p) (Z.lor PTE_W PTE_U)) with (mk_pte (V2P p) (PTE_FLAGS 7)); [by apply mk_pte_flags|].
    unfold mk_pte. by rewrite <- !Z.lor_assoc.
Qed.

(** Another page. *)
Lemma extended_step s s' a p l l' : extended s0 l0 pgdir lo a s (p :: l) [] -> a mod PGSIZE = 0 -> lo <= a < hi ->
  page_added s s' (memset (k_mem s) (V2P p) 0 PGSIZE) pgdir p a (Z.lor PTE_W PTE_U) (p :: l) l' ->
  extended s0 l0 pgdir lo (a + PGSIZE) s' l' [].
Proof using All.
  intros [Eu Ep En Eo Eb Ef Ee] Ha Har Hadd. pose proof Hadd as [Pu Pe Pp Pn Pf Po].
  assert (a + PGSIZE <= hi) as Hnext.
  { pose proof (Z.div_mod a PGSIZE ltac:(done)). pose proof (Z.div_mod hi PGSIZE ltac:(done)). unfold PGSIZE in *. lia. }
  assert (forall va pa, 0 <= va < KERNBASE -> ~ a <= va < a + PGSIZE -> mmu (k_mem s) pgdir va = Some pa -> k_mem s' pa = k_mem s pa) as Hb.
  { intros va pa Hva Hn Hpa. by eapply (added_bytes _ _ _ _ _ _ _ _ _ va). }
  split; [done|intros q; by rewrite Pp|..].
  - intros va Hva. destruct (decide (va < a)); [|apply (added_zero s s' a p l l'); (done || lia)].
    destruct (En va ltac:(lia)) as (pa & E1 & E2 & E3). unfold zero_at. exists pa.
    assert (entry (k_mem s') pgdir va = entry (k_mem s) pgdir va) as Ev by (rewrite Pe, decide_False by (unfold KERNBASE in *; lia); done).
    rewrite (mmu_same _ _ _ _ Ev), Ev, (Hb va pa) by (done || lia). done.
  - intros va Hva Hn. rewrite Pe, decide_False by (done || lia). apply Eo; [done|]. unfold PGSIZE in *. lia.
  - intros va pa Hva Hpa. assert (~ lo <= va < hi) by (intros Hc; rewrite Hnone in Hpa; done).
    rewrite (Hb va); [by apply (Eb va)|done|lia|]. rewrite <- Hpa. apply mmu_same, Eo; [unfold KERNBASE in *; lia|lia].
  - intros q Hq Hn x Hx. rewrite (Pf q); [by apply (Ef q)|by rewrite Ee| | |done].
    + intros ->. apply Hn, Ep. left. left. by left.
    + intros Hc. apply Hn, Ep. left. apply Pp. right. by left.
  - by rewrite (only_mem_end _ _ Po).
Qed.

(** A page taken and filled, and not mapped yet. *)
Lemma extended_take s a p l : extended s0 l0 pgdir lo a s (p :: l) [] -> lo <= a <= hi ->
  let s1 := kmemset p 0 PGSIZE (set_freelist (load32 p s) s) in
  extended s0 l0 pgdir lo a s1 l [p] /\ ~ pages (k_mem s1) pgdir l p.
Proof using All.
  intros [Eu Ep En Eo Eb Ef Ee] Ha s1.
  pose proof (vm_free _ _ _ (uvm_vm _ _ _ Eu)) as [Hnd (_ & Hp & _)]. apply NoDup_cons in Hnd as [Hpl _].
  destruct (vm_ok_take pgdir p l s (k_mem s1) (uvm_vm _ _ _ Eu)) as (_ & _ & Hvm & He & Ho).
  { intros q Hq Hne. by apply (memset_page_agree _ (k_end s)). }
  assert (forall va, 0 <= va < 2 ^ 32 -> entry (k_mem s1) pgdir va = entry (k_mem s) pgdir va) as He' by (intros; apply He; lia).
  destruct (uvm_ok_sub s s1 pgdir (p :: l) l Eu Hvm eq_refl He' Ho) as [Hu1 Hup]; [by apply list_subseteq_cons|].
  assert (forall va pa, 0 <= va < KERNBASE -> mmu (k_mem s) pgdir va = Some pa -> k_mem s1 pa = k_mem s pa) as Hb.
  { intros va pa Hva Hpa. apply (user_bytes s (k_mem s1) pgdir (p :: l) va); [done..|].
    intros q Hq Hl _ _. apply (memset_page_agree _ (k_end s)); [done..|]. intros ->. apply Hl. by left. }
  split; [split; [done|..|done]|].
  - intros q. rewrite <- Ep. unfold pages. rewrite Ho, Hup. set_solver.
  - intros va Hva. destruct (En va Hva) as (pa & E1 & E2 & E3). exists pa.
    rewrite (mmu_same _ _ _ _ (He' va ltac:(unfold KERNBASE in *; lia))), (He' va), (Hb va pa) by (done || unfold KERNBASE in *; lia). done.
  - intros va Hva Hn. rewrite He' by done. by apply Eo.
  - intros va pa Hva Hpa. assert (~ lo <= va < hi) by (intros Hc; rewrite Hnone in Hpa; done).
    rewrite (Hb va pa); [by apply (Eb va)|done|]. rewrite <- Hpa. apply mmu_same, Eo; [unfold KERNBASE in *; lia|lia].
  - intros q Hq Hn x Hx. transitivity (k_mem s x); [|by apply (Ef q)].
    apply (memset_page_agree (k_mem s) (k_end s) p q 0); [done|by rewrite Ee| |done].
    intros ->. apply Hn, Ep. left. left. by left.
  - unfold pages. rewrite Ho, Hup. intros [?|[Hc|(va & Hv & Hc)]]; [done|..].
    + destruct (owned_used _ _ _ _ _ (vm_pt _ _ _ (uvm_vm _ _ _ Eu)) Hc) as [_ Hl]. apply Hl. by left.
    + destruct (uvm_page _ _ _ Eu va Hv) as (_ & Hl & _). apply Hl. rewrite Hc. by left.
Qed.

(** What was added is taken away again: by [deallocuvm] over the whole range. *)
Lemma extended_undo s s' a l l' k : extended s0 l0 pgdir lo a s l k -> lo <= a <= hi ->
  unmapped pgdir lo hi s s' l l' -> unchanged s0 l0 pgdir s' l' k.
Proof using All.
  intros [Eu Ep En Eo Eb Ef Ee] Ha Hun. pose proof Hun as [Uu Ui Uo Ul Uw Uf Uon].
  assert (forall va, 0 <= va < 2 ^ 32 -> mmu (k_mem s') pgdir va = mmu (k_mem s0) pgdir va) as Hm.
  { intros va Hva. destruct (decide (lo <= va < hi)).
    - rewrite Hnone by done. by apply page_off_mmu, Ui.
    - apply mmu_same. rewrite Uo by done. apply Eo; [done|lia]. }
  split; [done|intros q; by rewrite (unmapped_pages _ _ _ _ _ _ _ _ Hun)|done|..].
  - intros va pa Hva Hpa. assert (~ lo <= va < hi) by (intros Hc; rewrite Hnone in Hpa; done).
    rewrite (unmapped_bytes _ _ _ _ _ _ _ va pa Eu Hun); [by apply (Eb va)|done..|].
    rewrite <- Hpa. apply mmu_same, Eo; [unfold KERNBASE in *; lia|lia].
  - intros q Hq Hn x Hx. rewrite (Uf q); [by apply (Ef q)|by rewrite Ee| | |done].
    + intros Hc. apply Hn, Ep. left. right. by left.
    + intros Hc. apply Hn, Ep. left. apply (unmapped_pages _ _ _ _ _ _ _ _ Hun). by left.
  - by rewrite (only_mem_end _ _ Uon).
Qed.

(** The page that could not be mapped is freed. *)
Lemma unchanged_free s p l : unchanged s0 l0 pgdir s l [p] -> is_page (k_end s0) p -> ~ pages (k_mem s) pgdir l p ->
  kfree p s = Ret tt (freed p s) /\ unchanged s0 l0 pgdir (freed p s) (p :: l) [].
Proof using.
  clear Hnone Hk Hr Hhi Hlo. intros [Nu Np Nm Nb Nf Ne] Hp Hn. unfold pages in Hn.
  destruct (vm_ok_free pgdir p l s (uvm_vm _ _ _ Nu)) as (E & Hvm & He & Ho & Hag); [by rewrite Ne|tauto..|].
  assert (forall va, 0 <= va < 2 ^ 32 -> entry (k_mem (freed p s)) pgdir va = entry (k_mem s) pgdir va) as He' by (intros; apply He; lia).
  destruct (uvm_ok_ext s (freed p s) pgdir l (p :: l) Nu Hvm eq_refl He' Ho) as [Hu Hup].
  { intros q [->|Hq]%elem_of_cons; [right; tauto|by left]. }
  split; [done|]. split; [done|..|done].
  - intros q. rewrite <- Np. unfold pages. rewrite Ho, Hup. set_solver.
  - intros va Hva. rewrite <- Nm by done. by apply mmu_same, He'.
  - intros va pa Hva Hpa. rewrite <- (Nb va pa Hva Hpa). apply (user_bytes s _ pgdir l va); [done..| |].
    + by rewrite Nm by (unfold KERNBASE in *; lia).
    + intros q Hq _ _ Hq2. apply Hag; [done|]. intros ->. tauto.
  - intros q Hq Hnq x Hx. rewrite (Hag q); [by apply (Nf q)|by rewrite Ne| |done]. intros ->. apply Hnq, Np. right. by left.
Qed.

(** Printing does not touch memory. *)
Lemma extended_print s a l k o g : extended s0 l0 pgdir lo a s l k -> extended s0 l0 pgdir lo a (set_k_out o (set_k_cga g s)) l k.
Proof using.
  clear Hnone Hk Hr Hhi Hlo. intros [[U1 [V1 V2 V3] U3 U4] Ep En Eo Eb Ef Ee]. split; [|done..].
  split; [done| |done..]. split; [done..|]. exact V3.
Qed.

(** [deallocuvm] of what was added. *)
Lemma extended_dealloc oldsz newsz s a l k : PGROUNDUP oldsz = lo -> PGROUNDUP newsz = hi -> 0 <= oldsz < newsz -> newsz < KERNBASE ->
  extended s0 l0 pgdir lo a s l k -> lo <= a <= hi ->
  exists s' l', deallocuvm pgdir newsz oldsz s = Ret oldsz s' /\ unchanged s0 l0 pgdir s' l' k /\
    forall q, pages (k_mem s') pgdir l' q <-> pages (k_mem s) pgdir l q.
Proof using All.
  intros El Eh Hsz Hnew He Ha. destruct (deallocuvm_ok pgdir newsz oldsz s l (ex_uvm _ _ _ _ _ _ _ _ He) Hsz) as (s' & l' & E & Hun); [lia|].
  rewrite El, Eh in Hun. exists s', l'. split; [done|]. split; [by eapply extended_undo|].
  intros q. by apply (unmapped_pages _ _ _ _ _ _ _ _ Hun).
Qed.

(** ** The loop *)

Lemma allocuvm_loop_ok oldsz newsz : PGROUNDUP oldsz = lo -> PGROUNDUP newsz = hi -> 0 <= oldsz <= newsz -> newsz < KERNBASE ->
  forall fuel a s l, extended s0 l0 pgdir lo a s l [] -> console_ready s -> a mod PGSIZE = 0 -> lo <= a <= hi ->
  newsz - a <= (Z.of_nat fuel - 1) * PGSIZE -> (0 < fuel)%nat ->
  exists s' l', allocuvm_loop fuel pgdir a oldsz newsz s = Ret newsz s' /\ extended s0 l0 pgdir lo hi s' l' [] \/
    allocuvm_loop fuel pgdir a oldsz newsz s = Ret 0 s' /\ unchanged s0 l0 pgdir s' l' [].
Proof using All.
  intros El Eh Hsz Hnew. destruct (PGROUNDUP_spec newsz) as [_ Hup]; [lia|unfold KERNBASE, PGSIZE in *; lia|]. rewrite Eh in Hup.
  destruct (PGROUNDUP_spec oldsz) as [_ Hlow]; [lia|unfold KERNBASE, PGSIZE in *; lia|]. rewrite El in Hlow.
  induction fuel as [|fuel IH]; intros a s l He Hcr Ha Har Hf Hf0; [lia|]. cbn [allocuvm_loop].
  pose proof (Z.div_mod a PGSIZE ltac:(done)) as Da. pose proof (Z.div_mod hi PGSIZE ltac:(done)) as Dh.
  destruct (Z.ltb_spec a newsz) as [Hlt|Hge]; cbn [negb].
  2:{ exists s, l. left. split; [done|]. replace hi with a; [done|]. unfold PGSIZE in *. lia. }
  pose proof (uvm_vm _ _ _ (ex_uvm _ _ _ _ _ _ _ _ He)) as [Hready Hfree _].
  destruct l as [|p l].
  - mstep (kalloc_empty s Hready Hfree). cbn [Z.eqb].
    destruct (cprintf_ok (bytes_of "allocuvm out of memory" ++ [10]) [] s) as (g & Ec & _); [apply Hcr..|].
    unfold cputs. set (o := k_out s ++ concat _) in Ec. mstep Ec.
    destruct (extended_dealloc oldsz newsz _ a [] [] El Eh ltac:(lia) Hnew (extended_print _ _ _ _ o g He) Har) as (s' & l' & Ed & Hnc & _).
    mstep Ed. exists s', l'. by right.
  - destruct (extended_take s a p l He Har) as [He1 Hnp]. set (s1 := kmemset p 0 PGSIZE (set_freelist (load32 p s) s)) in *.
    pose proof Hfree as [_ (_ & Hp & _)].
    destruct (take_page pgdir p l s (k_mem s1) a (Z.lor PTE_W PTE_U) (ex_uvm _ _ _ _ _ _ _ _ He)) as (Ek & Hp0 & Hcase);
      [intros q Hq Hne; by apply (memset_page_agree _ (k_end s))|done|lia|done|..].
    { rewrite (ex_old _ _ _ _ _ _ _ _ He) by (unfold KERNBASE in *; lia). apply page_off_mmu, Hnone. lia. }
    mstep Ek. rewrite (proj2 (Z.eqb_neq _ _) Hp0). rewrite (bind_Ret _ _ _ _ _ (modify_eq _ _)). fold s1.
    change (set_k_mem (k_mem s1) (set_freelist (load32 p s) s)) with s1 in Hcase.
    destruct Hcase as [(s' & _ & Em & _ & _)|(s' & l' & Em & Hadd)]; mstep Em; cbn [Z.ltb Z.compare].
    + destruct (cprintf_ok (bytes_of "allocuvm out of memory (2)" ++ [10]) [] s1) as (g & Ec & _); [apply Hcr..|].
      unfold cputs. set (o := k_out s1 ++ concat _) in Ec. mstep Ec.
      destruct (extended_dealloc oldsz newsz _ a l [p] El Eh ltac:(lia) Hnew (extended_print _ _ _ _ o g He1) Har) as (s2 & l2 & Ed & Hnc & Hpg).
      mstep Ed. destruct (unchanged_free s2 p l2 Hnc) as [Ef Hun]; [by rewrite <- (ex_end _ _ _ _ _ _ _ _ He)|by rewrite Hpg|].
      mstep Ef. exists (freed p s2), (p :: l2). by right.
    + rewrite u32_small by (unfold KERNBASE, PGSIZE in *; lia).
      apply (IH _ s' l'); [|destruct Hcr; by rewrite (pa_only _ _ _ _ _ _ _ _ _ Hadd)|by apply next_page|unfold PGSIZE in *; lia..].
      eapply extended_step; [done|done|lia|done].
Qed.
End Growing.

(** C20: [allocuvm] grows an address space.  It refuses a size that reaches the
    kernel with 0 and returns the old size when asked to shrink, changing
    nothing.  Otherwise, when nothing is mapped between the two sizes, rounded
    up to pages, it returns the new size with every address in between
    translating to a zero byte that the user can write, the others translating as
    before to the same bytes; or memory runs out and it returns 0 with the
    translation and the bytes as they were.  Either way the pages of the
    process, of its tables and of the free list are together the same, and no
    other page is written. *)
Theorem allocuvm_grows s pgdir l oldsz newsz : uvm_ok s pgdir l -> console_ready s -> 0 <= oldsz ->
  (KERNBASE <= newsz -> allocuvm pgdir oldsz newsz s = Ret 0 s) /\
  (newsz < oldsz -> newsz < KERNBASE -> allocuvm pgdir oldsz newsz s = Ret oldsz s) /\
  (oldsz <= newsz < KERNBASE ->
   (forall va, PGROUNDUP oldsz <= va < PGROUNDUP newsz -> mmu (k_mem s) pgdir va = None) ->
   exists s' l',
     allocuvm pgdir oldsz newsz s = Ret newsz s' /\ extended s l pgdir (PGROUNDUP oldsz) (PGROUNDUP newsz) s' l' [] \/
     allocuvm pgdir oldsz newsz s = Ret 0 s' /\ unchanged s l pgdir s' l' []).
Proof.
  intros Hu Hcr Ho. unfold allocuvm. split_and!.
  - intros Hn. by rewrite (proj2 (Z.leb_le _ _) Hn).
  - intros Hn Hk. by rewrite (proj2 (Z.leb_gt _ _) Hk), (proj2 (Z.ltb_lt _ _) Hn).
  - intros [Hle Hk] Hnone. rewrite (proj2 (Z.leb_gt _ _) Hk), (proj2 (Z.ltb_ge _ _) Hle).
    destruct (PGROUNDUP_spec oldsz) as [A1 B1]; [lia|unfold KERNBASE, PGSIZE in *; lia|].
    destruct (PGROUNDUP_spec newsz) as [A2 B2]; [lia|unfold KERNBASE, PGSIZE in *; lia|].
    pose proof (Z.div_mod (PGROUNDUP oldsz) PGSIZE ltac:(done)) as D1. pose proof (Z.div_mod (PGROUNDUP newsz) PGSIZE ltac:(done)) as D2.
    eapply (allocuvm_loop_ok s l pgdir (PGROUNDUP oldsz) (PGROUNDUP newsz)); [done..|unfold PGSIZE in *; lia|unfold KERNBASE, PGSIZE in *; lia|done|done|done|lia|done| |done|done|unfold PGSIZE in *; lia| |lia].
    + split; try done; [intros q; set_solver|lia].
    + rewrite !Nat2Z.inj_succ, Z2Nat.id by (apply Z.div_pos; unfold PGSIZE; lia).
      pose proof (Z.div_mod (newsz - oldsz) PGSIZE ltac:(done)). pose proof (Z.mod_pos_bound (newsz - oldsz) PGSIZE ltac:(done)).
      unfold PGSIZE in *. lia.
Qed.

Lemma allocuvm_grows_witness : exists s' l',
  allocuvm demo_dir 4096 8192 demo_space = Ret 8192 s' /\ extended demo_space [0x80402000] demo_dir 4096 8192 s' l' [] \/
  allocuvm demo_dir 4096 8192 demo_space = Ret 0 s' /\ unchanged demo_space [0x80402000] demo_dir s' l' [].
Proof.
  apply (allocuvm_grows demo_space demo_dir [0x80402000] 4096 8192).
  - exact (proj1 demo_space_ok).
  - split; by_eval.
  - lia.
  - unfold KERNBASE. lia.
  - intros va [H1 H2]. apply demo_space_ok. split; [exact H1|]. etransitivity; [exact H2|reflexivity].
Defined.
