(* ===== verification/SysArgs.v ===== *)
(** Fetching system call arguments, the first half of syscall.c.

    The arguments of a system call are words on the user stack.  The kernel
    runs on the process's page table, so a user address is read through the
    MMU; an unmapped one faults and [trap] panics, as the fault is in kernel
    mode. *)

From stdpp Require Import base list sets strings.
From Stdlib Require Import ZArith Lia.
From S2P Require Import Prelude State CString Sched Kalloc Vm.

Open Scope kernel_scope.

(** ** User memory *)

(** The current process's view of [va]. *)
Definition umem (s : kstate) (va : Z) : option Z :=
  match k_cur s with
  | Some p => k_mem s <$> mmu (k_mem s) (p_pgdir (procs s p)) va
  | None => None
  end.

Definition uload8 (va : Z) : K Z :=
  b <- gets (fun s => umem s va) ;;
  match b with Some b => ret b | None => panic "trap" end.

Definition uload32 (va : Z) : K Z :=
  b0 <- uload8 va ;; b1 <- uload8 (va + 1) ;;
  b2 <- uload8 (va + 2) ;; b3 <- uload8 (va + 3) ;;
  ret (of_le [b0; b1; b2; b3]).

Definition ustore8 (va b : Z) : K unit :=
  p <- curproc ;;
  pa <- gets (fun s => mmu (k_mem s) (p_pgdir (procs s p)) va) ;;
  match pa with
  | Some pa => modify (fun s => set_k_mem (upd (k_mem s) pa b) s)
  | None => panic "trap"
  end.

Fixpoint ustore (va : Z) (bs : list Z) : K unit :=
  match bs with
  | [] => ret tt
  | b :: bs => ustore8 va b ;;; ustore (va + 1) bs
  end.

Definition ustore32 (va v : Z) : K unit := ustore va (le32 v).

(** The bytes from [va] up to the first NUL, [n] at most: what the code reads
    when it walks a user string. *)
Fixpoint uload_str (va : Z) (n : nat) : K (list Z) :=
  match n with
  | O => ret []
  | S n =>
    b <- uload8 va ;;
    if b =? 0 then ret [] else
    bs <- uload_str (va + 1) n ;; ret (b :: bs)
  end.

(** ** Operations *)

(** [None] is a return value of -1; [Some v] is 0 with [*ip = v]. *)
Definition fetchint (addr : Z) : K (option Z) :=
  p <- curproc ;;
  sz <- gets (fun s => p_sz (procs s p)) ;;
  if (sz <=? addr) || (sz <? u32 (addr + 4)) then ret None else
  v <- uload32 addr ;;
  ret (Some (s32 v)).

(** [for(s = *pp; s < ep; s++)]: [n] bytes are left before [ep]. *)
Fixpoint fetchstr_loop (pp s : Z) (n : nat) : K (option Z) :=
  match n with
  | O => ret None
  | S n =>
    b <- uload8 s ;;
    if b =? 0 then ret (Some (s - pp)) else fetchstr_loop pp (s + 1) n
  end.

(** The length of the string at [addr]; the pointer is [addr] itself. *)
Definition fetchstr (addr : Z) : K (option Z) :=
  p <- curproc ;;
  sz <- gets (fun s => p_sz (procs s p)) ;;
  if sz <=? addr then ret None else
  fetchstr_loop addr addr (Z.to_nat (sz - addr)).

Definition argint (n : Z) : K (option Z) :=
  p <- curproc ;;
  esp <- gets (fun s => tf_esp (p_tf (procs s p))) ;;
  fetchint (u32 (esp + 4 + 4 * n)).

(** A pointer argument with [size] bytes behind it, as an unsigned address. *)
Definition argptr (n size : Z) : K (option Z) :=
  p <- curproc ;;
  i <- argint n ;;
  match i with
  | None => ret None
  | Some i =>
    sz <- gets (fun s => p_sz (procs s p)) ;;
    if (size <? 0) || (sz <=? u32 i) || (sz <? u32 (u32 i + size))
    then ret None else ret (Some (u32 i))
  end.

(** A string argument: its address and length. *)
Definition argstr (n : Z) : K (option (Z * Z)) :=
  addr <- argint n ;;
  match addr with
  | None => ret None
  | Some addr =>
    r <- fetchstr (u32 addr) ;;
    match r with
    | None => ret None
    | Some len => ret (Some (u32 addr, len))
    end
  end.

(** ** Lemmas *)

Lemma uload8_ok va b s : umem s va = Some b -> uload8 va s = Ret b s.
Proof. intros H. unfold uload8. mrun. rewrite H. done. Qed.

Lemma uload8_inv va s b s' : uload8 va s = Ret b s' -> umem s va = Some b /\ s' = s.
Proof.
  unfold uload8. mrun. destruct (umem s va); unfold ret, panic; intros H;
    try discriminate. by inversion H.
Qed.

(** Reads do not change the state. *)
Lemma uload32_pure va s v s' : uload32 va s = Ret v s' -> s' = s.
Proof.
  unfold uload32. intros Hr.
  repeat (apply bind_inv in Hr as (? & ? & Hb & Hr);
          apply uload8_inv in Hb as [_ ->]).
  by inversion Hr.
Qed.

Lemma fetchint_pure addr s r s' : fetchint addr s = Ret r s' -> s' = s.
Proof.
  unfold fetchint, curproc, myproc. mrun. destruct (k_cur s); [|done]. mrun.
  destruct (_ || _); [by inversion 1|]. intros Hr.
  apply bind_inv in Hr as (? & ? & Hb & Hr).
  apply uload32_pure in Hb as ->. by inversion Hr.
Qed.

Lemma argint_pure n s r s' : argint n s = Ret r s' -> s' = s.
Proof.
  unfold argint, curproc, myproc. mrun. destruct (k_cur s); [|done]. mrun.
  apply fetchint_pure.
Qed.

Lemma fetchstr_loop_spec pp q n s len s' :
  pp <= q -> fetchstr_loop pp q n s = Ret (Some len) s' ->
  s' = s /\ q - pp <= len < q - pp + Z.of_nat n /\ umem s (pp + len) = Some 0 /\
  (forall k, q - pp <= k < len -> exists b, umem s (pp + k) = Some b /\ b <> 0).
Proof.
  revert q. induction n as [|n IH]; intros q Hq H; [done|].
  simpl in H. apply bind_inv in H as (b & s1 & Hb & H).
  apply uload8_inv in Hb as [Hb ->].
  destruct (Z.eqb_spec b 0) as [->|Hne].
  - inversion H; subst. repeat split; try lia.
    rewrite <- Hb. f_equal. lia.
  - apply IH in H as (-> & Hl & Hz & Hnz); [|lia].
    split; [done|]. split; [lia|]. split; [done|]. intros k Hk.
    destruct (decide (k = q - pp)) as [->|].
    + exists b. split; [|done]. rewrite <- Hb. f_equal. lia.
    + apply Hnz. lia.
Qed.

(** Stores to user memory commute with an update of another part of the
    state. *)
Definition apart_mem (g : kstate -> kstate) : Prop :=
  forall s, k_mem (g s) = k_mem s /\ k_cur (g s) = k_cur s /\
    k_proc (g s) = k_proc s /\ forall m, g (set_k_mem m s) = set_k_mem m (g s).

Lemma ustore8_apart g va b s s' :
  apart_mem g -> ustore8 va b s = Ret tt s' -> ustore8 va b (g s) = Ret tt (g s').
Proof.
  intros Hg. destruct (Hg s) as (Hm & Hc & Hp & Hset).
  unfold ustore8, curproc, myproc. mrun. rewrite Hc.
  destruct (k_cur s) as [p|]; [|done]. mrun. unfold procs. rewrite Hm, Hp.
  destruct (mmu _ _ _) as [pa|]; [|done]. unfold modify.
  intros E. injection E as <-. by rewrite Hset, Hm.
Qed.

Lemma ustore_apart g va bs s s' :
  apart_mem g -> ustore va bs s = Ret tt s' -> ustore va bs (g s) = Ret tt (g s').
Proof.
  intros Hg. revert va s. induction bs as [|b bs IH]; intros va s; simpl.
  - unfold ret. intros E. by injection E as <-.
  - intros H. apply bind_inv in H as ([] & s1 & H1 & H2).
    mstep (ustore8_apart g _ _ _ _ Hg H1). by apply IH.
Qed.

Lemma ustore8_mem va b s s' :
  ustore8 va b s = Ret tt s' -> exists m, s' = set_k_mem m s.
Proof.
  unfold ustore8, curproc, myproc. mrun. destruct (k_cur s); [|done]. mrun.
  destruct (mmu _ _ _); [|done]. unfold modify. intros E. injection E as <-. eauto.
Qed.

Lemma keeps_uload8 {B} (f : kstate -> B) va : keeps f (uload8 va).
Proof. unfold uload8. frame. Qed.
#[export] Hint Resolve keeps_uload8 : frame.

(** [n] bytes of user memory, in order. *)
Fixpoint uloadn (va : Z) (n : nat) : K (list Z) :=
  match n with
  | O => ret []
  | S n => b <- uload8 va ;; bs <- uloadn (va + 1) n ;; ret (b :: bs)
  end.
