(* ===== verification/MsgQueue.v ===== *)
(** The message queue: [msgqueue_init] of main.c, [sys_send] and [sys_recv] of
    sysproc.c.

    The queue is a ring of [MAX_MESSAGES] slots.  [contents] is the list of
    queued messages it stands for, oldest first. *)

From stdpp Require Import base list sets strings.
From Stdlib Require Import ZArith Lia.
From S2P Require Import Prelude State CString Sched Cons Kalloc Vm SysArgs Demo.

Open Scope kernel_scope.

(** ** Operations *)

Definition upd_msgq (f : message_queue -> message_queue) (s : kstate) : kstate :=
  set_k_msgq (f (k_msgq s)) s.

Definition msgqueue_init : K unit :=
  modify (upd_msgq (fun q => set_q_count 0 (set_q_tail 0 (set_q_head 0 q)))) ;;;
  cputs "Message queue initialized.".

(** [safestrcpy] from user memory into a kernel array. *)
Definition safestrcpy_in (dst : list Z) (va n : Z) : K (list Z) :=
  bs <- uload_str va (Z.to_nat (n - 1)) ;;
  ret (safestrcpy dst (arr bs) n).

(** [safestrcpy] from a kernel array into user memory: the loop and the final
    NUL, a store at a time; [n] is the count left after the first decrement. *)
Fixpoint safestrcpy_out (va : Z) (t : ptr) (i n : nat) : K unit :=
  match n with
  | O => ustore8 (va + Z.of_nat i) 0
  | S n =>
    ustore8 (va + Z.of_nat i) (t i) ;;;
    if t i =? 0 then ustore8 (va + Z.of_nat i + 1) 0
    else safestrcpy_out va t (S i) n
  end.

Definition slot (i : Z) (q : message_queue) : message := q_messages q !!! Z.to_nat i.

Definition sys_send : K Z :=
  ty <- argint 0 ;;
  match ty with
  | None => ret (-1)
  | Some type =>
    p <- argptr 1 MSG_SIZE ;;
    match p with
    | None => ret (-1)
    | Some msg =>
      acquire L_msgq ;;;
      q <- gets k_msgq ;;
      if q_count q =? MAX_MESSAGES then release L_msgq ;;; ret (-1) else
      let t := Z.to_nat (q_tail q) in
      modify (upd_msgq (fun q =>
        set_q_messages (alter (set_m_type type) t (q_messages q)) q)) ;;;
      data <- safestrcpy_in (m_data (slot (q_tail q) q)) msg MSG_SIZE ;;
      modify (upd_msgq (fun q =>
        set_q_messages (alter (set_m_data data) t (q_messages q)) q)) ;;;
      modify (upd_msgq (fun q =>
        set_q_tail (Z.rem (q_tail q + 1) MAX_MESSAGES) q)) ;;;
      modify (upd_msgq (fun q => set_q_count (q_count q + 1) q)) ;;;
      release L_msgq ;;;
      ret 0
    end
  end.

(** [for (j = index; j != tail; j = (j + 1) % MAX_MESSAGES)]: the messages
    after [index] move down a slot.  The ring has [MAX_MESSAGES] slots, so
    [j] meets [tail] within that many steps. *)
Fixpoint shift_loop (fuel : nat) (j tail : Z) (ms : list message) : list message :=
  match fuel with
  | O => ms
  | S fuel =>
    if j =? tail then ms else
    let j' := Z.rem (j + 1) MAX_MESSAGES in
    shift_loop fuel j' tail (<[Z.to_nat j := ms !!! Z.to_nat j']> ms)
  end.

(** [for (i = 0; i < msgq.count; i++)]: [n] is [msgq.count - i]. *)
Fixpoint recv_loop (type msg i : Z) (n : nat) : K Z :=
  match n with
  | O => release L_msgq ;;; ret (-1)
  | S n =>
    q <- gets k_msgq ;;
    let index := Z.rem (q_head q + i) MAX_MESSAGES in
    if m_type (slot index q) =? type then
      safestrcpy_out msg (arr (m_data (slot index q))) 0 (Z.to_nat (MSG_SIZE - 1)) ;;;
      modify (upd_msgq (fun q => set_q_messages
        (shift_loop (Z.to_nat MAX_MESSAGES) index (q_tail q) (q_messages q)) q)) ;;;
      modify (upd_msgq (fun q =>
        set_q_tail (Z.rem (q_tail q - 1 + MAX_MESSAGES) MAX_MESSAGES) q)) ;;;
      modify (upd_msgq (fun q => set_q_count (q_count q - 1) q)) ;;;
      release L_msgq ;;;
      ret 0
    else recv_loop type msg (i + 1) n
  end.

Definition sys_recv : K Z :=
  ty <- argint 0 ;;
  match ty with
  | None => ret (-1)
  | Some type =>
    p <- argptr 1 MSG_SIZE ;;
    match p with
    | None => ret (-1)
    | Some msg =>
      acquire L_msgq ;;;
      n <- gets (fun s => q_count (k_msgq s)) ;;
      recv_loop type msg 0 (Z.to_nat n)
    end
  end.

(** ** The queue a ring stands for *)

(** The slot of the [x]-th message. *)
Definition phys (q : message_queue) (x : nat) : nat :=
  Z.to_nat ((q_head q + Z.of_nat x) mod MAX_MESSAGES).

Definition contents (q : message_queue) : list message :=
  map (fun x => q_messages q !!! phys q x) (seq 0 (Z.to_nat (q_count q))).

Definition msgq_wf (q : message_queue) : Prop :=
  length (q_messages q) = Z.to_nat MAX_MESSAGES /\
  Forall (fun m => length (m_data m) = Z.to_nat MSG_SIZE) (q_messages q) /\
  0 <= q_head q < MAX_MESSAGES /\ 0 <= q_count q <= MAX_MESSAGES /\
  q_tail q = (q_head q + q_count q) mod MAX_MESSAGES.

#[export] Instance msgq_wf_dec q : Decision (msgq_wf q).
Proof. unfold msgq_wf. apply _. Defined.

(** ** Ring arithmetic *)

Lemma phys_lt q x : msgq_wf q -> (phys q x < length (q_messages q))%nat.
Proof.
  intros (Hl & _ & Hh & _). rewrite Hl. unfold phys.
  pose proof (Z.mod_pos_bound (q_head q + Z.of_nat x) MAX_MESSAGES).
  unfold MAX_MESSAGES in *. lia.
Qed.

Lemma phys_inj q x y :
  (x < 64)%nat -> (y < 64)%nat -> phys q x = phys q y -> x = y.
Proof.
  intros Hx Hy H. unfold phys, MAX_MESSAGES in H.
  pose proof (Z.mod_pos_bound (q_head q + Z.of_nat x) 64).
  pose proof (Z.mod_pos_bound (q_head q + Z.of_nat y) 64).
  pose proof (Z.div_mod (q_head q + Z.of_nat x) 64).
  pose proof (Z.div_mod (q_head q + Z.of_nat y) 64). lia.
Qed.

Lemma phys_tail q : msgq_wf q -> Z.to_nat (q_tail q) = phys q (Z.to_nat (q_count q)).
Proof.
  intros (_ & _ & _ & Hc & ->). unfold phys. rewrite Z2Nat.id by lia. done.
Qed.

Lemma rem_next a : 0 <= a -> Z.rem (a mod 64 + 1) 64 = (a + 1) mod 64.
Proof.
  intros H. rewrite Z.rem_mod_nonneg by (pose proof (Z.mod_pos_bound a 64); lia).
  rewrite Zplus_mod_idemp_l. done.
Qed.

Lemma length_contents q : 0 <= q_count q -> Z.of_nat (length (contents q)) = q_count q.
Proof. intros H. unfold contents. rewrite length_map, length_seq. lia. Qed.

Lemma lookup_contents q x :
  (x < Z.to_nat (q_count q))%nat -> contents q !! x = Some (q_messages q !!! phys q x).
Proof.
  intros Hx. unfold contents. rewrite list_lookup_fmap, lookup_seq_lt by lia. done.
Qed.

(** The ring with new slots and [c] messages. *)
Definition ring (ms : list message) (c : Z) (q : message_queue) : message_queue :=
  mk_message_queue ms (q_head q) ((q_head q + c) mod MAX_MESSAGES) c.

Lemma contents_ring_push q (m : message) :
  msgq_wf q -> q_count q < MAX_MESSAGES ->
  contents (ring (<[Z.to_nat (q_tail q) := m]> (q_messages q)) (q_count q + 1) q)
  = contents q ++ [m].
Proof.
  intros Hwf Hc. pose proof Hwf as (Hlen & _ & Hh & Hcb & Ht).
  apply list_eq. intros x.
  set (n := Z.to_nat (q_count q)).
  assert (Hn : Z.to_nat (q_count q + 1) = S n) by lia.
  assert (Hl : length (contents q) = n)
    by (unfold contents; by rewrite length_map, length_seq).
  destruct (decide (x < n)%nat) as [Hx|Hx].
  - rewrite lookup_app_l by lia. rewrite !lookup_contents by (simpl; lia).
    simpl. f_equal. change (phys (ring _ _ _) x) with (phys q x).
    apply list_lookup_total_insert_ne. rewrite phys_tail by done. fold n.
    intros E. apply phys_inj in E; unfold MAX_MESSAGES in *; lia.
  - destruct (decide (x = n)) as [->|Hxn].
    + rewrite lookup_contents by (simpl; lia).
      rewrite lookup_app_r, Hl, Nat.sub_diag by lia. simpl. f_equal.
      change (phys (ring _ _ _) n) with (phys q n).
      rewrite <- phys_tail by done.
      apply list_lookup_total_insert_eq. rewrite phys_tail by done.
      by apply phys_lt.
    + rewrite !lookup_ge_None_2; [done| |].
      * rewrite length_app, Hl. simpl. lia.
      * unfold contents. rewrite length_map, length_seq. simpl. lia.
Qed.

Lemma shift_loop_stop fuel t ms : shift_loop fuel t t ms = ms.
Proof. destruct fuel; simpl; [done|]. by rewrite Z.eqb_refl. Qed.

(** A slot that holds a message is not the tail, unless the ring is full and it
    is the head. *)
Lemma phys_ne_tail q x : msgq_wf q -> (x < Z.to_nat (q_count q))%nat ->
  (0 < x)%nat \/ q_count q < MAX_MESSAGES -> Z.of_nat (phys q x) <> q_tail q.
Proof.
  intros Hwf Hx Hside E. pose proof Hwf as (_ & _ & Hh & Hc & Ht').
  assert (E' : phys q x = phys q (Z.to_nat (q_count q))) by (rewrite <- phys_tail by done; lia).
  destruct (decide (q_count q < MAX_MESSAGES)).
  - apply phys_inj in E'; unfold MAX_MESSAGES in *; lia.
  - assert (Hc64 : Z.to_nat (q_count q) = 64%nat) by (unfold MAX_MESSAGES in *; lia).
    assert (phys q 64 = phys q 0) as E0.
    { unfold phys, MAX_MESSAGES. f_equal.
      replace (q_head q + Z.of_nat 64) with (q_head q + 0 + 1 * 64) by lia. by rewrite Z.mod_add by lia. }
    rewrite Hc64, E0 in E'. apply phys_inj in E'; lia.
Qed.

Lemma phys_next q x : msgq_wf q -> Z.rem (Z.of_nat (phys q x) + 1) MAX_MESSAGES = Z.of_nat (phys q (S x)).
Proof.
  intros (_ & _ & Hh & _). unfold phys, MAX_MESSAGES in *. rewrite !Z2Nat.id by (apply Z.mod_pos_bound; lia).
  rewrite rem_next by lia. f_equal. lia.
Qed.

(** The shift loop over positions [x .. x + n - 1] of the ring. *)
Lemma shift_loop_spec q n : forall x ms fuel,
  msgq_wf q -> length ms = 64%nat -> (x + n)%nat = Z.to_nat (q_count q) ->
  (0 < x)%nat \/ q_count q < MAX_MESSAGES -> (n <= fuel)%nat ->
  let r := shift_loop fuel (Z.of_nat (phys q x)) (q_tail q) ms in
  length r = 64%nat /\
  forall y, (y < 63)%nat -> (y < x + n - 1)%nat -> r !!! phys q y =
    if decide (y < x)%nat then ms !!! phys q y else ms !!! phys q (S y).
Proof.
  induction n as [|n IH]; intros x ms fuel Hwf Hlen Hxn Hside Hf; cbv zeta.
  - assert (Ht : Z.of_nat (phys q x) = q_tail q).
    { pose proof (phys_tail q Hwf) as E.
      destruct Hwf as (_ & _ & Hh & Hc & Ht').
      rewrite <- Hxn, Nat.add_0_r in E. rewrite <- E.
      rewrite Z2Nat.id; [done|]. rewrite Ht'. apply Z.mod_pos_bound.
      unfold MAX_MESSAGES; lia. }
    rewrite Ht.
    rewrite shift_loop_stop. split; [done|]. intros y Hy Hyx. rewrite decide_True by lia. done.
  - destruct fuel as [|fuel]; [lia|]. cbn [shift_loop].
    pose proof Hwf as (_ & _ & Hh & Hc & Ht').
    pose proof (phys_ne_tail q x Hwf ltac:(lia) Hside) as Hne.
    rewrite (proj2 (Z.eqb_neq _ _) Hne).
    rewrite (phys_next q x Hwf), !Nat2Z.id.
    destruct (IH (S x) (<[phys q x := ms !!! phys q (S x)]> ms) fuel) as [Hl IHr];
      try done; [by rewrite length_insert|lia|lia|lia|].
    split; [done|]. intros y Hy Hyx. rewrite IHr by lia.
    assert (Hpl : (phys q x < length ms)%nat).
    { rewrite Hlen. unfold phys.
      pose proof (Z.mod_pos_bound (q_head q + Z.of_nat x) MAX_MESSAGES).
      unfold MAX_MESSAGES in *. lia. }
    assert (Hxs : (x < 64)%nat) by (unfold MAX_MESSAGES in *; lia).
    destruct (decide (y < x)%nat).
    + rewrite decide_True by lia.
      rewrite list_lookup_total_insert_ne; [done|].
      intros E. apply phys_inj in E; lia.
    + destruct (decide (y = x)) as [->|].
      * rewrite decide_True by lia. by rewrite list_lookup_total_insert_eq.
      * rewrite decide_False by lia.
        rewrite list_lookup_total_insert_ne; [done|].
        intros E. apply phys_inj in E; lia.
Qed.

Lemma shift_loop_Forall (P : message -> Prop) fuel : forall j tail ms,
  length ms = 64%nat -> Forall P ms -> 0 <= j < 64 ->
  Forall P (shift_loop fuel j tail ms).
Proof.
  induction fuel as [|fuel IH]; intros j tail ms Hlen HP Hj; [done|].
  cbn [shift_loop]. case_match; [done|]. unfold MAX_MESSAGES.
  assert (0 <= Z.rem (j + 1) 64 < 64) by (apply Z.rem_bound_pos; lia).
  apply IH; [by rewrite length_insert| |done].
  apply Forall_insert; [done|].
  destruct (lookup_lt_is_Some_2 ms (Z.to_nat (Z.rem (j + 1) 64))) as [m Hm]; [lia|].
  rewrite (list_lookup_total_correct _ _ _ Hm).
  by eapply (proj1 (Forall_lookup P ms)).
Qed.

(** ** User strings *)

Lemma uload_str_spec n : forall va s bs s',
  uload_str va n s = Ret bs s' ->
  s' = s /\ (length bs <= n)%nat /\ Forall (fun b => b <> 0) bs.
Proof.
  induction n as [|n IH]; intros va s bs s' H; simpl in H.
  - by inversion H.
  - apply bind_inv in H as (b & s1 & Hb & H). apply uload8_inv in Hb as [_ ->].
    destruct (Z.eqb_spec b 0).
    + inversion H. simpl. repeat split; [lia|constructor].
    + apply bind_inv in H as (bs' & s2 & Hr & H).
      apply IH in Hr as (-> & Hl & Hz). inversion H; subst. simpl.
      repeat split; [lia|by constructor].
Qed.

(** A read of user memory sees only the memory, the process table and the
    current process. *)
Lemma uload_str_frame n : forall va s s2 bs,
  (forall a, umem s2 a = umem s a) -> uload_str va n s = Ret bs s ->
  uload_str va n s2 = Ret bs s2.
Proof.
  induction n as [|n IH]; intros va s s2 bs Hu H; simpl in *.
  - by inversion H.
  - apply bind_inv in H as (b & s1 & Hb & H). apply uload8_inv in Hb as [Hb ->].
    rewrite <- Hu in Hb. mstep (uload8_ok _ _ _ Hb).
    destruct (b =? 0); [by inversion H|].
    apply bind_inv in H as (bs' & s3 & Hr & H).
    pose proof (uload_str_spec _ _ _ _ _ Hr) as (-> & _).
    mstep (IH _ _ _ _ Hu Hr). by inversion H.
Qed.

Lemma cstr_arr bs n :
  Forall (fun b => b <> 0) bs -> (length bs <= n)%nat -> cstr n (arr bs) = bs.
Proof.
  revert n. induction bs as [|b bs IH]; intros n Hz Hl.
  - by destruct n.
  - destruct n as [|n]; simpl in Hl; [lia|].
    inversion Hz as [|? ? Hb Hz']; subst. rewrite cstr_S.
    change (arr (b :: bs) O) with b.
    rewrite (proj2 (Z.eqb_neq b 0) Hb). f_equal.
    rewrite <- (IH n) at 2 by (done || lia). by apply cstr_ext.
Qed.

(** ** [sys_send] *)

Lemma alter_msg_data t ty d (ms : list message) :
  alter (set_m_data d) t (alter (set_m_type ty) t ms)
  = <[t := mk_message ty d]> ms.
Proof.
  rewrite alter_alter. apply list_eq. intros j.
  destruct (decide (t = j)) as [->|Hne].
  - rewrite list_lookup_alter_eq. destruct (ms !! j) eqn:E; simpl.
    + rewrite list_lookup_insert_eq by (by eapply lookup_lt_Some). done.
    + rewrite lookup_ge_None_2; [done|]. rewrite length_insert.
      by apply lookup_ge_None_1.
  - by rewrite list_lookup_alter_ne, list_lookup_insert_ne by done.
Qed.

Lemma ring_wf q ms c :
  msgq_wf q -> length ms = Z.to_nat MAX_MESSAGES ->
  Forall (fun m => length (m_data m) = Z.to_nat MSG_SIZE) ms ->
  0 <= c <= MAX_MESSAGES -> msgq_wf (ring ms c q).
Proof. intros (_ & _ & Hh & _) Hl HF Hc. repeat split; simpl; done || lia. Qed.

Lemma slot_data_length q :
  msgq_wf q -> length (m_data (slot (q_tail q) q)) = Z.to_nat MSG_SIZE.
Proof.
  intros Hwf. unfold slot. rewrite phys_tail by done.
  pose proof (phys_lt q (Z.to_nat (q_count q)) Hwf) as Hlt.
  destruct (lookup_lt_is_Some_2 _ _ Hlt) as [m Hm].
  rewrite (list_lookup_total_correct _ _ _ Hm).
  destruct Hwf as (_ & HF & _). by apply (proj1 (Forall_lookup _ _) HF _ _ Hm).
Qed.

(** The queue after a send. *)
Definition sent (type : Z) (bs : list Z) (q : message_queue) : message_queue :=
  ring (<[Z.to_nat (q_tail q) := mk_message type
          (safestrcpy (m_data (slot (q_tail q) q)) (arr bs) MSG_SIZE)]>
        (q_messages q)) (q_count q + 1) q.

Lemma sys_send_run type msg bs s :
  argint 0 s = Ret (Some type) s -> argptr 1 MSG_SIZE s = Ret (Some msg) s ->
  uload_str msg (Z.to_nat (MSG_SIZE - 1)) s = Ret bs s ->
  L_msgq ∉ k_held s -> msgq_wf (k_msgq s) -> q_count (k_msgq s) < MAX_MESSAGES ->
  sys_send s = Ret 0 (set_k_msgq (sent type bs (k_msgq s)) s).
Proof.
  intros H1 H2 H3 Hl Hwf Hc. unfold sys_send. mstep H1. mstep H2.
  mstep (acquire_ok _ _ Hl). mrun. kred.
  rewrite (proj2 (Z.eqb_neq (q_count (k_msgq s)) MAX_MESSAGES)) by lia. mrun.
  unfold safestrcpy_in. mrun.
  match goal with |- bind _ _ ?s2 = _ =>
    assert (H4 : uload_str msg (Z.to_nat (MSG_SIZE - 1)) s2 = Ret bs s2)
      by (eapply uload_str_frame; [|exact H3]; done) end.
  mstep H4. mrun.
  erewrite bind_Ret; [|apply (release_ok L_msgq (k_held s)); [reflexivity|done]].
  unfold ret. f_equal. unfold upd_msgq, sent, ring. simpl.
  rewrite alter_msg_data.
  destruct Hwf as (_ & _ & Hh & Hcb & Ht).
  rewrite Ht. unfold MAX_MESSAGES. rewrite rem_next by lia.
  rewrite Z.add_assoc. by destruct s.
Qed.

(** ** [sys_recv] *)

Lemma ustore8_frame va b s s' :
  ustore8 va b s = Ret tt s' -> exists m, s' = set_k_mem m s.
Proof.
  unfold ustore8, curproc, myproc. mrun. destruct (k_cur s); [|done]. mrun.
  destruct (mmu _ _ _); [|done]. unfold modify. inversion 1. eauto.
Qed.

Lemma safestrcpy_out_frame va t n : forall i s s',
  safestrcpy_out va t i n s = Ret tt s' -> exists m, s' = set_k_mem m s.
Proof.
  induction n as [|n IH]; intros i s s' H; cbn [safestrcpy_out] in H.
  - by eapply ustore8_frame.
  - apply bind_inv in H as ([] & s1 & H1 & H).
    apply ustore8_frame in H1 as [m1 ->]. destruct (t i =? 0).
    + apply ustore8_frame in H as [m ->]. by exists m.
    + apply IH in H as [m ->]. by exists m.
Qed.

(** The queue after the [x]-th message was taken. *)
Definition received (x : nat) (q : message_queue) : message_queue :=
  ring (shift_loop (Z.to_nat MAX_MESSAGES) (Z.of_nat (phys q x)) (q_tail q)
          (q_messages q)) (q_count q - 1) q.

Lemma index_phys q x :
  msgq_wf q -> Z.rem (q_head q + Z.of_nat x) MAX_MESSAGES = Z.of_nat (phys q x).
Proof.
  intros (_ & _ & Hh & _). unfold phys.
  rewrite Z.rem_mod_nonneg by (unfold MAX_MESSAGES in *; lia).
  rewrite Z2Nat.id; [done|]. apply Z.mod_pos_bound. done.
Qed.

Lemma slot_phys q x : slot (Z.of_nat (phys q x)) q = q_messages q !!! phys q x.
Proof. unfold slot. by rewrite Nat2Z.id. Qed.

(** The tail steps back to the slot before it. *)
Lemma tail_back q :
  msgq_wf q -> 0 < q_count q ->
  Z.rem (q_tail q - 1 + MAX_MESSAGES) MAX_MESSAGES
  = (q_head q + (q_count q - 1)) mod MAX_MESSAGES.
Proof.
  intros (_ & _ & Hh & Hc & ->) Hpos. unfold MAX_MESSAGES in *.
  rewrite Z.rem_mod_nonneg
    by (pose proof (Z.mod_pos_bound (q_head q + q_count q) 64); lia).
  replace ((q_head q + q_count q) mod 64 - 1 + 64)
    with ((q_head q + q_count q) mod 64 + 63) by lia.
  rewrite Zplus_mod_idemp_l.
  replace (q_head q + q_count q + 63) with (q_head q + (q_count q - 1) + 1 * 64) by lia.
  by rewrite Z.mod_add by lia.
Qed.

Lemma recv_loop_found type msg q h m1 x n : forall i s,
  k_msgq s = q -> msgq_wf q -> k_held s = L_msgq :: h -> L_msgq ∉ h ->
  (i <= x < Z.to_nat (q_count q))%nat -> (x < i + n)%nat ->
  (forall y, (i <= y < x)%nat -> m_type (q_messages q !!! phys q y) <> type) ->
  m_type (q_messages q !!! phys q x) = type ->
  safestrcpy_out msg (arr (m_data (q_messages q !!! phys q x))) 0
    (Z.to_nat (MSG_SIZE - 1)) s = Ret tt (set_k_mem m1 s) ->
  recv_loop type msg (Z.of_nat i) n s
  = Ret 0 (set_k_held h (set_k_msgq (received x q) (set_k_mem m1 s))).
Proof.
  induction n as [|n IH]; intros i s Hq Hwf Hh Hl Hi Hn Hbefore Hx Hout; [lia|].
  cbn [recv_loop]. mrun. rewrite Hq, index_phys, slot_phys by done.
  destruct (decide (i = x)) as [->|Hne].
  - rewrite Hx, Z.eqb_refl. mstep Hout. mrun.
    erewrite bind_Ret; [|apply (release_ok L_msgq h); [exact Hh|exact Hl]].
    unfold ret. f_equal. unfold upd_msgq, received, ring. kred.
    rewrite Hq. cbn [q_tail q_head q_messages q_count set_q_messages set_q_tail
      set_q_count]. rewrite tail_back by (done || lia). done.
  - rewrite (proj2 (Z.eqb_neq _ _)) by (apply Hbefore; lia).
    replace (Z.of_nat i + 1) with (Z.of_nat (S i)) by lia.
    apply IH; try done; try lia. intros y Hy. apply Hbefore. lia.
Qed.

Lemma recv_loop_none type msg q h n : forall i s,
  k_msgq s = q -> msgq_wf q -> k_held s = L_msgq :: h -> L_msgq ∉ h ->
  (forall y, (i <= y < i + n)%nat -> m_type (q_messages q !!! phys q y) <> type) ->
  recv_loop type msg (Z.of_nat i) n s = Ret (-1) (set_k_held h s).
Proof.
  induction n as [|n IH]; intros i s Hq Hwf Hh Hl Hno; cbn [recv_loop].
  - by mstep (release_ok _ _ _ Hh Hl).
  - mrun. rewrite Hq, index_phys, slot_phys by done.
    rewrite (proj2 (Z.eqb_neq _ _)) by (apply Hno; lia).
    replace (Z.of_nat i + 1) with (Z.of_nat (S i)) by lia.
    apply IH; try done. intros y Hy. apply Hno. lia.
Qed.

Lemma length_shift_loop fuel : forall j tail ms,
  length (shift_loop fuel j tail ms) = length ms.
Proof.
  induction fuel as [|fuel IH]; intros j tail ms; [done|]. cbn [shift_loop].
  case_match; [done|]. by rewrite IH, length_insert.
Qed.

Lemma received_wf q x : msgq_wf q -> 0 < q_count q -> msgq_wf (received x q).
Proof.
  intros Hwf Hc. pose proof Hwf as (Hl & HF & Hh & Hcb & _).
  apply ring_wf; [done|by rewrite length_shift_loop| |lia].
  apply shift_loop_Forall; [done|done|].
  pose proof (phys_lt q x Hwf). unfold MAX_MESSAGES in *. lia.
Qed.

(** Taking the [x]-th message removes it from the list, unless the ring is
    full and [x] is 0. *)
Lemma contents_received q x :
  msgq_wf q -> (x < Z.to_nat (q_count q))%nat ->
  (0 < x)%nat \/ q_count q < MAX_MESSAGES ->
  contents (received x q) = delete x (contents q).
Proof.
  intros Hwf Hx Hside. pose proof Hwf as (Hl & _ & _ & Hc & _).
  destruct (shift_loop_spec q (Z.to_nat (q_count q) - x) x (q_messages q)
    (Z.to_nat MAX_MESSAGES) Hwf Hl) as [_ Hs]; [lia|done|lia|].
  apply list_eq. intros y.
  destruct (decide (y < Z.to_nat (q_count q - 1))%nat) as [Hy|Hy].
  - rewrite (lookup_contents (received x q)) by done.
    change (phys (received x q) y) with (phys q y).
    change (q_messages (received x q)) with (shift_loop (Z.to_nat MAX_MESSAGES)
      (Z.of_nat (phys q x)) (q_tail q) (q_messages q)).
    rewrite Hs by (unfold MAX_MESSAGES in Hc; lia). destruct (decide (y < x)%nat).
    + rewrite list_lookup_delete_lt by lia. by rewrite lookup_contents by lia.
    + rewrite list_lookup_delete_ge by lia. by rewrite lookup_contents by lia.
  - rewrite !lookup_ge_None_2; [done| |].
    + rewrite length_delete by (exists (q_messages q !!! phys q x);
        by apply lookup_contents).
      unfold contents. rewrite length_map, length_seq. lia.
    + unfold contents. rewrite length_map, length_seq. simpl. lia.
Qed.

(** A full ring has [tail = head], so the shift loop for the oldest message
    stops at once: the newest message leaves the queue instead. *)
Lemma contents_received_full q :
  msgq_wf q -> q_count q = MAX_MESSAGES ->
  contents (received 0 q) = take (Z.to_nat (MAX_MESSAGES - 1)) (contents q).
Proof.
  intros Hwf Hc. pose proof Hwf as (Hl & _ & Hh & _ & Ht).
  assert (Hstop : shift_loop (Z.to_nat MAX_MESSAGES) (Z.of_nat (phys q 0))
      (q_tail q) (q_messages q) = q_messages q).
  { assert (E : Z.of_nat (phys q 0) = q_tail q).
    { rewrite Ht, Hc. unfold phys, MAX_MESSAGES in *.
      rewrite Z2Nat.id by (apply Z.mod_pos_bound; lia).
      replace (q_head q + 64) with (q_head q + Z.of_nat 0 + 1 * 64) by lia.
      by rewrite Z.mod_add by lia. }
    rewrite E. apply shift_loop_stop. }
  unfold received. rewrite Hstop. unfold contents.
  change (q_messages (ring ?ms ?c q)) with ms. cbn [q_count ring]. rewrite Hc.
  rewrite firstn_map. reflexivity.
Qed.

(** ** Theorems *)

Definition demo_queue (n : nat) (types : nat -> Z) : message_queue :=
  mk_message_queue
    (map (fun i => mk_message (types i) (replicate 32 (Z.of_nat i))) (seq 0 64))
    0 (Z.of_nat n mod 64) (Z.of_nat n).

(** [send(7, "Hi")] and [recv(7, ...)] with [n] queued messages. *)
Definition demo_send (n : nat) (types : nat -> Z) : kstate :=
  demo_state (demo_mem [7; 0x200] [72; 105; 0]) (demo_queue n types).

(** [sys_send] with valid arguments and a queue that is not full returns
    0 and appends one message, with the given type and the caller's string cut
    at [MSG_SIZE - 1] bytes; the rest of the kernel's state is unchanged (the
    lock is released) and the queue stays well formed. *)
Theorem send_appends type msg bs s :
  argint 0 s = Ret (Some type) s -> argptr 1 MSG_SIZE s = Ret (Some msg) s ->
  uload_str msg (Z.to_nat (MSG_SIZE - 1)) s = Ret bs s ->
  L_msgq ∉ k_held s -> msgq_wf (k_msgq s) -> q_count (k_msgq s) < MAX_MESSAGES ->
  exists q' data,
    sys_send s = Ret 0 (set_k_msgq q' s) /\ msgq_wf q' /\
    contents q' = contents (k_msgq s) ++ [mk_message type data] /\
    cstr (Z.to_nat MSG_SIZE) (arr data) = bs.
Proof.
  intros H1 H2 H3 Hl Hwf Hc.
  exists (sent type bs (k_msgq s)). eexists.
  split; [by eapply sys_send_run|].
  pose proof (slot_data_length _ Hwf) as Hd.
  pose proof Hwf as (Hlen & HF & _ & Hcb & _).
  split; [|split; [by apply contents_ring_push|]].
  - apply ring_wf; [done|by rewrite length_insert| |lia].
    apply Forall_insert; [done|]. simpl. by rewrite length_safestrcpy.
  - pose proof (uload_str_spec _ _ _ _ _ H3) as (_ & Hbl & Hbz).
    rewrite safestrcpy_cstr by (unfold MSG_SIZE in *; lia).
    by apply cstr_arr.
Qed.

Lemma send_appends_witness :
  exists q' data,
    sys_send (demo_send 2 (fun _ => 7)) = Ret 0 (set_k_msgq q' (demo_send 2 (fun _ => 7)))
    /\ msgq_wf q' /\
    contents q' = contents (k_msgq (demo_send 2 (fun _ => 7))) ++ [mk_message 7 data] /\
    cstr 32 (arr data) = [72; 105].
Proof.
  apply (send_appends 7 0x200 [72; 105] (demo_send 2 (fun _ => 7))); by_eval.
Defined.

(** With a full queue [sys_send] returns -1 and changes nothing. *)
Theorem send_full type msg s :
  argint 0 s = Ret (Some type) s -> argptr 1 MSG_SIZE s = Ret (Some msg) s ->
  L_msgq ∉ k_held s -> q_count (k_msgq s) = MAX_MESSAGES ->
  sys_send s = Ret (-1) s.
Proof.
  intros H1 H2 Hl Hc. unfold sys_send. mstep H1. mstep H2.
  mstep (acquire_ok _ _ Hl). mrun. kred. rewrite Hc, Z.eqb_refl.
  erewrite bind_Ret; [|apply (release_ok L_msgq (k_held s)); [reflexivity|done]].
  unfold ret. by rewrite set_k_held_set, set_k_held_id.
Qed.

Lemma send_full_witness :
  sys_send (demo_send 64 (fun _ => 7)) = Ret (-1) (demo_send 64 (fun _ => 7)).
Proof. apply (send_full 7 0x200); by_eval. Defined.



(** C9: when the queue is full and its oldest message is the one requested,
    [sys_recv] still delivers that message but leaves it in the queue and
    drops the newest message instead. *)
Theorem recv_full_drops_newest type msg m m1 s :
  argint 0 s = Ret (Some type) s -> argptr 1 MSG_SIZE s = Ret (Some msg) s ->
  L_msgq ∉ k_held s -> msgq_wf (k_msgq s) -> q_count (k_msgq s) = MAX_MESSAGES ->
  contents (k_msgq s) !! 0%nat = Some m -> m_type m = type ->
  safestrcpy_out msg (arr (m_data m)) 0 (Z.to_nat (MSG_SIZE - 1))
    (set_k_held (L_msgq :: k_held s) s)
  = Ret tt (set_k_mem m1 (set_k_held (L_msgq :: k_held s) s)) ->
  exists q', sys_recv s = Ret 0 (set_k_msgq q' (set_k_mem m1 s)) /\
    contents q' = take 63 (contents (k_msgq s)) /\ contents q' !! 0%nat = Some m.
Proof.
  intros H1 H2 Hl Hwf Hc Hx Hm Hout.
  exists (received 0 (k_msgq s)).
  pose proof Hx as Hx'. rewrite lookup_contents in Hx by (rewrite Hc; unfold MAX_MESSAGES; lia).
  injection Hx as Hx.
  rewrite contents_received_full by done.
  split; [|split; [done|]].
  - unfold sys_recv. mstep H1. mstep H2. mstep (acquire_ok _ _ Hl). mrun. kred.
    change 0 with (Z.of_nat 0) at 1.
    erewrite (recv_loop_found type msg (k_msgq s) (k_held s) m1 0);
      [reflexivity|reflexivity|exact Hwf|reflexivity|exact Hl| | |intros; lia| |].
    + rewrite Hc. unfold MAX_MESSAGES. lia.
    + rewrite Hc. unfold MAX_MESSAGES. lia.
    + by rewrite Hx.
    + rewrite Hx. exact Hout.
  - rewrite lookup_take_lt by (unfold MAX_MESSAGES; lia). done.
Qed.

Lemma recv_full_drops_newest_witness :
  let s := demo_send 64 (fun _ => 7) in
  let m := q_messages (k_msgq s) !!! 0%nat in
  exists q', sys_recv s = Ret 0 (set_k_msgq q' (set_k_mem
      (k_mem (final (safestrcpy_out 0x200 (arr (m_data m)) 0 31
        (set_k_held [L_msgq] s)))) s)) /\
    contents q' = take 63 (contents (k_msgq s)) /\ contents q' !! 0%nat = Some m.
Proof.
  intros s m. apply (recv_full_drops_newest 7 0x200 m _ s); by_eval.
Defined.

(** With no message of the requested type [sys_recv] returns -1 and
    changes nothing. *)
Theorem recv_none type msg s :
  argint 0 s = Ret (Some type) s -> argptr 1 MSG_SIZE s = Ret (Some msg) s ->
  L_msgq ∉ k_held s -> msgq_wf (k_msgq s) ->
  Forall (fun m => m_type m <> type) (contents (k_msgq s)) ->
  sys_recv s = Ret (-1) s.
Proof.
  intros H1 H2 Hl Hwf Hno.
  unfold sys_recv. mstep H1. mstep H2. mstep (acquire_ok _ _ Hl). mrun. kred.
  change 0 with (Z.of_nat 0).
  erewrite (recv_loop_none type msg (k_msgq s) (k_held s));
    [|reflexivity|exact Hwf|reflexivity|exact Hl|].
  - by rewrite set_k_held_set, set_k_held_id.
  - intros y Hy. rewrite Forall_lookup in Hno. apply (Hno y).
    apply lookup_contents. lia.
Qed.

Lemma recv_none_witness :
  sys_recv (demo_send 3 (fun _ => 1)) = Ret (-1) (demo_send 3 (fun _ => 1)).
Proof. apply (recv_none 7 0x200); by_eval. Defined.
