(* ===== verification/Pipe.v ===== *)
(** Pipes, pipe.c.

    A pipe is a ring of [PIPESIZE] bytes with two free-running 32-bit counters.
    [pipewrite] and [piperead] are modelled as the critical sections they are:
    each runs under the pipe's lock until it returns or sleeps; a writer that
    slept continues with [pipewrite_loop] at the byte it had reached.

    [pipe_step] is the abstract machine of one byte put, one byte taken, or an
    end closed, with the bytes ever written and ever read as history; every
    run of the code is a sequence of its steps. *)

From stdpp Require Import base list sets strings relations.
From Stdlib Require Import ZArith Lia.
From S2P Require Import Prelude State CString Sched Kalloc Vm SysArgs Demo.

Open Scope kernel_scope.

(** ** Operations *)

(** [p->data[p->nwrite++ % PIPESIZE] = b] *)
Definition pipe_put (b : Z) (pi : pipe) : pipe :=
  set_pi_nwrite (u32 (pi_nwrite pi + 1))
    (set_pi_data (<[Z.to_nat (pi_nwrite pi mod PIPESIZE) := b]> (pi_data pi)) pi).

(** [p->data[p->nread++ % PIPESIZE]] *)
Definition pipe_head (pi : pipe) : Z :=
  pi_data pi !!! Z.to_nat (pi_nread pi mod PIPESIZE).
Definition pipe_get (pi : pipe) : pipe := set_pi_nread (u32 (pi_nread pi + 1)) pi.

Definition pipe_full (pi : pipe) : bool := pi_nwrite pi =? u32 (pi_nread pi + PIPESIZE).
Definition pipe_empty (pi : pipe) : bool := pi_nread pi =? pi_nwrite pi.

Definition pipeclose (p : Z) (writable : bool) : K unit :=
  acquire (L_pipe p) ;;;
  (if writable then
     modify (upd_pipe p (set_pi_writeopen false)) ;;; wakeup (ChanPipeRead p)
   else
     modify (upd_pipe p (set_pi_readopen false)) ;;; wakeup (ChanPipeWrite p)) ;;;
  pi <- gets (fun s => k_pipes s p) ;;
  if negb (pi_readopen pi) && negb (pi_writeopen pi) then
    release (L_pipe p) ;;; kfree p
  else release (L_pipe p).

(** The loop of [pipewrite] from byte [i], [k] bytes left; it holds the
    pipe's lock.  [n] is the value returned when all are written. *)
Fixpoint pipewrite_loop (p addr n i : Z) (k : nat) : K Z :=
  match k with
  | O =>
    wakeup (ChanPipeRead p) ;;;
    release (L_pipe p) ;;;
    ret n
  | S k =>
    pi <- gets (fun s => k_pipes s p) ;;
    if pipe_full pi then
      q <- curproc ;;
      killed <- gets (fun s => p_killed (procs s q)) ;;
      if negb (pi_readopen pi) || killed then
        release (L_pipe p) ;;; ret (-1)
      else
        wakeup (ChanPipeRead p) ;;;
        sleep (ChanPipeWrite p) (Some (L_pipe p))
    else
      b <- uload8 (addr + i) ;;
      modify (upd_pipe p (pipe_put b)) ;;;
      pipewrite_loop p addr n (i + 1) k
  end.

Definition pipewrite (p addr n : Z) : K Z :=
  acquire (L_pipe p) ;;; pipewrite_loop p addr n 0 (Z.to_nat n).

(** The copy loop of [piperead]: returns how many bytes were copied. *)
Fixpoint piperead_loop (p addr i : Z) (k : nat) : K Z :=
  match k with
  | O => ret i
  | S k =>
    pi <- gets (fun s => k_pipes s p) ;;
    if pipe_empty pi then ret i else
    modify (upd_pipe p pipe_get) ;;;
    ustore8 (addr + i) (pipe_head pi) ;;;
    piperead_loop p addr (i + 1) k
  end.

(** [piperead] with the lock held; a reader that slept starts here again. *)
Definition piperead_locked (p addr n : Z) : K Z :=
  pi <- gets (fun s => k_pipes s p) ;;
  if pipe_empty pi && pi_writeopen pi then
    q <- curproc ;;
    killed <- gets (fun s => p_killed (procs s q)) ;;
    if (killed : bool) then release (L_pipe p) ;;; ret (-1)
    else sleep (ChanPipeRead p) (Some (L_pipe p))
  else
    i <- piperead_loop p addr 0 (Z.to_nat n) ;;
    wakeup (ChanPipeWrite p) ;;;
    release (L_pipe p) ;;;
    ret i.

Definition piperead (p addr n : Z) : K Z :=
  acquire (L_pipe p) ;;; piperead_locked p addr n.

(** ** The byte queue a pipe stands for *)

Definition pipe_len (pi : pipe) : Z := u32 (pi_nwrite pi - pi_nread pi).

Definition pipe_contents (pi : pipe) : list Z :=
  map (fun k => pi_data pi !!! Z.to_nat ((pi_nread pi + Z.of_nat k) mod PIPESIZE))
    (seq 0 (Z.to_nat (pipe_len pi))).

Definition pipe_wf (pi : pipe) : Prop :=
  length (pi_data pi) = Z.to_nat PIPESIZE /\
  0 <= pi_nread pi < 2 ^ 32 /\ 0 <= pi_nwrite pi < 2 ^ 32 /\
  pipe_len pi <= PIPESIZE.

#[export] Instance pipe_wf_dec pi : Decision (pipe_wf pi).
Proof. unfold pipe_wf. apply _. Defined.

(** A fresh pipe, as [pipealloc] makes it. *)
Definition pipe_init (data : list Z) : pipe := mk_pipe data 0 0 true true.

(** The abstract machine: the pipe, the bytes ever written and ever read. *)
Inductive pipe_step : pipe * list Z * list Z -> pipe * list Z * list Z -> Prop :=
| PipePut b pi w r :
    pipe_full pi = false ->
    pipe_step (pi, w, r) (pipe_put b pi, w ++ [b], r)
| PipeGet pi w r :
    pipe_empty pi = false ->
    pipe_step (pi, w, r) (pipe_get pi, w, r ++ [pipe_head pi])
| PipeCloseWrite pi w r : pipe_step (pi, w, r) (set_pi_writeopen false pi, w, r)
| PipeCloseRead pi w r : pipe_step (pi, w, r) (set_pi_readopen false pi, w, r).

(** ** Counter arithmetic *)

Lemma pipe_len_range pi : 0 <= pipe_len pi < 2 ^ 32.
Proof. apply u32_range. Qed.

Lemma u32_add_mod a : 0 <= a -> u32 a mod PIPESIZE = a mod PIPESIZE.
Proof.
  intros _. unfold u32, PIPESIZE.
  change (2 ^ 32) with (512 * 2 ^ 23). rewrite Z.rem_mul_r by lia.
  rewrite Z.mul_comm, Z.mod_add by lia. apply Z.mod_mod. lia.
Qed.

(** The full test compares counters that differ by [PIPESIZE] mod 2^32. *)
Lemma pipe_full_iff pi :
  pipe_wf pi -> pipe_full pi = true <-> pipe_len pi = PIPESIZE.
Proof.
  intros (_ & Hr & Hw & Hl). unfold pipe_full, pipe_len in *.
  rewrite Z.eqb_eq. unfold u32, PIPESIZE in *.
  pose proof (Z.div_mod (pi_nread pi + 512) (2 ^ 32)).
  pose proof (Z.mod_pos_bound (pi_nread pi + 512) (2 ^ 32)).
  pose proof (Z.div_mod (pi_nwrite pi - pi_nread pi) (2 ^ 32)).
  pose proof (Z.mod_pos_bound (pi_nwrite pi - pi_nread pi) (2 ^ 32)).
  lia.
Qed.

Lemma pipe_empty_iff pi :
  pipe_wf pi -> pipe_empty pi = true <-> pipe_len pi = 0.
Proof.
  intros (_ & Hr & Hw & Hl). unfold pipe_empty, pipe_len, u32 in *.
  rewrite Z.eqb_eq.
  pose proof (Z.div_mod (pi_nwrite pi - pi_nread pi) (2 ^ 32)).
  pose proof (Z.mod_pos_bound (pi_nwrite pi - pi_nread pi) (2 ^ 32)).
  lia.
Qed.

Lemma pipe_len_put b pi :
  pipe_wf pi -> pipe_full pi = false -> pipe_len (pipe_put b pi) = pipe_len pi + 1.
Proof.
  intros Hwf Hf. assert (Hne : pipe_len pi <> PIPESIZE).
  { intros E. apply pipe_full_iff in E; [congruence|done]. }
  destruct Hwf as (_ & Hr & Hw & Hl). unfold pipe_len in *. simpl.
  unfold u32, PIPESIZE in *. rewrite Zminus_mod_idemp_l.
  replace (pi_nwrite pi + 1 - pi_nread pi) with (pi_nwrite pi - pi_nread pi + 1) by lia.
  rewrite <- Zplus_mod_idemp_l.
  pose proof (Z.mod_pos_bound (pi_nwrite pi - pi_nread pi) (2 ^ 32)).
  apply Z.mod_small. lia.
Qed.

Lemma pipe_len_get pi :
  pipe_wf pi -> pipe_empty pi = false -> pipe_len (pipe_get pi) = pipe_len pi - 1.
Proof.
  intros Hwf He. assert (Hne : pipe_len pi <> 0).
  { intros E. apply pipe_empty_iff in E; [congruence|done]. }
  destruct Hwf as (_ & Hr & Hw & Hl). unfold pipe_len in *. simpl.
  unfold u32, PIPESIZE in *. rewrite Zminus_mod_idemp_r.
  replace (pi_nwrite pi - (pi_nread pi + 1)) with (pi_nwrite pi - pi_nread pi - 1) by lia.
  rewrite <- Zminus_mod_idemp_l.
  pose proof (Z.mod_pos_bound (pi_nwrite pi - pi_nread pi) (2 ^ 32)).
  apply Z.mod_small. lia.
Qed.

(** The slot the next byte goes to is the one after the last. *)
Lemma nwrite_slot pi :
  pipe_wf pi -> pi_nwrite pi mod PIPESIZE = (pi_nread pi + pipe_len pi) mod PIPESIZE.
Proof.
  intros (_ & Hr & Hw & Hl). rewrite <- (Zplus_mod_idemp_r (pipe_len pi)).
  unfold pipe_len.
  assert (E : u32 (pi_nwrite pi - pi_nread pi) mod PIPESIZE
            = (pi_nwrite pi - pi_nread pi) mod PIPESIZE).
  { unfold u32, PIPESIZE. change (2 ^ 32) with (512 * 2 ^ 23).
    rewrite Z.rem_mul_r by lia. rewrite Z.mul_comm, Z.mod_add by lia.
    apply Z.mod_mod. lia. }
  rewrite E, Zplus_mod_idemp_r. f_equal. lia.
Qed.

Lemma ring_slot_inj (a x y : Z) :
  0 <= x < PIPESIZE -> 0 <= y < PIPESIZE ->
  (a + x) mod PIPESIZE = (a + y) mod PIPESIZE -> x = y.
Proof.
  unfold PIPESIZE. intros Hx Hy H.
  pose proof (Z.div_mod (a + x) 512). pose proof (Z.div_mod (a + y) 512). lia.
Qed.

Lemma pipe_put_wf b pi :
  pipe_wf pi -> pipe_full pi = false -> pipe_wf (pipe_put b pi).
Proof.
  intros Hwf Hf. assert (Hne : pipe_len pi <> PIPESIZE).
  { intros E. apply pipe_full_iff in E; [congruence|done]. }
  pose proof (pipe_len_put b pi Hwf Hf) as Hlen.
  destruct Hwf as (Hd & Hr & Hw & Hl).
  repeat split; simpl; [by rewrite length_insert|lia|lia|apply u32_range..|lia].
Qed.

Lemma pipe_get_wf pi : pipe_wf pi -> pipe_empty pi = false -> pipe_wf (pipe_get pi).
Proof.
  intros Hwf He. pose proof (pipe_len_get pi Hwf He) as Hlen.
  destruct Hwf as (Hd & Hr & Hw & Hl).
  repeat split; simpl; [done|apply u32_range..|lia|lia|lia].
Qed.

Lemma length_pipe_contents pi : length (pipe_contents pi) = Z.to_nat (pipe_len pi).
Proof. unfold pipe_contents. by rewrite length_map, length_seq. Qed.

Lemma lookup_pipe_contents pi k :
  (k < Z.to_nat (pipe_len pi))%nat ->
  pipe_contents pi !! k =
  Some (pi_data pi !!! Z.to_nat ((pi_nread pi + Z.of_nat k) mod PIPESIZE)).
Proof.
  intros Hk. unfold pipe_contents. rewrite list_lookup_fmap, lookup_seq_lt by lia. done.
Qed.

Lemma contents_put b pi :
  pipe_wf pi -> pipe_full pi = false ->
  pipe_contents (pipe_put b pi) = pipe_contents pi ++ [b].
Proof.
  intros Hwf Hf. pose proof (pipe_len_put b pi Hwf Hf) as Hlen.
  assert (Hne : pipe_len pi <> PIPESIZE).
  { intros E. apply pipe_full_iff in E; [congruence|done]. }
  pose proof (pipe_len_range pi). pose proof Hwf as (Hd & Hr & Hw & Hl).
  apply list_eq. intros k.
  destruct (decide (k < Z.to_nat (pipe_len pi))%nat) as [Hk|Hk].
  - rewrite lookup_app_l by (rewrite length_pipe_contents; lia).
    rewrite !lookup_pipe_contents by lia. cbn [pi_nread pi_data pipe_put set_pi_nwrite
      set_pi_data]. f_equal. apply list_lookup_total_insert_ne.
    rewrite nwrite_slot by done. intros E. apply Z2Nat.inj in E;
      [|apply Z.mod_pos_bound; done..].
    apply ring_slot_inj in E; lia.
  - destruct (decide (k = Z.to_nat (pipe_len pi))) as [->|Hk'].
    + rewrite lookup_pipe_contents by lia.
      rewrite lookup_app_r, length_pipe_contents, Nat.sub_diag
        by (rewrite length_pipe_contents; lia).
      cbn [pi_nread pi_data pipe_put set_pi_nwrite set_pi_data]. simpl. f_equal.
      rewrite Z2Nat.id by lia. rewrite nwrite_slot by done.
      apply list_lookup_total_insert_eq. rewrite Hd.
      pose proof (Z.mod_pos_bound (pi_nread pi + pipe_len pi) PIPESIZE).
      unfold PIPESIZE in *. lia.
    + rewrite !lookup_ge_None_2; [done| |].
      * rewrite length_app, length_pipe_contents. simpl. lia.
      * rewrite length_pipe_contents. lia.
Qed.

Lemma contents_get pi :
  pipe_wf pi -> pipe_empty pi = false ->
  pipe_contents pi = pipe_head pi :: pipe_contents (pipe_get pi).
Proof.
  intros Hwf He. pose proof (pipe_len_get pi Hwf He) as Hlen.
  assert (Hne : pipe_len pi <> 0).
  { intros E. apply pipe_empty_iff in E; [congruence|done]. }
  pose proof (pipe_len_range pi). pose proof Hwf as (Hd & Hr & Hw & Hl).
  apply list_eq. intros [|k].
  - rewrite lookup_pipe_contents by lia. unfold pipe_head.
    replace (pi_nread pi + Z.of_nat 0) with (pi_nread pi) by lia. done.
  - change ((pipe_head pi :: ?l) !! S k) with (l !! k).
    destruct (decide (S k < Z.to_nat (pipe_len pi))%nat).
    + rewrite !lookup_pipe_contents by lia. f_equal. simpl pi_data. do 2 f_equal.
      cbn [pi_nread pipe_get set_pi_nread].
      rewrite <- (Zplus_mod_idemp_l (u32 _)), u32_add_mod by lia.
      rewrite Zplus_mod_idemp_l. f_equal. lia.
    + rewrite !lookup_ge_None_2; [done| |]; rewrite length_pipe_contents; lia.
Qed.

(** ** The invariant of the abstract machine *)

Definition pipe_inv (c : pipe * list Z * list Z) : Prop :=
  let '(pi, w, r) := c in pipe_wf pi /\ w = r ++ pipe_contents pi.

Lemma pipe_step_inv c c' : pipe_step c c' -> pipe_inv c -> pipe_inv c'.
Proof.
  intros H. inversion H; subst; intros [Hwf Hw].
  - split; [by apply pipe_put_wf|]. rewrite contents_put by done.
    rewrite Hw. by rewrite app_assoc.
  - split; [by apply pipe_get_wf|]. rewrite Hw, contents_get by done.
    by rewrite <- app_assoc.
  - done.
  - done.
Qed.

(** ** Every run of the code is a run of the abstract machine *)

(** The bytes [bs] are user memory from [a] up. *)
Definition user_bytes (s : kstate) (a : Z) (bs : list Z) : Prop :=
  forall j b, bs !! j = Some b -> umem s (a + Z.of_nat j) = Some b.

Lemma k_pipes_upd p f s : k_pipes (upd_pipe p f s) p = f (k_pipes s p).
Proof. unfold upd_pipe. kred. apply upd_eq. Qed.

Lemma pipewrite_loop_steps p addr n w r k : forall i s,
  exists bs,
    rtc pipe_step (k_pipes s p, w, r)
      (k_pipes (final (pipewrite_loop p addr n i k s)) p, w ++ bs, r) /\
    user_bytes s (addr + i) bs /\ (length bs <= k)%nat /\
    (forall s', pipewrite_loop p addr n i k s = Ret n s' -> n <> -1 -> length bs = k).
Proof.
  revert w. induction k as [|k IH]; intros w i s; cbn [pipewrite_loop].
  - exists []. rewrite app_nil_r. split; [|split; [intros j b Hj; done|done]].
    assert (H : keeps (fun s => k_pipes s p)
      (wakeup (ChanPipeRead p) ;;; release (L_pipe p) ;;; ret n)) by frame.
    rewrite (H s). done.
  - mrun. destruct (pipe_full (k_pipes s p)) eqn:Hfull.
    + exists []. rewrite app_nil_r.
      match goal with |- context [final (?m s)] =>
        assert (H : keeps (fun s => k_pipes s p) m) by frame end.
      rewrite (H s). split; [done|]. split; [intros j b Hj; done|].
      split; [simpl; lia|]. intros s' Hr Hn. exfalso. clear H.
      apply bind_inv in Hr as (q & s1 & _ & Hr).
      apply bind_inv in Hr as (kl & s2 & _ & Hr).
      destruct (negb (pi_readopen (k_pipes s p)) || kl).
      * apply bind_inv in Hr as (? & s3 & _ & Hr). inversion Hr. congruence.
      * apply bind_inv in Hr as (? & s3 & _ & Hr).
        by apply sleep_never_returns in Hr.
    + destruct (umem s (addr + i)) as [b|] eqn:Hu.
      * mstep (uload8_ok _ _ _ Hu). mrun.
        destruct (IH (w ++ [b]) (i + 1) (upd_pipe p (pipe_put b) s))
          as (bs & Hst & Hub & Hl & Hret).
        exists (b :: bs). split; [|split; [|split]].
        -- eapply rtc_l; [by apply PipePut|].
           rewrite k_pipes_upd in Hst. rewrite <- app_assoc in Hst. exact Hst.
        -- intros [|j] b' Hj; simpl in Hj.
           ++ injection Hj as <-. rewrite <- Hu. f_equal. lia.
           ++ apply Hub in Hj. change (umem (upd_pipe p (pipe_put b) s))
                with (umem s) in Hj. rewrite <- Hj. f_equal. lia.
        -- simpl. lia.
        -- intros s' Hr Hn. simpl. f_equal. by eapply Hret.
      * exists []. rewrite app_nil_r.
        assert (Hp : uload8 (addr + i) s = Panic "trap" s).
        { unfold uload8. mrun. by rewrite Hu. }
        mstep Hp. split; [done|]. split; [intros j b Hj; done|].
        split; [simpl; lia|done].
Qed.

(** The copy loop of [piperead] takes the oldest bytes off the pipe, stores
    them from [addr + i] up and counts them. *)
Lemma piperead_loop_spec p addr k : forall i s s1,
  pipe_wf (k_pipes s p) ->
  ustore (addr + i) (take k (pipe_contents (k_pipes s p))) s = Ret tt s1 ->
  exists s', piperead_loop p addr i k s =
      Ret (i + Z.of_nat (length (take k (pipe_contents (k_pipes s p))))) s' /\
    pipe_wf (k_pipes s' p) /\
    pipe_contents (k_pipes s' p) = drop k (pipe_contents (k_pipes s p)) /\
    k_mem s' = k_mem s1 /\ k_held s' = k_held s.
Proof.
  induction k as [|k IH]; intros i s s1 Hwf Hst; cbn [piperead_loop].
  { exists s. rewrite take_0 in *. injection Hst as <-. rewrite drop_0.
    split; [unfold ret; f_equal; simpl; lia|done]. }
  mrun. destruct (pipe_empty (k_pipes s p)) eqn:He.
  { exists s. assert (Hnil : pipe_contents (k_pipes s p) = []).
    { apply nil_length_inv. rewrite length_pipe_contents.
      apply pipe_empty_iff in He; [|done]. by rewrite He. }
    rewrite Hnil in *. injection Hst as <-.
    split; [unfold ret; f_equal; simpl; lia|done]. }
  pose proof (contents_get _ Hwf He) as Hc. rewrite Hc in Hst |- *.
  cbn [take drop] in *. cbn [ustore] in Hst.
  apply bind_inv in Hst as ([] & s2 & H8 & Hst).
  assert (Hg : apart_mem (upd_pipe p pipe_get)) by done.
  mrun. mstep (ustore8_apart _ _ _ _ _ Hg H8).
  destruct (ustore8_mem _ _ _ _ H8) as [m ->].
  assert (Hp : k_pipes (upd_pipe p pipe_get (set_k_mem m s)) p = pipe_get (k_pipes s p))
    by (rewrite k_pipes_upd; done).
  destruct (IH (i + 1) (upd_pipe p pipe_get (set_k_mem m s))
    (upd_pipe p pipe_get s1)) as (s' & Hr & Hwf' & Hc' & Hm & Hh).
  - rewrite Hp. by apply pipe_get_wf.
  - rewrite Hp. apply ustore_apart; [done|]. by rewrite Z.add_assoc.
  - exists s'. rewrite Hr, Hp in *. split; [f_equal; simpl; lia|done].
Qed.

(** ** Properties *)



(** C5: whatever [pipewrite] does (return, sleep because the pipe is full, or
    fault on the user buffer), what it did to the pipe is a sequence of steps
    of the abstract machine that append a prefix of the user's buffer; when it
    returns [n] the prefix is the [n] bytes. *)
Theorem pipewrite_refines p addr n w r s :
  0 <= n -> L_pipe p ∉ k_held s ->
  exists bs,
    rtc pipe_step (k_pipes s p, w, r)
      (k_pipes (final (pipewrite p addr n s)) p, w ++ bs, r) /\
    user_bytes s addr bs /\ Z.of_nat (length bs) <= n /\
    (forall s', pipewrite p addr n s = Ret n s' -> Z.of_nat (length bs) = n).
Proof.
  intros Hn Hl. unfold pipewrite.
  mstep (acquire_ok _ _ Hl).
  destruct (pipewrite_loop_steps p addr n w r (Z.to_nat n) 0
    (set_k_held (L_pipe p :: k_held s) s)) as (bs & Hst & Hub & Hlen & Hret).
  exists bs. rewrite Z.add_0_r in Hub. split; [exact Hst|]. split; [exact Hub|].
  split; [lia|]. intros s' E. rewrite (Hret s' E); lia.
Qed.

Lemma pipewrite_refines_witness :
  exists bs,
    rtc pipe_step (k_pipes (demo_kernel [] [72; 105; 33]) 0x5000, [], [])
      (k_pipes (final (pipewrite 0x5000 0x200 3 (demo_kernel [] [72; 105; 33]))) 0x5000, [] ++ bs, []) /\
    user_bytes (demo_kernel [] [72; 105; 33]) 0x200 bs /\ Z.of_nat (length bs) <= 3 /\
    (forall s', pipewrite 0x5000 0x200 3 (demo_kernel [] [72; 105; 33]) = Ret 3 s' ->
       Z.of_nat (length bs) = 3).
Proof. apply (pipewrite_refines 0x5000 0x200 3 [] [] (demo_kernel [] [72; 105; 33])); by_eval. Defined.

(** [piperead] on a pipe that has bytes, or whose write end is closed,
    takes the oldest [n] bytes (fewer when fewer are buffered), stores exactly
    them to the user buffer, wakes the writers and returns their number. *)
Theorem piperead_delivers p addr n s s1 :
  0 <= n -> L_pipe p ∉ k_held s -> L_ptable ∉ k_held s -> pipe_wf (k_pipes s p) ->
  pipe_empty (k_pipes s p) && pi_writeopen (k_pipes s p) = false ->
  ustore addr (take (Z.to_nat n) (pipe_contents (k_pipes s p))) s = Ret tt s1 ->
  exists s', piperead p addr n s =
      Ret (Z.min n (Z.of_nat (length (pipe_contents (k_pipes s p))))) s' /\
    pipe_contents (k_pipes s' p) = drop (Z.to_nat n) (pipe_contents (k_pipes s p)) /\
    k_mem s' = k_mem s1 /\ k_held s' = k_held s.
Proof.
  intros Hn Hl Hpt Hwf Hgo Hst. unfold piperead. mstep (acquire_ok _ _ Hl).
  unfold piperead_locked. mrun. kred. rewrite Hgo.
  destruct (piperead_loop_spec p addr (Z.to_nat n) 0
    (set_k_held (L_pipe p :: k_held s) s) (set_k_held (L_pipe p :: k_held s) s1))
    as (s' & Hr & _ & Hc & Hm & Hh); [done| |].
  { rewrite Z.add_0_r. by apply (ustore_apart (set_k_held (L_pipe p :: k_held s))). }
  mstep Hr. kred in Hh.
  assert (Hw : L_ptable ∉ k_held s') by (rewrite Hh; set_solver).
  mstep (wakeup_ok (ChanPipeWrite p) _ Hw).
  erewrite bind_Ret; [|apply (release_ok _ (k_held s)); [exact Hh|done]].
  unfold ret. rewrite length_take, Z.add_0_l, Nat2Z.inj_min, Z2Nat.id by lia.
  eexists. split; [reflexivity|]. split; [exact Hc|]. by split.
Qed.

Lemma piperead_delivers_witness :
  let s := upd_pipe 0x5000 (fun pi => pipe_put 9 (pipe_put 7 pi)) (demo_kernel [] []) in
  exists s', piperead 0x5000 0x200 5 s = Ret 2 s' /\
    pipe_contents (k_pipes s' 0x5000) = [] /\
    k_mem s' = k_mem (final (ustore 0x200 [7; 9] s)) /\ k_held s' = [].
Proof.
  intros s. apply (piperead_delivers 0x5000 0x200 5 s (final (ustore 0x200 [7; 9] s)));
    by_eval.
Defined.

(** Flow control. A writer that finds the pipe full and its reader alive
    wakes the readers and sleeps on [nwrite] with only the process table
    locked; a reader that finds it empty and its writer alive sleeps on
    [nread]; when the other end is closed, or the process was killed, neither
    sleeps: the writer gets -1, and the reader -1 when killed and 0 at the end
    of the stream. *)
Theorem pipe_blocking p addr n q s :
  0 < n -> k_cur s = Some q -> (q < length (k_proc s))%nat -> k_held s = [] ->
  let pi := k_pipes s p in
  (pipe_full pi = true -> pi_readopen pi = true -> p_killed (procs s q) = false ->
   exists s', pipewrite p addr n s = Switch (asleep q (ChanPipeWrite p) s') /\
     k_pipes s' p = pi) /\
  (pipe_full pi = true -> pi_readopen pi = false \/ p_killed (procs s q) = true ->
   pipewrite p addr n s = Ret (-1) s) /\
  (pipe_empty pi = true -> pi_writeopen pi = true -> p_killed (procs s q) = false ->
   exists s', piperead p addr n s = Switch (asleep q (ChanPipeRead p) s') /\
     k_pipes s' p = pi) /\
  (pipe_empty pi = true -> pi_writeopen pi = true -> p_killed (procs s q) = true ->
   piperead p addr n s = Ret (-1) s).
Proof.
  intros Hn Hc Hq Hh pi.
  assert (Hl : L_pipe p ∉ k_held s) by (rewrite Hh; set_solver).
  assert (Hk : Z.to_nat n = S (Z.to_nat (n - 1))) by lia.
  assert (Hrel : release (L_pipe p) (set_k_held [L_pipe p] s) = Ret tt s).
  { rewrite (release_ok _ []) by set_solver. rewrite <- Hh at 1.
    by rewrite set_k_held_set, set_k_held_id. }
  repeat split.
  - intros Hf Hro Hkl. unfold pipewrite. mstep (acquire_ok _ _ Hl).
    rewrite Hk. cbn [pipewrite_loop]. mrun. kred. fold pi. rewrite Hf.
    unfold curproc, myproc. mrun. kred. rewrite Hc. mrun.
    unfold procs in *. kred. rewrite Hro, Hkl. cbn [negb orb].
    rewrite Hh. mstep (wakeup_ok (ChanPipeRead p) (set_k_held [L_pipe p] s)
      ltac:(set_solver)).
    eexists. rewrite (sleep_switch _ _ q);
      [by split|exact Hc|kred; rewrite length_map; exact Hq|reflexivity|done].
  - intros Hf Hro. unfold pipewrite. mstep (acquire_ok _ _ Hl).
    rewrite Hk. cbn [pipewrite_loop]. mrun. kred. fold pi. rewrite Hf.
    unfold curproc, myproc. mrun. kred. rewrite Hc. mrun. unfold procs in *. kred.
    replace (negb (pi_readopen pi) || p_killed (k_proc s !!! q)) with true
      by (destruct Hro as [-> | ->]; by rewrite ?orb_true_r).
    rewrite Hh. by mstep Hrel.
  - intros He Hwo Hkl. unfold piperead. mstep (acquire_ok _ _ Hl).
    unfold piperead_locked. mrun. kred. fold pi. rewrite He, Hwo.
    unfold curproc, myproc. mrun. kred. rewrite Hc. mrun. unfold procs in *. kred.
    rewrite Hkl, Hh. eexists. rewrite (sleep_switch _ _ q); done.
  - intros He Hwo Hkl. unfold piperead. mstep (acquire_ok _ _ Hl).
    unfold piperead_locked. mrun. kred. fold pi. rewrite He, Hwo.
    unfold curproc, myproc. mrun. kred. rewrite Hc. mrun. unfold procs in *. kred.
    rewrite Hkl, Hh. by mstep Hrel.
Qed.

Lemma pipe_blocking_witness :
  let s := demo_kernel [] [] in
  exists s', piperead 0x5000 0x200 5 s = Switch (asleep 0 (ChanPipeRead 0x5000) s') /\
    k_pipes s' 0x5000 = k_pipes s 0x5000.
Proof.
  intros s. apply (pipe_blocking 0x5000 0x200 5 0 s);
    first [lia | reflexivity | apply (bool_decide_unpack _); vm_compute; exact I].
Defined.
