(* ===== verification/Sleeplock.v ===== *)
(** Sleep locks, sleeplock.c.

    The kernel's sleep locks are fields of buffers and inodes; [slref] points
    to one.  A sleep lock is protected by its own spinlock and a process waits
    for it on the lock's address. *)

From stdpp Require Import base list sets strings.
From Stdlib Require Import ZArith Lia.
From S2P Require Import Prelude State Sched.

Open Scope kernel_scope.

(** A [struct sleeplock *]. *)
Inductive slref : Set := SLBuf (b : nat) | SLInode (i : nat).

#[export] Instance slref_eq_dec : EqDecision slref.
Proof. solve_decision. Defined.

Definition sl_lk (r : slref) : lockid :=
  match r with SLBuf b => L_buflock b | SLInode i => L_inodelock i end.
Definition sl_chan (r : slref) : chan :=
  match r with SLBuf b => ChanBufLock b | SLInode i => ChanInodeLock i end.
Definition sl_get (r : slref) (s : kstate) : sleeplock :=
  match r with SLBuf b => b_lock (bufs s b) | SLInode i => i_lock (inodes s i) end.
Definition sl_set (r : slref) (v : sleeplock) (s : kstate) : kstate :=
  match r with
  | SLBuf b => upd_buf b (set_b_lock v) s
  | SLInode i => upd_inode i (set_i_lock v) s
  end.

(** ** Operations *)

Definition initsleeplock (r : slref) : K unit := modify (sl_set r (mk_sleeplock false 0)).

(** The loop of [acquiresleep], with the spinlock held; a process that slept
    starts here again. *)
Definition acquiresleep_loop (r : slref) : K unit :=
  l <- gets (sl_get r) ;;
  if sl_locked l then sleep (sl_chan r) (Some (sl_lk r)) else
  p <- curproc ;;
  modify (fun s => sl_set r (mk_sleeplock true (p_pid (procs s p))) s) ;;;
  release (sl_lk r).

Definition acquiresleep (r : slref) : K unit :=
  acquire (sl_lk r) ;;; acquiresleep_loop r.

Definition releasesleep (r : slref) : K unit :=
  acquire (sl_lk r) ;;;
  modify (sl_set r (mk_sleeplock false 0)) ;;;
  wakeup (sl_chan r) ;;;
  release (sl_lk r).

Definition holdingsleep (r : slref) : K bool :=
  acquire (sl_lk r) ;;;
  l <- gets (sl_get r) ;;
  p <- curproc ;;
  pid <- gets (fun s => p_pid (procs s p)) ;;
  release (sl_lk r) ;;;
  ret (sl_locked l && (sl_pid l =? pid)).

(** ** Lemmas *)

(** The element the reference points to exists. *)
Definition sl_valid (r : slref) (s : kstate) : Prop :=
  match r with
  | SLBuf b => (b < length (bc_buf (k_bcache s)))%nat
  | SLInode i => (i < length (k_icache s))%nat
  end.

(** The current process holds the lock. *)
Definition sl_mine (r : slref) (s : kstate) : Prop :=
  exists p, k_cur s = Some p /\ sl_get r s = mk_sleeplock true (p_pid (procs s p)).

Lemma sl_get_set r v s : sl_valid r s -> sl_get r (sl_set r v s) = v.
Proof.
  destruct r as [b|i]; simpl; intros H.
  - unfold bufs, upd_buf. kred. cbn [bc_buf set_bc_buf].
    by rewrite lookup_total_alter_eq.
  - unfold inodes, upd_inode. kred. by rewrite lookup_total_alter_eq.
Qed.

Lemma k_held_sl_set r v s : k_held (sl_set r v s) = k_held s.
Proof. by destruct r. Qed.
Lemma k_proc_sl_set r v s : k_proc (sl_set r v s) = k_proc s.
Proof. by destruct r. Qed.
Lemma k_cur_sl_set r v s : k_cur (sl_set r v s) = k_cur s.
Proof. by destruct r. Qed.
Lemma sl_get_held r h s : sl_get r (set_k_held h s) = sl_get r s.
Proof. by destruct r. Qed.
Lemma sl_set_held r v h s : sl_set r v (set_k_held h s) = set_k_held h (sl_set r v s).
Proof. by destruct r. Qed.
Lemma set_k_proc_held t h s : set_k_proc t (set_k_held h s) = set_k_held h (set_k_proc t s).
Proof. done. Qed.
Lemma sl_get_proc r t s : sl_get r (set_k_proc t s) = sl_get r s.
Proof. by destruct r. Qed.

#[export] Hint Rewrite k_held_sl_set k_proc_sl_set k_cur_sl_set sl_get_held
  sl_set_held sl_get_proc : kernel.

Lemma acquiresleep_free r p s :
  k_cur s = Some p -> sl_lk r ∉ k_held s -> sl_locked (sl_get r s) = false ->
  acquiresleep r s = Ret tt (sl_set r (mk_sleeplock true (p_pid (procs s p))) s).
Proof.
  intros Hc Hl Hf. unfold acquiresleep. mstep (acquire_ok _ _ Hl).
  unfold acquiresleep_loop. mrun. rewrite sl_get_held, Hf.
  unfold curproc, myproc. mrun. kred. rewrite Hc. mrun. rewrite sl_set_held.
  rewrite (release_ok _ (k_held s)) by (kred; done).
  rewrite set_k_held_set. f_equal.
  rewrite <- (k_held_sl_set r (mk_sleeplock true (p_pid (procs s p))) s) at 1.
  apply set_k_held_id.
Qed.

(** A held sleep lock puts the caller to sleep on it. *)
Lemma acquiresleep_busy r p s :
  k_cur s = Some p -> (p < length (k_proc s))%nat -> k_held s = [] ->
  sl_locked (sl_get r s) = true ->
  acquiresleep r s = Switch (asleep p (sl_chan r) (set_k_held [sl_lk r] s)).
Proof.
  intros Hc Hp Hh Hf. unfold acquiresleep.
  rewrite (bind_Ret _ _ _ _ _ (acquire_ok (sl_lk r) s ltac:(rewrite Hh; set_solver))).
  unfold acquiresleep_loop. mrun. rewrite sl_get_held, Hf, Hh.
  apply sleep_switch; try done. by destruct r.
Qed.

Lemma holdingsleep_mine r s :
  sl_lk r ∉ k_held s -> sl_mine r s -> holdingsleep r s = Ret true s.
Proof.
  intros Hl (p & Hc & Hm). unfold holdingsleep. mstep (acquire_ok _ _ Hl). mrun.
  unfold curproc, myproc. mrun. kred. rewrite Hc. mrun.
  erewrite bind_Ret; [|apply (release_ok _ (k_held s)); [reflexivity|done]].
  unfold ret. rewrite sl_get_held, Hm. simpl. unfold procs. kred.
  by rewrite Z.eqb_refl, set_k_held_set, set_k_held_id.
Qed.

Lemma releasesleep_ok r s :
  sl_lk r ∉ k_held s -> L_ptable ∉ k_held s ->
  releasesleep r s =
  Ret tt (set_k_proc (map (wake_one (sl_chan r)) (k_proc s))
    (sl_set r (mk_sleeplock false 0) s)).
Proof.
  intros Hl Hp. unfold releasesleep. mstep (acquire_ok _ _ Hl). mrun.
  rewrite sl_set_held.
  assert (Hw : L_ptable ∉ k_held (set_k_held (sl_lk r :: k_held s)
                 (sl_set r (mk_sleeplock false 0) s))).
  { kred. apply not_elem_of_cons. split; [by destruct r|done]. }
  mstep (wakeup_ok (sl_chan r) _ Hw). rewrite set_k_proc_held.
  rewrite (release_ok _ (k_held s)) by done.
  rewrite set_k_held_set. f_equal. kred. rewrite k_proc_sl_set.
  rewrite <- (k_held_sl_set r (mk_sleeplock false 0) s) at 1. by destruct r.
Qed.
