(* ===== verification/Disk.v ===== *)
(** The disk under the buffer cache.

    [DiskDriver] is what the buffer cache needs of a disk driver: the operation
    [iderw] and its law (and the interrupt handler [ideintr], for trap.c), that on a locked buffer with something to transfer and
    a block that exists it has the effect [disk_sync].  [memide] is the driver
    of memide.c, the one the kernelmemfs build links, and satisfies it.  A
    block is its 512 bytes; [k_wlog] records the writes in order. *)

From stdpp Require Import base list sets strings.
From Stdlib Require Import ZArith Lia.
From S2P Require Import Prelude State Sched Sleeplock.

Open Scope kernel_scope.

(** ** The effect of a transfer *)

Definition disk_write (dev bno : Z) (data : list Z) (s : kstate) : kstate :=
  set_k_wlog (k_wlog s ++ [(dev, bno, data)])
    (set_k_disk (upd (k_disk s) dev (upd (k_disk s dev) bno data)) s).

(** If B_DIRTY is set, write the buffer, clear B_DIRTY, set B_VALID; else read
    it and set B_VALID. *)
Definition disk_sync (b : nat) (s : kstate) : kstate :=
  let bf := bufs s b in
  if has (b_flags bf) B_DIRTY then
    upd_buf b (fun x => set_b_flags (Z.lor (b_flags x) B_VALID) x)
      (disk_write (b_dev bf) (b_blockno bf) (b_data bf)
        (upd_buf b (fun x => set_b_flags (Z.land (b_flags x) (Z.lnot B_DIRTY)) x) s))
  else
    upd_buf b (fun x => set_b_flags (Z.lor (b_flags x) B_VALID) x)
      (upd_buf b (set_b_data (k_disk s (b_dev bf) (b_blockno bf))) s).

Class DiskDriver : Type := {
  iderw : nat -> K unit;
  ideintr : K unit;
  disk_serves : Z -> Z -> Z -> bool;
  iderw_ok : forall b s,
    sl_mine (SLBuf b) s -> L_buflock b ∉ k_held s ->
    Z.land (b_flags (bufs s b)) (Z.lor B_VALID B_DIRTY) <> B_VALID ->
    disk_serves (b_dev (bufs s b)) (b_blockno (bufs s b)) (k_disksize s) = true ->
    iderw b s = Ret tt (disk_sync b s) }.

(** ** memide.c *)

Definition memide_iderw (b : nat) : K unit :=
  h <- holdingsleep (SLBuf b) ;;
  if negb h then panic "iderw: buf not locked" else
  bf <- gets (fun s => bufs s b) ;;
  if Z.land (b_flags bf) (Z.lor B_VALID B_DIRTY) =? B_VALID
  then panic "iderw: nothing to do" else
  if negb (b_dev bf =? 1) then panic "iderw: request not for disk 1" else
  n <- gets k_disksize ;;
  if n <=? b_blockno bf then panic "iderw: block out of range" else
  (if has (b_flags bf) B_DIRTY then
     modify (upd_buf b (fun x => set_b_flags (Z.land (b_flags x) (Z.lnot B_DIRTY)) x)) ;;;
     modify (disk_write (b_dev bf) (b_blockno bf) (b_data bf))
   else
     modify (fun s => upd_buf b (set_b_data (k_disk s (b_dev bf) (b_blockno bf))) s)) ;;;
  modify (upd_buf b (fun x => set_b_flags (Z.lor (b_flags x) B_VALID) x)).

(** The interrupt handler does nothing. *)
Definition memide_ideintr : K unit := ret tt.

(** [ideinit]: the disk is the image linked into the kernel, of [size] bytes. *)
Definition memide_ideinit (size : Z) : K unit :=
  modify (set_k_disksize (u32 size / BSIZE)).

Definition memide_serves (dev bno size : Z) : bool := (dev =? 1) && (bno <? size).

Lemma memide_iderw_ok b s :
  sl_mine (SLBuf b) s -> L_buflock b ∉ k_held s ->
  Z.land (b_flags (bufs s b)) (Z.lor B_VALID B_DIRTY) <> B_VALID ->
  memide_serves (b_dev (bufs s b)) (b_blockno (bufs s b)) (k_disksize s) = true ->
  memide_iderw b s = Ret tt (disk_sync b s).
Proof.
  intros Hm Hl Hf Hs. unfold memide_iderw.
  mstep (holdingsleep_mine (SLBuf b) _ Hl Hm). mrun.
  rewrite (proj2 (Z.eqb_neq _ _) Hf).
  unfold memide_serves in Hs. apply andb_prop in Hs as [-> Hb]. mrun.
  apply Z.ltb_lt in Hb. zbool.
  unfold disk_sync. destruct (has _ _); mrun; done.
Qed.

#[export] Instance memide : DiskDriver := {|
  iderw := memide_iderw;
  ideintr := memide_ideintr;
  disk_serves := memide_serves;
  iderw_ok := memide_iderw_ok |}.
