(* ===== verification/Ide.v ===== *)
(** The disk driver ide.c: requests wait in a queue, the first one is being
    served, and an interrupt completes it and starts the next.

    The queue is the linked list [idequeue] through the [qnext] fields of the
    buffers.  The code between [acquire(&idelock)] and the [sleep] or the
    [release] is one step: [iderw_submit] up to the [sleep] of [iderw],
    [ideintr], and [iderw_wait], what a sleeper does when it runs again.

    The controller is hardware: its ports [0x1f2]..[0x1f6] keep the bytes
    written to them, a command byte at [0x1f7] starts a transfer for the drive
    and the sector they encode, [outsl] hands it a sector to write and [insl]
    fetches the one read.  [c_bad] says which sectors the drive reports an
    error for. *)

From stdpp Require Import base list sets strings.
From Stdlib Require Import ZArith Lia.
From S2P Require Import Prelude State.

Open Scope kernel_scope.

Definition IDE_CMD_READ : Z := 0x20.
Definition IDE_CMD_WRITE : Z := 0x30.
Definition IDE_CMD_RDMUL : Z := 0xc4.
Definition IDE_CMD_WRMUL : Z := 0xc5.
Definition SECTOR_SIZE : Z := 512.
Definition FSSIZE : Z := 1000.

(** A buffer as the driver sees it; [ib_held]: its sleep lock is held by the
    caller. *)
Record ibuf : Type := mk_ibuf {
  ib_flags : Z; ib_dev : Z; ib_blockno : Z; ib_data : list Z;
  ib_qnext : option nat; ib_held : bool }.

Record ide : Type := mk_ide {
  i_buf : nat -> ibuf;
  idequeue : option nat;
  havedisk1 : bool;
  (** the controller's ports, its command and the sectors of the two drives *)
  c_port : Z -> Z;
  c_cmd : Z;
  c_disk : Z -> Z -> list Z;
  c_bad : Z -> Z -> bool;
  (** the buffers on which [wakeup] was called, the last first *)
  i_woken : list nat }.

Definition set_i_buf x s := mk_ide x (idequeue s) (havedisk1 s) (c_port s) (c_cmd s) (c_disk s) (c_bad s) (i_woken s).
Definition set_idequeue x s := mk_ide (i_buf s) x (havedisk1 s) (c_port s) (c_cmd s) (c_disk s) (c_bad s) (i_woken s).
Definition set_havedisk1 x s := mk_ide (i_buf s) (idequeue s) x (c_port s) (c_cmd s) (c_disk s) (c_bad s) (i_woken s).
Definition set_c_port x s := mk_ide (i_buf s) (idequeue s) (havedisk1 s) x (c_cmd s) (c_disk s) (c_bad s) (i_woken s).
Definition set_c_cmd x s := mk_ide (i_buf s) (idequeue s) (havedisk1 s) (c_port s) x (c_disk s) (c_bad s) (i_woken s).
Definition set_c_disk x s := mk_ide (i_buf s) (idequeue s) (havedisk1 s) (c_port s) (c_cmd s) x (c_bad s) (i_woken s).
Definition set_i_woken x s := mk_ide (i_buf s) (idequeue s) (havedisk1 s) (c_port s) (c_cmd s) (c_disk s) (c_bad s) x.

Definition fupdn {A} (f : nat -> A) (k : nat) (v : A) : nat -> A :=
  fun i => if decide (i = k) then v else f i.
Definition upd_ib (b : nat) (f : ibuf -> ibuf) (s : ide) : ide :=
  set_i_buf (fupdn (i_buf s) b (f (i_buf s b))) s.

Definition set_ib_flags x b := mk_ibuf x (ib_dev b) (ib_blockno b) (ib_data b) (ib_qnext b) (ib_held b).
Definition set_ib_data x b := mk_ibuf (ib_flags b) (ib_dev b) (ib_blockno b) x (ib_qnext b) (ib_held b).
Definition set_ib_qnext x b := mk_ibuf (ib_flags b) (ib_dev b) (ib_blockno b) (ib_data b) x (ib_held b).

(** ** The controller *)

(** The drive and the sector in the ports. *)
Definition sel_drive (s : ide) : Z := Z.land (Z.shiftr (c_port s 0x1f6) 4) 1.
Definition sel_sector (s : ide) : Z :=
  c_port s 0x1f3 + 2 ^ 8 * c_port s 0x1f4 + 2 ^ 16 * c_port s 0x1f5 +
  2 ^ 24 * Z.land (c_port s 0x1f6) 0x0f.

Definition outb (port v : Z) : M ide unit :=
  if port =? 0x1f7 then modify (set_c_cmd (u8 v))
  else modify (fun s => set_c_port (upd (c_port s) port (u8 v)) s).

(** A sector to write. *)
Definition outsl (data : list Z) : M ide unit :=
  modify (fun s => set_c_disk
    (upd (c_disk s) (sel_drive s) (upd (c_disk s (sel_drive s)) (sel_sector s) data)) s).

(** The sector that was read. *)
Definition insl (b : nat) : M ide unit :=
  modify (fun s => upd_ib b (set_ib_data (c_disk s (sel_drive s) (sel_sector s))) s).

(** The drive becomes ready by itself; with [checkerr] an error of the
    transfer is reported. *)
Definition idewait (checkerr : bool) : M ide Z :=
  s <- gets id ;;
  ret (if checkerr && c_bad s (sel_drive s) (sel_sector s) then -1 else 0).

(** ** The driver *)

(** [present]: disk 1 answers with a status within a thousand reads. *)
Definition ideinit (present : bool) : M ide unit :=
  idewait false ;;;
  outb 0x1f6 (Z.lor 0xe0 (Z.shiftl 1 4)) ;;;
  (if present then modify (set_havedisk1 true) else ret tt) ;;;
  outb 0x1f6 (Z.lor 0xe0 (Z.shiftl 0 4)).

Definition idestart (b : option nat) : M ide unit :=
  match b with
  | None => panic "idestart"
  | Some b =>
    bf <- gets (fun s => i_buf s b) ;;
    if FSSIZE <=? ib_blockno bf then panic "incorrect blockno" else
    let sector_per_block := BSIZE / SECTOR_SIZE in
    let sector := ib_blockno bf * sector_per_block in
    let read_cmd := if sector_per_block =? 1 then IDE_CMD_READ else IDE_CMD_RDMUL in
    let write_cmd := if sector_per_block =? 1 then IDE_CMD_WRITE else IDE_CMD_WRMUL in
    if 7 <? sector_per_block then panic "idestart" else
    idewait false ;;;
    outb 0x3f6 0 ;;;
    outb 0x1f2 sector_per_block ;;;
    outb 0x1f3 (Z.land sector 0xff) ;;;
    outb 0x1f4 (Z.land (Z.shiftr sector 8) 0xff) ;;;
    outb 0x1f5 (Z.land (Z.shiftr sector 16) 0xff) ;;;
    outb 0x1f6 (Z.lor (Z.lor 0xe0 (Z.shiftl (Z.land (ib_dev bf) 1) 4))
      (Z.land (Z.shiftr sector 24) 0x0f)) ;;;
    if has (ib_flags bf) B_DIRTY then
      outb 0x1f7 write_cmd ;;;
      outsl (ib_data bf)
    else outb 0x1f7 read_cmd
  end.

Definition ideintr : M ide unit :=
  q <- gets idequeue ;;
  match q with
  | None => ret tt
  | Some b =>
    modify (fun s => set_idequeue (ib_qnext (i_buf s b)) s) ;;;
    flags <- gets (fun s => ib_flags (i_buf s b)) ;;
    (if negb (has flags B_DIRTY) then
       r <- idewait true ;;
       if 0 <=? r then insl b else ret tt
     else ret tt) ;;;
    modify (upd_ib b (fun x => set_ib_flags (Z.lor (ib_flags x) B_VALID) x)) ;;;
    modify (upd_ib b (fun x => set_ib_flags (Z.land (ib_flags x) (Z.lnot B_DIRTY)) x)) ;;;
    modify (fun s => set_i_woken (b :: i_woken s) s) ;;;
    q <- gets idequeue ;;
    match q with None => ret tt | Some _ => idestart q end
  end.

(** The last link of the queue: [idequeue] itself or the [qnext] of a buffer. *)
Fixpoint last_link (s : ide) (pp : option nat) (fuel : nat) : option nat :=
  match fuel with
  | O => pp
  | S fuel =>
    match (match pp with None => idequeue s | Some x => ib_qnext (i_buf s x) end) with
    | None => pp
    | Some y => last_link s (Some y) fuel
    end
  end.

(** [iderw] until it waits.  The loop to the end of the queue takes at most
    one step per buffer, and there are [NBUF] of them. *)
Definition iderw_submit (b : nat) : M ide unit :=
  bf <- gets (fun s => i_buf s b) ;;
  if negb (ib_held bf) then panic "iderw: buf not locked" else
  if Z.land (ib_flags bf) (Z.lor B_VALID B_DIRTY) =? B_VALID then panic "iderw: nothing to do" else
  h <- gets havedisk1 ;;
  if negb (ib_dev bf =? 0) && negb h then panic "iderw: ide disk 1 not present" else
  modify (upd_ib b (set_ib_qnext None)) ;;;
  pp <- gets (fun s => last_link s None (S NBUF)) ;;
  match pp with
  | None => modify (set_idequeue (Some b))
  | Some x => modify (upd_ib x (set_ib_qnext (Some b)))
  end ;;;
  q <- gets idequeue ;;
  if decide (q = Some b) then idestart (Some b) else ret tt.

(** The loop that waits: return, or sleep on. *)
Definition iderw_wait (b : nat) : M ide unit :=
  flags <- gets (fun s => ib_flags (i_buf s b)) ;;
  if Z.land flags (Z.lor B_VALID B_DIRTY) =? B_VALID then ret tt else fun s => Switch s.

(** ** The driver as a queue of requests *)

Definition core (x : ibuf) : Z * Z * Z * list Z := (ib_flags x, ib_dev x, ib_blockno x, ib_data x).

(** A buffer with something to transfer: invalid, or dirty. *)
Record wanted (x : ibuf) : Prop := {
  wa_flags : ib_flags x ∈ [0; 4; 6];
  wa_dev : ib_dev x ∈ [0; 1];
  wa_block : 0 <= ib_blockno x < FSSIZE }.

#[export] Instance wanted_dec x : Decision (wanted x).
Proof.
  refine (cast_if (decide (ib_flags x ∈ [0; 4; 6] /\ ib_dev x ∈ [0; 1] /\ 0 <= ib_blockno x < FSSIZE)));
    [by split; intuition|by intros [? ? ?]; intuition].
Defined.

(** The sectors after the request of [x]. *)
Definition perform (dk : Z -> Z -> list Z) (x : ibuf) : Z -> Z -> list Z :=
  if has (ib_flags x) B_DIRTY
  then upd dk (ib_dev x) (upd (dk (ib_dev x)) (ib_blockno x) (ib_data x)) else dk.

(** What the buffer holds afterwards; a read that fails leaves it alone. *)
Definition result (bad : Z -> Z -> bool) (dk : Z -> Z -> list Z) (x : ibuf) : list Z :=
  if has (ib_flags x) B_DIRTY || bad (ib_dev x) (ib_blockno x) then ib_data x
  else dk (ib_dev x) (ib_blockno x).

(** Events: a process that holds buffer [b] asks for the transfer of [x], and
    the controller interrupts. *)
Inductive event : Type := Submit (b : nat) (x : ibuf) | Interrupt.

(** The driver: the process stores its request in the buffer it holds and
    calls [iderw]; an interrupt that completes a transfer reports the buffer
    and what it holds. *)
Fixpoint ide_run (evs : list event) : M ide (list (nat * list Z)) :=
  match evs with
  | [] => ret []
  | Submit b x :: evs =>
    modify (upd_ib b (fun _ => mk_ibuf (ib_flags x) (ib_dev x) (ib_blockno x) (ib_data x) None true)) ;;;
    iderw_submit b ;;;
    ide_run evs
  | Interrupt :: evs =>
    q <- gets idequeue ;;
    ideintr ;;;
    s <- gets id ;;
    outs <- ide_run evs ;;
    ret (match q with Some b => (b, ib_data (i_buf s b)) :: outs | None => outs end)
  end.

(** What it is to do: requests are served one after the other, in the order
    they were made.  [None]: a request that no process may make. *)
Fixpoint spec_run (bad : Z -> Z -> bool) (evs : list event) (Q : list (nat * ibuf))
    (dk : Z -> Z -> list Z) : option (list (nat * list Z) * list (nat * ibuf) * (Z -> Z -> list Z)) :=
  match evs with
  | [] => Some ([], Q, dk)
  | Submit b x :: evs =>
    if decide ((b < NBUF)%nat /\ b ∉ Q.*1 /\ wanted x) then spec_run bad evs (Q ++ [(b, x)]) dk else None
  | Interrupt :: evs =>
    match Q with
    | [] => spec_run bad evs [] dk
    | (b, x) :: Q =>
      '(outs, Q', dk') ← spec_run bad evs Q (perform dk x);
      Some ((b, result bad dk x) :: outs, Q', dk')
    end
  end.

Fixpoint chain (buf : nat -> ibuf) (q : option nat) (Q : list nat) : Prop :=
  match Q with
  | [] => q = None
  | b :: Q => q = Some b /\ chain buf (ib_qnext (buf b)) Q
  end.

(** The queue [Q], with the sectors [dk] before its first request; that one
    has been given to the controller. *)
Record queue_ok (s : ide) (Q : list (nat * ibuf)) (dk : Z -> Z -> list Z) : Prop := {
  qo_chain : chain (i_buf s) (idequeue s) Q.*1;
  qo_nodup : NoDup Q.*1;
  qo_in : Forall (fun b => b < NBUF)%nat Q.*1;
  qo_req : Forall (fun q => core (i_buf s q.1) = core q.2 /\ wanted q.2) Q;
  qo_disk1 : havedisk1 s = true;
  qo_active : match Q with
              | [] => c_disk s = dk
              | (b, x) :: _ => sel_drive s = ib_dev x /\ sel_sector s = ib_blockno x /\
                  c_disk s = perform dk x
              end }.

Lemma land_ff x : Z.land x 0xff = x mod 2 ^ 8.
Proof. apply (Z.land_ones x 8). lia. Qed.

(** The controller finds the sector in its ports. *)
Lemma sector_bytes n : 0 <= n < FSSIZE ->
  u8 (Z.land n 0xff) + 2 ^ 8 * u8 (Z.land (Z.shiftr n 8) 0xff) + 2 ^ 16 * u8 (Z.land (Z.shiftr n 16) 0xff) = n /\
  Z.land (Z.shiftr n 24) 0x0f = 0.
Proof.
  unfold FSSIZE. intros Hn. rewrite !land_ff, !Z.shiftr_div_pow2 by lia.
  rewrite (Z.div_small n (2 ^ 16)), (Z.div_small n (2 ^ 24)) by lia. split; [|done].
  unfold u8. rewrite !Zmod_mod, Z.mod_0_l, Z.mul_0_r, Z.add_0_r by lia.
  rewrite (Z.mod_small (n / 2 ^ 8)).
  - pose proof (Z.div_mod n (2 ^ 8)). lia.
  - split; [apply Z.div_pos; lia|apply Z.div_lt_upper_bound; lia].
Qed.

(** [idestart] gives the request to the controller. *)
Lemma idestart_ok s b : wanted (i_buf s b) ->
  exists s', idestart (Some b) s = Ret tt s' /\ sel_drive s' = ib_dev (i_buf s b) /\
    sel_sector s' = ib_blockno (i_buf s b) /\ c_disk s' = perform (c_disk s) (i_buf s b) /\
    i_buf s' = i_buf s /\ idequeue s' = idequeue s /\ havedisk1 s' = havedisk1 s /\
    c_bad s' = c_bad s.
Proof.
  intros [_ Hd Hb]. unfold idestart. mrun. set (x := i_buf s b) in *.
  destruct (sector_bytes (ib_blockno x) Hb) as [Hsec H24]. change FSSIZE with 1000 in *. zbool.
  change (BSIZE / SECTOR_SIZE) with 1. cbn [Z.eqb Pos.eqb Z.ltb Z.compare Pos.compare Pos.compare_cont].
  rewrite Z.mul_1_r, H24. unfold idewait. mrun. unfold outb. cbn [Z.eqb Pos.eqb]. mrun.
  match goal with |- context [has (ib_flags x) B_DIRTY] =>
    match goal with |- context [set_c_port (upd ?p 502 ?v) ?s'] => set (s1 := set_c_port (upd p 502 v) s') end
  end.
  assert (sel_drive s1 = ib_dev x /\ sel_sector s1 = ib_blockno x) as [Ed Es].
  { unfold sel_drive, sel_sector. change (c_port s1 499) with (u8 (Z.land (ib_blockno x) 255)).
    change (c_port s1 500) with (u8 (Z.land (ib_blockno x ≫ 8) 255)).
    change (c_port s1 501) with (u8 (Z.land (ib_blockno x ≫ 16) 255)).
    change (c_port s1 502) with (u8 (Z.lor (Z.lor 224 (Z.land (ib_dev x) 1 ≪ 4)) 0)).
    rewrite Hsec. apply elem_of_cons in Hd as [-> | ->%list_elem_of_singleton]; split; try done;
      rewrite <- (Z.add_0_r (ib_blockno x)) at 2; done. }
  unfold perform. destruct (has (ib_flags x) B_DIRTY).
  - mrun. unfold outsl, modify. eexists. split; [reflexivity|]. cbn [c_disk set_c_disk set_c_cmd].
    change (sel_drive (set_c_cmd (u8 IDE_CMD_WRITE) s1)) with (sel_drive s1).
    change (sel_sector (set_c_cmd (u8 IDE_CMD_WRITE) s1)) with (sel_sector s1).
    rewrite Ed, Es. by split_and!.
  - unfold modify. eexists. split; [reflexivity|]. by split_and!.
Qed.

Lemma fupdn_eq {A} (f : nat -> A) k v : fupdn f k v k = v.
Proof. unfold fupdn. by rewrite decide_True. Qed.
Lemma fupdn_ne {A} (f : nat -> A) k v i : i <> k -> fupdn f k v i = f i.
Proof. intros H. unfold fupdn. by rewrite decide_False. Qed.

Lemma queue_chain_ext buf buf' Q : forall q, (forall b, b ∈ Q -> ib_qnext (buf' b) = ib_qnext (buf b)) ->
  chain buf q Q -> chain buf' q Q.
Proof.
  induction Q as [|b Q IH]; intros q He; [done|]. intros [Hq Hc]. split; [done|].
  rewrite He by by left. apply IH; [|done]. intros. apply He. by right.
Qed.

Lemma last_link_chain s Q : forall pp fuel,
  chain (i_buf s) (match pp with None => idequeue s | Some x => ib_qnext (i_buf s x) end) Q ->
  (length Q < fuel)%nat -> last_link s pp fuel = match last Q with Some z => Some z | None => pp end.
Proof.
  induction Q as [|b Q IH]; intros pp fuel Hc Hf; (destruct fuel as [|fuel]; [simpl in Hf; lia|]);
    cbn [last_link chain] in *.
  - by rewrite Hc.
  - destruct Hc as [Hq Hc]. rewrite Hq. rewrite (IH (Some b)) by (done || simpl in Hf; lia).
    rewrite last_cons. by destruct (last Q).
Qed.

Lemma chain_snoc buf Q z b : forall q, chain buf q Q -> last Q = Some z -> NoDup Q -> b ∉ Q ->
  ib_qnext (buf b) = None -> chain (fupdn buf z (set_ib_qnext (Some b) (buf z))) q (Q ++ [b]).
Proof.
  induction Q as [|y Q IH]; intros q Hc Hl Hn Hb Hnone; [done|]. destruct Hc as [-> Hc].
  apply NoDup_cons in Hn as [Hy Hn]. apply not_elem_of_cons in Hb as [Hby Hb].
  cbn [app chain]. split; [done|]. destruct Q as [|y2 Q].
  - injection Hl as ->. rewrite fupdn_eq. simpl. rewrite fupdn_ne by done. done.
  - assert (last (y2 :: Q) = Some z) as Hl' by done.
    assert (y <> z) as Hyz. { intros ->. apply Hy. by apply last_Some_elem_of. }
    rewrite (fupdn_ne _ _ _ y Hyz). by apply IH.
Qed.

Lemma NoDup_lt Q : NoDup Q -> Forall (fun b => b < NBUF)%nat Q -> (length Q <= NBUF)%nat.
Proof.
  intros Hn Hf. rewrite <- (length_seq NBUF 0). apply submseteq_length, NoDup_submseteq; [done|].
  intros b Hb. rewrite Forall_forall in Hf. apply elem_of_seq. specialize (Hf b Hb). lia.
Qed.

Lemma wanted_nothing x : wanted x -> (Z.land (ib_flags x) (Z.lor B_VALID B_DIRTY) =? B_VALID) = false.
Proof.
  intros [Hf _ _]. apply elem_of_cons in Hf as [-> | Hf]; [done|].
  by apply elem_of_cons in Hf as [-> | ->%list_elem_of_singleton].
Qed.

Lemma perform_core dk x y : core x = core y -> perform dk x = perform dk y.
Proof. intros E. injection E as E1 E2 E3 E4. unfold perform. by rewrite E1, E2, E3, E4. Qed.

Lemma queue_ok_snoc s s' Q dk b x x0 : queue_ok s Q dk -> (b < NBUF)%nat -> b ∉ Q.*1 -> wanted x ->
  core x0 = core x -> core (i_buf s' b) = core x0 ->
  (forall y, y ∈ Q.*1 -> core (i_buf s' y) = core (i_buf s y)) ->
  chain (i_buf s') (idequeue s') (Q.*1 ++ [b]) -> havedisk1 s' = true ->
  match Q with
  | [] => sel_drive s' = ib_dev x /\ sel_sector s' = ib_blockno x /\ c_disk s' = perform dk x
  | _ => sel_drive s' = sel_drive s /\ sel_sector s' = sel_sector s /\ c_disk s' = c_disk s
  end -> queue_ok s' (Q ++ [(b, x)]) dk.
Proof.
  intros [Hc Hn Hin Hr H1 Ha] Hb HbQ Hw Ex E0 Hcore Hch Hd Hact. split; rewrite ?fmap_app; try done.
  - apply NoDup_app. split_and!; [done| |apply NoDup_singleton]. cbn. set_solver.
  - apply Forall_app. split; [done|]. by constructor.
  - apply Forall_app. split; [|constructor; [|done]].
    + rewrite !Forall_forall in *. intros q Hq. destruct (Hr q Hq) as [E Hwq]. split; [|done].
      rewrite Hcore; [done|]. apply list_elem_of_fmap. by exists q.
    + cbn [fst snd]. by rewrite E0, Ex.
  - destruct Q as [|[b1 x1] Q]; [done|]. cbn [app]. destruct Hact as (-> & -> & ->). done.
Qed.

(** [iderw] appends the request and starts it if it is the only one. *)
Lemma submit_ok s Q dk b x : queue_ok s Q dk -> (b < NBUF)%nat -> b ∉ Q.*1 -> wanted x ->
  exists s', (modify (upd_ib b (fun _ => mk_ibuf (ib_flags x) (ib_dev x) (ib_blockno x) (ib_data x)
      None true)) ;;; iderw_submit b) s = Ret tt s' /\ queue_ok s' (Q ++ [(b, x)]) dk /\ c_bad s' = c_bad s.
Proof.
  intros Hq Hb HbQ Hw. pose proof Hq as [Hc Hn Hin Hr H1 Ha]. mrun.
  set (x0 := mk_ibuf (ib_flags x) (ib_dev x) (ib_blockno x) (ib_data x) None true).
  set (s1 := upd_ib b _ s). assert (i_buf s1 b = x0) as Eb1 by apply fupdn_eq.
  unfold iderw_submit. mrun. rewrite Eb1. cbn [ib_held x0 negb].
  change (ib_flags x0) with (ib_flags x). rewrite (wanted_nothing x Hw). mrun.
  change (havedisk1 s1) with (havedisk1 s). rewrite H1. cbn [negb]. rewrite andb_false_r. mrun.
  set (s2 := upd_ib b (set_ib_qnext None) s1).
  assert (i_buf s2 b = x0) as Eb by (unfold s2, upd_ib; cbn; by rewrite !fupdn_eq).
  assert (forall y, y <> b -> i_buf s2 y = i_buf s y) as Hy
    by (intros y Hne; unfold s2, s1, upd_ib; cbn; by rewrite !fupdn_ne).
  assert (forall y, y ∈ Q.*1 -> y <> b) as Hyb by (intros y Hyin ->; done).
  assert (chain (i_buf s2) (idequeue s2) Q.*1) as Hc2.
  { eapply queue_chain_ext, Hc. intros y Hyin. by rewrite Hy by auto. }
  rewrite (last_link_chain s2 Q.*1 None) by (done || pose proof (NoDup_lt _ Hn Hin); lia).
  destruct (last Q.*1) as [z|] eqn:El.
  - assert (z ∈ Q.*1) as Hz by by apply last_Some_elem_of.
    mrun. set (s3 := upd_ib z (set_ib_qnext (Some b)) s2).
    assert (idequeue s3 <> Some b) as Hne.
    { change (idequeue s3) with (idequeue s). destruct Q as [|[b1 x1] Q]; [done|].
      destruct Hc as [-> _]. intros [= ->]. apply HbQ. by left. }
    rewrite decide_False by done. unfold ret. exists s3. split; [done|]. split; [|done].
    apply (queue_ok_snoc s s3 Q dk b x x0); try done.
    + unfold s3, upd_ib. cbn [i_buf set_i_buf]. rewrite fupdn_ne by (intros <-; by apply (Hyb b)).
      by rewrite Eb.
    + intros y Hyin. unfold s3, upd_ib. cbn [i_buf set_i_buf]. destruct (decide (y = z)) as [->|Hyz].
      * rewrite fupdn_eq. by rewrite Hy by auto.
      * rewrite fupdn_ne by done. by rewrite Hy by auto.
    + apply chain_snoc; try done. by rewrite Eb.
    + by destruct Q.
  - apply last_None, fmap_nil_inv in El. subst Q. mrun. set (s3 := set_idequeue (Some b) s2).
    rewrite decide_True by done.
    destruct (idestart_ok s3 b) as (s4 & E4 & D4 & S4 & K4 & B4 & Q4 & V4 & W4).
    { change (i_buf s3) with (i_buf s2). rewrite Eb. destruct Hw. by split. }
    change (i_buf s3) with (i_buf s2) in *. rewrite Eb in *. exists s4. split; [done|].
    split; [|done]. apply (queue_ok_snoc s s4 [] dk b x x0); try done.
    + by rewrite B4, Eb.
    + intros y Hyin. by apply not_elem_of_nil in Hyin.
    + cbn [app chain fmap list_fmap]. rewrite Q4, B4, Eb. done.
    + by rewrite V4.
    + split_and!; [done|done|]. rewrite K4. change (c_disk s3) with (c_disk s). by rewrite Ha.
Qed.

Lemma wanted_core x y : core x = core y -> wanted y -> wanted x.
Proof. intros E [H1 H2 H3]. injection E as E1 E2 E3 E4. split; congruence. Qed.

Lemma flags_done f : f ∈ [0; 4; 6] -> Z.land (Z.lor f B_VALID) (Z.lnot B_DIRTY) = 2.
Proof.
  intros Hf. apply elem_of_cons in Hf as [-> | Hf]; [done|].
  by apply elem_of_cons in Hf as [-> | ->%list_elem_of_singleton].
Qed.

(** The interrupt handler before it looks for the next request. *)
Definition completed (s : ide) (b : nat) : ide :=
  let s0 := set_idequeue (ib_qnext (i_buf s b)) s in
  let s1 := if has (ib_flags (i_buf s b)) B_DIRTY || c_bad s (sel_drive s) (sel_sector s) then s0
            else upd_ib b (set_ib_data (c_disk s (sel_drive s) (sel_sector s))) s0 in
  set_i_woken (b :: i_woken s)
    (upd_ib b (fun x => set_ib_flags (Z.land (ib_flags x) (Z.lnot B_DIRTY)) x)
      (upd_ib b (fun x => set_ib_flags (Z.lor (ib_flags x) B_VALID) x) s1)).

Lemma ideintr_eq s b : idequeue s = Some b ->
  ideintr s = (q <- gets idequeue ;; match q with None => ret tt | Some _ => idestart q end) (completed s b).
Proof.
  intros Hq. unfold ideintr, completed. mrun. rewrite Hq. mrun. cbn [i_buf set_idequeue].
  destruct (has (ib_flags (i_buf s b)) B_DIRTY); cbn [negb orb]; mrun; [done|].
  unfold idewait. mrun. unfold id. set (s0 := set_idequeue _ s).
  change (c_bad s0 (sel_drive s0) (sel_sector s0)) with (c_bad s (sel_drive s) (sel_sector s)).
  destruct (c_bad s (sel_drive s) (sel_sector s)); cbn [andb Z.leb Z.compare]; unfold insl; mrun; done.
Qed.

Lemma completed_ok s b : ib_flags (i_buf s b) ∈ [0; 4; 6] ->
  idequeue (completed s b) = ib_qnext (i_buf s b) /\
  (forall y, y <> b -> i_buf (completed s b) y = i_buf s y) /\
  ib_flags (i_buf (completed s b) b) = 2 /\
  ib_data (i_buf (completed s b) b) =
    (if has (ib_flags (i_buf s b)) B_DIRTY || c_bad s (sel_drive s) (sel_sector s)
     then ib_data (i_buf s b) else c_disk s (sel_drive s) (sel_sector s)) /\
  havedisk1 (completed s b) = havedisk1 s /\ c_bad (completed s b) = c_bad s /\
  c_disk (completed s b) = c_disk s.
Proof.
  intros Hf. unfold completed. destruct (_ || _); cbn; split_and!; try done; intros;
    rewrite ?fupdn_eq, ?fupdn_ne by done; try done; by apply flags_done.
Qed.

(** An interrupt completes the first request and starts the second. *)
Lemma intr_ok s b x Q dk : queue_ok s ((b, x) :: Q) dk ->
  exists s', ideintr s = Ret tt s' /\ queue_ok s' Q (perform dk x) /\ c_bad s' = c_bad s /\
    ib_flags (i_buf s' b) = 2 /\ ib_data (i_buf s' b) = result (c_bad s) dk x.
Proof.
  intros [Hc Hn Hin Hr H1 (Ed & Es & Ek)]. destruct Hc as [Hq Hc]. cbn [fmap list_fmap fst] in *.
  apply NoDup_cons in Hn as [HbQ Hn]. apply Forall_cons in Hin as [Hb Hin].
  apply Forall_cons in Hr as [[Eb Hw] Hr]. cbn [fst snd] in *. pose proof Hw as [Wf Wd Wb].
  injection Eb as Ef Edv Ebn Edt. rewrite (ideintr_eq s b Hq). mrun.
  destruct (completed_ok s b) as (Q1 & O1 & F1 & D1 & V1 & W1 & K1); [by rewrite Ef|].
  rewrite Ef, Ed, Es, Edt, Ek in D1. remember (completed s b) as s1 eqn:Ec. clear Ec.
  assert (ib_data (i_buf s1 b) = result (c_bad s) dk x) as D1'.
  { rewrite D1. unfold result, perform. by destruct (has _ _). }
  assert (chain (i_buf s1) (idequeue s1) Q.*1) as Hc1.
  { rewrite Q1. eapply queue_chain_ext, Hc. intros y Hy. rewrite O1; [done|]. by intros ->. }
  assert (Forall (fun q => core (i_buf s1 q.1) = core q.2 /\ wanted q.2) Q) as Hr1.
  { rewrite !Forall_forall in *. intros q Hqin. rewrite O1; [by apply Hr|]. intros <-.
    apply HbQ, list_elem_of_fmap. by exists q. }
  destruct Q as [|[b2 x2] Q].
  - cbn in Hc1. rewrite Hc1. exists s1. split_and!; try done. split; try done; congruence.
  - destruct Hc1 as [Hq2 Hc1]. rewrite Hq2. pose proof Hr1 as [[Eb2 Hw2] _]%Forall_cons.
    cbn [fst snd] in *.
    destruct (idestart_ok s1 b2) as (s2 & E2 & D2 & S2 & K2 & B2 & Q2 & V2 & W2).
    { by eapply wanted_core. }
    exists s2. split_and!; [done| |congruence|by rewrite B2|by rewrite B2].
    split; rewrite ?B2, ?Q2, ?V2; try done; [by rewrite V1|].
    injection Eb2 as Ef2 Ed2 Eb2 Edt2. rewrite D2, S2, K2, K1, Ek. split_and!; [done..|].
    apply perform_core. unfold core. by rewrite Ef2, Ed2, Eb2, Edt2.
Qed.


(** An idle controller with two drives of zeros. *)
Definition demo_ide : ide :=
  mk_ide (fun _ => mk_ibuf 0 0 0 (replicate 512 0) None false) None true (fun _ => 0) 0
    (fun _ _ => replicate 512 0) (fun _ _ => false) [].

