(* ===== verification/Bio.v ===== *)
(** The buffer cache, bio.c.

    The buffers are linked in a circular doubly-linked list through [prev] and
    [next]; index [NBUF] is the sentinel [bcache.head].  [bcache_wf c l] says
    the list is [l], most recently used first, with every buffer exactly once
    and no two buffers for one block.  [blk] is the content of a block as the
    file system sees it: the cached copy, or the disk's.

    The section variable [D] is the disk driver. *)

From stdpp Require Import base list sets strings.
From Stdlib Require Import ZArith Lia.
From S2P Require Import Prelude State Sched Sleeplock Disk Demo.

Open Scope kernel_scope.

(** ** The list links *)

Definition bnext (c : bcache) (x : nat) : nat :=
  if decide (x = NBUF) then bc_head_next c else b_next (bc_buf c !!! x).
Definition bprev (c : bcache) (x : nat) : nat :=
  if decide (x = NBUF) then bc_head_prev c else b_prev (bc_buf c !!! x).
Definition set_bnext (x v : nat) (c : bcache) : bcache :=
  if decide (x = NBUF) then set_bc_head_next v c
  else set_bc_buf (alter (set_b_next v) x (bc_buf c)) c.
Definition set_bprev (x v : nat) (c : bcache) : bcache :=
  if decide (x = NBUF) then set_bc_head_prev v c
  else set_bc_buf (alter (set_b_prev v) x (bc_buf c)) c.

(** [b->next->prev = b->prev; b->prev->next = b->next] *)
Definition bunlink (b : nat) (c : bcache) : bcache :=
  let c := set_bprev (bnext c b) (bprev c b) c in
  set_bnext (bprev c b) (bnext c b) c.

(** [b->next = head.next; b->prev = &head] and
    [head.next->prev = b; head.next = b] *)
Definition blink_self (b : nat) (c : bcache) : bcache :=
  set_bprev b NBUF (set_bnext b (bc_head_next c) c).
Definition blink_head (b : nat) (c : bcache) : bcache :=
  set_bc_head_next b (set_bprev (bc_head_next c) b c).

(** [for(b = ...; b != &bcache.head; b = b->next) if(P(b)) ...]: the first
    buffer that satisfies [P], following [step]. *)
Fixpoint bscan (step : nat -> nat) (P : nat -> bool) (x k : nat) : option nat :=
  match k with
  | O => None
  | S k =>
    if decide (x = NBUF) then None
    else if P x then Some x else bscan step P (step x) k
  end.

Definition is_block (c : bcache) (dev blockno : Z) (b : nat) : bool :=
  (b_dev (bc_buf c !!! b) =? dev) && (b_blockno (bc_buf c !!! b) =? blockno).
Definition is_unused (c : bcache) (b : nat) : bool :=
  (b_refcnt (bc_buf c !!! b) =? 0) &&
  (Z.land (b_flags (bc_buf c !!! b)) B_DIRTY =? 0).

(** ** Operations *)

Definition binit_one (b : nat) : K unit :=
  modify (fun s => set_k_bcache (blink_self b (k_bcache s)) s) ;;;
  initsleeplock (SLBuf b) ;;;
  modify (fun s => set_k_bcache (blink_head b (k_bcache s)) s).

Definition binit : K unit :=
  modify (fun s => set_k_bcache
    (set_bc_head_next NBUF (set_bc_head_prev NBUF (k_bcache s))) s) ;;;
  mfor binit_one (seq 0 NBUF).

(** [b->dev = dev; b->blockno = blockno; b->flags = 0; b->refcnt = 1] *)
Definition recycle (dev blockno : Z) (b : buf) : buf :=
  set_b_refcnt 1 (set_b_flags 0 (set_b_blockno blockno (set_b_dev dev b))).

Definition bget (dev blockno : Z) : K nat :=
  acquire L_bcache ;;;
  c <- gets k_bcache ;;
  match bscan (bnext c) (is_block c dev blockno) (bc_head_next c) (S NBUF) with
  | Some b =>
    modify (upd_buf b (fun x => set_b_refcnt (b_refcnt x + 1) x)) ;;;
    release L_bcache ;;;
    acquiresleep (SLBuf b) ;;;
    ret b
  | None =>
    match bscan (bprev c) (is_unused c) (bc_head_prev c) (S NBUF) with
    | Some b =>
      modify (upd_buf b (recycle dev blockno)) ;;;
      release L_bcache ;;;
      acquiresleep (SLBuf b) ;;;
      ret b
    | None => panic "bget: no buffers"
    end
  end.

Section Bio.
Context {D : DiskDriver}.

Definition bread (dev blockno : Z) : K nat :=
  b <- bget dev blockno ;;
  flags <- gets (fun s => b_flags (bufs s b)) ;;
  (if negb (has flags B_VALID) then iderw b else ret tt) ;;;
  ret b.

Definition bwrite (b : nat) : K unit :=
  h <- holdingsleep (SLBuf b) ;;
  if negb h then panic "bwrite" else
  modify (upd_buf b (fun x => set_b_flags (Z.lor (b_flags x) B_DIRTY) x)) ;;;
  iderw b.

Definition brelse (b : nat) : K unit :=
  h <- holdingsleep (SLBuf b) ;;
  if negb h then panic "brelse" else
  releasesleep (SLBuf b) ;;;
  acquire L_bcache ;;;
  modify (upd_buf b (fun x => set_b_refcnt (b_refcnt x - 1) x)) ;;;
  n <- gets (fun s => b_refcnt (bufs s b)) ;;
  (if n =? 0 then
     modify (fun s => set_k_bcache
       (blink_head b (blink_self b (bunlink b (k_bcache s)))) s)
   else ret tt) ;;;
  release L_bcache.
End Bio.

(** ** Paths in the list *)

Section Seg.
Implicit Types nx pv : nat -> nat.

(** From [x] through the nodes [l] to [z], linked both ways. *)
Fixpoint seg nx pv (x : nat) (l : list nat) (z : nat) : Prop :=
  match l with
  | [] => nx x = z /\ pv z = x
  | y :: l => nx x = y /\ pv y = x /\ seg nx pv y l z
  end.

Lemma seg_app nx pv x l1 b l2 z :
  seg nx pv x (l1 ++ b :: l2) z <-> seg nx pv x l1 b /\ seg nx pv b l2 z.
Proof.
  revert x. induction l1 as [|y l1 IH]; intros x; simpl; [tauto|].
  rewrite IH. tauto.
Qed.

Lemma seg_ext nx pv nx' pv' x l z :
  (forall y, y ∈ x :: l -> nx' y = nx y) -> (forall y, y ∈ l ++ [z] -> pv' y = pv y) ->
  seg nx pv x l z -> seg nx' pv' x l z.
Proof.
  revert x. induction l as [|y l IH]; intros x Hn Hp; simpl.
  - rewrite Hn, Hp by set_solver. done.
  - intros (Hx & Hy & Hs). rewrite Hn, Hp by set_solver.
    split; [done|]. split; [done|]. apply IH; set_solver.
Qed.

Lemma seg_first nx pv x l z : seg nx pv x l z -> nx x ∈ l ++ [z].
Proof. destruct l; simpl; intros; destruct_and?; subst; set_solver. Qed.

Lemma seg_last nx pv x l z : seg nx pv x l z -> pv z ∈ x :: l.
Proof.
  revert x. induction l as [|y l IH]; intros x; simpl.
  - intros [_ ->]. set_solver.
  - intros (_ & _ & Hs). apply IH in Hs. set_solver.
Qed.

Definition fupd (f : nat -> nat) (x v : nat) : nat -> nat :=
  fun y => if decide (y = x) then v else f y.

Lemma fupd_eq f x v : fupd f x v x = v.
Proof. unfold fupd. by rewrite decide_True. Qed.
Lemma fupd_ne f x v y : y <> x -> fupd f x v y = f y.
Proof. intros. unfold fupd. by rewrite decide_False. Qed.

Lemma seg_unlink nx pv x l1 b l2 z :
  NoDup (x :: l1 ++ b :: l2) -> NoDup (l1 ++ b :: l2 ++ [z]) ->
  seg nx pv x l1 b -> seg nx pv b l2 z ->
  seg (fupd nx (pv b) (nx b)) (fupd pv (nx b) (pv b)) x (l1 ++ l2) z.
Proof.
  revert x. induction l1 as [|y l1 IH]; intros x Hnd1 Hnd2; simpl.
  - intros [Hx Hb] Hs. rewrite Hb. destruct l2 as [|y l2]; simpl in *.
    + destruct Hs as [<- _]. by rewrite !fupd_eq.
    + destruct Hs as (<- & _ & Hs). rewrite !fupd_eq. split; [done|]. split; [done|].
      eapply seg_ext; [..|exact Hs]; intros u Hu; apply fupd_ne; intros ->.
      * apply NoDup_cons in Hnd1 as [Hnd1 _]. set_solver.
      * apply NoDup_cons in Hnd2 as [_ Hnd2]. apply NoDup_cons in Hnd2 as [Hnd2 _].
        set_solver.
  - intros (Hx & Hy & Hs1) Hs2.
    pose proof (seg_last _ _ _ _ _ Hs1) as Hlast.
    pose proof (seg_first _ _ _ _ _ Hs2) as Hfirst.
    simpl in Hnd1, Hnd2. apply NoDup_cons in Hnd1 as [Hnx Hnd1].
    pose proof Hnd2 as Hnd2'. apply NoDup_cons in Hnd2 as [Hny Hnd2].
    rewrite fupd_ne by (intros ->; set_solver).
    rewrite fupd_ne by (intros ->; set_solver).
    split; [done|]. split; [done|]. apply IH; done.
Qed.

Lemma seg_push nx pv x l b z :
  b ∉ x :: l ++ [z] -> NoDup (x :: l) -> NoDup (l ++ [z]) -> seg nx pv x l z ->
  seg (fupd (fupd nx b (nx x)) x b) (fupd (fupd pv b x) (nx x) b) x (b :: l) z.
Proof.
  intros Hb Hnd1 Hnd2 Hs. pose proof (seg_first _ _ _ _ _ Hs) as Hf.
  simpl. rewrite fupd_eq. split; [done|].
  rewrite fupd_ne by (intros ->; set_solver). rewrite fupd_eq. split; [done|].
  assert (Hbx : b <> x) by set_solver.
  destruct l as [|y l]; simpl in *.
  - destruct Hs as [Hx Hz]. rewrite fupd_ne, fupd_eq by done. rewrite Hx.
    by rewrite fupd_eq.
  - destruct Hs as (Hx & Hy & Hs). rewrite fupd_ne, fupd_eq by done.
    rewrite Hx, fupd_eq. split; [done|]. split; [done|].
    apply NoDup_cons in Hnd1 as [Hnx _]. apply NoDup_cons in Hnd2 as [Hny _].
    eapply seg_ext; [..|exact Hs]; intros u Hu; rewrite !fupd_ne;
      first [done | intros ->; set_solver].
Qed.
End Seg.

Lemma seg_reverse nx pv x l z : seg nx pv x l z -> seg pv nx z (reverse l) x.
Proof.
  revert x. induction l as [|y l IH]; intros x; simpl; [tauto|].
  intros (Hx & Hy & Hs). rewrite reverse_cons. apply seg_app. split; [by apply IH|].
  simpl. done.
Qed.

Lemma bscan_find nx pv P l x k :
  seg nx pv x l NBUF -> NBUF ∉ l -> (length l < k)%nat ->
  bscan nx P (nx x) k = List.find P l.
Proof.
  revert x k. induction l as [|y l IH]; intros x k; (destruct k; [simpl; lia|]); simpl.
  - intros [-> _] _ _. by rewrite decide_True.
  - intros (-> & _ & Hs) Hn Hk. rewrite decide_False by set_solver.
    destruct (P y); [done|]. apply IH; [done|set_solver|lia].
Qed.

Lemma find_first {A} (P : A -> bool) l x :
  List.find P l = Some x -> P x = true /\ x ∈ l.
Proof. intros H. apply List.find_some in H as [? ?]. by rewrite list_elem_of_In. Qed.

(** ** The cache's invariant *)

Record bcache_wf (c : bcache) (l : list nat) : Prop := {
  wf_len : length (bc_buf c) = NBUF;
  wf_perm : l ≡ₚ seq 0 NBUF;
  wf_seg : seg (bnext c) (bprev c) NBUF l NBUF;
  wf_unique : forall b1 b2, (b1 < NBUF)%nat -> (b2 < NBUF)%nat ->
    b_dev (bc_buf c !!! b1) <> 0 ->
    b_dev (bc_buf c !!! b1) = b_dev (bc_buf c !!! b2) ->
    b_blockno (bc_buf c !!! b1) = b_blockno (bc_buf c !!! b2) -> b1 = b2 }.

Section Links.
Context (c : bcache) (Hlen : length (bc_buf c) = NBUF).

Lemma bnext_set x v y :
  (x <= NBUF)%nat -> bnext (set_bnext x v c) y = fupd (bnext c) x v y.
Proof.
  intros Hx. unfold bnext, set_bnext, fupd.
  destruct (decide (x = NBUF)) as [->|Hn], (decide (y = NBUF)) as [->|Hy];
    repeat case_decide; try done; try lia; simpl.
  - subst. rewrite lookup_total_alter_eq by lia. done.
  - rewrite lookup_total_alter_ne by done. done.
Qed.

Lemma bprev_set x v y :
  (x <= NBUF)%nat -> bprev (set_bprev x v c) y = fupd (bprev c) x v y.
Proof.
  intros Hx. unfold bprev, set_bprev, fupd.
  destruct (decide (x = NBUF)) as [->|Hn], (decide (y = NBUF)) as [->|Hy];
    repeat case_decide; try done; try lia; simpl.
  - subst. rewrite lookup_total_alter_eq by lia. done.
  - rewrite lookup_total_alter_ne by done. done.
Qed.

Lemma lookup_alter_field {B} (f : buf -> B) g (bs : list buf) x y :
  (forall b, f (g b) = f b) -> f (alter g x bs !!! y) = f (bs !!! y).
Proof.
  intros Hf. destruct (decide (x = y)) as [->|].
  - rewrite !list_lookup_total_alt, list_lookup_alter_eq.
    destruct (bs !! y); simpl; [apply Hf|done].
  - by rewrite lookup_total_alter_ne.
Qed.

Lemma bprev_set_bnext x v y : bprev (set_bnext x v c) y = bprev c y.
Proof.
  unfold bprev, set_bnext. repeat case_decide; try done; simpl.
  by apply lookup_alter_field.
Qed.

Lemma bnext_set_bprev x v y : bnext (set_bprev x v c) y = bnext c y.
Proof.
  unfold bnext, set_bprev. repeat case_decide; try done; simpl.
  by apply lookup_alter_field.
Qed.

Lemma length_set_bnext x v : length (bc_buf (set_bnext x v c)) = NBUF.
Proof. unfold set_bnext. case_decide; simpl; [done|]. by rewrite length_alter. Qed.
Lemma length_set_bprev x v : length (bc_buf (set_bprev x v c)) = NBUF.
Proof. unfold set_bprev. case_decide; simpl; [done|]. by rewrite length_alter. Qed.

(** A buffer less its links. *)
Definition body (b : buf) : Z * Z * Z * sleeplock * Z * list Z :=
  (b_flags b, b_dev b, b_blockno b, b_lock b, b_refcnt b, b_data b).

Lemma body_eq x y : body x = body y ->
  b_flags x = b_flags y /\ b_dev x = b_dev y /\ b_blockno x = b_blockno y /\
  b_lock x = b_lock y /\ b_refcnt x = b_refcnt y /\ b_data x = b_data y.
Proof. unfold body. intros E. by simplify_eq. Qed.

Lemma body_set_bnext x v y : body (bc_buf (set_bnext x v c) !!! y) = body (bc_buf c !!! y).
Proof. unfold set_bnext. case_decide; simpl; [done|]. by apply lookup_alter_field. Qed.
Lemma body_set_bprev x v y : body (bc_buf (set_bprev x v c) !!! y) = body (bc_buf c !!! y).
Proof. unfold set_bprev. case_decide; simpl; [done|]. by apply lookup_alter_field. Qed.
End Links.

(** [brelse]'s relinking, as one update of the list. *)
Definition to_front (b : nat) (c : bcache) : bcache :=
  blink_head b (blink_self b (bunlink b c)).

Lemma body_to_front b c y : body (bc_buf (to_front b c) !!! y) = body (bc_buf c !!! y).
Proof.
  unfold to_front, blink_head, blink_self, bunlink. simpl.
  by rewrite !body_set_bprev, !body_set_bnext, !body_set_bprev.
Qed.

Lemma length_to_front b c :
  length (bc_buf c) = NBUF -> length (bc_buf (to_front b c)) = NBUF.
Proof.
  intros H. unfold to_front, blink_head, blink_self, bunlink. simpl.
  auto 10 using length_set_bnext, length_set_bprev.
Qed.

Lemma bc_head_next_bnext c : bc_head_next c = bnext c NBUF.
Proof. unfold bnext. by rewrite decide_True. Qed.
Lemma bc_head_prev_bprev c : bc_head_prev c = bprev c NBUF.
Proof. unfold bprev. by rewrite decide_True. Qed.
Lemma set_bc_head_next_bnext v c : set_bc_head_next v c = set_bnext NBUF v c.
Proof. unfold set_bnext. by rewrite decide_True. Qed.

Lemma push_seg b c l :
  length (bc_buf c) = NBUF -> (b < NBUF)%nat -> (forall x, x ∈ l -> (x < NBUF)%nat) ->
  NoDup l -> b ∉ l -> seg (bnext c) (bprev c) NBUF l NBUF ->
  seg (bnext (blink_head b (blink_self b c))) (bprev (blink_head b (blink_self b c)))
    NBUF (b :: l) NBUF.
Proof.
  intros Hlen Hb Hlt Hnd Hbl Hs. pose proof (seg_first _ _ _ _ _ Hs) as Hf.
  assert (HN : NBUF ∉ l) by (intros Hx; apply Hlt in Hx; lia).
  assert (Hn1 : (bnext c NBUF <= NBUF)%nat).
  { apply elem_of_app in Hf as [Hx|Hx]; [apply Hlt in Hx; lia|].
    apply list_elem_of_singleton in Hx. rewrite Hx. done. }
  assert (HbN : NBUF <> b) by lia. assert (Hb' : (b <= NBUF)%nat) by lia.
  eapply seg_ext; [| |apply (seg_push (bnext c) (bprev c) NBUF l b NBUF)]; try done.
  - intros y _. unfold blink_head, blink_self.
    rewrite set_bc_head_next_bnext, bnext_set
      by auto using length_set_bnext, length_set_bprev.
    unfold fupd at 1 2. case_decide; [done|].
    rewrite !bnext_set_bprev, bnext_set by done. by rewrite bc_head_next_bnext.
  - intros y _. unfold blink_head, blink_self.
    rewrite set_bc_head_next_bnext, bprev_set_bnext.
    assert (E : bc_head_next (set_bprev b NBUF (set_bnext b (bc_head_next c) c))
                = bnext c NBUF).
    { rewrite bc_head_next_bnext, bnext_set_bprev, bnext_set by done.
      by apply fupd_ne. }
    rewrite E, bprev_set by auto using length_set_bnext, length_set_bprev.
    unfold fupd at 1 2. case_decide; [done|].
    rewrite bprev_set by auto using length_set_bnext.
    unfold fupd. case_decide; [done|]. apply bprev_set_bnext.
  - set_solver.
  - apply NoDup_cons. by split.
  - apply NoDup_app. split; [done|]. split; [set_solver|apply NoDup_singleton].
Qed.

Lemma to_front_seg b c l1 l2 :
  length (bc_buf c) = NBUF -> l1 ++ b :: l2 ≡ₚ seq 0 NBUF ->
  seg (bnext c) (bprev c) NBUF (l1 ++ b :: l2) NBUF ->
  seg (bnext (to_front b c)) (bprev (to_front b c)) NBUF (b :: l1 ++ l2) NBUF.
Proof.
  intros Hlen Hperm Hs. pose proof Hs as Hs0.
  apply seg_app in Hs as [Hs1 Hs2].
  assert (Hin : forall x, x ∈ l1 ++ b :: l2 <-> (x < NBUF)%nat).
  { intros x. rewrite Hperm, elem_of_seq. lia. }
  assert (Hnd : NoDup (l1 ++ b :: l2)) by (rewrite Hperm; apply NoDup_seq).
  assert (HN : NBUF ∉ l1 ++ b :: l2) by (rewrite Hin; lia).
  assert (Hle : forall x, x ∈ NBUF :: l1 ++ b :: l2 -> (x <= NBUF)%nat).
  { intros x [->|Hx]%elem_of_cons; [done|]. apply Hin in Hx. lia. }
  pose proof (seg_first _ _ _ _ _ Hs2) as Hf. pose proof (seg_last _ _ _ _ _ Hs1) as Hl.
  assert (Hb : (b <= NBUF)%nat) by (apply Hle; set_solver).
  assert (Hnb : (bnext c b <= NBUF)%nat) by (apply Hle; set_solver).
  assert (Hpb : (bprev c b <= NBUF)%nat) by (apply Hle; set_solver).
  assert (Hbnd : b ∉ l1 ++ l2).
  { rewrite <- Permutation_middle in Hnd. by apply NoDup_cons in Hnd as [? _]. }
  assert (Hnd' : NoDup (l1 ++ l2)).
  { rewrite <- Permutation_middle in Hnd. by apply NoDup_cons in Hnd as [_ ?]. }
  assert (Hbn : b <> bnext c b).
  { intros E. rewrite <- E in Hf. assert (b = NBUF) by set_solver. subst. set_solver. }
  assert (HbN : NBUF <> b) by (intros E; subst; set_solver).
  set (c1 := bunlink b c).
  assert (Hu : seg (bnext c1) (bprev c1) NBUF (l1 ++ l2) NBUF).
  { eapply seg_ext; [| |apply (seg_unlink (bnext c) (bprev c) NBUF l1 b l2 NBUF)];
      try done.
    - intros y _. unfold c1, bunlink.
      rewrite bnext_set, bnext_set_bprev by
        (rewrite ?bprev_set by done; auto using length_set_bprev;
         unfold fupd; case_decide; subst; auto).
      rewrite bprev_set, (fupd_ne _ _ _ b) by done. unfold fupd. case_decide; [done|].
      by rewrite bnext_set_bprev.
    - intros y _. unfold c1, bunlink. by rewrite bprev_set_bnext, bprev_set.
    - rewrite NoDup_cons. by split.
    - replace (l1 ++ b :: l2 ++ [NBUF]) with ((l1 ++ b :: l2) ++ [NBUF])
        by (rewrite <- app_assoc; done).
      apply NoDup_app. split; [done|]. split; [set_solver|apply NoDup_singleton]. }
  assert (Hlen1 : length (bc_buf c1) = NBUF)
    by (unfold c1, bunlink; auto using length_set_bnext, length_set_bprev).
  apply push_seg; try done; [by apply (proj1 (Hin b)); set_solver|].
  intros x Hx. apply Hin. set_solver.
Qed.

Lemma to_front_wf b c l :
  bcache_wf c l -> (b < NBUF)%nat ->
  exists l1 l2, l = l1 ++ b :: l2 /\ bcache_wf (to_front b c) (b :: l1 ++ l2).
Proof.
  intros [Hlen Hperm Hs Hu] Hb.
  assert (Hin : b ∈ l) by (rewrite Hperm, elem_of_seq; lia).
  apply list_elem_of_split in Hin as (l1 & l2 & ->). exists l1, l2. split; [done|].
  assert (Hbody : forall y, body (bc_buf (to_front b c) !!! y) = body (bc_buf c !!! y))
    by (intros; apply body_to_front).
  split.
  - by apply length_to_front.
  - by rewrite Permutation_middle.
  - by apply to_front_seg.
  - intros b1 b2 H1 H2. destruct (body_eq _ _ (Hbody b1)) as (_ & -> & -> & _).
    destruct (body_eq _ _ (Hbody b2)) as (_ & -> & -> & _). by apply Hu.
Qed.

(** ** Buffers through updates *)

Lemma bufs_upd_eq b f s :
  (b < length (bc_buf (k_bcache s)))%nat -> bufs (upd_buf b f s) b = f (bufs s b).
Proof. intros H. unfold bufs, upd_buf. simpl. by apply lookup_total_alter_eq. Qed.

Lemma bufs_upd_ne b b' f s : b <> b' -> bufs (upd_buf b f s) b' = bufs s b'.
Proof. intros H. unfold bufs, upd_buf. simpl. by apply lookup_total_alter_ne. Qed.

Lemma upd_buf_upd_buf b f g s : upd_buf b f (upd_buf b g s) = upd_buf b (fun x => f (g x)) s.
Proof. unfold upd_buf. simpl. by rewrite alter_alter. Qed.

(** An update of one buffer that leaves its links alone keeps the list. *)
Lemma upd_buf_seg b f s x l z :
  (forall y, b_next (f y) = b_next y) -> (forall y, b_prev (f y) = b_prev y) ->
  seg (bnext (k_bcache s)) (bprev (k_bcache s)) x l z ->
  seg (bnext (k_bcache (upd_buf b f s))) (bprev (k_bcache (upd_buf b f s))) x l z.
Proof.
  intros Hn Hp. apply seg_ext; intros y _; unfold bnext, bprev, upd_buf; simpl;
    case_decide; try done; by apply lookup_alter_field.
Qed.

(** The identity of a buffer: device and block number. *)
Definition bid (b : buf) : Z * Z := (b_dev b, b_blockno b).

Lemma upd_buf_wf b f s l :
  (forall y, b_next (f y) = b_next y) -> (forall y, b_prev (f y) = b_prev y) ->
  (forall y, bid (f y) = bid y) ->
  bcache_wf (k_bcache s) l -> bcache_wf (k_bcache (upd_buf b f s)) l.
Proof.
  intros Hn Hp Hid [Hlen Hperm Hs Hu]. split; [|done| |].
  - unfold upd_buf. simpl. by rewrite length_alter.
  - by apply upd_buf_seg.
  - intros b1 b2 H1 H2.
    assert (E : forall y, b_dev (bc_buf (k_bcache (upd_buf b f s)) !!! y)
        = b_dev (bc_buf (k_bcache s) !!! y) /\
      b_blockno (bc_buf (k_bcache (upd_buf b f s)) !!! y)
        = b_blockno (bc_buf (k_bcache s) !!! y)).
    { intros y. unfold upd_buf. simpl. split; apply lookup_alter_field; intros x;
        specialize (Hid x); unfold bid in Hid; by simplify_eq. }
    destruct (E b1) as [-> ->], (E b2) as [-> ->]. by apply Hu.
Qed.

(** [b] caches the block [bno] of [dev]. *)
Definition caches (s : kstate) (dev bno : Z) (b : nat) : Prop :=
  (b < NBUF)%nat /\ bid (bufs s b) = (dev, bno).

Lemma caches_unique s l d n b1 b2 :
  bcache_wf (k_bcache s) l -> d <> 0 -> caches s d n b1 -> caches s d n b2 -> b1 = b2.
Proof.
  intros Hwf Hd [H1 E1] [H2 E2]. unfold bid, bufs in *. simplify_eq.
  apply (wf_unique _ _ Hwf); congruence.
Qed.

Lemma is_block_spec s dev bno b :
  is_block (k_bcache s) dev bno b = true <-> bid (bufs s b) = (dev, bno).
Proof.
  unfold is_block, bid, bufs. rewrite andb_true_iff, !Z.eqb_eq. split.
  - by intros [-> ->].
  - intros E. by simplify_eq.
Qed.

Lemma wf_elem c l b : bcache_wf c l -> b ∈ l <-> (b < NBUF)%nat.
Proof. intros [_ Hp _ _]. rewrite Hp, elem_of_seq. lia. Qed.

Lemma wf_length c l : bcache_wf c l -> length l = NBUF.
Proof. intros [_ Hp _ _]. by rewrite Hp, length_seq. Qed.

Lemma bscan_next_find s l P :
  bcache_wf (k_bcache s) l ->
  bscan (bnext (k_bcache s)) P (bc_head_next (k_bcache s)) (S NBUF) = List.find P l.
Proof.
  intros Hwf. rewrite bc_head_next_bnext.
  apply (bscan_find _ (bprev (k_bcache s))); [apply Hwf| |].
  - rewrite (wf_elem _ _ _ Hwf). lia.
  - rewrite (wf_length _ _ Hwf). lia.
Qed.

Lemma bscan_prev_find s l P :
  bcache_wf (k_bcache s) l ->
  bscan (bprev (k_bcache s)) P (bc_head_prev (k_bcache s)) (S NBUF)
  = List.find P (reverse l).
Proof.
  intros Hwf. rewrite bc_head_prev_bprev.
  apply (bscan_find _ (bnext (k_bcache s))); [apply seg_reverse, Hwf| |].
  - rewrite elem_of_reverse, (wf_elem _ _ _ Hwf). lia.
  - rewrite length_reverse, (wf_length _ _ Hwf). lia.
Qed.

Lemma find_block_None s l dev bno :
  bcache_wf (k_bcache s) l ->
  List.find (is_block (k_bcache s) dev bno) l = None <->
  forall b, ~ caches s dev bno b.
Proof.
  intros Hwf. split.
  - intros Hf b [Hb Hid].
    eapply List.find_none in Hf; [|apply list_elem_of_In, (wf_elem _ _ b Hwf), Hb].
    apply is_block_spec in Hid. congruence.
  - intros Hn. destruct (List.find _ l) as [b|] eqn:E; [|done]. exfalso.
    apply find_first in E as [Hb Hl]. apply (Hn b). split.
    + by apply (wf_elem _ _ _ Hwf).
    + by apply is_block_spec.
Qed.

Lemma find_block_Some s l dev bno b :
  bcache_wf (k_bcache s) l -> dev <> 0 -> caches s dev bno b ->
  List.find (is_block (k_bcache s) dev bno) l = Some b.
Proof.
  intros Hwf Hd [Hb Hid]. destruct (List.find _ l) as [b'|] eqn:E.
  - apply find_first in E as [Hb' Hl]. apply is_block_spec in Hb'.
    apply (wf_elem _ _ _ Hwf) in Hl. f_equal. unfold bid, bufs in *. simplify_eq.
    apply (wf_unique _ _ Hwf); congruence.
  - exfalso. apply (proj1 (find_block_None s l dev bno Hwf) E b). by split.
Qed.

(** ** Contents *)

(** The content of a block as the file system sees it. *)
Definition content (s : kstate) (dev bno : Z) : list Z :=
  match List.find (fun b => is_block (k_bcache s) dev bno b &&
                            has (b_flags (bufs s b)) B_VALID) (seq 0 NBUF) with
  | Some b => b_data (bufs s b)
  | None => k_disk s dev bno
  end.

(** The block is in a buffer that waits to be written. *)
Definition is_dirty (s : kstate) (dev bno : Z) : Prop :=
  exists b, caches s dev bno b /\ has (b_flags (bufs s b)) B_DIRTY = true.

Lemma content_cached s l dev bno b :
  bcache_wf (k_bcache s) l -> dev <> 0 -> caches s dev bno b ->
  has (b_flags (bufs s b)) B_VALID = true -> content s dev bno = b_data (bufs s b).
Proof.
  intros Hwf Hd [Hb Hid] Hv. unfold content.
  destruct (List.find _ _) as [b'|] eqn:E.
  - apply find_first in E as [Hb' Hl]. apply andb_prop in Hb' as [Hb' _].
    apply is_block_spec in Hb'. apply elem_of_seq in Hl. f_equal. f_equal.
    unfold bid, bufs in *. simplify_eq. apply (wf_unique _ _ Hwf); congruence || lia.
  - exfalso. eapply List.find_none in E; [|apply list_elem_of_In, (elem_of_seq 0 NBUF b); lia].
    simpl in E. apply is_block_spec in Hid. by rewrite Hid, Hv in E.
Qed.

Lemma content_disk s dev bno :
  (forall b, caches s dev bno b -> has (b_flags (bufs s b)) B_VALID = true ->
     b_data (bufs s b) = k_disk s dev bno) ->
  content s dev bno = k_disk s dev bno.
Proof.
  intros H. unfold content. destruct (List.find _ _) as [b|] eqn:E; [|done].
  apply find_first in E as [Hb Hl]. apply andb_prop in Hb as [Hb Hv].
  apply is_block_spec in Hb. apply elem_of_seq in Hl. apply H; [|done].
  split; [lia|done].
Qed.

(** Whether a block is cached is decidable. *)
Lemma caches_dec s dev bno : (exists b, caches s dev bno b) \/ (forall b, ~ caches s dev bno b).
Proof.
  destruct (decide (Exists (fun b => bid (bufs s b) = (dev, bno)) (seq 0 NBUF))) as [H|H].
  - left. apply Exists_exists in H as (b & Hb%elem_of_seq & Hid). exists b. split; [lia|done].
  - right. intros b [Hb Hid]. apply H, Exists_exists. exists b. split; [|done].
    apply elem_of_seq. lia.
Qed.

(** ** Sessions

    [sess p s l H]: process [p] runs, holds no spinlock and has the buffers [H]
    locked; every other buffer is free and a clean one agrees with the disk. *)

Record sess (p : nat) (s : kstate) (l H : list nat) : Prop := {
  ss_cur : k_cur s = Some p;
  ss_held : k_held s = [];
  ss_wf : bcache_wf (k_bcache s) l;
  ss_in : forall b, b ∈ H ->
    (b < NBUF)%nat /\ b_lock (bufs s b) = mk_sleeplock true (p_pid (procs s p)) /\
    b_refcnt (bufs s b) = 1 /\ b_dev (bufs s b) <> 0 /\
    (b_flags (bufs s b) = 2 \/ b_flags (bufs s b) = 6);
  ss_out : forall b, (b < NBUF)%nat -> b ∉ H ->
    sl_locked (b_lock (bufs s b)) = false /\ b_refcnt (bufs s b) = 0 /\
    (b_flags (bufs s b) = 0 \/
     (b_flags (bufs s b) = 2 /\
      b_data (bufs s b) = k_disk s (b_dev (bufs s b)) (b_blockno (bufs s b))) \/
     b_flags (bufs s b) = 6) }.

Lemma sess_content_in p s l H b :
  sess p s l H -> b ∈ H ->
  content s (b_dev (bufs s b)) (b_blockno (bufs s b)) = b_data (bufs s b).
Proof.
  intros Hs Hb. destruct (ss_in _ _ _ _ Hs b Hb) as (Hlt & _ & _ & Hd & Hf).
  eapply content_cached; [apply Hs|done|by split|]. destruct Hf as [-> | ->]; done.
Qed.

(** A buffer for the block: the one that caches it, or an unused one. *)
Definition room (s : kstate) (H : list nat) (dev bno : Z) : Prop :=
  exists b, (b < NBUF)%nat /\ b ∉ H /\
    (bid (bufs s b) = (dev, bno) \/
     has (b_flags (bufs s b)) B_DIRTY = false /\ b_refcnt (bufs s b) = 0).

Lemma list_alter_ext_at {A} `{Inhabited A} (f g : A -> A) (l : list A) i :
  f (l !!! i) = g (l !!! i) -> alter f i l = alter g i l.
Proof.
  intros E. apply list_eq. intros j. destruct (decide (i = j)) as [->|].
  - rewrite !list_lookup_alter_eq. rewrite list_lookup_total_alt in E.
    destruct (l !! j); simpl in *; congruence.
  - by rewrite !list_lookup_alter_ne.
Qed.

Lemma upd_buf_ext b f g s : f (bufs s b) = g (bufs s b) -> upd_buf b f s = upd_buf b g s.
Proof. intros E. unfold upd_buf. by rewrite (list_alter_ext_at f g). Qed.

(** The buffer [bread] returns. *)
Definition got (flags dev bno pid : Z) (data : list Z) (x : buf) : buf :=
  mk_buf flags dev bno (mk_sleeplock true pid) 1 (b_prev x) (b_next x) data.

Lemma upd_buf_wf_new b f s l dev bno :
  (forall y, b_next (f y) = b_next y) -> (forall y, b_prev (f y) = b_prev y) ->
  (b < NBUF)%nat -> bid (f (bufs s b)) = (dev, bno) ->
  (forall b', b' <> b -> ~ caches s dev bno b') ->
  bcache_wf (k_bcache s) l -> bcache_wf (k_bcache (upd_buf b f s)) l.
Proof.
  intros Hn Hp Hb Hid Hno Hwf. pose proof Hwf as [Hlen Hperm Hs Hu]. split; [|done| |].
  - unfold upd_buf. simpl. by rewrite length_alter.
  - by apply upd_buf_seg.
  - intros b1 b2 H1 H2. fold (bufs (upd_buf b f s) b1) (bufs (upd_buf b f s) b2).
    destruct (decide (b1 = b)) as [->|N1], (decide (b2 = b)) as [->|N2]; [done|..].
    + rewrite bufs_upd_eq, bufs_upd_ne by (done || lia).
      intros _ E1 E2. exfalso. apply (Hno b2); [done|]. split; [done|].
      rewrite <- Hid. unfold bid. congruence.
    + rewrite bufs_upd_eq, bufs_upd_ne by (done || lia).
      intros _ E1 E2. exfalso. apply (Hno b1); [done|]. split; [done|].
      rewrite <- Hid. unfold bid. congruence.
    + rewrite !bufs_upd_ne by done. by apply Hu.
Qed.

Lemma upd_buf_unlocked b f g h s :
  k_held s = [] ->
  upd_buf b f (set_k_held [] (upd_buf b g (set_k_held h s))) = upd_buf b (fun x => f (g x)) s.
Proof.
  intros Hh. unfold upd_buf. simpl. rewrite alter_alter. destruct s. simpl in *. by subst.
Qed.

Section Sessions.
Context {D : DiskDriver} (p : nat).

Lemma bget_hit s l H dev bno b :
  sess p s l H -> dev <> 0 -> caches s dev bno b -> b ∉ H ->
  bget dev bno s = Ret b (upd_buf b
    (fun x => set_b_lock (mk_sleeplock true (p_pid (procs s p))) (set_b_refcnt (b_refcnt x + 1) x)) s).
Proof.
  intros Hs Hd Hc Hb. destruct Hs as [Hcur Hh Hwf _ Hout].
  unfold bget. mstep (acquire_ok L_bcache s ltac:(rewrite Hh; set_solver)). mrun. kred.
  rewrite (bscan_next_find s l), (find_block_Some s l dev bno b) by done. mrun.
  erewrite bind_Ret; [|apply (release_ok _ []); [kred; by rewrite Hh|set_solver]].
  destruct Hc as [Hlt Hid]. destruct (Hout b Hlt Hb) as (Hl & _ & _).
  pose proof (wf_len _ _ Hwf) as Hlen.
  erewrite bind_Ret; [|apply (acquiresleep_free (SLBuf b) p);
    [exact Hcur|apply not_elem_of_nil|]].
  - unfold ret. f_equal. cbn [sl_set]. by apply upd_buf_unlocked.
  - cbn [sl_get]. unfold bufs, upd_buf in *. kred. cbn [bc_buf set_bc_buf].
    rewrite lookup_total_alter_eq by lia. exact Hl.
Qed.

Lemma bget_miss s l H dev bno b :
  sess p s l H -> (forall b, ~ caches s dev bno b) -> b ∉ H ->
  List.find (is_unused (k_bcache s)) (reverse l) = Some b ->
  bget dev bno s = Ret b (upd_buf b
    (fun x => set_b_lock (mk_sleeplock true (p_pid (procs s p))) (recycle dev bno x)) s).
Proof.
  intros Hs Hc Hb Hf. destruct Hs as [Hcur Hh Hwf _ Hout].
  assert (Hlt : (b < NBUF)%nat).
  { apply find_first in Hf as [_ Hl]. rewrite elem_of_reverse in Hl.
    by apply (wf_elem _ _ _ Hwf). }
  unfold bget. mstep (acquire_ok L_bcache s ltac:(rewrite Hh; set_solver)). mrun. kred.
  rewrite (bscan_next_find s l), (proj2 (find_block_None s l dev bno Hwf) Hc) by done.
  rewrite (bscan_prev_find s l), Hf by done. mrun.
  erewrite bind_Ret; [|apply (release_ok _ []); [kred; by rewrite Hh|set_solver]].
  destruct (Hout b Hlt Hb) as (Hl & _ & _).
  pose proof (wf_len _ _ Hwf) as Hlen.
  erewrite bind_Ret; [|apply (acquiresleep_free (SLBuf b) p);
    [exact Hcur|apply not_elem_of_nil|]].
  - unfold ret. f_equal. cbn [sl_set]. by apply upd_buf_unlocked.
  - cbn [sl_get]. unfold bufs, upd_buf in *. kred. cbn [bc_buf set_bc_buf].
    rewrite lookup_total_alter_eq by lia. exact Hl.
Qed.

Lemma caches_upd_ne b f s d n b' : b' <> b -> caches (upd_buf b f s) d n b' <-> caches s d n b'.
Proof. intros Hne. unfold caches. by rewrite bufs_upd_ne by done. Qed.

(** The states before and after differ in one buffer, which now caches
    [(dev, bno)] with the content the block had. *)
Section Got.
Context (s : kstate) (l H : list nat) (b : nat) (nf dev bno : Z).
Hypothesis Hs : sess p s l H.
Hypothesis Hb : (b < NBUF)%nat.
Hypothesis HbH : b ∉ H.
Hypothesis Hdev : dev <> 0.
Hypothesis Hold : bid (bufs s b) = (dev, bno) \/
  (forall b', ~ caches s dev bno b') /\ b_flags (bufs s b) <> 6.
Hypothesis Hnf : nf = 2 /\ ~ (bid (bufs s b) = (dev, bno) /\ b_flags (bufs s b) = 6) \/
  nf = 6 /\ bid (bufs s b) = (dev, bno) /\ b_flags (bufs s b) = 6.

Let s' : kstate := upd_buf b (got nf dev bno (p_pid (procs s p)) (content s dev bno)) s.

Lemma got_buf : bufs s' b =
  got nf dev bno (p_pid (procs s p)) (content s dev bno) (bufs s b).
Proof. apply bufs_upd_eq. rewrite (wf_len _ _ (ss_wf _ _ _ _ Hs)). done. Qed.

Lemma got_caches : caches s' dev bno b.
Proof. split; [done|]. by rewrite got_buf. Qed.

Lemma got_wf : bcache_wf (k_bcache s') l.
Proof.
  apply (upd_buf_wf_new b _ s l dev bno); try done; [|apply Hs].
  intros b' Hne Hc. destruct Hold as [Hid|[Hno _]]; [|by eapply Hno].
  apply Hne. eapply caches_unique; [apply Hs|done|done|by split].
Qed.

Lemma got_sess : sess p s' l (b :: H).
Proof.
  pose proof got_buf as E. destruct Hs as [Hcur Hh Hwf Hin Hout].
  split; [done|done|apply got_wf| |].
  - intros b' [->|Hb']%elem_of_cons.
    + rewrite E. simpl. repeat split; try done. destruct Hnf as [[? _]|[? _]]; auto.
    + assert (b' <> b) by set_solver. unfold s'. rewrite bufs_upd_ne by done.
      apply Hin. done.
  - intros b' Hlt Hb'. assert (b' <> b) by set_solver.
    unfold s'. rewrite bufs_upd_ne by done. apply Hout; set_solver.
Qed.

Lemma got_content d n : d <> 0 -> content s' d n = content s d n.
Proof.
  intros Hd. pose proof got_buf as E. pose proof got_wf as Hwf'.
  pose proof (ss_wf _ _ _ _ Hs) as Hwf.
  destruct (decide ((d, n) = (dev, bno))) as [Heq|Hneq].
  { injection Heq as -> ->. erewrite (content_cached s'); [|exact Hwf'|done|exact got_caches|].
    - by rewrite E.
    - rewrite E. destruct Hnf as [[-> _]|[-> _]]; done. }
  assert (Hbn : ~ caches s' d n b).
  { intros [_ Hid]. rewrite E in Hid. unfold bid in Hid. simpl in Hid. congruence. }
  assert (Hother : forall b', b' <> b -> bufs s' b' = bufs s b')
    by (intros; by apply bufs_upd_ne).
  assert (Hcold : forall b', caches s' d n b' -> caches s d n b' /\ b' <> b).
  { intros b' Hc. assert (b' <> b) by (intros ->; done). split; [|done].
    by apply (caches_upd_ne b _ s) in Hc. }
  destruct (caches_dec s d n) as [[b' Hc]|Hno].
  - destruct (decide (b' = b)) as [->|Hne].
    + destruct Hold as [Hid|[_ Hf6]]; [destruct Hc; congruence|].
      rewrite (content_disk s').
      * symmetry. apply (content_disk s). intros b'' Hc'' Hv.
        assert (b'' = b) as -> by (by eapply caches_unique).
        destruct (ss_out _ _ _ _ Hs b Hb HbH) as (_ & _ & [E0|[[E2 Hdat]|E6]]); [..|done].
        -- rewrite E0 in Hv. done.
        -- rewrite Hdat. destruct Hc as [_ Hid]. unfold bid in Hid. by simplify_eq.
      * intros b'' Hc'' _. apply Hcold in Hc'' as [Hc'' Hne]. exfalso. apply Hne.
        by eapply caches_unique.
    + assert (Hc' : caches s' d n b') by (apply caches_upd_ne; done).
      destruct (has (b_flags (bufs s b')) B_VALID) eqn:Hv.
      * rewrite (content_cached s l d n b'), (content_cached s' l d n b'), Hother
          by (rewrite ?Hother; done). done.
      * assert (Hnv : forall b'', caches s d n b'' -> b'' = b')
          by (intros b'' Hc''; by eapply caches_unique).
        rewrite !content_disk; [done|..].
        -- intros b'' Hc'' Hv''. apply Hnv in Hc'' as ->. congruence.
        -- intros b'' Hc'' Hv''. apply Hcold in Hc'' as [Hc'' ?]. apply Hnv in Hc'' as ->.
           rewrite Hother in Hv'' by done. congruence.
  - rewrite !content_disk; [done|..].
    + intros b' Hc. by apply Hno in Hc.
    + intros b' Hc. apply Hcold in Hc as [Hc _]. by apply Hno in Hc.
Qed.

Lemma got_dirty d n : is_dirty s' d n <-> is_dirty s d n.
Proof.
  pose proof got_buf as E. split; intros (b' & Hc & Hdt).
  - destruct (decide (b' = b)) as [->|Hne].
    + exists b. destruct Hc as [_ Hid]. rewrite E in Hid, Hdt. unfold bid in Hid.
      simpl in Hid, Hdt. injection Hid as <- <-.
      destruct Hnf as [[-> _]|(_ & Hid & ->)]; [done|]. by repeat split.
    + exists b'. unfold s' in *. rewrite bufs_upd_ne in Hdt by done.
      by apply caches_upd_ne in Hc.
  - destruct (decide (b' = b)) as [->|Hne].
    + exists b. assert (E6 : b_flags (bufs s b) = 6).
      { destruct (ss_out _ _ _ _ Hs b Hb HbH) as (_ & _ & [E0|[[E2 _]|E6]]); [..|done];
          [rewrite E0 in Hdt|rewrite E2 in Hdt]; done. }
      destruct Hold as [Hid|[_ ?]]; [|done]. destruct Hc as [_ Hid'].
      rewrite Hid in Hid'. injection Hid' as <- <-.
      split; [apply got_caches|]. rewrite E. simpl.
      destruct Hnf as [[_ Hx]|[-> _]]; [by destruct Hx|done].
    + exists b'. unfold s' in *. rewrite bufs_upd_ne by done.
      by rewrite caches_upd_ne.
Qed.
End Got.

(** A block no buffer has changes for is as on the disk. *)
Lemma content_clean s l H d n :
  sess p s l H -> d <> 0 -> (forall b, b ∈ H -> bid (bufs s b) <> (d, n)) ->
  ~ is_dirty s d n -> content s d n = k_disk s d n.
Proof.
  intros Hs Hd HH Hdt. apply content_disk. intros b [Hb Hid] Hv.
  assert (HbH : b ∉ H) by (intros Hi; by apply (HH b)).
  destruct (ss_out _ _ _ _ Hs b Hb HbH) as (_ & _ & [E0|[[E2 Ed]|E6]]).
  - by rewrite E0 in Hv.
  - rewrite Ed. unfold bid in Hid. by simplify_eq.
  - destruct Hdt. exists b. split; [by split|]. by rewrite E6.
Qed.

(** What reading a block gives: a locked buffer with its content. *)
Record bread_post (s : kstate) (l H : list nat) (dev bno : Z) (b : nat) (s' : kstate) : Prop := {
  br_state : exists nf, s' = upd_buf b (got nf dev bno (p_pid (procs s p)) (content s dev bno)) s;
  br_fresh : b ∉ H;
  br_sess : sess p s' l (b :: H);
  br_id : bid (bufs s' b) = (dev, bno);
  br_data : b_data (bufs s' b) = content s dev bno;
  br_other : forall b', b' <> b -> bufs s' b' = bufs s b';
  br_coh : b_flags (bufs s' b) = 6 \/ content s dev bno = k_disk s dev bno;
  br_content : forall d n, d <> 0 -> content s' d n = content s d n;
  br_dirty : forall d n, is_dirty s' d n <-> is_dirty s d n }.

Lemma got_post s l H b nf dev bno :
  sess p s l H -> (b < NBUF)%nat -> b ∉ H -> dev <> 0 ->
  bid (bufs s b) = (dev, bno) \/
    (forall b', ~ caches s dev bno b') /\ b_flags (bufs s b) <> 6 ->
  nf = 2 /\ ~ (bid (bufs s b) = (dev, bno) /\ b_flags (bufs s b) = 6) \/
    nf = 6 /\ bid (bufs s b) = (dev, bno) /\ b_flags (bufs s b) = 6 ->
  bread_post s l H dev bno b
    (upd_buf b (got nf dev bno (p_pid (procs s p)) (content s dev bno)) s).
Proof.
  intros Hs Hb HbH Hd Hold Hnf. split.
  - by eexists.
  - done.
  - by apply got_sess.
  - by erewrite got_buf.
  - by erewrite got_buf.
  - intros. by apply bufs_upd_ne.
  - erewrite got_buf by done. cbn [got b_flags]. destruct Hnf as [[-> Hn6]|[-> _]]; [right|by left].
    apply (content_clean s l H); [done|done| |].
    + intros b' Hb' Hid. destruct (ss_in _ _ _ _ Hs b' Hb') as (Hlt & _).
      destruct Hold as [Hid'|[Hno _]]; [|by apply (Hno b')].
      assert (b' = b) as -> by (eapply (caches_unique s l dev bno); [apply Hs|done|by split..]).
      done.
    + intros (b' & Hc & Hdt). destruct Hold as [Hid'|[Hno _]]; [|by apply (Hno b')].
      assert (b' = b) as -> by (eapply (caches_unique s l dev bno); [apply Hs|done|done|by split]).
      destruct (ss_out _ _ _ _ Hs b Hb HbH) as (_ & _ & [E0|[[E2 _]|E6]]);
        [by rewrite E0 in Hdt|by rewrite E2 in Hdt|by destruct Hn6].
  - intros. by eapply got_content.
  - intros. by eapply got_dirty.
Qed.

(** The transfer that fills a buffer with no valid data. *)
Lemma iderw_fill s b g dev bno d0 :
  k_cur s = Some p -> k_held s = [] -> (b < length (bc_buf (k_bcache s)))%nat ->
  g (bufs s b) = got 0 dev bno (p_pid (procs s p)) d0 (bufs s b) ->
  disk_serves dev bno (k_disksize s) = true ->
  iderw b (upd_buf b g s) =
  Ret tt (upd_buf b (got 2 dev bno (p_pid (procs s p)) (k_disk s dev bno)) s).
Proof.
  intros Hc Hh Hb Hg Hsv. set (s1 := upd_buf b g s).
  assert (E1 : bufs s1 b = got 0 dev bno (p_pid (procs s p)) d0 (bufs s b))
    by (unfold s1; by rewrite bufs_upd_eq).
  rewrite iderw_ok.
  - f_equal. unfold disk_sync. rewrite E1. cbn [got b_flags b_dev b_blockno].
    change (has 0 B_DIRTY) with false. cbn match. unfold s1.
    rewrite !upd_buf_upd_buf. apply upd_buf_ext. by rewrite Hg.
  - exists p. split; [done|]. cbn [sl_get]. by rewrite E1.
  - change (k_held s1) with (k_held s). rewrite Hh. apply not_elem_of_nil.
  - by rewrite E1.
  - by rewrite E1.
Qed.

Lemma is_unused_spec s b :
  is_unused (k_bcache s) b = true <->
  b_refcnt (bufs s b) = 0 /\ has (b_flags (bufs s b)) B_DIRTY = false.
Proof.
  unfold is_unused, has, bufs. rewrite andb_true_iff, Z.eqb_eq.
  by rewrite negb_false_iff.
Qed.

(** The block is in a buffer. *)
Lemma bread_hit s l H dev bno b :
  sess p s l H -> dev <> 0 -> disk_serves dev bno (k_disksize s) = true ->
  (forall b, b ∈ H -> bid (bufs s b) <> (dev, bno)) ->
  caches s dev bno b -> exists b s', bread dev bno s = Ret b s' /\ bread_post s l H dev bno b s'.
Proof.
  intros Hs Hd Hsv HH Hc. pose proof (ss_wf _ _ _ _ Hs) as Hwf.
  pose proof (wf_len _ _ Hwf) as Hlen. unfold bread.
  assert (HbH : b ∉ H) by (intros Hin; destruct Hc; by eapply HH).
  pose proof Hc as [Hb Hid].
  mstep (bget_hit s l H dev bno b Hs Hd Hc HbH). mrun.
  destruct (ss_out _ _ _ _ Hs b Hb HbH) as (_ & Hr & Hf).
  rewrite bufs_upd_eq by lia. cbn [b_flags set_b_lock set_b_refcnt].
  assert (Hgot : forall f d, b_flags (bufs s b) = f -> b_data (bufs s b) = d ->
    set_b_lock (mk_sleeplock true (p_pid (procs s p)))
      (set_b_refcnt (b_refcnt (bufs s b) + 1) (bufs s b))
    = got f dev bno (p_pid (procs s p)) d (bufs s b)).
  { intros f d <- <-. unfold got, set_b_lock, set_b_refcnt. rewrite Hr. simpl.
    unfold bid in Hid. simplify_eq. done. }
  destruct Hf as [E0|Hf].
  - rewrite E0. change (negb (has 0 B_VALID)) with true. cbn match.
    erewrite bind_Ret; [|eapply (iderw_fill s b _ dev bno)]; try apply Hs; try done;
      [|lia|by apply Hgot].
    eexists _, _. split; [reflexivity|].
    rewrite <- (content_disk s dev bno).
    + apply got_post; try done; [by left|]. left. split; [done|]. rewrite E0. lia.
    + intros b' Hc' Hv. assert (b' = b) as -> by (by eapply caches_unique).
      by rewrite E0 in Hv.
  - assert (Hv : has (b_flags (bufs s b)) B_VALID = true)
      by (destruct Hf as [[-> _]| ->]; done).
    rewrite Hv. cbn [negb]. mrun.
    eexists _, _. split; [reflexivity|].
    erewrite upd_buf_ext;
      [|apply (Hgot _ (content s dev bno) eq_refl); symmetry; by eapply content_cached].
    apply got_post; try done; [by left|]. destruct Hf as [[-> _]| ->]; [left|by right].
    split; [done|]. lia.
Qed.

(** The block takes the place of another. *)
Lemma bread_miss s l H dev bno :
  sess p s l H -> dev <> 0 -> disk_serves dev bno (k_disksize s) = true ->
  (forall b, b ∈ H -> bid (bufs s b) <> (dev, bno)) ->
  (forall b, ~ caches s dev bno b) -> room s H dev bno ->
  exists b s', bread dev bno s = Ret b s' /\ bread_post s l H dev bno b s'.
Proof.
  intros Hs Hd Hsv HH Hno Hroom. pose proof (ss_wf _ _ _ _ Hs) as Hwf.
  pose proof (wf_len _ _ Hwf) as Hlen. unfold bread.
  destruct Hroom as (b0 & Hb0 & Hb0H & [Hid|[Hdt Hr]]); [by destruct (Hno b0)|].
  destruct (List.find (is_unused (k_bcache s)) (reverse l)) as [b|] eqn:Ef.
  2:{ exfalso. eapply List.find_none in Ef;
        [|apply list_elem_of_In, elem_of_reverse, (wf_elem _ _ b0 Hwf), Hb0].
      by rewrite (proj2 (is_unused_spec s b0)) in Ef. }
  pose proof Ef as [Hu Hin]%find_first. apply is_unused_spec in Hu as [Hur Hud].
  rewrite elem_of_reverse, (wf_elem _ _ _ Hwf) in Hin.
  assert (HbH : b ∉ H).
  { intros Hi. destruct (ss_in _ _ _ _ Hs b Hi) as (_ & _ & ? & _). lia. }
  mstep (bget_miss s l H dev bno b Hs Hno HbH Ef). mrun.
  rewrite bufs_upd_eq by lia. cbn [b_flags set_b_lock recycle set_b_refcnt set_b_flags].
  change (negb (has 0 B_VALID)) with true. cbn match.
  erewrite bind_Ret; [|eapply (iderw_fill s b _ dev bno)]; try apply Hs; try done; [|lia].
  eexists _, _. split; [reflexivity|]. rewrite <- (content_disk s dev bno).
  - apply got_post; try done.
    + right. split; [done|]. intros E. by rewrite E in Hud.
    + left. split; [done|]. intros [Hid _]. by apply (Hno b).
  - intros b' Hc'. by apply Hno in Hc'.
Qed.

Theorem bread_sess s l H dev bno :
  sess p s l H -> dev <> 0 -> disk_serves dev bno (k_disksize s) = true ->
  (forall b, b ∈ H -> bid (bufs s b) <> (dev, bno)) -> room s H dev bno ->
  exists b s', bread dev bno s = Ret b s' /\ bread_post s l H dev bno b s'.
Proof.
  intros Hs Hd Hsv HH Hroom. destruct (caches_dec s dev bno) as [[b Hc]|Hno]; [by eapply bread_hit|by apply bread_miss].
Qed.

(** What the contents depend on. *)
Definition key (x : buf) : Z * Z * Z * list Z := (b_dev x, b_blockno x, b_flags x, b_data x).

Lemma key_eq x y : key x = key y ->
  bid x = bid y /\ b_flags x = b_flags y /\ b_data x = b_data y.
Proof.
  unfold key, bid. intros E. injection E as E1 E2 E3 E4. by rewrite E1, E2, E3, E4.
Qed.

Lemma content_ext s s' d n :
  (forall y, bid (bufs s' y) = bid (bufs s y) /\
    has (b_flags (bufs s' y)) B_VALID = has (b_flags (bufs s y)) B_VALID /\
    b_data (bufs s' y) = b_data (bufs s y)) -> k_disk s' d n = k_disk s d n ->
  content s' d n = content s d n.
Proof.
  intros Hk Hd. unfold content, is_block. fold (bufs s) (bufs s').
  assert (E : forall m, List.find (fun b => (b_dev (bufs s' b) =? d) &&
      (b_blockno (bufs s' b) =? n) && has (b_flags (bufs s' b)) B_VALID) m =
    List.find (fun b => (b_dev (bufs s b) =? d) &&
      (b_blockno (bufs s b) =? n) && has (b_flags (bufs s b)) B_VALID) m).
  { intros m. induction m as [|y m IH]; [done|]. cbn [List.find].
    destruct (Hk y) as (Hid & -> & _). unfold bid in Hid.
    injection Hid as -> ->. by rewrite IH. }
  unfold bufs in *. rewrite E. destruct (List.find _ _) as [b|]; [|done].
  by destruct (Hk b) as (_ & _ & ->).
Qed.

Lemma content_key s s' d n :
  (forall y, key (bufs s' y) = key (bufs s y)) -> k_disk s' d n = k_disk s d n ->
  content s' d n = content s d n.
Proof.
  intros Hk. apply content_ext. intros y.
  by destruct (key_eq _ _ (Hk y)) as (-> & -> & ->).
Qed.

Lemma dirty_key s s' d n :
  (forall y, key (bufs s' y) = key (bufs s y)) -> is_dirty s' d n <-> is_dirty s d n.
Proof.
  intros Hk. unfold is_dirty, caches.
  split; intros (b & [Hb Hid] & Hf); exists b; destruct (key_eq _ _ (Hk b)) as (E1 & E2 & _);
    [rewrite E1 in Hid; rewrite E2 in Hf|rewrite <- E1 in Hid; rewrite <- E2 in Hf]; done.
Qed.

(** A held buffer's data may be changed at will. *)
Definition kept (f : buf -> buf) : Prop :=
  forall x, b_next (f x) = b_next x /\ b_prev (f x) = b_prev x /\ bid (f x) = bid x /\
    b_lock (f x) = b_lock x /\ b_refcnt (f x) = b_refcnt x.

Lemma sess_upd_held s l H b f :
  sess p s l H -> b ∈ H -> kept f ->
  b_flags (f (bufs s b)) = 2 \/ b_flags (f (bufs s b)) = 6 ->
  sess p (upd_buf b f s) l H.
Proof.
  intros [Hc Hh Hwf Hin Hout] Hb Hk Hf. pose proof (wf_len _ _ Hwf) as Hlen.
  split; [done|done| | |].
  - apply upd_buf_wf; [intros y; by destruct (Hk y) as (?&?&?&?)..|done].
  - intros b' Hb'. destruct (Hin b' Hb') as (Hlt & Hlk & Hr & Hd & Hfl).
    destruct (decide (b' = b)) as [->|Hne].
    + rewrite bufs_upd_eq by lia. destruct (Hk (bufs s b)) as (_ & _ & Hid & -> & ->).
      unfold bid in Hid. injection Hid as -> _. done.
    + by rewrite bufs_upd_ne by done.
  - intros b' Hlt Hb'. rewrite bufs_upd_ne by (intros ->; done). by apply Hout.
Qed.

Lemma content_set_data s l H b dat d n :
  sess p s l H -> b ∈ H -> d <> 0 ->
  content (upd_buf b (set_b_data dat) s) d n =
  if decide (bid (bufs s b) = (d, n)) then dat else content s d n.
Proof.
  intros Hs Hb Hd. destruct (ss_in _ _ _ _ Hs b Hb) as (Hlt & _ & _ & Hdv & Hf).
  pose proof (ss_wf _ _ _ _ Hs) as Hwf. pose proof (wf_len _ _ Hwf) as Hlen.
  assert (Hs' : sess p (upd_buf b (set_b_data dat) s) l H)
    by (apply sess_upd_held; done).
  assert (E : bufs (upd_buf b (set_b_data dat) s) b = set_b_data dat (bufs s b))
    by (apply bufs_upd_eq; lia).
  case_decide as Hid.
  - pose proof (sess_content_in _ _ _ _ b Hs' Hb) as Hc. rewrite E in Hc.
    unfold bid in Hid. simpl in Hc. by simplify_eq.
  - destruct (caches_dec s d n) as [[b' Hc]|Hno].
    + assert (Hne : b' <> b) by (intros ->; destruct Hc; done).
      assert (Hc' : caches (upd_buf b (set_b_data dat) s) d n b')
        by (by apply caches_upd_ne).
      destruct (has (b_flags (bufs s b')) B_VALID) eqn:Hv.
      * rewrite (content_cached s l d n b'), (content_cached _ l d n b'), bufs_upd_ne
          by (rewrite ?bufs_upd_ne by done; try done; apply Hs'). done.
      * rewrite !content_disk; [done|..].
        -- intros b'' Hc'' Hv''.
           assert (b'' = b') as -> by (exact (caches_unique s l d n _ _ Hwf Hd Hc'' Hc)). congruence.
        -- intros b'' Hc'' Hv''.
           assert (b'' = b') as ->
             by (exact (caches_unique _ l d n _ _ (ss_wf _ _ _ _ Hs') Hd Hc'' Hc')).
           rewrite bufs_upd_ne in Hv'' by done. congruence.
    + rewrite !content_disk; [done|..].
      * intros b' Hc. by apply Hno in Hc.
      * intros b' Hc. destruct (decide (b' = b)) as [->|Hne].
        -- destruct Hc as [_ Hc]. rewrite E in Hc. done.
        -- apply caches_upd_ne in Hc; [|done]. by apply Hno in Hc.
Qed.

Lemma dirty_upd_held s b f d n :
  kept f -> (b < length (bc_buf (k_bcache s)))%nat ->
  has (b_flags (f (bufs s b))) B_DIRTY = has (b_flags (bufs s b)) B_DIRTY ->
  is_dirty (upd_buf b f s) d n <-> is_dirty s d n.
Proof.
  intros Hk Hb Hf. unfold is_dirty, caches.
  assert (E : forall b', bid (bufs (upd_buf b f s) b') = bid (bufs s b') /\
    has (b_flags (bufs (upd_buf b f s) b')) B_DIRTY = has (b_flags (bufs s b')) B_DIRTY).
  { intros b'. destruct (decide (b' = b)) as [->|].
    - rewrite bufs_upd_eq by done. by destruct (Hk (bufs s b)) as (_ & _ & -> & _).
    - by rewrite bufs_upd_ne by done. }
  split; intros (b' & Hc & Hd); exists b'; destruct (E b') as [E1 E2];
    rewrite ?E1, ?E2 in *; done.
Qed.

(** ** [bwrite] *)

Lemma k_disk_write dev bno dat s d n :
  k_disk (disk_write dev bno dat s) d n =
  if decide ((dev, bno) = (d, n)) then dat else k_disk s d n.
Proof.
  unfold disk_write. kred. unfold upd.
  destruct (Z.eqb_spec d dev) as [->|], (Z.eqb_spec n bno) as [->|]; case_decide; congruence.
Qed.

(** The state [bwrite] leaves. *)
Definition written (b : nat) (s : kstate) : kstate :=
  disk_write (b_dev (bufs s b)) (b_blockno (bufs s b)) (b_data (bufs s b))
    (upd_buf b (set_b_flags 2) s).

Lemma bwrite_eq s l H b :
  sess p s l H -> b ∈ H ->
  disk_serves (b_dev (bufs s b)) (b_blockno (bufs s b)) (k_disksize s) = true ->
  bwrite b s = Ret tt (written b s).
Proof.
  intros Hs Hb Hsv. destruct (ss_in _ _ _ _ Hs b Hb) as (Hlt & Hlk & _ & _ & Hf).
  pose proof (wf_len _ _ (ss_wf _ _ _ _ Hs)) as Hlen.
  assert (Hnl : forall x, x ∉ k_held s)
    by (intros; rewrite (ss_held _ _ _ _ Hs); apply not_elem_of_nil).
  assert (Hm : sl_mine (SLBuf b) s) by (exists p; split; [apply Hs|done]).
  unfold bwrite. mstep (holdingsleep_mine (SLBuf b) s (Hnl _) Hm). mrun.
  set (f := fun x => set_b_flags _ x). set (s1 := upd_buf b f s).
  assert (E : bufs s1 b = set_b_flags 6 (bufs s b)).
  { unfold s1. rewrite bufs_upd_eq by lia. unfold f. destruct Hf as [-> | ->]; done. }
  rewrite iderw_ok.
  - f_equal. unfold disk_sync. rewrite E. cbn [b_flags set_b_flags b_dev b_blockno b_data].
    change (has 6 B_DIRTY) with true. cbn match. unfold written, disk_write, s1.
    rewrite (upd_buf_upd_buf b _ f).
    change (set_k_wlog ?w (set_k_disk ?d (upd_buf b ?g s)))
      with (upd_buf b g (set_k_wlog w (set_k_disk d s))).
    rewrite upd_buf_upd_buf. unfold f, upd_buf. kred. do 2 f_equal.
    apply list_alter_ext_at. fold (bufs s b). destruct Hf as [E2|E6];
      [rewrite E2|rewrite E6]; done.
  - exists p. split; [apply Hs|]. cbn [sl_get]. by rewrite E.
  - apply Hnl.
  - by rewrite E.
  - by rewrite E.
Qed.

Lemma sess_written s l H b :
  sess p s l H -> b ∈ H -> sess p (written b s) l H.
Proof.
  intros Hs Hb. destruct (ss_in _ _ _ _ Hs b Hb) as (Hlt & Hlk & _ & Hd & Hf).
  assert (Hs1 : sess p (upd_buf b (set_b_flags 2) s) l H)
    by (apply sess_upd_held; auto; by repeat split).
  destruct Hs1 as [Hc Hh Hwf Hin Hout]. split; [done|done|done|done|].
  intros b' Hlt' Hb'. destruct (Hout b' Hlt' Hb') as (H1 & H2 & H3).
  split; [done|]. split; [done|]. destruct H3 as [?|[[E1 E2]|?]]; [by left| |by right; right].
  right. left. split; [done|]. unfold written. rewrite k_disk_write.
  rewrite decide_False; [done|]. intros E.
  assert (Hne : b' <> b) by (intros ->; done). apply Hne.
  change (bufs (disk_write _ _ _ ?x)) with (bufs x) in E.
  rewrite bufs_upd_ne in E by done. injection E as E3 E4.
  apply (wf_unique _ _ (ss_wf _ _ _ _ Hs)); unfold bufs in *; congruence.
Qed.

Lemma content_written s l H b d n :
  sess p s l H -> b ∈ H -> d <> 0 -> content (written b s) d n = content s d n.
Proof.
  intros Hs Hb Hd. destruct (ss_in _ _ _ _ Hs b Hb) as (Hlt & _ & _ & Hdv & Hf).
  pose proof (wf_len _ _ (ss_wf _ _ _ _ Hs)) as Hlen.
  assert (E : bufs (written b s) b = set_b_flags 2 (bufs s b))
    by (apply (bufs_upd_eq b (set_b_flags 2) s); lia).
  destruct (decide (bid (bufs s b) = (d, n))) as [Hid|Hid].
  - pose proof (sess_content_in _ _ _ _ b Hs Hb) as Hc.
    pose proof (sess_content_in _ _ _ _ b (sess_written s l H b Hs Hb) Hb) as Hc'.
    rewrite E in Hc'. simpl in Hc'. unfold bid in Hid.
    injection Hid as E1 E2. rewrite E1, E2 in Hc, Hc'. congruence.
  - assert (Hdk : k_disk (written b s) d n = k_disk s d n).
    { unfold written. by rewrite k_disk_write, decide_False. }
    unfold content. rewrite Hdk.
    assert (Ef : forall m, List.find (fun b0 => is_block (k_bcache (written b s)) d n b0 &&
        has (b_flags (bufs (written b s) b0)) B_VALID) m =
      List.find (fun b0 => is_block (k_bcache s) d n b0 &&
        has (b_flags (bufs s b0)) B_VALID) m).
    { intros m. induction m as [|y m IH]; [done|]. cbn [List.find]. rewrite IH.
      unfold is_block. fold (bufs (written b s) y) (bufs s y).
      destruct (decide (y = b)) as [->|].
      - rewrite E. destruct Hf as [-> | ->]; done.
      - change (bufs (written b s)) with (bufs (upd_buf b (set_b_flags 2) s)).
        by rewrite bufs_upd_ne by done. }
    rewrite Ef. destruct (List.find _ _) as [y|] eqn:Ey; [|done].
    destruct (decide (y = b)) as [->|]; [by rewrite E|].
    change (bufs (written b s)) with (bufs (upd_buf b (set_b_flags 2) s)).
    by rewrite bufs_upd_ne by done.
Qed.

Lemma dirty_written s l H b d n :
  sess p s l H -> b ∈ H ->
  is_dirty (written b s) d n <-> is_dirty s d n /\ bid (bufs s b) <> (d, n).
Proof.
  intros Hs Hb. destruct (ss_in _ _ _ _ Hs b Hb) as (Hlt & _ & _ & Hdv & Hf).
  pose proof (wf_len _ _ (ss_wf _ _ _ _ Hs)) as Hlen.
  assert (E : bufs (written b s) b = set_b_flags 2 (bufs s b))
    by (apply (bufs_upd_eq b (set_b_flags 2) s); lia).
  assert (En : forall y, y <> b -> bufs (written b s) y = bufs s y)
    by (intros; by apply (bufs_upd_ne b)).
  split.
  - intros (b' & [Hb' Hid] & Hdt). assert (Hne : b' <> b).
    { intros ->. by rewrite E in Hdt. }
    rewrite En in Hid, Hdt by done. split; [by exists b'|]. intros Hid'. apply Hne.
    apply (caches_unique s l d n); [apply Hs| |by split..].
    unfold bid in *. by simplify_eq.
  - intros [(b' & [Hb' Hid] & Hdt) Hne]. exists b'. assert (b' <> b) by (intros ->; done).
    unfold caches. by rewrite En.
Qed.

(** ** [brelse] *)

(** The state [brelse] leaves when the caller was the last user. *)
Definition released (b : nat) (s : kstate) : kstate :=
  set_k_bcache (to_front b (k_bcache
      (upd_buf b (fun x => set_b_refcnt 0 (set_b_lock (mk_sleeplock false 0) x)) s)))
    (set_k_proc (map (wake_one (ChanBufLock b)) (k_proc s)) s).

Lemma brelse_eq s l H b :
  sess p s l H -> b ∈ H -> brelse b s = Ret tt (released b s).
Proof.
  intros Hs Hb. destruct (ss_in _ _ _ _ Hs b Hb) as (Hlt & Hlk & Hr & _ & _).
  pose proof (wf_len _ _ (ss_wf _ _ _ _ Hs)) as Hlen.
  pose proof (ss_held _ _ _ _ Hs) as Hh.
  assert (Hnl : forall x, x ∉ k_held s) by (intros; rewrite Hh; apply not_elem_of_nil).
  assert (Hm : sl_mine (SLBuf b) s) by (exists p; split; [apply Hs|done]).
  unfold brelse. mstep (holdingsleep_mine (SLBuf b) s (Hnl _) Hm). mrun.
  mstep (releasesleep_ok (SLBuf b) s (Hnl _) (Hnl _)). cbn [sl_set sl_chan].
  set (s1 := set_k_proc _ _). mstep (acquire_ok L_bcache s1 (Hnl _)). mrun.
  rewrite bufs_upd_eq by (unfold s1, upd_buf; simpl; rewrite length_alter; lia).
  change (bufs (set_k_held _ s1)) with (bufs (upd_buf b (set_b_lock (mk_sleeplock false 0)) s)).
  rewrite bufs_upd_eq by lia. cbn [b_refcnt set_b_refcnt set_b_lock]. rewrite Hr.
  change (1 - 1 =? 0) with true. cbn match. mrun.
  rewrite (release_ok _ []); [|kred; unfold s1; simpl; by rewrite Hh|apply not_elem_of_nil].
  f_equal. unfold released, s1, upd_buf. kred. cbn [bc_buf set_bc_buf]. rewrite alter_alter.
  erewrite (list_alter_ext_at _ (fun x => set_b_refcnt 0 (set_b_lock _ x)));
    [|cbn [b_refcnt set_b_lock]; fold (bufs s b); rewrite Hr; reflexivity].
  destruct s. simpl in *. by subst.
Qed.

Lemma body_released s b y :
  (b < length (bc_buf (k_bcache s)))%nat ->
  body (bufs (released b s) y) =
  if decide (y = b) then body (set_b_refcnt 0 (set_b_lock (mk_sleeplock false 0) (bufs s b)))
  else body (bufs s y).
Proof.
  intros Hb. unfold released. change (bufs (set_k_bcache ?c _) y) with (bc_buf c !!! y).
  rewrite body_to_front. fold (bufs (upd_buf b
    (fun x => set_b_refcnt 0 (set_b_lock (mk_sleeplock false 0) x)) s) y).
  case_decide as E; [subst; by rewrite bufs_upd_eq|by rewrite bufs_upd_ne].
Qed.

Lemma key_released s b y :
  (b < length (bc_buf (k_bcache s)))%nat -> key (bufs (released b s) y) = key (bufs s y).
Proof.
  intros Hb. pose proof (body_released s b y Hb) as E.
  assert (Hkey : forall x z, body x = body z -> key x = key z).
  { intros x z Ex. apply body_eq in Ex as (E1 & E2 & E3 & _ & _ & E6). unfold key. congruence. }
  case_decide; [subst|by apply Hkey]. by rewrite (Hkey _ _ E).
Qed.

Lemma pid_wakeup ch t (q : nat) : p_pid (map (wake_one ch) t !!! q) = p_pid ((t : list proc) !!! q).
Proof.
  rewrite !list_lookup_total_alt, list_lookup_fmap.
  destruct (t !! q) as [x|]; [|done]. simpl. unfold wake_one. by case_decide.
Qed.

Lemma sess_released_front s l H H' b :
  sess p s l H -> b ∈ H -> (forall x, x ∈ H' <-> x ∈ H /\ x <> b) ->
  b_flags (bufs s b) = 6 \/
    b_data (bufs s b) = k_disk s (b_dev (bufs s b)) (b_blockno (bufs s b)) ->
  exists l1 l2, l = l1 ++ b :: l2 /\ sess p (released b s) (b :: l1 ++ l2) H'.
Proof.
  intros [Hc Hh Hwf Hin Hout] Hb HH' Hcoh.
  destruct (Hin b Hb) as (Hlt & Hlk & Hr & Hd & Hf).
  pose proof (wf_len _ _ Hwf) as Hlen. assert (Hlt' : (b < length (bc_buf (k_bcache s)))%nat) by lia.
  destruct (to_front_wf b (k_bcache (upd_buf b
    (fun x => set_b_refcnt 0 (set_b_lock (mk_sleeplock false 0) x)) s)) l)
    as (l1 & l2 & El & Hwf'); [by apply upd_buf_wf|done|].
  exists l1, l2. split; [done|]. split; [done|done|exact Hwf'| |].
  - intros x Hx. apply HH' in Hx as [Hx Hne]. destruct (Hin x Hx) as (X1 & X2 & X3 & X4 & X5).
    pose proof (body_released s b x Hlt') as E. rewrite decide_False in E by done.
    apply body_eq in E as (-> & -> & _ & -> & -> & _). unfold procs. simpl.
    by rewrite pid_wakeup.
  - intros x Hx HxH. pose proof (body_released s b x Hlt') as E.
    change (k_disk (released b s)) with (k_disk s). case_decide as Eb.
    + apply body_eq in E as (-> & -> & -> & -> & -> & ->).
      cbn [b_lock b_refcnt b_flags b_data b_dev b_blockno set_b_refcnt set_b_lock sl_locked].
      split; [done|]. split; [done|]. destruct Hf as [E2|E6]; [|auto].
      rewrite E2 in *. destruct Hcoh as [?|?]; [lia|]. right. by left.
    + apply body_eq in E as (-> & -> & -> & -> & -> & ->). apply Hout; [done|].
      intros Hi. apply HxH, HH'. by split.
Qed.

Lemma sess_released s l H H' b :
  sess p s l H -> b ∈ H -> (forall x, x ∈ H' <-> x ∈ H /\ x <> b) ->
  b_flags (bufs s b) = 6 \/
    b_data (bufs s b) = k_disk s (b_dev (bufs s b)) (b_blockno (bufs s b)) ->
  exists l', sess p (released b s) l' H'.
Proof.
  intros Hs Hb HH Hcoh.
  destruct (sess_released_front s l H H' b Hs Hb HH Hcoh) as (l1 & l2 & _ & ?). eauto.
Qed.
End Sessions.

(** ** Properties *)

Section Init.

(** One round of [binit]'s loop puts the buffer in front. *)
Lemma binit_one_seg b s l :
  length (bc_buf (k_bcache s)) = NBUF -> (b < NBUF)%nat ->
  (forall x, x ∈ l -> (x < NBUF)%nat) -> NoDup l -> b ∉ l ->
  seg (bnext (k_bcache s)) (bprev (k_bcache s)) NBUF l NBUF ->
  exists c, binit_one b s = Ret tt (set_k_bcache c s) /\ length (bc_buf c) = NBUF /\
    seg (bnext c) (bprev c) NBUF (b :: l) NBUF /\
    (forall y, bid (bc_buf c !!! y) = bid (bc_buf (k_bcache s) !!! y)).
Proof.
  intros Hlen Hb Hlt Hnd Hbl Hs. unfold binit_one, initsleeplock. mrun.
  set (c1 := blink_self b (k_bcache s)).
  assert (Hl1 : length (bc_buf c1) = NBUF)
    by (unfold c1, blink_self; auto using length_set_bnext, length_set_bprev).
  set (c2 := set_bc_buf (alter (set_b_lock (mk_sleeplock false 0)) b (bc_buf c1)) c1).
  exists (blink_head b c2). split; [done|].
  assert (Hl2 : length (bc_buf c2) = NBUF) by (unfold c2; simpl; by rewrite length_alter).
  split; [unfold blink_head; simpl; by apply length_set_bprev|].
  assert (Hn : forall y, bnext c2 y = bnext c1 y).
  { intros y. unfold bnext, c2. case_decide; [done|]. simpl. by apply lookup_alter_field. }
  assert (Hp : forall y, bprev c2 y = bprev c1 y).
  { intros y. unfold bprev, c2. case_decide; [done|]. simpl. by apply lookup_alter_field. }
  assert (Hle : (bc_head_next c1 <= NBUF)%nat).
  { unfold c1, blink_self. rewrite bc_head_next_bnext, bnext_set_bprev, bnext_set by lia.
    rewrite fupd_ne by lia. apply seg_first in Hs.
    apply elem_of_app in Hs as [Hx|Hx]; [apply Hlt in Hx; lia|].
    apply list_elem_of_singleton in Hx. rewrite Hx. done. }
  split.
  - eapply seg_ext; [| |by apply (push_seg b (k_bcache s) l)]; intros y _; fold c1; unfold blink_head;
      rewrite (set_bc_head_next_bnext b (set_bprev (bc_head_next c2) b c2)),
        (set_bc_head_next_bnext b (set_bprev (bc_head_next c1) b c1)).
    + rewrite !bnext_set by (auto using length_set_bprev).
      unfold fupd. case_decide; [done|]. rewrite !bnext_set_bprev. apply Hn.
    + rewrite !bprev_set_bnext, !bprev_set by done.
      change (bc_head_next c2) with (bc_head_next c1). unfold fupd. by rewrite Hp.
  - intros y.
    assert (E : body (bc_buf (blink_head b c2) !!! y) = body (bc_buf c2 !!! y))
      by apply body_set_bprev.
    assert (E1 : body (bc_buf c1 !!! y) = body (bc_buf (k_bcache s) !!! y)).
    { unfold c1, blink_self. by rewrite body_set_bprev, body_set_bnext. }
    apply body_eq in E as (_ & Ed & En & _), E1 as (_ & Ed1 & En1 & _).
    unfold bid. rewrite Ed, En, <- Ed1, <- En1. unfold c2. simpl.
    by rewrite !lookup_alter_field.
Qed.

Lemma binit_loop n : forall k s,
  (k + n <= NBUF)%nat -> length (bc_buf (k_bcache s)) = NBUF ->
  seg (bnext (k_bcache s)) (bprev (k_bcache s)) NBUF (reverse (seq 0 k)) NBUF ->
  exists c, mfor binit_one (seq k n) s = Ret tt (set_k_bcache c s) /\
    length (bc_buf c) = NBUF /\
    seg (bnext c) (bprev c) NBUF (reverse (seq 0 (k + n))) NBUF /\
    (forall y, bid (bc_buf c !!! y) = bid (bc_buf (k_bcache s) !!! y)).
Proof.
  induction n as [|n IH]; intros k s Hk Hlen Hs.
  - exists (k_bcache s). rewrite Nat.add_0_r. repeat split; try done. by destruct s.
  - destruct (binit_one_seg k s (reverse (seq 0 k))) as (c & E & Hl & Hsg & Hid); try done.
    + lia.
    + intros x. rewrite elem_of_reverse, elem_of_seq. lia.
    + rewrite reverse_Permutation. apply NoDup_seq.
    + rewrite elem_of_reverse, elem_of_seq. lia.
    + cbn [seq mfor]. mstep E.
      destruct (IH (S k) (set_k_bcache c s)) as (c' & E' & Hl' & Hsg' & Hid'); [lia|done| |].
      { rewrite seq_S, reverse_app. done. }
      exists c'. rewrite E'. split; [done|]. split; [done|].
      rewrite Nat.add_succ_r, <- Nat.add_succ_l. split; [done|].
      intros y. rewrite Hid'. apply Hid.
Qed.

(** [binit] returns and links the buffers, which the kernel finds zeroed,
    into a well-formed LRU list that holds each of them exactly once. *)
Theorem binit_wf s :
  length (bc_buf (k_bcache s)) = NBUF ->
  (forall b, (b < NBUF)%nat -> bid (bc_buf (k_bcache s) !!! b) = (0, 0)) ->
  exists c, binit s = Ret tt (set_k_bcache c s) /\ bcache_wf c (reverse (seq 0 NBUF)).
Proof.
  intros Hlen Hz. unfold binit. mrun.
  destruct (binit_loop NBUF 0 (set_k_bcache (set_bc_head_next NBUF
    (set_bc_head_prev NBUF (k_bcache s))) s)) as (c & E & Hl & Hs & Hid); [done|done| |].
  { simpl. unfold bnext, bprev. by rewrite decide_True. }
  exists c. rewrite E. split; [done|]. split; [done|by rewrite reverse_Permutation|done|].
  intros b1 b2 H1 H2 Hd. exfalso. apply Hd.
  specialize (Hid b1). simpl in Hid. rewrite (Hz b1 H1) in Hid.
  unfold bid in Hid. by simplify_eq.
Qed.

End Init.

(** A property of the 30 buffers, checked one by one. *)
Lemma each_buf (P : nat -> Prop) :
  Forall P (seq 0 NBUF) -> forall b, (b < NBUF)%nat -> P b.
Proof. intros H b Hb. rewrite Forall_forall in H. apply H, elem_of_seq. lia. Qed.

Lemma binit_wf_witness :
  let s := set_k_bcache (mk_bcache (replicate 30 inhabitant) 0 0) (demo_kernel [] []) in
  exists c, binit s = Ret tt (set_k_bcache c s) /\ bcache_wf c (reverse (seq 0 NBUF)).
Proof.
  intros s. apply (binit_wf s); [reflexivity|].
  apply each_buf. repeat (constructor; [reflexivity|]). constructor.
Defined.

Section Properties.
Context {D : DiskDriver}.

(** C6: [bread] of a block that exists returns a buffer locked by the caller
    that holds the block's current content (the cached copy if there is one,
    the disk's otherwise), as long as a buffer is free for it; no content and
    no other buffer changes, so the cache is transparent. *)
Theorem bread_content p s l H dev bno :
  sess p s l H -> dev <> 0 -> disk_serves dev bno (k_disksize s) = true ->
  (forall b, b ∈ H -> bid (bufs s b) <> (dev, bno)) -> room s H dev bno ->
  exists b s', bread dev bno s = Ret b s' /\ sess p s' l (b :: H) /\
    bid (bufs s' b) = (dev, bno) /\ b_data (bufs s' b) = content s dev bno /\
    (forall b', b' <> b -> bufs s' b' = bufs s b') /\
    (forall d n, d <> 0 -> content s' d n = content s d n) /\
    k_disk s' = k_disk s.
Proof.
  intros Hs Hd Hsv HH Hr.
  destruct (bread_sess p s l H dev bno) as (b & s' & E & [[nf ->] P1 P2 P3 P4 P5 P6 P7 P8]);
    try done.
  exists b. eexists. split; [exact E|]. split; [done|]. by repeat split.
Qed.

Lemma find_reverse_split (P : nat -> bool) m b :
  List.find P m = Some b ->
  exists l1 l2, reverse m = l1 ++ b :: l2 /\ Forall (fun x => P x = false) l2.
Proof.
  induction m as [|x m IH]; [done|]. simpl. destruct (P x) eqn:E; intros Hf.
  - injection Hf as ->. exists (reverse m), []. by rewrite reverse_cons.
  - destruct (IH Hf) as (l1 & l2 & Em & Hall). exists l1, (l2 ++ [x]).
    split; [by rewrite reverse_cons, Em, <- app_assoc|].
    apply Forall_app. by split; [|constructor].
Qed.

(** On a miss the recycled buffer is the least recently used one that is
    neither referenced nor pinned by the log. *)
Theorem bget_recycles_lru p s l H dev bno :
  sess p s l H -> (forall b, ~ caches s dev bno b) ->
  (exists b, (b < NBUF)%nat /\ is_unused (k_bcache s) b = true) ->
  exists b l1 l2 s', bget dev bno s = Ret b s' /\ l = l1 ++ b :: l2 /\
    is_unused (k_bcache s) b = true /\
    Forall (fun x => is_unused (k_bcache s) x = false) l2.
Proof.
  intros Hs Hno (b0 & Hb0 & Hu0). pose proof (ss_wf _ _ _ _ Hs) as Hwf.
  destruct (List.find (is_unused (k_bcache s)) (reverse l)) as [b|] eqn:Ef.
  2:{ eapply List.find_none in Ef;
        [|apply list_elem_of_In, elem_of_reverse, (wf_elem _ _ b0 Hwf), Hb0]. congruence. }
  assert (Hsplit : exists l1 l2, l = l1 ++ b :: l2 /\
    Forall (fun x => is_unused (k_bcache s) x = false) l2).
  { apply find_reverse_split in Ef as (l1 & l2 & El & Hall).
    rewrite reverse_involutive in El. by exists l1, l2. }
  destruct Hsplit as (l1 & l2 & El & Hall).
  pose proof Ef as [Hu Hin]%find_first.
  assert (HbH : b ∉ H).
  { intros Hi. destruct (ss_in _ _ _ _ Hs b Hi) as (_ & _ & ? & _).
    apply is_unused_spec in Hu as [? _]. lia. }
  exists b, l1, l2. eexists. split; [by eapply bget_miss|done].
Qed.

(** C7: [brelse] by the holder of a buffer that is dirty or agrees with the
    disk unlocks it, moves it to the front of the LRU list and changes no
    content. *)
Theorem brelse_front p s l H H' b :
  sess p s l H -> b ∈ H -> (forall x, x ∈ H' <-> x ∈ H /\ x <> b) ->
  b_flags (bufs s b) = 6 \/
    b_data (bufs s b) = k_disk s (b_dev (bufs s b)) (b_blockno (bufs s b)) ->
  exists l1 l2 s', brelse b s = Ret tt s' /\ l = l1 ++ b :: l2 /\
    sess p s' (b :: l1 ++ l2) H' /\
    (forall d n, content s' d n = content s d n) /\
    (forall d n, is_dirty s' d n <-> is_dirty s d n).
Proof.
  intros Hs Hb HH Hcoh.
  destruct (sess_released_front p s l H H' b Hs Hb HH Hcoh) as (l1 & l2 & El & Hs').
  assert (Hk : forall y, key (bufs (released b s) y) = key (bufs s y)).
  { intros y. apply key_released. rewrite (wf_len _ _ (ss_wf _ _ _ _ Hs)).
    by destruct (ss_in _ _ _ _ Hs b Hb). }
  exists l1, l2, (released b s). split; [by apply (brelse_eq p s l H)|].
  split; [done|]. split; [done|]. split; intros d n; [by apply content_key|by apply dirty_key].
Qed.
End Properties.

(** ** Examples *)

(** One dirty buffer, for block 40, in a cache that is empty otherwise. *)
Definition demo_commit : kstate :=
  upd_buf 0 (fun b => set_b_flags 6 (set_b_dev 1 (set_b_blockno 40
      (set_b_data (replicate 512 7) b))))
    (set_k_log (mk_log 2 30 0 true 1 1 (40 :: replicate 29 0)) (demo_kernel [] [])).

Lemma demo_commit_sess : sess 0 demo_commit (reverse (seq 0 NBUF)) [].
Proof.
  split; [done|done| |intros b Hb; set_solver|].
  - split; [done|by rewrite reverse_Permutation| |].
    + vm_compute. repeat split.
    + intros b1 b2 H1 H2.
      assert (Hz : forall b, (b < NBUF)%nat -> b = 0%nat \/ b_dev (bc_buf (k_bcache demo_commit) !!! b) = 0).
      { apply each_buf. repeat (constructor; [vm_compute; auto|]). constructor. }
      intros N1 E1 _. destruct (Hz b1 H1) as [->|?]; [|done].
      destruct (Hz b2 H2) as [->|?]; [done|]. congruence.
  - intros b Hb _. revert b Hb. apply each_buf.
    repeat (constructor; [vm_compute; auto|]). constructor.
Qed.

(** Block 40 read and held by the current process, in a transaction. *)
Definition demo_held : kstate :=
  upd_buf 0 (got 2 1 40 3 (replicate 512 7))
    (set_k_log (mk_log 2 30 1 false 1 0 (replicate 30 0)) (demo_kernel [] [])).

Lemma demo_held_sess : sess 0 demo_held (reverse (seq 0 NBUF)) [0%nat].
Proof.
  split; [done|done| | |].
  - split; [done|by rewrite reverse_Permutation| |].
    + vm_compute. repeat split.
    + intros b1 b2 H1 H2.
      assert (Hz : forall b, (b < NBUF)%nat -> b = 0%nat \/ b_dev (bc_buf (k_bcache demo_held) !!! b) = 0).
      { apply each_buf. repeat (constructor; [vm_compute; auto|]). constructor. }
      intros N1 E1 _. destruct (Hz b1 H1) as [->|?]; [|done].
      destruct (Hz b2 H2) as [->|?]; [done|]. congruence.
  - intros b ->%list_elem_of_singleton. vm_compute. repeat split; try lia; auto.
  - intros b Hb Hn. assert (b <> 0%nat) by set_solver. revert b Hb H Hn.
    apply (each_buf (fun b => b <> 0%nat -> b ∉ [0%nat] -> _)).
    constructor; [done|]. repeat (constructor; [intros _ _; vm_compute; auto|]). constructor.
Qed.

Lemma bread_content_witness :
  exists b s', bread 1 41 demo_held = Ret b s' /\
    sess 0 s' (reverse (seq 0 NBUF)) [b; 0%nat] /\
    bid (bufs s' b) = (1, 41) /\ b_data (bufs s' b) = content demo_held 1 41 /\
    (forall b', b' <> b -> bufs s' b' = bufs demo_held b') /\
    (forall d n, d <> 0 -> content s' d n = content demo_held d n) /\
    k_disk s' = k_disk demo_held.
Proof.
  apply (bread_content 0 demo_held (reverse (seq 0 NBUF)) [0%nat] 1 41).
  - exact demo_held_sess.
  - lia.
  - reflexivity.
  - intros b ->%list_elem_of_singleton. vm_compute. congruence.
  - exists 1%nat. split; [vm_compute; lia|]. split; [set_solver|right; vm_compute; auto].
Defined.

Lemma bget_recycles_lru_witness :
  exists b l1 l2 s', bget 1 41 demo_held = Ret b s' /\
    reverse (seq 0 NBUF) = l1 ++ b :: l2 /\
    is_unused (k_bcache demo_held) b = true /\
    Forall (fun x => is_unused (k_bcache demo_held) x = false) l2.
Proof.
  apply (bget_recycles_lru 0 demo_held (reverse (seq 0 NBUF)) [0%nat] 1 41).
  - exact demo_held_sess.
  - intros b [Hb Hid]. revert b Hb Hid.
    apply (each_buf (fun b => bid (bufs demo_held b) = (1, 41) -> False)).
    repeat (constructor; [vm_compute; congruence|]). constructor.
  - exists 1%nat. split; [vm_compute; lia|reflexivity].
Defined.

Lemma brelse_front_witness :
  let s := upd_buf 0 (set_b_data (replicate 512 0)) demo_held in
  exists l1 l2 s', brelse 0 s = Ret tt s' /\ reverse (seq 0 NBUF) = l1 ++ 0%nat :: l2 /\
    sess 0 s' (0%nat :: l1 ++ l2) [] /\
    (forall d n, content s' d n = content s d n) /\
    (forall d n, is_dirty s' d n <-> is_dirty s d n).
Proof.
  intros s. apply (brelse_front 0 s (reverse (seq 0 NBUF)) [0%nat] [] 0).
  - apply sess_upd_held; [exact demo_held_sess|set_solver|by repeat split|left; reflexivity].
  - set_solver.
  - set_solver.
  - right. reflexivity.
Defined.
