(* ===== verification/Log.v ===== *)
(** The write-ahead log, log.c, and [readsb] of fs.c.

    The log occupies the blocks [log.start .. log.start + log.size - 1] of the
    disk: a header block with the home block numbers, then the logged blocks.
    [commit] copies the transaction's blocks to the log, writes the header,
    installs the blocks and clears the header; [recover_from_log] redoes what
    the header names.

    The history [k_wlog] holds the writes in the order they reach the disk; a
    crash during [commit] leaves the disk with a prefix of its writes. *)

From stdpp Require Import base list sets strings.
From Stdlib Require Import ZArith Lia.
From S2P Require Import Prelude State Sched Sleeplock Disk Bio Demo.

Open Scope kernel_scope.

Section Log.
Context {D : DiskDriver}.

(** ** Reading the superblock *)

Definition superblock_of (bs : list Z) : superblock :=
  mk_superblock (get32 bs 0) (get32 bs 4) (get32 bs 8) (get32 bs 12) (get32 bs 16)
    (get32 bs 20) (get32 bs 24).

Definition readsb (dev : Z) : K superblock :=
  bp <- bread dev 1 ;;
  sb <- gets (fun s => superblock_of (b_data (bufs s bp))) ;;
  brelse bp ;;;
  ret sb.

(** ** The transaction *)

(** [memmove(dst->data, src->data, BSIZE)] *)
Definition copy_data (dst src : nat) : K unit :=
  modify (fun s => upd_buf dst (set_b_data (b_data (bufs s src))) s).

Definition install_one (tail : nat) : K unit :=
  lg <- gets k_log ;;
  lbuf <- bread (l_dev lg) (l_start lg + Z.of_nat tail + 1) ;;
  dbuf <- bread (l_dev lg) (l_block lg !!! tail) ;;
  copy_data dbuf lbuf ;;;
  bwrite dbuf ;;;
  brelse lbuf ;;;
  brelse dbuf.

Definition install_trans : K unit :=
  n <- gets (fun s => l_n (k_log s)) ;;
  mfor install_one (seq 0 (Z.to_nat n)).

(** The header block: [n], then the home block numbers.  A count beyond
    [LOGSIZE] makes the C code write past [log.lh.block]; the model stops. *)
Definition read_head : K unit :=
  lg <- gets k_log ;;
  buf <- bread (l_dev lg) (l_start lg) ;;
  bs <- gets (fun s => b_data (bufs s buf)) ;;
  modify (upd_log (set_l_n (s32 (get32 bs 0)))) ;;;
  n <- gets (fun s => l_n (k_log s)) ;;
  if LOGSIZE <? n then panic "read_head: overrun" else
  mfor (fun i => modify (upd_log (fun lg =>
    set_l_block (<[i := get32 bs (4 + 4 * i)]> (l_block lg)) lg)))
    (seq 0 (Z.to_nat n)) ;;;
  brelse buf.

(** The bytes of a [struct logheader], its used part. *)
Definition head_bytes (n : Z) (blocks : list Z) : list Z :=
  le32 n ++ concat (map le32 (take (Z.to_nat n) blocks)).

Definition write_head : K unit :=
  lg <- gets k_log ;;
  buf <- bread (l_dev lg) (l_start lg) ;;
  modify (upd_buf buf (fun b =>
    set_b_data (splice 0 (head_bytes (l_n lg) (l_block lg)) (b_data b)) b)) ;;;
  bwrite buf ;;;
  brelse buf.

Definition recover_from_log : K unit :=
  read_head ;;;
  install_trans ;;;
  modify (upd_log (set_l_n 0)) ;;;
  write_head.

Definition initlog (dev : Z) : K unit :=
  sb <- readsb dev ;;
  modify (upd_log (fun lg =>
    set_l_dev dev (set_l_size (sb_nlog sb) (set_l_start (sb_logstart sb) lg)))) ;;;
  recover_from_log.

(** The loop of [begin_op], with the log's lock held; a process that slept
    starts here again. *)
Definition begin_op_loop : K unit :=
  lg <- gets k_log ;;
  if l_committing lg then sleep ChanLog (Some L_log)
  else if LOGSIZE <? l_n lg + (l_outstanding lg + 1) * MAXOPBLOCKS
  then sleep ChanLog (Some L_log)
  else
    modify (upd_log (fun lg => set_l_outstanding (l_outstanding lg + 1) lg)) ;;;
    release L_log.

Definition begin_op : K unit := acquire L_log ;;; begin_op_loop.

Definition write_log_one (tail : nat) : K unit :=
  lg <- gets k_log ;;
  to <- bread (l_dev lg) (l_start lg + Z.of_nat tail + 1) ;;
  from <- bread (l_dev lg) (l_block lg !!! tail) ;;
  copy_data to from ;;;
  bwrite to ;;;
  brelse from ;;;
  brelse to.

Definition write_log : K unit :=
  n <- gets (fun s => l_n (k_log s)) ;;
  mfor write_log_one (seq 0 (Z.to_nat n)).

Definition commit : K unit :=
  n <- gets (fun s => l_n (k_log s)) ;;
  if 0 <? n then
    write_log ;;;
    write_head ;;;
    install_trans ;;;
    modify (upd_log (set_l_n 0)) ;;;
    write_head
  else ret tt.

Definition end_op : K unit :=
  acquire L_log ;;;
  modify (upd_log (fun lg => set_l_outstanding (l_outstanding lg - 1) lg)) ;;;
  lg <- gets k_log ;;
  if l_committing lg then panic "log.committing" else
  (if l_outstanding lg =? 0 then modify (upd_log (set_l_committing true))
   else wakeup ChanLog) ;;;
  release L_log ;;;
  if l_outstanding lg =? 0 then
    commit ;;;
    acquire L_log ;;;
    modify (upd_log (set_l_committing false)) ;;;
    wakeup ChanLog ;;;
    release L_log
  else ret tt.

(** The slot of the block in the transaction: where it already is, or the
    next free one. *)
Definition log_slot (lg : log) (bno : Z) : nat :=
  match list_find (fun x => x = bno) (take (Z.to_nat (l_n lg)) (l_block lg)) with
  | Some (i, _) => i
  | None => Z.to_nat (l_n lg)
  end.

Definition log_write (b : nat) : K unit :=
  lg <- gets k_log ;;
  if (LOGSIZE <=? l_n lg) || (l_size lg - 1 <=? l_n lg)
  then panic "too big a transaction" else
  if l_outstanding lg <? 1 then panic "log_write outside of trans" else
  acquire L_log ;;;
  bno <- gets (fun s => b_blockno (bufs s b)) ;;
  let i := log_slot lg bno in
  modify (upd_log (fun lg => set_l_block (<[i := bno]> (l_block lg)) lg)) ;;;
  (if (Z.of_nat i =? l_n lg)
   then modify (upd_log (fun lg => set_l_n (l_n lg + 1) lg)) else ret tt) ;;;
  modify (upd_buf b (fun x => set_b_flags (Z.lor (b_flags x) B_DIRTY) x)) ;;;
  release L_log.

End Log.

(** ** Sequences of writes *)

(** The disk after the writes [ws], oldest first. *)
Fixpoint replay (dk : Z -> Z -> list Z) (ws : list (Z * Z * list Z)) (d n : Z) : list Z :=
  match ws with
  | [] => dk d n
  | (d', n', dat) :: ws =>
    replay (fun x y => if decide ((d', n') = (x, y)) then dat else dk x y) ws d n
  end.

Lemma replay_ext dk dk' ws d n :
  dk d n = dk' d n -> replay dk ws d n = replay dk' ws d n.
Proof.
  revert dk dk'. induction ws as [|[[d' n'] dat] ws IH]; intros dk dk' E; [done|].
  simpl. apply IH. by case_decide.
Qed.

Lemma replay_app dk ws1 ws2 d n :
  replay dk (ws1 ++ ws2) d n = replay (replay dk ws1) ws2 d n.
Proof.
  revert dk. induction ws1 as [|[[d' n'] dat] ws1 IH]; intros dk; [done|]. simpl. by rewrite IH.
Qed.

Lemma replay_out dk ws d n :
  (d, n) ∉ ws.*1 -> replay dk ws d n = dk d n.
Proof.
  revert dk. induction ws as [|[[d' n'] dat] ws IH]; intros dk Hn; [done|].
  simpl in *. rewrite IH by set_solver. rewrite decide_False; [done|]. set_solver.
Qed.

Lemma replay_in dk ws d n dat :
  NoDup ws.*1 -> (d, n, dat) ∈ ws -> replay dk ws d n = dat.
Proof.
  revert dk. induction ws as [|[[d' n'] dat'] ws IH]; intros dk Hnd Hin; [set_solver|].
  simpl in *. apply NoDup_cons in Hnd as [Hno Hnd].
  apply elem_of_cons in Hin as [E|Hin].
  - injection E as -> -> ->. rewrite replay_out by done. by rewrite decide_True.
  - by apply IH.
Qed.

Lemma prefix_app_cases {A} (w l1 l2 : list A) :
  w `prefix_of` l1 ++ l2 ->
  w `prefix_of` l1 \/ exists w2, w = l1 ++ w2 /\ w2 `prefix_of` l2.
Proof.
  revert w. induction l1 as [|x l1 IH]; intros w Hw; [right; by exists w|].
  destruct w as [|y w]; [left; apply prefix_nil|].
  simpl in Hw. apply prefix_cons_inv_1 in Hw as Hx. apply prefix_cons_inv_2 in Hw. subst y.
  destruct (IH w Hw) as [H1|(w2 & -> & H2)]; [left; by apply prefix_cons|].
  right. by exists w2.
Qed.

Lemma prefix_fst_elem {A B} (w l : list (A * B)) x : w `prefix_of` l -> x ∈ w.*1 -> x ∈ l.*1.
Proof. intros [k ->]. rewrite fmap_app. set_solver. Qed.

(** ** One block copied through the cache *)

Section Copy.
Context {D : DiskDriver} (p : nat) (dev : Z).
Hypothesis Hdev : dev <> 0.

(** The effect of a copy and a write of block [dst]. *)
Record wrote (s : kstate) (dst : Z) (dat : list Z) (s' : kstate) : Prop := {
  wr_sess : exists l, sess p s' l [];
  wr_wlog : k_wlog s' = k_wlog s ++ [(dev, dst, dat)];
  wr_disk : forall d n, k_disk s' d n =
    if decide ((dev, dst) = (d, n)) then dat else k_disk s d n;
  wr_content : forall d n, d <> 0 -> content s' d n =
    if decide ((dev, dst) = (d, n)) then dat else content s d n;
  wr_dirty : forall d n, is_dirty s' d n <-> is_dirty s d n /\ (dev, dst) <> (d, n);
  wr_log : k_log s' = k_log s;
  wr_size : k_disksize s' = k_disksize s }.

(** The same with buffer [b] of block [dst] among the held ones [H]. *)
Record stored (s : kstate) (l H : list nat) (b : nat) (dst : Z) (dat : list Z) (s' : kstate) : Prop := {
  sd_sess : sess p s' l H;
  sd_buf : bufs s' b = set_b_flags 2 (set_b_data dat (bufs s b));
  sd_other : forall y, y <> b -> bufs s' y = bufs s y;
  sd_wlog : k_wlog s' = k_wlog s ++ [(dev, dst, dat)];
  sd_disk : forall d n, k_disk s' d n = if decide ((dev, dst) = (d, n)) then dat else k_disk s d n;
  sd_content : forall d n, d <> 0 -> content s' d n =
    if decide ((dev, dst) = (d, n)) then dat else content s d n;
  sd_dirty : forall d n, is_dirty s' d n <-> is_dirty s d n /\ (dev, dst) <> (d, n);
  sd_log : k_log s' = k_log s;
  sd_size : k_disksize s' = k_disksize s }.

Lemma store_held s l H b dst dat :
  sess p s l H -> b ∈ H -> bid (bufs s b) = (dev, dst) -> disk_serves dev dst (k_disksize s) = true ->
  let s1 := upd_buf b (set_b_data dat) s in
  bwrite b s1 = Ret tt (written b s1) /\ stored s l H b dst dat (written b s1).
Proof.
  intros Hs Hb Hid Hsv s1. pose proof (wf_len _ _ (ss_wf _ _ _ _ Hs)) as Hlen.
  destruct (ss_in _ _ _ _ Hs b Hb) as (Hlt & _ & _ & _ & Hfl).
  assert (Hs1 : sess p s1 l H) by (by apply sess_upd_held).
  assert (E1 : bufs s1 b = set_b_data dat (bufs s b)) by (apply bufs_upd_eq; lia).
  pose proof Hid as Hid'. unfold bid in Hid'. injection Hid' as Hi1 Hi2. split.
  { apply (bwrite_eq p s1 l H b); [done|done|]. rewrite E1. cbn. by rewrite Hi1, Hi2. }
  split; try done.
  - by apply sess_written.
  - rewrite <- E1. apply (bufs_upd_eq b (set_b_flags 2) s1).
    by rewrite (wf_len _ _ (ss_wf _ _ _ _ Hs1)).
  - intros y Hy. rewrite <- (bufs_upd_ne b y (set_b_data dat) s) by done.
    apply (bufs_upd_ne b y (set_b_flags 2) s1). done.
  - unfold written, disk_write. kred. rewrite E1. cbn. by rewrite Hi1, Hi2.
  - intros d n. unfold written. rewrite k_disk_write, E1. cbn. by rewrite Hi1, Hi2.
  - intros d n Hd. rewrite (content_written p s1 l H b) by done. unfold s1.
    rewrite (content_set_data p s l H b) by done. by rewrite Hid.
  - intros d n. rewrite (dirty_written p s1 l H b) by done. rewrite E1. unfold bid. cbn.
    rewrite Hi1, Hi2. unfold s1. rewrite dirty_upd_held; [done|done|lia|done].
Qed.

(** Releasing buffers changes nothing of it. *)
Lemma stored_wrote s l H b dst dat s2 s' l' : stored s l H b dst dat s2 -> sess p s' l' [] ->
  (forall y, key (bufs s' y) = key (bufs s2 y)) -> k_disk s' = k_disk s2 -> k_wlog s' = k_wlog s2 ->
  k_log s' = k_log s2 -> k_disksize s' = k_disksize s2 -> wrote s dst dat s'.
Proof.
  intros [] Hs' Hk Hd Hw Hl Hz. split; rewrite ?Hd, ?Hw, ?Hl, ?Hz; try done.
  - by exists l'.
  - intros d n Hdn. rewrite (content_key s2 s' d n) by (done || by rewrite Hd). auto.
  - intros d n. rewrite (dirty_key s2 s') by done. auto.
Qed.

(** The second half: both buffers are held. *)
Lemma copy_tail s l f t src dst :
  sess p s l [t; f] \/ sess p s l [f; t] -> f <> t ->
  bid (bufs s f) = (dev, src) -> bid (bufs s t) = (dev, dst) -> src <> dst ->
  b_flags (bufs s f) = 6 \/ b_data (bufs s f) = k_disk s dev src ->
  disk_serves dev dst (k_disksize s) = true ->
  exists s', (copy_data t f ;;; bwrite t ;;; brelse f ;;; brelse t) s = Ret tt s' /\
    wrote s dst (b_data (bufs s f)) s'.
Proof.
  intros Hs0 Hne Hf Ht Hsd Hcoh Hsv.
  assert (Hs : exists H, sess p s l H /\ forall x, x ∈ H <-> x = f \/ x = t).
  { destruct Hs0 as [Hs|Hs]; eexists; (split; [exact Hs|]); set_solver. }
  clear Hs0. destruct Hs as (H & Hs & HH).
  assert (Hf' : f ∈ H) by (apply HH; auto). assert (Ht' : t ∈ H) by (apply HH; auto).
  set (dat := b_data (bufs s f)).
  destruct (store_held s l H t dst dat Hs Ht' Ht Hsv) as [Hw Hst].
  set (s2 := written t (upd_buf t (set_b_data dat) s)) in *. pose proof Hst as [Hs2 E2t E2o _ Hd2 _ _ _ _].
  unfold bid in Hf, Ht. injection Hf as Hf1 Hf2. injection Ht as Ht1 Ht2.
  destruct (sess_released p s2 l H [t] f Hs2 Hf') as [l3 Hs3].
  { intros x. rewrite list_elem_of_singleton, HH. split; [by intros ->; auto|tauto]. }
  { rewrite E2o by done. destruct Hcoh as [?|Hcoh]; [by left|right].
    rewrite Hcoh, Hf1, Hf2, Hd2, decide_False by congruence. done. }
  set (s3 := released f s2) in *.
  assert (Hk3 : forall y, key (bufs s3 y) = key (bufs s2 y)).
  { intros y. apply key_released. rewrite (wf_len _ _ (ss_wf _ _ _ _ Hs2)). apply (ss_in _ _ _ _ Hs2 f Hf'). }
  destruct (sess_released p s3 l3 [t] [] t Hs3) as [l4 Hs4]; [set_solver|intros x; set_solver| |].
  { right. pose proof (Hk3 t) as Ek. apply key_eq in Ek as (Eid & _ & ->).
    unfold bid in Eid. injection Eid as -> ->. change (k_disk s3) with (k_disk s2). rewrite E2t.
    cbn [set_b_flags set_b_data b_dev b_blockno b_data]. rewrite Ht1, Ht2, Hd2, decide_True by done. done. }
  exists (released t s3). split.
  - unfold copy_data. mrun. fold dat. mstep Hw. mstep (brelse_eq p s2 l H f Hs2 Hf').
    apply (brelse_eq p s3 l3 [t] t Hs3). set_solver.
  - eapply stored_wrote; [exact Hst|exact Hs4| |done..]. intros y. rewrite <- Hk3. apply key_released.
    rewrite (wf_len _ _ (ss_wf _ _ _ _ Hs3)). apply (ss_in _ _ _ _ Hs3 t). set_solver.
Qed.

(** [dl] lists the blocks with changes not yet written. *)
Definition dirty_in (s : kstate) (dl : list Z) : Prop :=
  forall d n, is_dirty s d n -> d = dev /\ n ∈ dl.

(** While fewer than [NBUF] buffers are held or pinned there is one to
    recycle. *)
Lemma room_free s l H dl d n :
  sess p s l H -> dirty_in s dl -> (length H + length dl < NBUF)%nat -> room s H d n.
Proof.
  intros Hs Hdl Hlen.
  destruct (decide (Exists (fun b => b ∉ H /\ has (b_flags (bufs s b)) B_DIRTY = false)
    (seq 0 NBUF))) as [Hex|Hno].
  { apply Exists_exists in Hex as (b & Hb%elem_of_seq & HbH & Hdt).
    exists b. destruct (ss_out _ _ _ _ Hs b) as (_ & Hr & _); [lia|done|].
    repeat split; [lia|done|by right]. }
  exfalso. set (R := filter (.∉ H) (seq 0 NBUF)).
  assert (HR : forall b, b ∈ R -> caches s dev (b_blockno (bufs s b)) b /\ b_blockno (bufs s b) ∈ dl).
  { intros b Hb. apply list_elem_of_filter in Hb as [HbH Hb%elem_of_seq].
    destruct (has (b_flags (bufs s b)) B_DIRTY) eqn:Hdt.
    - destruct (Hdl (b_dev (bufs s b)) (b_blockno (bufs s b))) as [Hd Hn].
      { exists b. split; [split; [lia|done]|done]. }
      split; [split; [lia|unfold bid; by rewrite Hd]|done].
    - exfalso. apply Hno, Exists_exists. exists b. split; [apply elem_of_seq; lia|done]. }
  assert (L1 : (length (map (fun b => b_blockno (bufs s b)) R) <= length dl)%nat).
  { apply submseteq_length, NoDup_submseteq.
    - apply NoDup_fmap_2_strong; [|apply NoDup_filter, NoDup_seq].
      intros x y Hx Hy E. destruct (HR x Hx) as [Hcx _], (HR y Hy) as [Hcy _].
      rewrite E in Hcx. by eapply (caches_unique s l dev); [apply Hs|..].
    - intros x Hx. apply list_elem_of_fmap in Hx as (b & -> & Hb). by apply HR. }
  assert (L2 : (length (seq 0 NBUF) <= length (H ++ R))%nat).
  { apply submseteq_length, NoDup_submseteq; [apply NoDup_seq|].
    intros b Hb. destruct (decide (b ∈ H)); [set_solver|].
    apply elem_of_app. right. by apply list_elem_of_filter. }
  rewrite length_map in L1. rewrite length_app, length_seq in L2. lia.
Qed.

Lemma bread_dirty_in s l H bno b s' dl :
  bread_post p s l H dev bno b s' -> dirty_in s dl -> dirty_in s' dl.
Proof. intros Hb Hd d n H1. apply Hd. by apply (br_dirty _ _ _ _ _ _ _ _ Hb). Qed.

(** Both orders of reading the two blocks. *)
Lemma read_two s l x y dl :
  sess p s l [] -> x <> y -> dirty_in s dl ->
  (length dl < NBUF)%nat -> (S (length dl) < NBUF)%nat \/ is_dirty s dev y ->
  disk_serves dev x (k_disksize s) = true -> disk_serves dev y (k_disksize s) = true ->
  exists bx by' s', (forall A (k : nat -> nat -> K A),
      (b1 <- bread dev x ;; b2 <- bread dev y ;; k b1 b2) s = k bx by' s') /\
    sess p s' l [by'; bx] /\ bx <> by' /\
    bid (bufs s' bx) = (dev, x) /\ bid (bufs s' by') = (dev, y) /\
    b_data (bufs s' bx) = content s dev x /\ b_data (bufs s' by') = content s dev y /\
    (b_flags (bufs s' bx) = 6 \/ content s dev x = k_disk s dev x) /\
    (b_flags (bufs s' by') = 6 \/ content s dev y = k_disk s dev y) /\
    (forall d n, d <> 0 -> content s' d n = content s d n) /\
    (forall d n, is_dirty s' d n <-> is_dirty s d n) /\
    (exists c, s' = set_k_bcache c s).
Proof.
  intros Hs Hxy Hdl Hl1 Hl2 Hsx Hsy.
  destruct (bread_sess p s l [] dev x) as (bx & s1 & E1 & P1); try done.
  { set_solver. }
  { eapply room_free; [done|done|simpl; lia]. }
  pose proof P1 as [[nf1 Es1] Hf1 Hs1 Hid1 Hdat1 Hoth1 Hcoh1 Hcon1 Hdt1].
  destruct (bread_sess p s1 l [bx] dev y) as (by' & s2 & E2 & P2); try done.
  { by subst s1. }
  { intros b Hb%list_elem_of_singleton. subst b. rewrite Hid1. congruence. }
  { destruct Hl2 as [Hl2|Hdy].
    - eapply room_free; [done|by eapply bread_dirty_in|simpl; lia].
    - apply Hdt1 in Hdy as (b & [Hb Hid] & _). exists b. split; [done|]. split; [|by left].
      intros Hx%list_elem_of_singleton. subst b. rewrite Hid1 in Hid. congruence. }
  pose proof P2 as [[nf2 Es2] Hf2 Hs2 Hid2 Hdat2 Hoth2 Hcoh2 Hcon2 Hdt2].
  assert (Hne : bx <> by') by set_solver.
  exists bx, by', s2. split; [|split; [exact Hs2|]].
  { intros A k. mstep E1. mstep E2. done. }
  rewrite (Hoth2 bx) by done. repeat split; try done.
  - rewrite Hdat2. by apply Hcon1.
  - rewrite Hcon1 in Hcoh2 by done. subst s1. destruct Hcoh2 as [?|?]; [by left|by right].
  - intros d n Hd. by rewrite Hcon2, Hcon1.
  - intros. by apply Hdt1, Hdt2.
  - intros. by apply Hdt2, Hdt1.
  - subst s2 s1. unfold upd_buf. eexists. reflexivity.
Qed.

(** [wrote] seen from the state before the blocks were read. *)
Lemma wrote_from s s1 dst dat s' :
  (forall d n, d <> 0 -> content s1 d n = content s d n) ->
  (forall d n, is_dirty s1 d n <-> is_dirty s d n) -> (exists c, s1 = set_k_bcache c s) ->
  wrote s1 dst dat s' -> wrote s dst dat s'.
Proof.
  intros Hc Hd [c ->] [H1 H2 H3 H4 H5 H6 H7]. split; try done.
  - intros d n Hn. by rewrite H4, Hc.
  - intros d n. by rewrite H5, Hd.
Qed.

Lemma install_one_ok s l tail dl :
  sess p s l [] -> l_dev (k_log s) = dev ->
  let src := l_start (k_log s) + Z.of_nat tail + 1 in
  let dst := l_block (k_log s) !!! tail in
  src <> dst -> dirty_in s dl -> (length dl < NBUF)%nat ->
  (S (length dl) < NBUF)%nat \/ is_dirty s dev dst ->
  disk_serves dev src (k_disksize s) = true -> disk_serves dev dst (k_disksize s) = true ->
  exists s', install_one tail s = Ret tt s' /\ wrote s dst (content s dev src) s'.
Proof.
  intros Hs Hd src dst Hne Hdl L1 L2 S1 S2. unfold install_one. mrun. rewrite Hd.
  fold src dst.
  destruct (read_two s l src dst dl) as
    (f & t & s1 & Hk & Hs1 & Hft & Hf & Ht & Df & Dt & Cf & Ct & Hc & Hdt & Hex); try done.
  rewrite Hk. destruct Hex as [c Es1].
  destruct (copy_tail s1 l f t src dst) as (s' & E & W); try done; auto.
  - rewrite Df. by subst s1.
  - by subst s1.
  - exists s'. split; [done|]. rewrite <- Df. eapply wrote_from; [..|exact W]; eauto.
Qed.

Lemma write_log_one_ok s l tail dl :
  sess p s l [] -> l_dev (k_log s) = dev ->
  let dst := l_start (k_log s) + Z.of_nat tail + 1 in
  let src := l_block (k_log s) !!! tail in
  src <> dst -> dirty_in s dl -> (length dl < NBUF)%nat ->
  (S (length dl) < NBUF)%nat \/ is_dirty s dev src ->
  disk_serves dev src (k_disksize s) = true -> disk_serves dev dst (k_disksize s) = true ->
  exists s', write_log_one tail s = Ret tt s' /\ wrote s dst (content s dev src) s'.
Proof.
  intros Hs Hd dst src Hne Hdl L1 L2 S1 S2. unfold write_log_one. mrun. rewrite Hd.
  fold src dst.
  destruct (read_two s l dst src dl) as
    (t & f & s1 & Hk & Hs1 & Hft & Ht & Hf & Dt & Df & Ct & Cf & Hc & Hdt & Hex); try done.
  rewrite Hk. destruct Hex as [c Es1].
  destruct (copy_tail s1 l f t src dst) as (s' & E & W); try done; auto.
  - rewrite Df. by subst s1.
  - by subst s1.
  - exists s'. split; [done|]. rewrite <- Df. eapply wrote_from; [..|exact W]; eauto.
Qed.

(** One block read, changed, written and released. *)
Lemma write_head_ok s l dl :
  sess p s l [] -> l_dev (k_log s) = dev -> dirty_in s dl -> (length dl < NBUF)%nat ->
  disk_serves dev (l_start (k_log s)) (k_disksize s) = true ->
  exists s', write_head s = Ret tt s' /\
    wrote s (l_start (k_log s))
      (splice 0 (head_bytes (l_n (k_log s)) (l_block (k_log s)))
        (content s dev (l_start (k_log s)))) s'.
Proof.
  intros Hs Hd Hdl L1 S1. unfold write_head. mrun. rewrite Hd.
  set (st := l_start (k_log s)) in *. set (hb := head_bytes _ _).
  destruct (bread_sess p s l [] dev st) as (b & s1 & E1 & P1); try done.
  { set_solver. }
  { eapply room_free; [done|done|simpl; lia]. }
  pose proof P1 as [[nf1 Es1] Hf1 Hs1 Hid1 Hdat1 Hoth1 Hcoh1 Hcon1 Hdt1].
  mstep E1. mrun. set (dat := splice 0 hb (content s dev st)).
  assert (Eu : upd_buf b (fun b0 => set_b_data (splice 0 hb (b_data b0)) b0) s1
             = upd_buf b (set_b_data dat) s1).
  { apply upd_buf_ext. by rewrite Hdat1. }
  rewrite Eu. assert (Hb : b ∈ [b]) by set_solver.
  destruct (store_held s1 l [b] b st dat Hs1 Hb Hid1) as [Hw Hst]; [by subst s1|].
  mstep Hw. set (s3 := written b _) in *. pose proof Hst as [Hs3 E3 _ _ Hd3 _ _ _ _].
  rewrite (brelse_eq p s3 l [b] b Hs3 Hb). unfold bid in Hid1. injection Hid1 as Hi1 Hi2.
  destruct (sess_released p s3 l [b] [] b Hs3 Hb) as [l4 Hs4]; [set_solver| |].
  { right. rewrite E3. cbn [set_b_flags set_b_data b_dev b_blockno b_data].
    rewrite Hi1, Hi2, Hd3, decide_True by done. done. }
  exists (released b s3). split; [done|].
  assert (wrote s1 st dat (released b s3)) as W.
  { eapply stored_wrote; [exact Hst|exact Hs4| |done..]. intros y. apply key_released.
    rewrite (wf_len _ _ (ss_wf _ _ _ _ Hs3)). apply (ss_in _ _ _ _ Hs3 b Hb). }
  eapply wrote_from; [..|exact W]; eauto.
Qed.

(** ** Writes through the cache *)

(** The effect of a sequence of block writes through the cache. *)
Record writes (s : kstate) (ws : list (Z * Z * list Z)) (s' : kstate) : Prop := {
  ws_sess : exists l, sess p s' l [];
  ws_wlog : k_wlog s' = k_wlog s ++ ws;
  ws_disk : forall d n, k_disk s' d n = replay (k_disk s) ws d n;
  ws_content : forall d n, d <> 0 -> content s' d n = replay (content s) ws d n;
  ws_dirty : forall d n, is_dirty s' d n <-> is_dirty s d n /\ (d, n) ∉ ws.*1;
  ws_size : k_disksize s' = k_disksize s }.

Lemma writes_nil s l : sess p s l [] -> writes s [] s.
Proof. intros Hs. split; try done; [by exists l|by rewrite app_nil_r|set_solver]. Qed.

Lemma wrote_writes s dst dat s' : wrote s dst dat s' -> writes s [(dev, dst, dat)] s'.
Proof.
  intros [H1 H2 H3 H4 H5 H6 H7]. split; try done.
  intros d n. rewrite H5. simpl. rewrite list_elem_of_singleton.
  split; intros [? ?]; split; congruence.
Qed.

Lemma writes_app s ws1 s1 ws2 s2 :
  writes s ws1 s1 -> writes s1 ws2 s2 -> writes s (ws1 ++ ws2) s2.
Proof.
  intros [A1 A2 A3 A4 A5 A6] [B1 B2 B3 B4 B5 B6]. split.
  - done.
  - by rewrite B2, A2, app_assoc.
  - intros d n. rewrite B3, replay_app. by apply replay_ext.
  - intros d n Hd. rewrite B4, replay_app by done. apply replay_ext. by apply A4.
  - intros d n. rewrite B5, A5, fmap_app, not_elem_of_app. tauto.
  - congruence.
Qed.

Lemma sess_upd_log f s l H : sess p s l H -> sess p (upd_log f s) l H.
Proof. by intros []. Qed.

Lemma writes_upd_log f s ws s' : writes s ws s' -> writes s ws (upd_log f s').
Proof.
  intros [[l A1] A2 A3 A4 A5 A6]. split; try done. exists l. by apply sess_upd_log.
Qed.

(** A transaction: the blocks [bl], with their slots in the log at [start]. *)
Record trans (lg : log) (size start : Z) (bl : list Z) : Prop := {
  tr_dev : l_dev lg = dev;
  tr_start : l_start lg = start;
  tr_block : forall i b, bl !! i = Some b -> l_block lg !!! i = b;
  tr_nodup : NoDup bl;
  tr_out : forall b, b ∈ bl -> b < start \/ start + Z.of_nat (length bl) < b;
  tr_serves : forall b, b ∈ bl -> disk_serves dev b size = true;
  tr_slots : forall i, (i <= length bl)%nat ->
    disk_serves dev (start + Z.of_nat i) size = true }.

(** The writes of [write_log] and of [install_trans] for the blocks [bl] from
    slot [i] on, [f] giving the data. *)
Definition slot_writes (start : Z) (f : Z -> list Z) (i : nat) (bl : list Z) : list (Z * Z * list Z) :=
  imap (fun j b => (dev, start + Z.of_nat (i + j) + 1, f b)) bl.
Definition home_writes (start : Z) (f : Z -> list Z) (i : nat) (bl : list Z) : list (Z * Z * list Z) :=
  imap (fun j b => (dev, b, f (start + Z.of_nat (i + j) + 1))) bl.

Lemma slot_writes_cons start f i b bl :
  slot_writes start f i (b :: bl) =
  (dev, start + Z.of_nat i + 1, f b) :: slot_writes start f (S i) bl.
Proof.
  unfold slot_writes. simpl. f_equal; [do 3 f_equal; lia|].
  apply imap_ext. intros j x _. simpl. do 3 f_equal. lia.
Qed.

Lemma home_writes_cons start f i b bl :
  home_writes start f i (b :: bl) =
  (dev, b, f (start + Z.of_nat i + 1)) :: home_writes start f (S i) bl.
Proof.
  unfold home_writes. simpl. f_equal; [do 3 f_equal; lia|].
  apply imap_ext. intros j x _. simpl. do 3 f_equal. lia.
Qed.

Lemma install_loop start suf : forall pre s l dl,
  sess p s l [] -> trans (k_log s) (k_disksize s) start (pre ++ suf) ->
  dirty_in s dl -> (length dl < NBUF)%nat ->
  (S (length dl) < NBUF)%nat \/ (forall b, b ∈ suf -> is_dirty s dev b) ->
  exists s', mfor install_one (seq (length pre) (length suf)) s = Ret tt s' /\
    writes s (home_writes start (content s dev) (length pre) suf) s' /\
    k_log s' = k_log s.
Proof.
  induction suf as [|b suf IH]; intros pre s l dl Hs Htr Hdl L1 L2.
  { exists s. split; [done|]. split; [by eapply writes_nil|done]. }
  pose proof Htr as [T1 T2 T3 T4 T5 T6 T7].
  rewrite length_app in *. simpl length in *.
  assert (Hblk : l_block (k_log s) !!! length pre = b).
  { apply T3. by rewrite list_lookup_middle. }
  assert (Hb : b ∈ pre ++ b :: suf) by set_solver.
  assert (Hout : forall j, (j <= length pre + S (length suf))%nat -> start + Z.of_nat j <> b).
  { intros j Hj E. destruct (T5 b Hb); lia. }
  destruct (install_one_ok s l (length pre) dl) as (s1 & E1 & W1); try done.
  { rewrite T2, Hblk. intros E. apply (Hout (S (length pre))); lia. }
  { rewrite Hblk. destruct L2 as [?|L2]; [by left|right]. apply L2. set_solver. }
  { rewrite T2. replace (start + Z.of_nat (length pre) + 1)
      with (start + Z.of_nat (S (length pre))) by lia. apply T7. lia. }
  { rewrite Hblk. by apply T6. }
  rewrite Hblk, T2 in W1.
  pose proof W1 as [[l1 Hs1] _ _ Hc1 Hd1 Hlg1 Hsz1].
  cbn [seq mfor]. mstep E1.
  destruct (IH (pre ++ [b]) s1 l1 dl) as (s' & E' & W' & Hl'); try done.
  { rewrite Hlg1, Hsz1, <- app_assoc. done. }
  { intros d n Hd. apply Hdl. by apply Hd1. }
  { destruct L2 as [?|L2]; [by left|right]. intros x Hx. apply Hd1.
    split; [apply L2; set_solver|]. intros E. injection E as ->.
    apply NoDup_app in T4 as (_ & _ & T4). apply NoDup_cons in T4 as [? _]. done. }
  rewrite length_app, Nat.add_1_r in E', W'. exists s'. split; [exact E'|].
  split; [|congruence]. rewrite home_writes_cons.
  eapply (writes_app _ [_]); [by apply wrote_writes|].
  replace (home_writes start (content s dev) (S (length pre)) suf)
    with (home_writes start (content s1 dev) (S (length pre)) suf); [done|].
  apply imap_ext. intros j x Hj. f_equal. rewrite Hc1 by done. rewrite decide_False; [done|].
  apply lookup_lt_Some in Hj. intros E. injection E as E.
  apply (Hout (S (S (length pre + j)))); lia.
Qed.

Lemma write_log_loop start suf : forall pre s l dl,
  sess p s l [] -> trans (k_log s) (k_disksize s) start (pre ++ suf) ->
  dirty_in s dl -> (length dl < NBUF)%nat -> (forall b, b ∈ suf -> is_dirty s dev b) ->
  exists s', mfor write_log_one (seq (length pre) (length suf)) s = Ret tt s' /\
    writes s (slot_writes start (content s dev) (length pre) suf) s' /\
    k_log s' = k_log s.
Proof.
  induction suf as [|b suf IH]; intros pre s l dl Hs Htr Hdl L1 L2.
  { exists s. split; [done|]. split; [by eapply writes_nil|done]. }
  pose proof Htr as [T1 T2 T3 T4 T5 T6 T7].
  rewrite length_app in *. simpl length in *.
  assert (Hblk : l_block (k_log s) !!! length pre = b).
  { apply T3. by rewrite list_lookup_middle. }
  assert (Hout : forall x j, x ∈ pre ++ b :: suf ->
    (j <= length pre + S (length suf))%nat -> start + Z.of_nat j <> x).
  { intros x j Hx Hj E. destruct (T5 x Hx); lia. }
  assert (Hb : b ∈ pre ++ b :: suf) by set_solver.
  destruct (write_log_one_ok s l (length pre) dl) as (s1 & E1 & W1); try done.
  { rewrite T2, Hblk. intros E. apply (Hout b (S (length pre))); [done|lia..]. }
  { rewrite Hblk. right. apply L2. set_solver. }
  { rewrite Hblk. by apply T6. }
  { rewrite T2. replace (start + Z.of_nat (length pre) + 1)
      with (start + Z.of_nat (S (length pre))) by lia. apply T7. lia. }
  rewrite Hblk, T2 in W1.
  pose proof W1 as [[l1 Hs1] _ _ Hc1 Hd1 Hlg1 Hsz1].
  assert (Hne : forall x, x ∈ suf -> (dev, start + Z.of_nat (length pre) + 1) <> (dev, x)).
  { intros x Hx E. injection E as E. apply (Hout x (S (length pre))); [set_solver|lia..]. }
  cbn [seq mfor]. mstep E1.
  destruct (IH (pre ++ [b]) s1 l1 dl) as (s' & E' & W' & Hl'); try done.
  { rewrite Hlg1, Hsz1, <- app_assoc. done. }
  { intros d n Hd. apply Hdl. by apply Hd1. }
  { intros x Hx. apply Hd1. split; [apply L2; set_solver|by apply Hne]. }
  rewrite length_app, Nat.add_1_r in E', W'. exists s'. split; [exact E'|].
  split; [|congruence]. rewrite slot_writes_cons.
  eapply (writes_app _ [_]); [by apply wrote_writes|].
  replace (slot_writes start (content s dev) (S (length pre)) suf)
    with (slot_writes start (content s1 dev) (S (length pre)) suf); [done|].
  apply imap_ext. intros j x Hj. f_equal. rewrite Hc1 by done. rewrite decide_False; [done|].
  apply Hne. by eapply list_elem_of_lookup_2.
Qed.

(** ** The header block *)

Lemma get32_words ws rest i :
  (i < length ws)%nat -> get32 (concat (map le32 ws) ++ rest) (4 * i) = u32 (ws !!! i).
Proof.
  revert i. induction ws as [|w ws IH]; intros i Hi; simpl in Hi; [lia|].
  destruct i as [|i].
  - simpl. unfold get32. rewrite drop_0. apply of_le_le32.
  - unfold get32 in *. replace (4 * S i)%nat with (S (S (S (S (4 * i))))) by lia.
    cbn [map concat app drop le32]. change ((w :: ws) !!! S i) with (ws !!! i).
    apply IH. lia.
Qed.

Lemma head_words n bl :
  head_bytes n bl = concat (map le32 (n :: take (Z.to_nat n) bl)).
Proof. done. Qed.

Lemma splice_0 new bs : splice 0 new bs = new ++ drop (length new) bs.
Proof. done. Qed.

Lemma get32_head_n n bl bs : get32 (splice 0 (head_bytes n bl) bs) 0 = u32 n.
Proof.
  rewrite splice_0, head_words. change 0%nat with (4 * 0)%nat at 1.
  rewrite get32_words by (simpl; lia). done.
Qed.

Lemma get32_head_block n bl bs i b :
  take (Z.to_nat n) bl !! i = Some b ->
  get32 (splice 0 (head_bytes n bl) bs) (4 + 4 * i) = u32 b.
Proof.
  intros Hb. rewrite splice_0, head_words. replace (4 + 4 * i)%nat with (4 * S i)%nat by lia.
  rewrite get32_words by (simpl; apply lookup_lt_Some in Hb; lia).
  f_equal. change ((n :: ?l) !!! S i) with (l !!! i). by apply list_lookup_total_correct.
Qed.

(** ** [commit] *)

(** Writing the blocks [bl] to their home locations. *)
Definition install_writes (f : Z -> list Z) (bl : list Z) : list (Z * Z * list Z) :=
  map (fun b => (dev, b, f b)) bl.

Lemma slot_targets start f i bl :
  (slot_writes start f i bl).*1 = imap (fun j _ => (dev, start + Z.of_nat (i + j) + 1)) bl.
Proof. unfold slot_writes. by rewrite fmap_imap. Qed.

Lemma slot_targets_nodup start f i bl : NoDup (slot_writes start f i bl).*1.
Proof.
  rewrite slot_targets. apply NoDup_alt. intros j k x Hj Hk.
  rewrite list_lookup_imap in Hj, Hk.
  destruct (bl !! j); [|done]. destruct (bl !! k); [|done]. simpl in *. simplify_eq. lia.
Qed.

Lemma slot_targets_range start f bl d n :
  (d, n) ∈ (slot_writes start f 0 bl).*1 -> d = dev /\ start < n <= start + Z.of_nat (length bl).
Proof.
  rewrite slot_targets. intros Hin. apply list_elem_of_lookup_1 in Hin as [j Hj].
  rewrite list_lookup_imap in Hj. destruct (bl !! j) eqn:E; [|done].
  apply lookup_lt_Some in E. simpl in Hj. simplify_eq. split; [done|]. lia.
Qed.

Lemma home_targets start f i bl : (home_writes start f i bl).*1 = map (fun b => (dev, b)) bl.
Proof.
  revert i. induction bl as [|b bl IH]; intros i; [done|].
  rewrite home_writes_cons. simpl. f_equal. apply IH.
Qed.

Lemma install_targets f bl : (install_writes f bl).*1 = map (fun b => (dev, b)) bl.
Proof. unfold install_writes. rewrite <- list_fmap_compose. done. Qed.

Lemma home_targets_nodup bl : NoDup bl -> NoDup (map (fun b : Z => (dev, b)) bl).
Proof. intros H. apply NoDup_fmap_2; [|done]. intros x y E. by injection E. Qed.

(** Reading the log's slots back gives the transaction's data. *)
Lemma home_of_slots start f g bl :
  (forall i b, bl !! i = Some b -> g (start + Z.of_nat i + 1) = f b) ->
  home_writes start g 0 bl = install_writes f bl.
Proof.
  intros Hg. unfold home_writes, install_writes. apply list_eq. intros i.
  rewrite list_lookup_imap, list_lookup_fmap. destruct (bl !! i) as [b|] eqn:E; [|done].
  simpl. by rewrite (Hg i b E).
Qed.

(** What [commit] writes: the log, the header, the home blocks, and the
    header again with no blocks. *)
Definition commit_writes (start : Z) (f : Z -> list Z) (bl h1 h0 : list Z) (x : Z) :=
  slot_writes start f 0 bl ++ [(dev, start, splice 0 (head_bytes x bl) h1)] ++
  install_writes f bl ++ [(dev, start, splice 0 (head_bytes 0 bl) h0)].

(** The in-memory log describes the transaction [bl]. *)
Definition logged (lg : log) (bl : list Z) : Prop :=
  l_n lg = Z.of_nat (length bl) /\ take (length bl) (l_block lg) = bl.

Lemma head_bytes_take n bl bl' :
  take (Z.to_nat n) bl = take (Z.to_nat n) bl' -> head_bytes n bl = head_bytes n bl'.
Proof. unfold head_bytes. by intros ->. Qed.

(** The first half of a commit: the blocks of the transaction into the log, then
    the header, which is the point of no return. *)
Lemma commit_logs s l start bl :
  sess p s l [] -> trans (k_log s) (k_disksize s) start bl -> logged (k_log s) bl ->
  (0 < length bl < NBUF)%nat -> (forall d n, is_dirty s d n <-> d = dev /\ n ∈ bl) ->
  exists h1 s', (write_log ;;; write_head) s = Ret tt s' /\ k_log s' = k_log s /\
    writes s (slot_writes start (content s dev) 0 bl ++
      [(dev, start, splice 0 (head_bytes (Z.of_nat (length bl)) bl) h1)]) s'.
Proof.
  intros Hs Htr [Hn Hbl] Hlen Hdt. unfold write_log. mrun. rewrite Hn, Nat2Z.id.
  assert (Hdl : dirty_in s bl) by (intros d n Hd; by apply Hdt).
  destruct (write_log_loop start bl [] s l bl) as (s1 & E1 & W1 & L1); try done.
  { lia. }
  { intros b Hb. by apply Hdt. }
  cbn [length] in E1, W1. mstep E1. pose proof W1 as [[l1 Hs1] _ _ Hc1 Hd1 Hz1].
  pose proof Htr as [T1 T2 T3 T4 T5 T6 T7].
  assert (Hst : disk_serves dev start (k_disksize s) = true).
  { replace start with (start + Z.of_nat 0) by lia. apply T7. lia. }
  destruct (write_head_ok s1 l1 bl) as (s2 & E2 & W2); try done.
  { by rewrite L1. }
  { intros d n Hd. apply Hdl. by apply Hd1. }
  { lia. }
  { by rewrite L1, T2, Hz1. }
  rewrite L1, T2, Hn in W2. rewrite (head_bytes_take _ _ bl) in W2
    by (rewrite Nat2Z.id, Hbl; symmetry; by apply take_ge).
  exists (content s1 dev start), s2. split; [exact E2|].
  split; [by rewrite (wr_log _ _ _ _ W2)|]. by eapply writes_app, wrote_writes.
Qed.

Lemma commit_ok s l start bl :
  sess p s l [] -> trans (k_log s) (k_disksize s) start bl -> logged (k_log s) bl ->
  (0 < length bl < NBUF)%nat ->
  (forall d n, is_dirty s d n <-> d = dev /\ n ∈ bl) ->
  exists h1 h0 s', commit s = Ret tt s' /\
    writes s (commit_writes start (content s dev) bl h1 h0 (Z.of_nat (length bl))) s' /\
    l_n (k_log s') = 0.
Proof.
  intros Hs Htr Hlg Hlen Hdt. pose proof Htr as [T1 T2 T3 T4 T5 T6 T7]. pose proof Hlg as [Hn Hbl].
  destruct (commit_logs s l start bl) as (h1 & s2 & E2 & L2 & W2); try done.
  unfold commit. mrun. rewrite Hn, (proj2 (Z.ltb_lt _ _)) by lia. rewrite (bind2_Ret _ _ _ _ _ E2).
  assert (Hdl : dirty_in s bl) by (intros d n Hd; by apply Hdt).
  pose proof W2 as [[l2 Hs2] _ _ Hc2 Hd2 Hz2]. unfold install_trans. mrun. rewrite L2, Hn, Nat2Z.id.
  destruct (install_loop start bl [] s2 l2 bl) as (s3 & E3 & W3 & L3); try done.
  { by rewrite L2, Hz2. }
  { intros d n Hd. apply Hdl. by apply Hd2. }
  { lia. }
  { right. intros b Hb. apply Hd2. split; [by apply Hdt|].
    rewrite fmap_app. intros [Hin|Hin]%elem_of_app.
    - apply slot_targets_range in Hin as [_ Hr]. destruct (T5 b Hb); lia.
    - apply list_elem_of_singleton in Hin. simpl in Hin. injection Hin as ->. destruct (T5 start Hb); lia. }
  cbn [length] in E3, W3. mstep E3. mrun. rewrite (home_of_slots start (content s dev)) in W3.
  2:{ intros i b Hb. rewrite Hc2, replay_app by done. simpl. rewrite decide_False.
      - apply replay_in; [apply slot_targets_nodup|]. apply list_elem_of_lookup.
        exists i. unfold slot_writes. rewrite list_lookup_imap, Hb. done.
      - intros E. injection E as E. lia. }
  pose proof (writes_app _ _ _ _ _ W2 W3) as W123. pose proof W123 as [[l3 Hs3] _ _ Hc3 Hd3 Hz3].
  assert (k_log s3 = k_log s) as Hlog by by rewrite L3, L2.
  destruct (write_head_ok (upd_log (set_l_n 0) s3) l3 bl) as (s4 & E4 & W4).
  { by apply sess_upd_log. }
  { change (l_dev (k_log s3) = dev). by rewrite Hlog. }
  { intros d n Hd. apply Hdl. by apply Hd3. }
  { lia. }
  { change (disk_serves dev (l_start (k_log s3)) (k_disksize s3) = true). rewrite Hlog, T2, Hz3.
    replace start with (start + Z.of_nat 0) by lia. apply T7. lia. }
  change (l_start (k_log (upd_log (set_l_n 0) s3))) with (l_start (k_log s3)) in W4.
  change (l_n (k_log (upd_log (set_l_n 0) s3))) with 0 in W4.
  rewrite Hlog, T2, (head_bytes_take 0 _ bl) in W4 by done.
  exists h1, (content (upd_log (set_l_n 0) s3) dev start), s4. split; [exact E4|].
  split; [|by rewrite (wr_log _ _ _ _ W4)]. unfold commit_writes. rewrite !app_assoc.
  eapply writes_app; [exact W123|]. apply wrote_writes in W4. by destruct W4; split.
Qed.

(** ** Recovery *)

Lemma fill_blocks f k : forall i s,
  exists lb, mfor (fun i => modify (upd_log (fun lg =>
      set_l_block (<[i := f i]> (l_block lg)) lg))) (seq i k) s
    = Ret tt (upd_log (set_l_block lb) s) /\
    length lb = length (l_block (k_log s)) /\
    (forall j, (i <= j < i + k)%nat -> (j < length lb)%nat -> lb !!! j = f j) /\
    (forall j, (j < i)%nat -> lb !!! j = l_block (k_log s) !!! j).
Proof.
  induction k as [|k IH]; intros i s.
  - exists (l_block (k_log s)). split; [|repeat split; intros; lia || done].
    cbn. unfold ret, upd_log. f_equal. destruct s; simpl. f_equal.
    by destruct k_log.
  - destruct (IH (S i) (upd_log (fun lg => set_l_block (<[i := f i]> (l_block lg)) lg) s))
      as (lb & E & Hlen & H1 & H2).
    exists lb. cbn [seq mfor]. mrun. rewrite E. split; [done|].
    assert (Hl : length lb = length (l_block (k_log s))).
    { rewrite Hlen. unfold upd_log. simpl. by rewrite length_insert. }
    split; [done|]. split.
    + intros j Hj Hjl. destruct (decide (j = i)) as [->|]; [|apply H1; lia].
      rewrite H2 by lia. unfold upd_log. simpl. apply list_lookup_total_insert_eq. lia.
    + intros j Hj. rewrite H2 by lia. unfold upd_log. simpl.
      apply list_lookup_total_insert_ne. lia.
Qed.

Lemma read_head_ok s l :
  sess p s l [] -> l_dev (k_log s) = dev -> dirty_in s [] ->
  disk_serves dev (l_start (k_log s)) (k_disksize s) = true ->
  let bs := content s dev (l_start (k_log s)) in
  let n := s32 (get32 bs 0) in
  n <= LOGSIZE ->
  exists s' lb, read_head s = Ret tt s' /\ writes s [] s' /\
    k_log s' = set_l_block lb (set_l_n n (k_log s)) /\
    length lb = length (l_block (k_log s)) /\
    (forall j, (j < Z.to_nat n)%nat -> (j < length lb)%nat -> lb !!! j = get32 bs (4 + 4 * j)).
Proof.
  intros Hs Hd Hdl Hsv bs n Hn. unfold read_head. mrun. rewrite Hd.
  destruct (bread_sess p s l [] dev (l_start (k_log s))) as (b & s1 & E1 & P1); try done.
  { set_solver. }
  { eapply room_free; [done|done|simpl; unfold NBUF; lia]. }
  pose proof P1 as [[nf1 Es1] Hf1 Hs1 Hid1 Hdat1 Hoth1 Hcoh1 Hcon1 Hdt1].
  mstep E1. mrun. rewrite Hdat1. fold bs n.
  change (l_n (k_log (upd_log (set_l_n n) s1))) with n.
  rewrite (proj2 (Z.ltb_ge _ _) Hn).
  destruct (fill_blocks (fun i => get32 bs (4 + 4 * i)) (Z.to_nat n) 0
    (upd_log (set_l_n n) s1)) as (lb & El & Hlen & Hin & _).
  mstep El. set (s2 := upd_log (set_l_block lb) _).
  assert (Hs2 : sess p s2 l [b]) by (do 2 apply sess_upd_log; done).
  assert (Hb : b ∈ [b]) by set_solver.
  exists (released b s2), lb. split; [by apply (brelse_eq p s2 l [b])|].
  assert (Hk : forall y, key (bufs (released b s2) y) = key (bufs s1 y)).
  { intros y. change (bufs s1) with (bufs s2). apply key_released.
    rewrite (wf_len _ _ (ss_wf _ _ _ _ Hs2)). by destruct (ss_in _ _ _ _ Hs2 b Hb). }
  unfold bid in Hid1. injection Hid1 as Hi1 Hi2.
  split; [split|split; [|split]].
  - apply (sess_released p s2 l [b]); [done|done|set_solver|].
    change (bufs s2) with (bufs s1). rewrite Hdat1, Hi1, Hi2.
    destruct Hcoh1 as [?|Hc]; [by left|right]. rewrite Hc. by subst s1.
  - change (k_wlog (released b s2)) with (k_wlog s1). rewrite app_nil_r. by subst s1.
  - intros d x. change (k_disk (released b s2)) with (k_disk s1). by subst s1.
  - intros d x Hdx. rewrite (content_key s1) by (done || by subst s1). by apply Hcon1.
  - intros d x. rewrite (dirty_key s1), Hdt1 by done. split; [|tauto].
    intros; split; [done|apply not_elem_of_nil].
  - change (k_disksize (released b s2)) with (k_disksize s1). by subst s1.
  - change (k_log (released b s2)) with (set_l_block lb (set_l_n n (k_log s1))). by subst s1.
  - rewrite Hlen. by subst s1.
  - intros j Hj Hjl. apply Hin; [lia|done].
Qed.

Lemma recover_ok s l bl :
  sess p s l [] -> dirty_in s [] ->
  let start := l_start (k_log s) in
  let bs := k_disk s dev start in
  s32 (get32 bs 0) = Z.of_nat (length bl) ->
  (forall i b, bl !! i = Some b -> get32 bs (4 + 4 * i) = b) ->
  (length bl <= Z.to_nat LOGSIZE)%nat -> length (l_block (k_log s)) = Z.to_nat LOGSIZE ->
  trans (set_l_block bl (k_log s)) (k_disksize s) start bl ->
  exists s' h0, recover_from_log s = Ret tt s' /\
    writes s (home_writes start (k_disk s dev) 0 bl ++
      [(dev, start, splice 0 (head_bytes 0 bl) h0)]) s'.
Proof.
  intros Hs Hdl start bs Hn Hblk Hle Hll Htr. pose proof Htr as [T1 T2 T3 T4 T5 T6 T7].
  assert (Hst : disk_serves dev start (k_disksize s) = true).
  { replace start with (start + Z.of_nat 0) by lia. apply T7. lia. }
  assert (Hclean : forall d n, d <> 0 -> content s d n = k_disk s d n).
  { intros d n Hd. apply (content_clean p s l []); [done|done|set_solver|].
    intros Hx. apply Hdl in Hx as [_ Hx]. set_solver. }
  unfold recover_from_log.
  destruct (read_head_ok s l) as (s1 & lb & E1 & W1 & L1 & Hlb & Hget); try done.
  { fold start. rewrite Hclean by done. fold bs. rewrite Hn.
    change (Z.to_nat LOGSIZE) with 30%nat in Hle. change LOGSIZE with 30. lia. }
  fold start in L1, Hget. rewrite Hclean in L1, Hget by done. fold bs in L1, Hget.
  rewrite Hn in L1, Hget. mstep E1. pose proof W1 as [[l1 Hs1] _ Hk1 Hc1 Hd1 Hz1].
  assert (Hdl1 : dirty_in s1 []) by (intros d n Hx; apply Hdl; by apply Hd1).
  unfold install_trans. mrun. rewrite L1. cbn [l_n set_l_block set_l_n]. rewrite Nat2Z.id.
  destruct (install_loop start bl [] s1 l1 []) as (s2 & E2 & W2 & L2); try done.
  { rewrite L1, Hz1. split; try done. intros i b Hb. cbn [l_block set_l_block].
    pose proof (lookup_lt_Some _ _ _ Hb) as Hi. simpl in Hi. rewrite Hget; [by apply Hblk|lia|].
    rewrite Hlb, Hll. lia. }
  { simpl. unfold NBUF. lia. }
  { left. simpl. unfold NBUF. lia. }
  cbn [length] in E2, W2. mstep E2. mrun. pose proof W2 as [[l2 Hs2] _ Hk2 Hc2 Hd2 Hz2].
  destruct (write_head_ok (upd_log (set_l_n 0) s2) l2 []) as (s3 & E3 & W3).
  { by apply sess_upd_log. }
  { change (l_dev (k_log s2) = dev). by rewrite L2, L1. }
  { intros d n Hx. apply Hdl1. by apply Hd2. }
  { simpl. unfold NBUF. lia. }
  { change (disk_serves dev (l_start (k_log s2)) (k_disksize s2) = true).
    rewrite L2, L1, Hz2, Hz1. done. }
  change (l_start (k_log (upd_log (set_l_n 0) s2))) with (l_start (k_log s2)) in W3.
  change (l_n (k_log (upd_log (set_l_n 0) s2))) with 0 in W3.
  rewrite L2, L1 in W3. cbn [l_start set_l_block set_l_n] in W3. fold start in W3.
  rewrite (head_bytes_take 0 _ bl) in W3 by done.
  eexists s3, _. split; [exact E3|].
  replace (home_writes start (k_disk s dev) 0 bl)
    with ([] ++ home_writes start (content s1 dev) 0 bl).
  2:{ simpl. apply imap_ext. intros j x _. f_equal. rewrite Hc1 by done. by apply Hclean. }
  eapply writes_app; [eapply writes_app; [exact W1|exact W2]|].
  apply wrote_writes in W3. destruct W3. by split.
Qed.

(** ** Crashes *)

(** A block outside the log's header and the [n] slots after it. *)
Definition outside (start : Z) (n : nat) (b : Z) : Prop :=
  b < start \/ start + Z.of_nat n < b.

(** A machine that boots with the disk [dk]: nothing of the transaction is left
    but what the disk holds. *)
Record booted (q : nat) (dk : Z -> Z -> list Z) (size start : Z) (sb : kstate) : Prop := {
  bt_sess : exists l, sess q sb l [];
  bt_clean : dirty_in sb [];
  bt_disk : forall d n, k_disk sb d n = dk d n;
  bt_size : k_disksize sb = size;
  bt_dev : l_dev (k_log sb) = dev;
  bt_start : l_start (k_log sb) = start;
  bt_block : length (l_block (k_log sb)) = Z.to_nat LOGSIZE }.

Section Crash.
Context (dk : Z -> Z -> list Z) (f : Z -> list Z) (start : Z) (bl : list Z).
Hypothesis Hout : forall b, b ∈ bl -> outside start (length bl) b.
Hypothesis Hnd : NoDup bl.
Hypothesis Hrange : forall b, b ∈ bl -> 0 <= b < 2 ^ 32.
Hypothesis Hlen : (length bl < NBUF)%nat.
(** Blocks outside the transaction have no new content. *)
Hypothesis Hf : forall b, b ∉ bl -> outside start (length bl) b -> dk dev b = f b.

Let slots := slot_writes start f 0 bl.
Let homes := install_writes f bl.

Lemma slots_out b : outside start (length bl) b -> (dev, b) ∉ slots.*1.
Proof. intros Hb Hin. apply slot_targets_range in Hin as [_ Hr]. destruct Hb; lia. Qed.

Lemma slots_start : (dev, start) ∉ slots.*1.
Proof. intros Hin. apply slot_targets_range in Hin as [_ Hr]. lia. Qed.

Lemma homes_in b : (dev, b) ∈ homes.*1 <-> b ∈ bl.
Proof.
  unfold homes. rewrite install_targets, list_elem_of_fmap. split.
  - intros (x & E & Hx). by injection E as ->.
  - intros Hb. by exists b.
Qed.

(** The disk after the log, the header and some home blocks were written:
    the slots hold the new data. *)
Lemma slot_data h ws1 i b :
  ws1 `prefix_of` homes -> bl !! i = Some b ->
  replay dk (slots ++ [(dev, start, h)] ++ ws1) dev (start + Z.of_nat i + 1) = f b.
Proof.
  intros Hp Hb. pose proof (lookup_lt_Some _ _ _ Hb) as Hi.
  rewrite !replay_app. rewrite (replay_out _ ws1).
  - simpl. rewrite decide_False by (intros E; injection E as E; lia).
    apply replay_in; [apply slot_targets_nodup|]. apply list_elem_of_lookup.
    exists i. unfold slots, slot_writes. by rewrite list_lookup_imap, Hb.
  - intros Hin. apply (prefix_fst_elem _ homes) in Hin; [|done].
    apply homes_in in Hin. destruct (Hout _ Hin); lia.
Qed.

Lemma homes_new b : outside start (length bl) b -> forall h h',
  replay dk (slots ++ [(dev, start, h)] ++ homes ++ [(dev, start, h')]) dev b = f b.
Proof.
  intros Hb h h'. assert (b <> start) by (destruct Hb; lia).
  rewrite !replay_app. simpl. rewrite decide_False by congruence.
  destruct (decide (b ∈ bl)) as [Hin|Hin].
  - apply replay_in; [unfold homes; rewrite install_targets; by apply home_targets_nodup|].
    apply list_elem_of_fmap. by exists b.
  - rewrite replay_out by (by rewrite homes_in). simpl. rewrite decide_False by congruence.
    rewrite replay_out by (by apply slots_out). by apply Hf.
Qed.

End Crash.
End Copy.

Section Recovery.
Context {D : DiskDriver} (dev : Z) (Hdev : dev <> 0).

(** A cleared header: recovery changes no block but the header. *)
Lemma recover_clear q dk size start sb :
  booted dev q dk size start sb -> disk_serves dev start size = true ->
  get32 (dk dev start) 0 = 0 ->
  exists sr, recover_from_log sb = Ret tt sr /\
    forall b, b <> start -> k_disk sr dev b = dk dev b.
Proof.
  intros [[l Hs] Hcl Hdk Hsz Hdv Hst Hbk] Hsv Hh.
  destruct (recover_ok q dev Hdev sb l []) as (sr & h0 & E & W); try done.
  - rewrite Hst, Hdk, Hh. done.
  - simpl. lia.
  - rewrite Hst, Hsz. split; try done; try (intros; set_solver).
    + apply NoDup_nil_2.
    + intros i Hi. simpl in Hi. replace (start + Z.of_nat i) with start by lia. done.
  - exists sr. split; [done|]. intros b Hb. rewrite (ws_disk _ _ _ _ W), replay_out, Hdk; [done|].
    rewrite Hst. simpl. rewrite list_elem_of_singleton. congruence.
Qed.

(** A header that names the transaction: recovery installs it. *)
Lemma recover_redo q dk size start sb bl f h :
  booted dev q dk size start sb ->
  trans dev (set_l_block bl (k_log sb)) size start bl ->
  (forall b, b ∈ bl -> 0 <= b < 2 ^ 32) -> (length bl < NBUF)%nat ->
  dk dev start = splice 0 (head_bytes (Z.of_nat (length bl)) bl) h ->
  (forall i b, bl !! i = Some b -> dk dev (start + Z.of_nat i + 1) = f b) ->
  (forall b, b ∉ bl -> outside start (length bl) b -> dk dev b = f b) ->
  exists sr, recover_from_log sb = Ret tt sr /\
    forall b, outside start (length bl) b -> k_disk sr dev b = f b.
Proof.
  intros [[l Hs] Hcl Hdk Hsz Hdv Hst Hbk] Htr Hr Hlen Hh Hslot Hold.
  assert (Hn30 : (length bl <= Z.to_nat LOGSIZE)%nat).
  { change (Z.to_nat LOGSIZE) with 30%nat. change NBUF with 30%nat in Hlen. lia. }
  destruct (recover_ok q dev Hdev sb l bl) as (sr & h0 & E & W); try done.
  - rewrite Hst, Hdk, Hh, get32_head_n. change NBUF with 30%nat in Hlen.
    rewrite u32_small, s32_small by lia. done.
  - intros i b Hb. rewrite Hst, Hdk, Hh.
    rewrite (get32_head_block _ _ _ i b) by (rewrite Nat2Z.id, take_ge by done; done).
    apply u32_small, Hr. by eapply list_elem_of_lookup_2.
  - by rewrite Hst, Hsz.
  - exists sr. split; [done|]. intros b Hb. rewrite (ws_disk _ _ _ _ W), replay_app, Hst.
    assert (b <> start) by (destruct Hb; lia). simpl. rewrite decide_False by congruence.
    rewrite (home_of_slots dev start f).
    2:{ intros i x Hx. rewrite Hdk. by apply Hslot. }
    destruct (decide (b ∈ bl)) as [Hin|Hin].
    + apply replay_in.
      * rewrite install_targets. apply home_targets_nodup, Htr.
      * apply list_elem_of_fmap. by exists b.
    + rewrite replay_out, Hdk; [by apply Hold|].
      rewrite install_targets, list_elem_of_fmap. intros (x & Ex & Hx). congruence.
Qed.

(** How far a commit got: to some of the log blocks, to the header and some of
    the home blocks, or to the end. *)
Lemma commit_prefix f start bl h1 h0 ws1 :
  ws1 `prefix_of` commit_writes dev start f bl h1 h0 (Z.of_nat (length bl)) ->
  ws1 `prefix_of` slot_writes dev start f 0 bl \/
  (exists w, w `prefix_of` install_writes dev f bl /\
    ws1 = slot_writes dev start f 0 bl ++
      [(dev, start, splice 0 (head_bytes (Z.of_nat (length bl)) bl) h1)] ++ w) \/
  ws1 = commit_writes dev start f bl h1 h0 (Z.of_nat (length bl)).
Proof.
  intros Hp. unfold commit_writes in *. apply prefix_app_cases in Hp as [Hp|(w2 & -> & Hp)]; [by left|].
  destruct w2 as [|x w2]; [left; by rewrite app_nil_r|right].
  simpl in Hp. apply prefix_cons_inv_1 in Hp as Hx. apply prefix_cons_inv_2 in Hp. subst x.
  apply prefix_app_cases in Hp as [Hp|(w3 & -> & Hp)]; [left; by exists w2|].
  destruct w3 as [|x w3]; [left|right].
  - exists (install_writes dev f bl). split; [done|]. by rewrite app_nil_r.
  - apply prefix_cons_inv_1 in Hp as Hx. apply prefix_cons_inv_2 in Hp.
    apply prefix_nil_inv in Hp. by subst.
Qed.

(** C1: commits are atomic and durable.  From a state where no file system
    call is active and exactly the blocks [bl] of the transaction are dirty,
    [commit] returns; afterwards every block outside the log has on the disk
    the content the transaction gave it.  If the machine stops after any
    prefix of the disk writes [commit] makes and boots again,
    [recover_from_log] returns and leaves, outside the log, either the disk as
    before the transaction or the disk with all of the transaction. *)
Theorem commit_crash_atomic p s l start bl :
  sess p s l [] -> trans dev (k_log s) (k_disksize s) start bl -> logged (k_log s) bl ->
  (0 < length bl < NBUF)%nat -> (forall b, b ∈ bl -> 0 <= b < 2 ^ 32) ->
  (forall d n, is_dirty s d n <-> d = dev /\ n ∈ bl) ->
  get32 (k_disk s dev start) 0 = 0 ->
  exists s' ws, commit s = Ret tt s' /\ k_wlog s' = k_wlog s ++ ws /\
    l_n (k_log s') = 0 /\
    (forall b, outside start (length bl) b -> k_disk s' dev b = content s dev b) /\
    forall ws1 q sb, ws1 `prefix_of` ws ->
      booted dev q (replay (k_disk s) ws1) (k_disksize s) start sb ->
      exists sr, recover_from_log sb = Ret tt sr /\
        ((forall b, outside start (length bl) b -> k_disk sr dev b = k_disk s dev b) \/
         (forall b, outside start (length bl) b -> k_disk sr dev b = content s dev b)).
Proof.
  intros Hs Htr Hlg Hlen Hr Hdt Hh0.
  destruct (commit_ok p dev Hdev s l start bl) as (h1 & h0 & s' & E & W & Hn); try done.
  pose proof Htr as [T1 T2 T3 T4 T5 T6 T7]. pose proof (proj2 Hlen) as Hlen'.
  set (f := content s dev) in *.
  assert (Hf : forall b, b ∉ bl -> outside start (length bl) b -> k_disk s dev b = f b).
  { intros b Hb _. symmetry. apply (content_clean p s l []); [done|done|set_solver|].
    rewrite Hdt. tauto. }
  assert (Hst : disk_serves dev start (k_disksize s) = true).
  { replace start with (start + Z.of_nat 0) by lia. apply T7. lia. }
  exists s', (commit_writes dev start f bl h1 h0 (Z.of_nat (length bl))).
  split; [done|]. split; [apply W|]. split; [done|]. split.
  { intros b Hb. rewrite (ws_disk _ _ _ _ W). by apply homes_new. }
  intros ws1 q sb Hp Hbt. apply commit_prefix in Hp as Hcases.
  destruct Hcases as [Hpre|[(w & Hpre & ->)| ->]].
  - destruct (recover_clear q _ _ _ sb Hbt Hst) as (sr & Er & Hd).
    { rewrite replay_out; [done|]. intros Hin. eapply prefix_fst_elem in Hin; [|done].
      by apply slots_start in Hin. }
    exists sr. split; [done|]. left. intros b Hb. rewrite Hd by (destruct Hb; lia).
    apply replay_out. intros Hin. eapply prefix_fst_elem in Hin; [|done].
    by eapply slots_out.
  - destruct (recover_redo q _ _ _ sb bl f h1 Hbt) as (sr & Er & Hd); try done; try lia.
    + destruct Hbt. split; try done. intros i b Hb. by apply list_lookup_total_correct.
    + rewrite !replay_app, (replay_out _ w).
      * simpl. by rewrite decide_True.
      * intros Hin. eapply prefix_fst_elem in Hin; [|done]. apply homes_in in Hin.
        destruct (T5 _ Hin); lia.
    + intros i b Hb. by apply (slot_data dev (k_disk s) f start bl).
    + intros b Hb Hob. rewrite replay_out; [by apply Hf|].
      rewrite !fmap_app, !not_elem_of_app. repeat split.
      * by apply slots_out.
      * simpl. rewrite list_elem_of_singleton. intros Ex. injection Ex as ->. destruct Hob; lia.
      * intros Hin. eapply prefix_fst_elem in Hin; [|done]. by apply homes_in in Hin.
    + exists sr. split; [done|]. by right.
  - destruct (recover_clear q _ _ _ sb Hbt Hst) as (sr & Er & Hd).
    { unfold commit_writes. rewrite !replay_app. simpl. rewrite decide_True by done.
      apply get32_head_n. }
    exists sr. split; [done|]. right. intros b Hb. rewrite Hd by (destruct Hb; lia).
    by apply homes_new.
Qed.
End Recovery.

(** ** Adding to the transaction *)

Section LogWrite.
Context (p : nat).

(** The transaction with one more block; a block already logged is absorbed. *)
Definition absorb (bl : list Z) (bno : Z) : list Z :=
  if decide (bno ∈ bl) then bl else bl ++ [bno].

Lemma log_slot_old lg bl bno :
  logged lg bl -> bno ∈ bl -> bl !! log_slot lg bno = Some bno.
Proof.
  intros [Hn Hbl] Hin. unfold log_slot. rewrite Hn, Nat2Z.id, Hbl.
  destruct (list_find (fun x => x = bno) bl) as [[i x]|] eqn:E.
  - apply list_find_Some in E as (Hi & -> & _). done.
  - apply list_find_None in E. rewrite Forall_forall in E. by apply E in Hin.
Qed.

Lemma log_slot_new lg bl bno :
  logged lg bl -> bno ∉ bl -> log_slot lg bno = length bl.
Proof.
  intros [Hn Hbl] Hin. unfold log_slot. rewrite Hn, Nat2Z.id, Hbl.
  destruct (list_find (fun x => x = bno) bl) as [[i x]|] eqn:E; [|done].
  apply list_find_Some in E as (Hi & -> & _). by apply list_elem_of_lookup_2 in Hi.
Qed.

Lemma take_insert_lt (l : list Z) i k x :
  take k l !! i = Some x -> take k (<[i := x]> l) = take k l.
Proof.
  intros H. pose proof (lookup_lt_Some _ _ _ H) as Hi. rewrite length_take in Hi.
  rewrite lookup_take_lt in H by lia. by rewrite list_insert_id.
Qed.

(** The log and the state after [log_write]. *)
Definition absorbed (bl : list Z) (bno : Z) (lg : log) : log :=
  set_l_n (Z.of_nat (length (absorb bl bno)))
    (set_l_block (<[log_slot lg bno := bno]> (l_block lg)) lg).

Definition pin (x : buf) : buf := set_b_flags (Z.lor (b_flags x) B_DIRTY) x.

Definition log_written (bl : list Z) (b : nat) (s : kstate) : kstate :=
  upd_buf b pin (set_k_log (absorbed bl (b_blockno (bufs s b)) (k_log s)) s).

Lemma absorbed_logged bl bno lg :
  logged lg bl -> Z.of_nat (length bl) < LOGSIZE -> length (l_block lg) = Z.to_nat LOGSIZE ->
  logged (absorbed bl bno lg) (absorb bl bno).
Proof.
  intros Hlg L1 Hbk. pose proof Hlg as [Hn Hbl]. split; [done|].
  unfold absorbed. cbn [l_block set_l_n set_l_block]. unfold absorb. case_decide as Hin.
  - rewrite (take_insert_lt _ _ _ bno); [done|]. rewrite Hbl. by apply log_slot_old.
  - rewrite (log_slot_new _ bl) by done. rewrite length_app. cbn [length].
    rewrite Nat.add_1_r, (take_S_r _ _ bno).
    + rewrite take_insert_ge by lia. by rewrite Hbl.
    + apply list_lookup_insert_eq. rewrite Hbk. lia.
Qed.

Lemma log_write_eq s b bl :
  k_held s = [] -> logged (k_log s) bl ->
  Z.of_nat (length bl) < LOGSIZE -> Z.of_nat (length bl) < l_size (k_log s) - 1 ->
  1 <= l_outstanding (k_log s) -> log_write b s = Ret tt (log_written bl b s).
Proof.
  intros Hh Hlg L1 L2 Hout. pose proof Hlg as [Hn Hbl].
  unfold log_write. mrun. rewrite Hn. zbool. cbn [orb].
  rewrite (bind_Ret _ _ _ _ _ (acquire_ok L_log s ltac:(rewrite Hh; apply not_elem_of_nil))).
  mrun. unfold log_written. set (bno := b_blockno (bufs s b)).
  change (b_blockno (bufs (set_k_held _ s) b)) with bno.
  match goal with |- context [if ?c then modify ?g else ret tt] =>
    assert (Hif : (if c then modify g else ret tt)
      (upd_log (fun lg => set_l_block (<[log_slot (k_log s) bno := bno]> (l_block lg)) lg)
        (set_k_held (L_log :: k_held s) s))
      = Ret tt (set_k_held (L_log :: k_held s) (set_k_log (absorbed bl bno (k_log s)) s))) end.
  { unfold absorbed, absorb. case_decide as Hin.
    - pose proof (log_slot_old _ _ _ Hlg Hin) as Hsl%lookup_lt_Some.
      rewrite (proj2 (Z.eqb_neq _ _)) by lia. unfold ret, upd_log. kred. f_equal.
      rewrite <- Hn. by destruct s as [???????????????? []].
    - rewrite (log_slot_new _ bl) by done. rewrite Z.eqb_refl. unfold modify, upd_log. kred.
      f_equal. cbn [l_n set_l_block]. rewrite Hn, length_app. cbn [length].
      replace (Z.of_nat (length bl) + 1) with (Z.of_nat (length bl + 1)) by lia. done. }
  mstep Hif. mrun.
  rewrite (release_ok _ []); [|kred; by rewrite Hh|apply not_elem_of_nil].
  f_equal. destruct s. simpl in *. by subst.
Qed.

Lemma pin_flags x : b_flags x = 2 \/ b_flags x = 6 -> pin x = set_b_flags 6 x.
Proof. unfold pin. by intros [-> | ->]. Qed.

Lemma log_written_spec s l H b bl :
  sess p s l H -> b ∈ H ->
  sess p (log_written bl b s) l H /\
  bufs (log_written bl b s) b = set_b_flags 6 (bufs s b) /\
  (forall d n, d <> 0 -> content (log_written bl b s) d n = content s d n) /\
  (forall d n, is_dirty (log_written bl b s) d n <-> is_dirty s d n \/ bid (bufs s b) = (d, n)).
Proof.
  intros Hs Hb. destruct (ss_in _ _ _ _ Hs b Hb) as (Hlt & _ & _ & Hd & Hf).
  pose proof (wf_len _ _ (ss_wf _ _ _ _ Hs)) as Hlen. unfold log_written.
  set (s0 := set_k_log _ s). pose proof (pin_flags _ Hf) as E6.
  assert (bufs (upd_buf b pin s0) b = set_b_flags 6 (bufs s b)) as Eb.
  { rewrite bufs_upd_eq by (simpl; lia). exact E6. }
  assert (forall y, y <> b -> bufs (upd_buf b pin s0) y = bufs s y) as Ey
    by (intros; by rewrite bufs_upd_ne).
  split; [|split; [done|split]].
  - apply sess_upd_held; [|done|by repeat split|].
    + by apply (sess_upd_log p (fun _ => k_log s0)).
    + right. change (bufs s0) with (bufs s). by rewrite E6.
  - intros d n Hdn. apply content_ext; [|done]. intros y.
    destruct (decide (y = b)) as [->|]; [rewrite Eb|by rewrite Ey].
    repeat split. cbn. destruct Hf as [-> | ->]; done.
  - intros d n. unfold is_dirty, caches. split.
    + intros (y & [Hy Hid] & Hdt). destruct (decide (y = b)) as [->|].
      * right. by rewrite Eb in Hid.
      * left. exists y. by rewrite Ey in Hid, Hdt by done.
    + intros [(y & [Hy Hid] & Hdt)|Hid].
      * exists y. destruct (decide (y = b)) as [->|]; [by rewrite Eb|by rewrite Ey by done].
      * exists b. by rewrite Eb.
Qed.

(** C2: inside a transaction with room left, [log_write] on a held buffer
    records its block in the log exactly once (absorbing a repeated write),
    pins the buffer as dirty and changes no content. *)
Theorem log_write_absorbs s l H b bl :
  sess p s l H -> b ∈ H -> logged (k_log s) bl ->
  Z.of_nat (length bl) < LOGSIZE -> Z.of_nat (length bl) < l_size (k_log s) - 1 ->
  length (l_block (k_log s)) = Z.to_nat LOGSIZE -> 1 <= l_outstanding (k_log s) ->
  exists s', log_write b s = Ret tt s' /\ sess p s' l H /\
    logged (k_log s') (absorb bl (b_blockno (bufs s b))) /\
    (forall d n, d <> 0 -> content s' d n = content s d n) /\
    (forall d n, is_dirty s' d n <-> is_dirty s d n \/ bid (bufs s b) = (d, n)) /\
    k_disk s' = k_disk s /\ k_wlog s' = k_wlog s.
Proof.
  intros Hs Hb Hlg L1 L2 Hbk Hout. exists (log_written bl b s).
  destruct (log_written_spec s l H b bl Hs Hb) as (Hs' & _ & Hc & Hdt).
  split_and!; try done.
  - apply log_write_eq; try done. apply Hs.
  - by apply absorbed_logged.
Qed.

(** [begin_op] reserves [MAXOPBLOCKS] log blocks per call up to [LOGSIZE] =
    30, but [log_write] accepts a block only while fewer than [log.size - 1]
    are logged: with the log of [LOGSIZE] blocks that mkfs makes, the 30th
    reserved block panics, even when it is one that is already logged. *)
Theorem log_write_last_reserved b s :
  l_size (k_log s) = LOGSIZE -> l_n (k_log s) = LOGSIZE - 1 ->
  log_write b s = Panic "too big a transaction" s.
Proof. intros Hz Hn. unfold log_write. mrun. by rewrite Hz, Hn. Qed.

End LogWrite.

(** ** A concrete commit *)

Section Demo.
Lemma demo_commit_dirty d n : is_dirty demo_commit d n <-> d = 1 /\ n ∈ [40].
Proof.
  split.
  - intros (b & [Hb Hid] & Hdt).
    assert (Hz : b = 0%nat).
    { revert b Hb Hid Hdt.
      apply (each_buf (fun b => bid (bufs demo_commit b) = (d, n) ->
        has (b_flags (bufs demo_commit b)) B_DIRTY = true -> b = 0%nat)).
      constructor; [done|]. repeat (constructor; [vm_compute; discriminate|]). constructor. }
    subst b. vm_compute in Hid. injection Hid as <- <-. split; [done|set_solver].
  - intros [-> ->%list_elem_of_singleton]. exists 0%nat. by repeat split; vm_compute; try lia.
Qed.

Lemma commit_crash_atomic_witness :
  exists s' ws, commit demo_commit = Ret tt s' /\ k_wlog s' = k_wlog demo_commit ++ ws /\
    l_n (k_log s') = 0 /\
    (forall b, outside 2 1 b -> k_disk s' 1 b = content demo_commit 1 b) /\
    forall ws1 q sb, ws1 `prefix_of` ws ->
      booted 1 q (replay (k_disk demo_commit) ws1) (k_disksize demo_commit) 2 sb ->
      exists sr, recover_from_log sb = Ret tt sr /\
        ((forall b, outside 2 1 b -> k_disk sr 1 b = k_disk demo_commit 1 b) \/
         (forall b, outside 2 1 b -> k_disk sr 1 b = content demo_commit 1 b)).
Proof.
  apply (commit_crash_atomic 1 ltac:(lia) 0 demo_commit (reverse (seq 0 NBUF)) 2 [40]).
  - exact demo_commit_sess.
  - split; try reflexivity.
    + intros [|i] b E; [by injection E as <-|done].
    + apply NoDup_singleton.
    + intros b ->%list_elem_of_singleton. simpl. lia.
    + intros b ->%list_elem_of_singleton. reflexivity.
    + intros [|[|i]] Hi; [reflexivity..|simpl in Hi; lia].
  - split; reflexivity.
  - simpl. unfold NBUF. lia.
  - intros b ->%list_elem_of_singleton. lia.
  - exact demo_commit_dirty.
  - vm_compute. reflexivity.
Defined.

Lemma log_write_absorbs_witness :
  exists s', log_write 0 demo_held = Ret tt s' /\
    sess 0 s' (reverse (seq 0 NBUF)) [0%nat] /\ logged (k_log s') [40] /\
    (forall d n, d <> 0 -> content s' d n = content demo_held d n) /\
    (forall d n, is_dirty s' d n <-> is_dirty demo_held d n \/ bid (bufs demo_held 0) = (d, n)) /\
    k_disk s' = k_disk demo_held /\ k_wlog s' = k_wlog demo_held.
Proof.
  apply (log_write_absorbs 0 demo_held _ [0%nat] 0 []); try by_eval.
  exact demo_held_sess.
Defined.

Lemma log_write_last_reserved_witness :
  let s := set_k_log (mk_log 2 30 3 false 1 29 (replicate 30 40)) demo_held in
  log_write 0 s = Panic "too big a transaction" s.
Proof. intros s. apply (log_write_last_reserved 0 s); reflexivity. Defined.

End Demo.
