(* ===== verification/Fs.v ===== *)
(** The file system, fs.c: blocks, inodes, directories and path names.

    A pointer [struct inode *] is an index into the inode cache.  The source or
    destination of an inode's data is a user buffer, a page of the kernel or a
    local variable: [readi] passes each piece to a function [put] with an
    accumulator, [writei] asks a function [get] for each piece.

    [DevSw] is the device switch [devsw]: the functions [readi] and [writei]
    call for a device file; Console.v gives its instance. *)

From stdpp Require Import base list sets strings.
From Stdlib Require Import ZArith Lia.
From S2P Require Import Prelude State CString Sched Cons Kalloc Vm SysArgs Sleeplock.
From S2P Require Import Disk Bio Log.

Open Scope kernel_scope.

(** ** Device switch *)

(** A sink for the bytes read, with its state, and a source of bytes. *)
Definition sink (A : Type) : Type := A -> list Z -> K A.
Definition source : Type := Z -> Z -> K (list Z).

Class DevSw : Type := {
  dev_read : Z -> option (forall A, sink A -> A -> nat -> Z -> K (Z * A));
  dev_write : Z -> option (source -> nat -> Z -> K Z) }.

(** A user address, and a kernel array, as destination and as source. *)
Definition user_sink : sink Z :=
  fun va bs => ustore va bs ;;; ret (va + Z.of_nat (length bs)).
Definition kern_sink : sink (list Z) := fun acc bs => ret (acc ++ bs).
Definition user_source (va : Z) : source := fun tot m => uloadn (va + tot) (Z.to_nat m).
Definition kern_source (bs : list Z) : source :=
  fun tot m => ret (take (Z.to_nat m) (drop (Z.to_nat tot) bs)).

(** ** On-disk structures *)

Definition IBLOCK (i : Z) (sb : superblock) : Z := i / IPB + sb_inodestart sb.
Definition BBLOCK (b : Z) (sb : superblock) : Z := b / BPB + sb_bmapstart sb.

(** The byte offset of inode [inum] in its block. *)
Definition dinode_off (inum : Z) : nat := Z.to_nat (inum mod IPB * DINODE_SIZE).

(** The bytes of a [struct dinode]. *)
Definition dinode_bytes (i : inode) : list Z :=
  le16 (i_type i) ++ le16 (i_major i) ++ le16 (i_minor i) ++ le16 (i_nlink i) ++
  le32 (i_size i) ++ concat (map le32 (i_addrs i)).

(** The fields of the [struct dinode] at offset [o], copied to an inode. *)
Definition load_dinode (bs : list Z) (o : nat) (i : inode) : inode :=
  set_i_addrs (map (fun k => get32 bs (o + 12 + 4 * k)) (seq 0 13))
    (set_i_size (get32 bs (o + 8))
      (set_i_nlink (s16 (get16 bs (o + 6)))
        (set_i_minor (s16 (get16 bs (o + 4)))
          (set_i_major (s16 (get16 bs (o + 2)))
            (set_i_type (s16 (get16 bs o)) i))))).

(** The word [a[k]] of an indirect block and its update. *)
Definition ind_get (bs : list Z) (k : Z) : Z := get32 bs (Z.to_nat (4 * k)).
Definition ind_set (k v : Z) (bs : list Z) : list Z := splice (Z.to_nat (4 * k)) (le32 v) bs.

(** A bit of the free map. *)
Definition bit_mask (bi : Z) : Z := Z.shiftl 1 (bi mod 8).
Definition bit_byte (bs : list Z) (bi : Z) : Z := bs !!! Z.to_nat (bi / 8).
Definition bit_used (bs : list Z) (bi : Z) : bool := has (bit_byte bs bi) (bit_mask bi).
Definition bit_set (bi : Z) (bs : list Z) : list Z :=
  <[Z.to_nat (bi / 8) := Z.lor (bit_byte bs bi) (bit_mask bi)]> bs.
Definition bit_clear (bi : Z) (bs : list Z) : list Z :=
  <[Z.to_nat (bi / 8) := Z.land (bit_byte bs bi) (u8 (Z.lnot (bit_mask bi)))]> bs.

Section Fs.
Context {D : DiskDriver}.

(** ** Blocks *)

(** The data of a buffer changed in place. *)
Definition upd_data (b : nat) (f : list Z -> list Z) : K unit :=
  modify (upd_buf b (fun x => set_b_data (f (b_data x)) x)).

Definition bzero (dev bno : Z) : K unit :=
  bp <- bread dev bno ;;
  upd_data bp (fun _ => replicate (Z.to_nat BSIZE) 0) ;;;
  log_write bp ;;;
  brelse bp.

(** [for(; bi < BPB && b + bi < sb.size; bi++)]: the first free bit, [k] bits
    left in the block. *)
Fixpoint balloc_scan (bs : list Z) (b size bi : Z) (k : nat) : option Z :=
  match k with
  | O => None
  | S k =>
    if b + bi <? size then
      if negb (bit_used bs bi) then Some bi else balloc_scan bs b size (bi + 1) k
    else None
  end.

(** The outer loop of [balloc], one bitmap block per round. *)
Fixpoint balloc_loop (dev b : Z) (k : nat) : K Z :=
  match k with
  | O => panic "balloc: out of blocks"
  | S k =>
    sb <- gets k_sb ;;
    if b <? sb_size sb then
      bp <- bread dev (BBLOCK b sb) ;;
      bs <- gets (fun s => b_data (bufs s bp)) ;;
      match balloc_scan bs b (sb_size sb) 0 (Z.to_nat BPB) with
      | Some bi =>
        upd_data bp (bit_set bi) ;;;
        log_write bp ;;;
        brelse bp ;;;
        bzero dev (b + bi) ;;;
        ret (b + bi)
      | None => brelse bp ;;; balloc_loop dev (b + BPB) k
      end
    else panic "balloc: out of blocks"
  end.

(** One round per bitmap block of the disk. *)
Definition balloc (dev : Z) : K Z :=
  size <- gets (fun s => sb_size (k_sb s)) ;;
  balloc_loop dev 0 (Z.to_nat (size / BPB + 1)).

Definition bfree (dev b : Z) : K unit :=
  sb <- gets k_sb ;;
  bp <- bread dev (BBLOCK b sb) ;;
  bs <- gets (fun s => b_data (bufs s bp)) ;;
  let bi := b mod BPB in
  if negb (bit_used bs bi) then panic "freeing free block" else
  upd_data bp (bit_clear bi) ;;;
  log_write bp ;;;
  brelse bp.

(** ** Inodes *)

Definition iinit (dev : Z) : K unit :=
  mfor (fun i => initsleeplock (SLInode i)) (seq 0 NINODE) ;;;
  sb <- readsb dev ;;
  modify (set_k_sb sb) ;;;
  cprintf (bytes_of "sb: size %d nblocks %d ninodes %d nlog %d logstart %d inodestart %d bmap start %d" ++ [10])
    [PInt (sb_size sb); PInt (sb_nblocks sb); PInt (sb_ninodes sb); PInt (sb_nlog sb);
     PInt (sb_logstart sb); PInt (sb_inodestart sb); PInt (sb_bmapstart sb)].

(** The scan of the inode cache: the entry for the inode, if it is in use. *)
Definition icache_find (dev inum : Z) (tbl : list inode) : option nat :=
  fst <$> list_find (fun i => 0 < i_ref i /\ i_dev i = dev /\ i_inum i = inum) tbl.
Definition icache_empty (tbl : list inode) : option nat :=
  fst <$> list_find (fun i => i_ref i = 0) tbl.

Definition iget (dev inum : Z) : K nat :=
  acquire L_icache ;;;
  tbl <- gets k_icache ;;
  match icache_find dev inum tbl with
  | Some ip =>
    modify (upd_inode ip (fun i => set_i_ref (i_ref i + 1) i)) ;;;
    release L_icache ;;;
    ret ip
  | None =>
    match icache_empty tbl with
    | None => panic "iget: no inodes"
    | Some ip =>
      modify (upd_inode ip (fun i =>
        set_i_valid false (set_i_ref 1 (set_i_inum inum (set_i_dev dev i))))) ;;;
      release L_icache ;;;
      ret ip
    end
  end.

Definition idup (ip : nat) : K nat :=
  acquire L_icache ;;;
  modify (upd_inode ip (fun i => set_i_ref (i_ref i + 1) i)) ;;;
  release L_icache ;;;
  ret ip.

Fixpoint ialloc_loop (dev type inum : Z) (k : nat) : K nat :=
  match k with
  | O => panic "ialloc: no inodes"
  | S k =>
    sb <- gets k_sb ;;
    bp <- bread dev (IBLOCK inum sb) ;;
    bs <- gets (fun s => b_data (bufs s bp)) ;;
    let o := dinode_off inum in
    if s16 (get16 bs o) =? 0 then
      upd_data bp (splice o (le16 type ++ replicate (Z.to_nat DINODE_SIZE - 2) 0)) ;;;
      log_write bp ;;;
      brelse bp ;;;
      iget dev inum
    else
      brelse bp ;;;
      ialloc_loop dev type (inum + 1) k
  end.

Definition ialloc (dev type : Z) : K nat :=
  n <- gets (fun s => sb_ninodes (k_sb s)) ;;
  ialloc_loop dev type 1 (Z.to_nat (n - 1)).

Definition iupdate (ip : nat) : K unit :=
  sb <- gets k_sb ;;
  i <- gets (fun s => inodes s ip) ;;
  bp <- bread (i_dev i) (IBLOCK (i_inum i) sb) ;;
  i <- gets (fun s => inodes s ip) ;;
  upd_data bp (splice (dinode_off (i_inum i)) (dinode_bytes i)) ;;;
  log_write bp ;;;
  brelse bp.

Definition ilock (ip : nat) : K unit :=
  ref <- gets (fun s => i_ref (inodes s ip)) ;;
  if ref <? 1 then panic "ilock" else
  acquiresleep (SLInode ip) ;;;
  i <- gets (fun s => inodes s ip) ;;
  if negb (i_valid i) then
    sb <- gets k_sb ;;
    bp <- bread (i_dev i) (IBLOCK (i_inum i) sb) ;;
    bs <- gets (fun s => b_data (bufs s bp)) ;;
    modify (upd_inode ip (load_dinode bs (dinode_off (i_inum i)))) ;;;
    brelse bp ;;;
    modify (upd_inode ip (set_i_valid true)) ;;;
    type <- gets (fun s => i_type (inodes s ip)) ;;
    if type =? 0 then panic "ilock: no type" else ret tt
  else ret tt.

Definition iunlock (ip : nat) : K unit :=
  h <- holdingsleep (SLInode ip) ;;
  ref <- gets (fun s => i_ref (inodes s ip)) ;;
  if negb h || (ref <? 1) then panic "iunlock" else
  releasesleep (SLInode ip).

(** One round of the loop over the direct blocks of [itrunc], and of the loop
    over the words of the indirect block [bp]. *)
Definition itrunc_direct (ip i : nat) : K unit :=
  a <- gets (fun s => i_addrs (inodes s ip) !!! i) ;;
  if a =? 0 then ret tt else
  dev <- gets (fun s => i_dev (inodes s ip)) ;;
  bfree dev a ;;;
  modify (upd_inode ip (fun x => set_i_addrs (<[i := 0]> (i_addrs x)) x)).

Definition itrunc_indirect (ip bp j : nat) : K unit :=
  a <- gets (fun s => ind_get (b_data (bufs s bp)) (Z.of_nat j)) ;;
  if a =? 0 then ret tt else
  dev <- gets (fun s => i_dev (inodes s ip)) ;;
  bfree dev a.

Definition itrunc (ip : nat) : K unit :=
  mfor (itrunc_direct ip) (seq 0 (Z.to_nat NDIRECT)) ;;;
  i <- gets (fun s => inodes s ip) ;;
  let a := i_addrs i !!! Z.to_nat NDIRECT in
  (if a =? 0 then ret tt else
     bp <- bread (i_dev i) a ;;
     mfor (itrunc_indirect ip bp) (seq 0 (Z.to_nat NINDIRECT)) ;;;
     brelse bp ;;;
     bfree (i_dev i) a ;;;
     modify (upd_inode ip (fun x =>
       set_i_addrs (<[Z.to_nat NDIRECT := 0]> (i_addrs x)) x))) ;;;
  modify (upd_inode ip (set_i_size 0)) ;;;
  iupdate ip.

Definition iput (ip : nat) : K unit :=
  acquiresleep (SLInode ip) ;;;
  i <- gets (fun s => inodes s ip) ;;
  (if i_valid i && (i_nlink i =? 0) then
     acquire L_icache ;;;
     r <- gets (fun s => i_ref (inodes s ip)) ;;
     release L_icache ;;;
     if r =? 1 then
       itrunc ip ;;;
       modify (upd_inode ip (set_i_type 0)) ;;;
       iupdate ip ;;;
       modify (upd_inode ip (set_i_valid false))
     else ret tt
   else ret tt) ;;;
  releasesleep (SLInode ip) ;;;
  acquire L_icache ;;;
  modify (upd_inode ip (fun i => set_i_ref (i_ref i - 1) i)) ;;;
  release L_icache.

Definition iunlockput (ip : nat) : K unit := iunlock ip ;;; iput ip.

(** ** Inode content *)

Definition set_addr (ip : nat) (k : Z) (v : Z) : K unit :=
  modify (upd_inode ip (fun x => set_i_addrs (<[Z.to_nat k := v]> (i_addrs x)) x)).

(** The block number at [ip->addrs[k]], allocated when it is 0. *)
Definition addr_or_alloc (ip : nat) (k : Z) : K Z :=
  i <- gets (fun s => inodes s ip) ;;
  let addr := i_addrs i !!! Z.to_nat k in
  if addr =? 0 then
    addr <- balloc (i_dev i) ;;
    set_addr ip k addr ;;;
    ret addr
  else ret addr.

Definition bmap (ip : nat) (bn : Z) : K Z :=
  if bn <? NDIRECT then addr_or_alloc ip bn else
  let bn := bn - NDIRECT in
  if bn <? NINDIRECT then
    addr <- addr_or_alloc ip NDIRECT ;;
    dev <- gets (fun s => i_dev (inodes s ip)) ;;
    bp <- bread dev addr ;;
    addr <- gets (fun s => ind_get (b_data (bufs s bp)) bn) ;;
    addr <- (if addr =? 0 then
               addr <- balloc dev ;;
               upd_data bp (ind_set bn addr) ;;;
               log_write bp ;;;
               ret addr
             else ret addr) ;;
    brelse bp ;;;
    ret addr
  else panic "bmap: out of range".

(** The fields of a [struct stat] in user memory: type at 0, dev at 4, ino at
    8, nlink at 12 and size at 16. *)
Definition stati (ip : nat) (st : Z) : K unit :=
  i <- gets (fun s => inodes s ip) ;;
  ustore (st + 4) (le32 (i_dev i)) ;;;
  ustore (st + 8) (le32 (i_inum i)) ;;;
  ustore st (le16 (i_type i)) ;;;
  ustore (st + 12) (le16 (i_nlink i)) ;;;
  ustore (st + 16) (le32 (i_size i)).

Context {V : DevSw}.

(** The copy loops; each round handles at least one byte and ends at a block
    boundary or at the end, so [n / BSIZE + 2] rounds are enough. *)
Fixpoint readi_loop {A} (put : sink A) (ip : nat) (off n tot : Z) (a : A) (k : nat) : K A :=
  match k with
  | O => spin
  | S k =>
    if tot <? n then
      bno <- bmap ip (off / BSIZE) ;;
      dev <- gets (fun s => i_dev (inodes s ip)) ;;
      bp <- bread dev bno ;;
      let m := Z.min (n - tot) (BSIZE - off mod BSIZE) in
      bs <- gets (fun s => b_data (bufs s bp)) ;;
      a <- put a (take (Z.to_nat m) (drop (Z.to_nat (off mod BSIZE)) bs)) ;;
      brelse bp ;;;
      readi_loop put ip (off + m) n (tot + m) a k
    else ret a
  end.

Definition copy_rounds (n : Z) : nat := Z.to_nat (n / BSIZE + 3).

Definition readi {A} (put : sink A) (a : A) (ip : nat) (off n : Z) : K (Z * A) :=
  i <- gets (fun s => inodes s ip) ;;
  if i_type i =? T_DEV then
    if (i_major i <? 0) || (NDEV <=? i_major i) then ret (-1, a) else
    match dev_read (i_major i) with
    | None => ret (-1, a)
    | Some rd => rd A put a ip (s32 n)
    end
  else
    if (i_size i <? off) || (u32 (off + n) <? off) then ret (-1, a) else
    let n := if i_size i <? u32 (off + n) then i_size i - off else n in
    a <- readi_loop put ip off n 0 a (copy_rounds n) ;;
    ret (s32 n, a).

Fixpoint writei_loop (get : source) (ip : nat) (off n tot : Z) (k : nat) : K Z :=
  match k with
  | O => spin
  | S k =>
    if tot <? n then
      bno <- bmap ip (off / BSIZE) ;;
      dev <- gets (fun s => i_dev (inodes s ip)) ;;
      bp <- bread dev bno ;;
      let m := Z.min (n - tot) (BSIZE - off mod BSIZE) in
      bs <- get tot m ;;
      upd_data bp (splice (Z.to_nat (off mod BSIZE)) bs) ;;;
      log_write bp ;;;
      brelse bp ;;;
      writei_loop get ip (off + m) n (tot + m) k
    else ret off
  end.

Definition writei (get : source) (ip : nat) (off n : Z) : K Z :=
  i <- gets (fun s => inodes s ip) ;;
  if i_type i =? T_DEV then
    if (i_major i <? 0) || (NDEV <=? i_major i) then ret (-1) else
    match dev_write (i_major i) with
    | None => ret (-1)
    | Some wr => wr get ip (s32 n)
    end
  else
    if (i_size i <? off) || (u32 (off + n) <? off) then ret (-1) else
    if MAXFILE * BSIZE <? u32 (off + n) then ret (-1) else
    off <- writei_loop get ip off n 0 (copy_rounds n) ;;
    size <- gets (fun s => i_size (inodes s ip)) ;;
    (if (0 <? n) && (size <? off) then
       modify (upd_inode ip (set_i_size off)) ;;;
       iupdate ip
     else ret tt) ;;;
    ret (s32 n).

(** ** Directories *)

Definition namecmp (s t : list Z) : Z := strncmp (arr s) (arr t) (Z.to_nat DIRSIZ).

Definition de_inum (bs : list Z) : Z := get16 bs 0.
Definition de_name (bs : list Z) : list Z := drop 2 bs.

(** Read the directory entry at [off] into a local [struct dirent]. *)
Definition read_dirent (msg : string) (dp : nat) (off : Z) : K (list Z) :=
  r <- readi kern_sink [] dp off DIRENT_SIZE ;;
  if fst r =? DIRENT_SIZE then ret (snd r) else panic msg.

(** One round per entry of the directory. *)
Definition dir_rounds (size : Z) : nat := Z.to_nat (size / DIRENT_SIZE + 2).

Fixpoint dirlookup_loop (dp : nat) (name : list Z) (off : Z) (k : nat) : K (option (nat * Z)) :=
  match k with
  | O => spin
  | S k =>
    d <- gets (fun s => inodes s dp) ;;
    if off <? i_size d then
      de <- read_dirent "dirlookup read" dp off ;;
      if de_inum de =? 0 then dirlookup_loop dp name (off + DIRENT_SIZE) k
      else if namecmp name (de_name de) =? 0 then
        ip <- iget (i_dev d) (de_inum de) ;;
        ret (Some (ip, off))
      else dirlookup_loop dp name (off + DIRENT_SIZE) k
    else ret None
  end.

(** The inode of the entry and, for [poff], the entry's offset. *)
Definition dirlookup (dp : nat) (name : list Z) : K (option (nat * Z)) :=
  d <- gets (fun s => inodes s dp) ;;
  if negb (i_type d =? T_DIR) then panic "dirlookup not DIR" else
  dirlookup_loop dp name 0 (dir_rounds (i_size d)).

(** The scan of [dirlink] for an empty entry: where it stops. *)
Fixpoint dirlink_scan (dp : nat) (off : Z) (k : nat) : K Z :=
  match k with
  | O => spin
  | S k =>
    d <- gets (fun s => inodes s dp) ;;
    if off <? i_size d then
      de <- read_dirent "dirlink read" dp off ;;
      if de_inum de =? 0 then ret off else dirlink_scan dp (off + DIRENT_SIZE) k
    else ret off
  end.

(** The bytes of a [struct dirent]; [strncpy] fills the whole name. *)
Definition dirent_bytes (name : list Z) (inum : Z) : list Z :=
  le16 inum ++ strncpy (replicate (Z.to_nat DIRSIZ) 0) (arr name) DIRSIZ.

Definition dirlink (dp : nat) (name : list Z) (inum : Z) : K Z :=
  r <- dirlookup dp name ;;
  match r with
  | Some (ip, _) => iput ip ;;; ret (-1)
  | None =>
    d <- gets (fun s => inodes s dp) ;;
    off <- dirlink_scan dp 0 (dir_rounds (i_size d)) ;;
    n <- writei (kern_source (dirent_bytes name inum)) dp off DIRENT_SIZE ;;
    if n =? DIRENT_SIZE then ret 0 else panic "dirlink"
  end.

(** ** Paths *)

(** A path is its bytes before the NUL; [skip_slashes] is the loop over leading slashes. *)
Fixpoint skip_slashes (path : list Z) : list Z :=
  match path with
  | c :: rest => if c =? 47 then skip_slashes rest else path
  | [] => []
  end.

(** The bytes up to the next slash, and the rest. *)
Fixpoint take_elem (path : list Z) : list Z * list Z :=
  match path with
  | c :: rest =>
    if c =? 47 then ([], path)
    else let '(e, r) := take_elem rest in (c :: e, r)
  | [] => ([], [])
  end.

(** The rest of the path and the new contents of the [name] buffer; [None] is
    the null pointer. *)
Definition skipelem (path name : list Z) : option (list Z * list Z) :=
  let path := skip_slashes path in
  match path with
  | [] => None
  | _ =>
    let '(s, path) := take_elem path in
    let name :=
      if DIRSIZ <=? Z.of_nat (length s)
      then splice 0 (take (Z.to_nat DIRSIZ) s) name
      else splice 0 (s ++ [0]) name in
    Some (skip_slashes path, name)
  end.

Fixpoint namex_loop (path : list Z) (nameiparent : bool) (name : list Z) (ip : nat) (k : nat)
    : K (option nat * list Z) :=
  match k with
  | O => spin
  | S k =>
    match skipelem path name with
    | None =>
      if nameiparent then iput ip ;;; ret (None, name) else ret (Some ip, name)
    | Some (path, name) =>
      ilock ip ;;;
      type <- gets (fun s => i_type (inodes s ip)) ;;
      if negb (type =? T_DIR) then iunlockput ip ;;; ret (None, name) else
      if nameiparent && bool_decide (path = []) then iunlock ip ;;; ret (Some ip, name) else
      next <- dirlookup ip name ;;
      match next with
      | None => iunlockput ip ;;; ret (None, name)
      | Some (next, _) =>
        iunlockput ip ;;;
        namex_loop path nameiparent name next k
      end
    end
  end.

(** The inode and the final contents of [name]; every round consumes a byte
    of the path. *)
Definition namex (path : list Z) (nameiparent : bool) (name : list Z)
    : K (option nat * list Z) :=
  ip <- (if bool_decide (head path = Some 47) then iget ROOTDEV ROOTINO
         else
           p <- curproc ;;
           cwd <- gets (fun s => p_cwd (procs s p)) ;;
           match cwd with Some ip => idup ip | None => panic "trap" end) ;;
  namex_loop path nameiparent name ip (S (length path)).

Definition namei (path : list Z) : K (option nat) :=
  r <- namex path false (replicate (Z.to_nat DIRSIZ) 0) ;; ret (fst r).

Definition nameiparent (path name : list Z) : K (option nat * list Z) :=
  namex path true name.
End Fs.
