(* ===== verification/FsBlock.v ===== *)
(** Blocks inside a file system operation: what [bread], changing the data,
    [log_write] and [brelse] do together, and with that the block
    allocator, [bzero] and [iupdate].

    [op] is the state of a process between [begin_op] and [end_op]: the
    buffers it holds and the blocks it has logged.  An operation's effect is
    stated on [content], the data every later [bread] sees. *)

From stdpp Require Import base list sets strings.
From Stdlib Require Import ZArith Lia.
From S2P Require Import Prelude State Demo CString Sched Sleeplock Disk Bio Log.
From S2P Require Import Fs.

Open Scope kernel_scope.

(** ** What block operations leave alone *)

(** A process that may have been woken. *)
Definition woken (x y : proc) : Prop := exists st, y = set_p_state st x.

(** Only the cache, the blocks in the log and the states of other processes
    differ. *)
Record fs_frame (s s' : kstate) : Prop := {
  fr_proc : Forall2 woken (k_proc s) (k_proc s');
  fr_log : exists n bk, k_log s' = set_l_n n (set_l_block bk (k_log s));
  fr_rest : s' = set_k_proc (k_proc s') (set_k_bcache (k_bcache s')
    (set_k_log (k_log s') s)) }.

#[export] Instance woken_preorder : PreOrder woken.
Proof.
  split; [intros x; exists (p_state x); by destruct x|].
  intros x y z [st1 ->] [st2 ->]. by exists st2.
Qed.

Lemma log_eta lg : exists n bk, lg = set_l_n n (set_l_block bk lg).
Proof. exists (l_n lg), (l_block lg). by destruct lg. Qed.

#[export] Instance fs_frame_preorder : PreOrder fs_frame.
Proof.
  split.
  - intros s. split; [done| |by destruct s].
    apply log_eta.
  - intros s1 s2 s3 [P1 (n1 & b1 & L1) R1] [P2 (n2 & b2 & L2) R2]. split.
    + by etransitivity.
    + exists n2, b2. rewrite L2, L1. done.
    + rewrite R2, R1. done.
Qed.

Lemma frame_bcache c s : fs_frame s (set_k_bcache c s).
Proof.
  destruct (reflexivity (R := fs_frame) s) as [P L _]. split; [exact P|exact L|by destruct s].
Qed.

(** Parts of the state that no block operation changes. *)
Lemma frame_same s s' : fs_frame s s' ->
  k_disk s' = k_disk s /\ k_disksize s' = k_disksize s /\ k_sb s' = k_sb s /\
  k_icache s' = k_icache s /\ k_ftable s' = k_ftable s /\ k_mem s' = k_mem s /\
  k_cur s' = k_cur s /\ k_held s' = k_held s /\ k_wlog s' = k_wlog s /\
  l_size (k_log s') = l_size (k_log s).
Proof. intros [_ (n & bk & L) R]. rewrite L. rewrite R. done. Qed.

(** ** The free map *)

Lemma has_bit x k : 0 <= k -> has x (Z.shiftl 1 k) = Z.testbit x k.
Proof.
  intros Hk. unfold has. destruct (Z.testbit x k) eqn:E.
  - apply negb_true_iff, Z.eqb_neq. intros H0. apply (f_equal (fun y => Z.testbit y k)) in H0.
    rewrite Z.land_spec, E, Z.shiftl_spec, Z.sub_diag, Z.bits_0 in H0 by done. done.
  - apply negb_false_iff, Z.eqb_eq, Z.bits_inj'. intros i Hi.
    rewrite Z.land_spec, Z.bits_0, Z.shiftl_1_l.
    destruct (decide (i = k)) as [->|]; [by rewrite E|].
    rewrite Z.pow2_bits_false by congruence. apply andb_false_r.
Qed.

Lemma bit_used_eq bs bi : bit_used bs bi = Z.testbit (bs !!! Z.to_nat (bi / 8)) (bi mod 8).
Proof. apply has_bit. apply Z.mod_pos_bound. lia. Qed.

Lemma bit_pos bi bj : 0 <= bi -> 0 <= bj -> Z.to_nat (bi / 8) = Z.to_nat (bj / 8) ->
  bi mod 8 = bj mod 8 -> bi = bj.
Proof.
  intros Hi Hj H1 H2. pose proof (Z.div_pos bi 8). pose proof (Z.div_pos bj 8).
  pose proof (Z.div_mod bi 8). pose proof (Z.div_mod bj 8). lia.
Qed.

Lemma bit_index (bs : list Z) bi : 0 <= bi < BPB -> length bs = Z.to_nat BSIZE ->
  (Z.to_nat (bi / 8) < length bs)%nat.
Proof.
  intros Hi ->. assert (bi / 8 < 512); [apply Z.div_lt_upper_bound; unfold BPB, BSIZE in *; lia|].
  pose proof (Z.div_pos bi 8). unfold BSIZE. lia.
Qed.

Lemma bit_set_spec bs bi bj :
  length bs = Z.to_nat BSIZE -> 0 <= bi < BPB -> 0 <= bj < BPB ->
  bit_used (bit_set bi bs) bj = if decide (bj = bi) then true else bit_used bs bj.
Proof.
  intros Hl Hi Hj. rewrite !bit_used_eq. unfold bit_set, bit_byte, bit_mask.
  destruct (decide (Z.to_nat (bi / 8) = Z.to_nat (bj / 8))) as [E|E].
  - rewrite <- E, list_lookup_total_insert_eq, Z.lor_spec, Z.shiftl_1_l by by apply bit_index.
    case_decide as Hd; [subst; rewrite Z.pow2_bits_true by (apply Z.mod_pos_bound; lia); apply orb_true_r|].
    rewrite Z.pow2_bits_false; [apply orb_false_r|]. intros Em. apply Hd. symmetry.
    apply bit_pos; lia.
  - rewrite list_lookup_total_insert_ne by done. rewrite decide_False; [done|]. by intros ->.
Qed.

Lemma bit_clear_spec bs bi bj :
  length bs = Z.to_nat BSIZE -> 0 <= bi < BPB -> 0 <= bj < BPB ->
  bit_used (bit_clear bi bs) bj = if decide (bj = bi) then false else bit_used bs bj.
Proof.
  intros Hl Hi Hj. rewrite !bit_used_eq. unfold bit_clear, bit_byte, bit_mask, u8.
  pose proof (Z.mod_pos_bound bi 8). pose proof (Z.mod_pos_bound bj 8).
  destruct (decide (Z.to_nat (bi / 8) = Z.to_nat (bj / 8))) as [E|E].
  - rewrite <- E, list_lookup_total_insert_eq, Z.land_spec, Z.shiftl_1_l by by apply bit_index.
    change 256 with (2 ^ 8). rewrite Z.mod_pow2_bits_low, Z.lnot_spec by lia.
    case_decide as Hd; [subst; rewrite Z.pow2_bits_true by lia; apply andb_false_r|].
    rewrite Z.pow2_bits_false; [apply andb_true_r|]. intros Em. apply Hd. symmetry.
    apply bit_pos; lia.
  - rewrite list_lookup_total_insert_ne by done. rewrite decide_False; [done|]. by intros ->.
Qed.

(** The scan stops at the first free bit below the size of the disk. *)
Lemma balloc_scan_spec bs b size : forall k bi,
  match balloc_scan bs b size bi k with
  | Some r => bi <= r < bi + Z.of_nat k /\ b + r < size /\ bit_used bs r = false /\
      forall j, bi <= j < r -> bit_used bs j = true
  | None => forall j, bi <= j < bi + Z.of_nat k -> b + j < size -> bit_used bs j = true
  end.
Proof.
  induction k as [|k IH]; intros bi; simpl; [lia|].
  destruct (Z.ltb_spec (b + bi) size); [|lia].
  destruct (bit_used bs bi) eqn:E; simpl; [|split_and!; [lia..|done|lia]].
  specialize (IH (bi + 1)). destruct (balloc_scan bs b size (bi + 1) k) as [r|].
  - destruct IH as (? & ? & ? & Hj). split_and!; [lia..|done|].
    intros j Hij. destruct (decide (j = bi)) as [->|]; [done|]. apply Hj. lia.
  - intros j Hij Hs. destruct (decide (j = bi)) as [->|]; [done|]. apply IH; lia.
Qed.

Section Blocks.
Context {D : DiskDriver} (p : nat) (dev : Z) (Hdev : dev <> 0).

(** The buffers [H] are held and the blocks [bl] are logged. *)
Record op (s : kstate) (H : list nat) (bl : list Z) : Prop := {
  op_sess : exists l, sess p s l H;
  op_logged : logged (k_log s) bl;
  op_slots : length (l_block (k_log s)) = Z.to_nat LOGSIZE;
  op_dirty : dirty_in dev s bl }.

(** One more block can be logged. *)
Definition can_log (s : kstate) (bl : list Z) : Prop :=
  1 <= l_outstanding (k_log s) /\ Z.of_nat (length bl) < LOGSIZE /\ Z.of_nat (length bl) < l_size (k_log s) - 1.

Lemma frame_log s s' : fs_frame s s' ->
  l_size (k_log s') = l_size (k_log s) /\ l_outstanding (k_log s') = l_outstanding (k_log s).
Proof. intros [_ (n & bk & ->) _]. done. Qed.

Lemma can_log_frame s s' bl : fs_frame s s' -> can_log s' bl <-> can_log s bl.
Proof. intros [E1 E2]%frame_log. unfold can_log. by rewrite E1, E2. Qed.

Definition same_content (s s' : kstate) : Prop :=
  forall d n, d <> 0 -> content s' d n = content s d n.

(** [b] has just been read. *)
Record fetched (s : kstate) (bno : Z) (b : nat) (s1 : kstate) : Prop := {
  fe_id : bid (bufs s1 b) = (dev, bno);
  fe_data : b_data (bufs s1 b) = content s dev bno;
  fe_coh : b_flags (bufs s1 b) = 6 \/ b_data (bufs s1 b) = k_disk s1 dev bno;
  fe_content : same_content s s1;
  fe_other : forall y, y <> b -> bufs s1 y = bufs s y;
  fe_frame : fs_frame s s1 }.

Lemma op_bread s H bl bno :
  op s H bl -> disk_serves dev bno (k_disksize s) = true ->
  (forall b, b ∈ H -> bid (bufs s b) <> (dev, bno)) -> (length H + length bl < NBUF)%nat ->
  exists b s1, bread dev bno s = Ret b s1 /\ b ∉ H /\ op s1 (b :: H) bl /\ fetched s bno b s1.
Proof.
  intros [[l Hs] Hlg Hsl Hdt] Hsv HH Hlen.
  destruct (bread_sess p s l H dev bno Hs Hdev Hsv HH) as (b & s1 & E & Hb).
  { by eapply (room_free p dev). }
  exists b, s1. destruct Hb as [[nf ->] Bf Bs Bid Bd Bo Bc Bct Bdt].
  split; [done|]. split; [done|]. split.
  - split; [by exists l|done|done|]. intros d n Hd. by apply Hdt, Bdt.
  - split; try done; [|apply frame_bcache]. destruct Bc; [by left|right]. by rewrite Bd.
Qed.

Lemma op_brelse s H bl b :
  op s (b :: H) bl -> b ∉ H ->
  b_flags (bufs s b) = 6 \/
    b_data (bufs s b) = k_disk s (b_dev (bufs s b)) (b_blockno (bufs s b)) ->
  exists s', brelse b s = Ret tt s' /\ op s' H bl /\ same_content s s' /\
    (forall y, key (bufs s' y) = key (bufs s y)) /\ fs_frame s s'.
Proof.
  intros [[l Hs] Hlg Hsl Hdt] HbH Hcoh. exists (released b s).
  assert (Hb : b ∈ b :: H) by by left.
  destruct (ss_in _ _ _ _ Hs b Hb) as (Hlt & _). pose proof (wf_len _ _ (ss_wf _ _ _ _ Hs)) as Hlen.
  assert (forall y, key (bufs (released b s) y) = key (bufs s y)) as Hk
    by (intros y; apply key_released; lia).
  destruct (sess_released p s l (b :: H) H b Hs Hb) as [l' Hs']; [set_solver|done|].
  split; [by eapply brelse_eq|]. split.
  - split; [by exists l'|done|done|]. intros d n Hd. apply Hdt. by apply (dirty_key s _ d n Hk).
  - split; [intros d n _; by apply content_key|]. split; [done|].
    split; [|apply log_eta|by destruct s].
    change (k_proc (released b s)) with (map (wake_one (ChanBufLock b)) (k_proc s)).
    apply Forall2_fmap_r, Forall_Forall2_diag, Forall_forall. intros x _. simpl.
    unfold wake_one. case_decide; [by exists RUNNABLE|done].
Qed.

(** Changing the data of a held buffer and logging it. *)
Lemma op_write s H bl b bno f :
  op s H bl -> b ∈ H -> bid (bufs s b) = (dev, bno) -> can_log s bl ->
  exists s', (upd_data b f ;;; log_write b) s = Ret tt s' /\ op s' H (absorb bl bno) /\
    content s' dev bno = f (b_data (bufs s b)) /\
    (forall d n, d <> 0 -> (d, n) <> (dev, bno) -> content s' d n = content s d n) /\
    bufs s' b = set_b_flags 6 (set_b_data (f (b_data (bufs s b))) (bufs s b)) /\
    (forall y, y <> b -> bufs s' y = bufs s y) /\ fs_frame s s'.
Proof.
  intros [[l Hs] Hlg Hsl Hdt] Hb Hid (Hop & Hc1 & Hc2).
  destruct (ss_in _ _ _ _ Hs b Hb) as (Hlt & _ & _ & _ & Hf).
  pose proof (wf_len _ _ (ss_wf _ _ _ _ Hs)) as Hlen.
  set (dat := f (b_data (bufs s b))). set (s1 := upd_buf b (set_b_data dat) s).
  assert (Es1 : upd_data b f s = Ret tt s1).
  { unfold upd_data, modify, s1. f_equal. by apply upd_buf_ext. }
  assert (Hs1 : sess p s1 l H) by (apply sess_upd_held; done).
  assert (Eb : bufs s1 b = set_b_data dat (bufs s b)) by (apply bufs_upd_eq; lia).
  assert (Ebno : b_blockno (bufs s1 b) = bno) by (rewrite Eb; unfold bid in Hid; by simplify_eq/=).
  destruct (log_written_spec p s1 l H b bl Hs1 Hb) as (Hs2 & Eb2 & Hct & Hd2).
  exists (log_written bl b s1). split_and!.
  - mstep Es1. apply log_write_eq; try done. apply Hs1.
  - split; [by exists l| |by rewrite <- Hsl; apply length_insert|].
    + rewrite <- Ebno. by apply absorbed_logged.
    + intros d n [Hd|Hd]%Hd2.
      * apply (dirty_upd_held s b (set_b_data dat)) in Hd; [|done|lia|done].
        destruct (Hdt d n Hd) as [-> Hin]. split; [done|]. unfold absorb. case_decide; set_solver.
      * rewrite Eb in Hd. change (bid (set_b_data dat (bufs s b))) with (bid (bufs s b)) in Hd.
        rewrite Hid in Hd. injection Hd as <- <-. split; [done|].
        unfold absorb. case_decide; set_solver.
  - rewrite Hct by done. unfold s1. rewrite (content_set_data p s l H) by done. by rewrite decide_True.
  - intros d n Hd Hne. rewrite Hct by done. unfold s1.
    rewrite (content_set_data p s l H) by done. rewrite decide_False; [done|]. congruence.
  - by rewrite Eb2, Eb.
  - intros y Hy. unfold log_written. rewrite bufs_upd_ne by done.
    change (bufs s1 y = bufs s y). by apply bufs_upd_ne.
  - split; [done|by eexists _, _|by destruct s].
Qed.

(** The effect of updating one block. *)
Record updated (s : kstate) (H : list nat) (bl : list Z) (bno : Z) (dat : list Z) (s' : kstate)
    : Prop := {
  up_op : op s' H (absorb bl bno);
  up_new : content s' dev bno = dat;
  up_other : forall d n, d <> 0 -> (d, n) <> (dev, bno) -> content s' d n = content s d n;
  up_held : forall y, y ∈ H -> key (bufs s' y) = key (bufs s y);
  up_frame : fs_frame s s' }.

Lemma op_finish s H bl bno b s1 f :
  op s1 (b :: H) bl -> b ∉ H -> fetched s bno b s1 -> can_log s bl ->
  exists s', (upd_data b f ;;; log_write b ;;; brelse b) s1 = Ret tt s' /\
    updated s H bl bno (f (content s dev bno)) s'.
Proof.
  intros Hop HbH [Fid Fd Fc Fct Fo Ff] Hcan.
  assert (can_log s1 bl) as Hcan1 by by apply (can_log_frame _ _ _ Ff).
  destruct (op_write s1 (b :: H) bl b bno f Hop) as (s2 & E2 & Hop2 & Hn & Ho & Hb & Hy & Hf2);
    [by left|done|done|].
  destruct (op_brelse s2 H (absorb bl bno) b Hop2 HbH) as (s3 & E3 & Hop3 & Hct & Hk & Hf3).
  { left. by rewrite Hb. }
  exists s3. split.
  - rewrite <- bind_assoc. mstep E2. exact E3.
  - split; [done| | | |].
    + by rewrite Hct, Hn, Fd by done.
    + intros d n Hd Hne. rewrite Hct, Ho by done. by apply Fct.
    + intros y Hyin. assert (y <> b) by (intros ->; done).
      by rewrite Hk, Hy, Fo by done.
    + by do 2 (etransitivity; [eassumption|]).
Qed.

(** Reading a block without changing it. *)
Lemma op_giveback s H bl bno b s1 :
  op s1 (b :: H) bl -> b ∉ H -> fetched s bno b s1 ->
  exists s', brelse b s1 = Ret tt s' /\ op s' H bl /\ same_content s s' /\
    (forall y, y ∈ H -> key (bufs s' y) = key (bufs s y)) /\ fs_frame s s'.
Proof.
  intros Hop HbH [Fid Fd Fc Fct Fo Ff].
  destruct (op_brelse s1 H bl b Hop HbH) as (s2 & E2 & Hop2 & Hct & Hk & Hf2).
  { destruct Fc as [?|Fc]; [by left|right]. unfold bid in Fid. by injection Fid as -> ->. }
  exists s2. split_and!; [done|done| | |by etransitivity].
  - intros d n Hd. by rewrite Hct, Fct.
  - intros y Hyin. assert (y <> b) by (intros ->; done). by rewrite Hk, Fo.
Qed.

Definition readable (s : kstate) (H : list nat) (bl : list Z) (bno : Z) : Prop :=
  disk_serves dev bno (k_disksize s) = true /\
  (forall b, b ∈ H -> bid (bufs s b) <> (dev, bno)) /\ (length H + length bl < NBUF)%nat.

Lemma op_update s H bl bno f :
  op s H bl -> readable s H bl bno -> can_log s bl ->
  exists s', (bp <- bread dev bno ;; upd_data bp f ;;; log_write bp ;;; brelse bp) s = Ret tt s' /\
    updated s H bl bno (f (content s dev bno)) s'.
Proof.
  intros Hop (Hsv & HH & Hlen) Hcan.
  destruct (op_bread s H bl bno Hop Hsv HH Hlen) as (b & s1 & E & HbH & Hop1 & Hf). mstep E.
  by apply op_finish.
Qed.

(** ** [bzero] *)

Lemma bzero_ok s H bl bno :
  op s H bl -> readable s H bl bno -> can_log s bl ->
  exists s', bzero dev bno s = Ret tt s' /\
    updated s H bl bno (replicate (Z.to_nat BSIZE) 0) s'.
Proof. apply (op_update s H bl bno (fun _ => replicate (Z.to_nat BSIZE) 0)). Qed.

(** ** [balloc] and [bfree] *)

Definition free_block (s : kstate) (r : Z) : Prop :=
  bit_used (content s dev (BBLOCK r (k_sb s))) (r mod BPB) = false.

(** The free map can be read, and the blocks it calls free are neither held
    nor part of it. *)
Record bitmap_ok (s : kstate) (H : list nat) : Prop := {
  bm_serves b : 0 <= b < sb_size (k_sb s) -> disk_serves dev b (k_disksize s) = true /\
    disk_serves dev (BBLOCK b (k_sb s)) (k_disksize s) = true /\
    length (content s dev (BBLOCK b (k_sb s))) = Z.to_nat BSIZE;
  bm_held y b : y ∈ H -> 0 <= b < sb_size (k_sb s) ->
    bid (bufs s y) <> (dev, BBLOCK b (k_sb s)) /\
    (free_block s b -> bid (bufs s y) <> (dev, b));
  bm_meta r b : 0 <= r < sb_size (k_sb s) -> 0 <= b < sb_size (k_sb s) -> free_block s r ->
    BBLOCK b (k_sb s) <> r }.

(** The effect of allocating block [r]. *)
Record allocated (s : kstate) (H : list nat) (bl : list Z) (r : Z) (s' : kstate) : Prop := {
  al_op : op s' H (absorb (absorb bl (BBLOCK r (k_sb s))) r);
  al_map : content s' dev (BBLOCK r (k_sb s)) =
    bit_set (r mod BPB) (content s dev (BBLOCK r (k_sb s)));
  al_zero : content s' dev r = replicate (Z.to_nat BSIZE) 0;
  al_other : forall d n, d <> 0 -> (d, n) <> (dev, BBLOCK r (k_sb s)) -> (d, n) <> (dev, r) ->
    content s' d n = content s d n;
  al_held : forall y, y ∈ H -> key (bufs s' y) = key (bufs s y);
  al_frame : fs_frame s s' }.

(** Two more blocks can be logged. *)
Definition can_log2 (s : kstate) (H : list nat) (bl : list Z) : Prop :=
  1 <= l_outstanding (k_log s) /\ Z.of_nat (length bl) + 1 < LOGSIZE /\ Z.of_nat (length bl) + 1 < l_size (k_log s) - 1 /\
  (length H + length bl + 1 < NBUF)%nat.

Lemma length_absorb bl b : (length (absorb bl b) <= length bl + 1)%nat.
Proof. unfold absorb. case_decide; rewrite ?length_app; simpl; lia. Qed.

Lemma key_bid x y : key x = key y -> bid x = bid y.
Proof. unfold key, bid. congruence. Qed.

Lemma bitmap_ok_same s s' H :
  same_content s s' -> (forall y, y ∈ H -> key (bufs s' y) = key (bufs s y)) -> fs_frame s s' ->
  bitmap_ok s H -> bitmap_ok s' H /\ (forall r, free_block s' r <-> free_block s r).
Proof.
  intros Hc Hk (_ & Hds & Hsb & _)%frame_same [B1 B2 B3].
  assert (forall r, free_block s' r <-> free_block s r) as Hfr.
  { intros r. unfold free_block. by rewrite Hsb, Hc. }
  split; [|done]. split; rewrite ?Hsb, ?Hds.
  - intros b Hb. rewrite Hc by done. by apply B1.
  - intros y b Hy Hb. rewrite (key_bid _ _ (Hk y Hy)), Hfr. by apply B2.
  - intros r b Hr Hb Hf%Hfr. by apply B3.
Qed.

Lemma allocated_same s s1 H bl r s' :
  same_content s s1 -> (forall y, y ∈ H -> key (bufs s1 y) = key (bufs s y)) -> fs_frame s s1 ->
  allocated s1 H bl r s' -> allocated s H bl r s'.
Proof.
  intros Hc Hk Hf [A1 A2 A3 A4 A5 A6]. destruct (frame_same _ _ Hf) as (_ & _ & Hsb & _).
  rewrite Hsb in *. split; try done.
  - by rewrite A2, Hc.
  - intros d n Hd H1 H2. rewrite A4 by done. by apply Hc.
  - intros y Hy. by rewrite A5, Hk.
  - by etransitivity.
Qed.

(** The bits of one block of the map. *)
Lemma map_block b r : b mod BPB = 0 -> b <= r < b + BPB -> r / BPB = b / BPB /\ r mod BPB = r - b.
Proof.
  intros Hb Hr. pose proof (Z.div_mod b BPB). assert (r / BPB = b / BPB) as E.
  { symmetry. apply Z.div_unique with (r - b); unfold BPB, BSIZE in *; lia. }
  split; [done|]. pose proof (Z.div_mod r BPB). unfold BPB, BSIZE in *. lia.
Qed.

(** Taking the bit found, and clearing the block. *)
Lemma balloc_found s H bl b bp s1 bi :
  op s1 (bp :: H) bl -> bp ∉ H -> fetched s (BBLOCK b (k_sb s)) bp s1 ->
  bitmap_ok s H -> can_log2 s H bl -> b mod BPB = 0 -> 0 <= b -> 0 <= bi < BPB ->
  b + bi < sb_size (k_sb s) -> free_block s (b + bi) ->
  exists s', (upd_data bp (bit_set bi) ;;; log_write bp ;;; brelse bp ;;;
      bzero dev (b + bi) ;;; ret (b + bi)) s1 = Ret (b + bi) s' /\
    allocated s H bl (b + bi) s'.
Proof.
  intros Hop1 HbH Hf [B1 B2 B3] (C0 & C1 & C2 & C3) Hb0 Hb Hbi Hsz Hfree.
  set (r := b + bi) in *. destruct (map_block b r Hb0 ltac:(lia)) as [Hd Hm].
  assert (BBLOCK r (k_sb s) = BBLOCK b (k_sb s)) as Ebb by (unfold BBLOCK; by rewrite Hd).
  destruct (op_finish s H bl (BBLOCK b (k_sb s)) bp s1 (bit_set bi) Hop1 HbH Hf)
    as (s2 & E2 & [U1 U2 U3 U4 U5]); [split_and!; lia|].
  destruct (frame_same _ _ U5) as (_ & Hds & Hsb & _ & _ & _ & _ & _ & _ & Hls).
  pose proof (length_absorb bl (BBLOCK b (k_sb s))).
  destruct (bzero_ok s2 H (absorb bl (BBLOCK b (k_sb s))) r U1) as (s3 & E3 & [V1 V2 V3 V4 V5]).
  { split; [rewrite Hds; apply B1; lia|]. split; [|lia]. intros y Hy.
    rewrite (key_bid _ _ (U4 y Hy)). apply (B2 y r Hy); [lia|done]. }
  { apply (can_log_frame _ _ _ U5). split_and!; lia. }
  exists s3. split.
  { rewrite <- !bind_assoc. rewrite bind_assoc. mstep E2. by mstep E3. }
  split; rewrite ?Ebb; try done.
  - rewrite V3, U2; [rewrite Hm; f_equal; lia|done|]. intros Eq. injection Eq as Eq.
    by apply (B3 r b ltac:(lia) ltac:(lia) Hfree).
  - intros d n Hd1 H1 H2. rewrite V3, U3; done.
  - intros y Hy. by rewrite V4, U4.
  - by etransitivity.
Qed.

(** One round of the loop: the bits of the block at [b]. *)
Lemma balloc_round s H bl b k :
  op s H bl -> bitmap_ok s H -> can_log2 s H bl ->
  b mod BPB = 0 -> 0 <= b < sb_size (k_sb s) ->
  (exists r s', balloc_loop dev b (S k) s = Ret r s' /\ allocated s H bl r s' /\
     b <= r < sb_size (k_sb s) /\ free_block s r /\ forall r', b <= r' < r -> ~ free_block s r') \/
  (exists s', balloc_loop dev b (S k) s = balloc_loop dev (b + BPB) k s' /\ op s' H bl /\
     same_content s s' /\ (forall y, y ∈ H -> key (bufs s' y) = key (bufs s y)) /\ fs_frame s s' /\
     forall r', b <= r' < b + BPB -> r' < sb_size (k_sb s) -> ~ free_block s r').
Proof.
  intros Hop Hbm Hcan Hb0 Hb. pose proof Hcan as (C0 & C1 & C2 & C3). pose proof Hbm as [B1 B2 B3].
  cbn [balloc_loop]. rewrite (bind_Ret _ _ _ _ _ (gets_eq _ _)).
  rewrite (proj2 (Z.ltb_lt _ _)) by lia. destruct (B1 b Hb) as (_ & Hsv & Hlen).
  destruct (op_bread s H bl (BBLOCK b (k_sb s)) Hop Hsv) as (bp & s1 & E & HbH & Hop1 & Hf);
    [intros y Hy; by apply (B2 y b Hy)|lia|].
  rewrite (bind_Ret _ _ _ _ _ E), (bind_Ret _ _ _ _ _ (gets_eq _ _)), (fe_data _ _ _ _ Hf).
  pose proof (balloc_scan_spec (content s dev (BBLOCK b (k_sb s))) b (sb_size (k_sb s))
    (Z.to_nat BPB) 0) as Hscan.
  assert (forall j, b <= j < b + BPB -> free_block s j <->
    bit_used (content s dev (BBLOCK b (k_sb s))) (j - b) = false) as Hbit.
  { intros j Hj. destruct (map_block b j Hb0 Hj) as [Hd Hm]. unfold free_block, BBLOCK.
    by rewrite Hd, Hm. }
  assert (Hp : 0 < BPB) by (unfold BPB, BSIZE; lia).
  destruct (balloc_scan _ _ _ _ _) as [bi|].
  - left. destruct Hscan as (Hbi & Hbs & Hun & Hpre).
    assert (free_block s (b + bi)) as Hfree
      by (apply Hbit; [lia|]; by replace (b + bi - b) with bi by lia).
    destruct (balloc_found s H bl b bp s1 bi Hop1 HbH Hf Hbm Hcan Hb0) as (s2 & E2 & Ha); [lia..|done|].
    exists (b + bi), s2. split_and!; [done|done|lia|lia|done|].
    intros r' Hr'. rewrite Hbit by lia. rewrite Hpre by lia. done.
  - right. destruct (op_giveback s H bl _ bp s1 Hop1 HbH Hf) as (s2 & E2 & Hop2 & Hc2 & Hk2 & Hf2).
    rewrite (bind_Ret _ _ _ _ _ E2). exists s2. split_and!; try done.
    intros r' Hr' Hs'. rewrite Hbit by lia. rewrite Hscan by lia. done.
Qed.

Lemma balloc_loop_ok H : forall k b s bl,
  op s H bl -> bitmap_ok s H -> can_log2 s H bl ->
  b mod BPB = 0 -> 0 <= b -> sb_size (k_sb s) <= b + Z.of_nat k * BPB ->
  (exists r s', balloc_loop dev b k s = Ret r s' /\ allocated s H bl r s' /\
     b <= r < sb_size (k_sb s) /\ free_block s r /\ forall r', b <= r' < r -> ~ free_block s r') \/
  (exists s', balloc_loop dev b k s = Panic "balloc: out of blocks" s' /\
     forall r, b <= r < sb_size (k_sb s) -> ~ free_block s r).
Proof.
  induction k as [|k IH]; intros b s bl Hop Hbm Hcan Hb0 Hb Hk.
  { right. exists s. split; [done|]. intros; lia. }
  destruct (decide (b < sb_size (k_sb s))) as [Hlt|Hge].
  2: { right. exists s. split; [|intros; lia]. cbn [balloc_loop]. mrun.
       rewrite (proj2 (Z.ltb_ge _ _)) by lia. done. }
  destruct (balloc_round s H bl b k Hop Hbm Hcan Hb0 (conj Hb Hlt))
    as [?|(s1 & E & Hop1 & Hc1 & Hk1 & Hf1 & Hnone)]; [by left|].
  destruct (bitmap_ok_same s s1 H Hc1 Hk1 Hf1 Hbm) as [Hbm1 Hfr1].
  destruct (frame_same _ _ Hf1) as (_ & _ & Hsb & _ & _ & _ & _ & _ & _ & Hls).
  assert (0 < BPB) as Hp by (unfold BPB, BSIZE; lia).
  assert (forall r, b <= r < b + BPB -> r < sb_size (k_sb s) -> ~ free_block s1 r) as Hnone1.
  { intros r H1 H2. rewrite Hfr1. by apply Hnone. }
  destruct (IH (b + BPB) s1 bl Hop1 Hbm1) as [(r & s' & E' & Ha & Hr & Hfree & Hpre)|(s' & E' & Hno)].
  - destruct (frame_log _ _ Hf1) as [E1 E2]. unfold can_log2. by rewrite E1, E2.
  - rewrite Z.add_mod, Hb0, Z_mod_same_full by lia. done.
  - lia.
  - rewrite Hsb. lia.
  - left. exists r, s'. rewrite Hsb in Hr. split_and!; [by rewrite E|by eapply allocated_same|lia|lia|
      by apply Hfr1|]. intros r' Hr'. rewrite <- Hfr1.
    destruct (decide (r' < b + BPB)); [apply Hnone1|apply Hpre]; lia.
  - right. exists s'. split; [by rewrite E|]. rewrite Hsb in Hno. intros r Hr. rewrite <- Hfr1.
    destruct (decide (r < b + BPB)); [apply Hnone1|apply Hno]; lia.
Qed.

(** The free map after an allocation. *)
Lemma allocated_free s H bl r s' b :
  bitmap_ok s H -> allocated s H bl r s' -> free_block s r -> 0 <= r < sb_size (k_sb s) ->
  0 <= b < sb_size (k_sb s) -> free_block s' b <-> free_block s b /\ b <> r.
Proof.
  intros [B1 B2 B3] [A1 A2 A3 A4 A5 A6] Hfree Hr Hb.
  destruct (frame_same _ _ A6) as (_ & _ & Hsb & _). unfold free_block. rewrite Hsb.
  assert (Hp : 0 < BPB) by (unfold BPB, BSIZE; lia).
  destruct (decide (BBLOCK b (k_sb s) = BBLOCK r (k_sb s))) as [E|E].
  - rewrite E, A2, bit_set_spec; [|by apply B1|by apply Z.mod_pos_bound..].
    case_decide as Hd.
    + split; [done|]. intros [_ Hne]. destruct Hne. unfold BBLOCK in E.
      pose proof (Z.div_mod b BPB). pose proof (Z.div_mod r BPB). lia.
    + split; [|by intros [? _]]. intros H1. split; [done|]. by intros ->.
  - rewrite A4; [|done|congruence|intros Eq; injection Eq as Eq; by apply (B3 r b)].
    split; [|by intros [? _]]. intros H1. split; [done|]. by intros ->.
Qed.

(** C22: [balloc] returns the lowest free block, or panics exactly when there is
    none.  The block is then in use and full of zeros, no other block changes
    except the one of the free map that holds its bit, and no other block's
    bit changes. *)
Theorem balloc_allocates s H bl :
  op s H bl -> bitmap_ok s H -> can_log2 s H bl -> 0 <= sb_size (k_sb s) ->
  (exists r s', balloc dev s = Ret r s' /\ 0 <= r < sb_size (k_sb s) /\ free_block s r /\
     (forall r', 0 <= r' < r -> ~ free_block s r') /\
     op s' H (absorb (absorb bl (BBLOCK r (k_sb s))) r) /\
     content s' dev r = replicate (Z.to_nat BSIZE) 0 /\
     (forall b, 0 <= b < sb_size (k_sb s) -> free_block s' b <-> free_block s b /\ b <> r) /\
     (forall d n, d <> 0 -> (d, n) <> (dev, r) -> (d, n) <> (dev, BBLOCK r (k_sb s)) ->
        content s' d n = content s d n) /\ fs_frame s s') \/
  ((forall r, 0 <= r < sb_size (k_sb s) -> ~ free_block s r) /\
   exists s', balloc dev s = Panic "balloc: out of blocks" s').
Proof.
  intros Hop Hbm Hcan Hsz. unfold balloc. mrun.
  destruct (balloc_loop_ok H (Z.to_nat (sb_size (k_sb s) / BPB + 1)) 0 s bl Hop Hbm Hcan)
    as [(r & s' & E & Ha & Hr & Hfree & Hpre)|(s' & E & Hno)]; [done|done| |left|right].
  - pose proof (Z.div_mod (sb_size (k_sb s)) BPB). pose proof (Z.mod_pos_bound (sb_size (k_sb s)) BPB).
    pose proof (Z.div_pos (sb_size (k_sb s)) BPB). unfold BPB, BSIZE in *. lia.
  - exists r, s'. split_and!; [done|lia|lia|done|done|apply Ha|apply Ha| | |apply Ha].
    + intros b Hb. by eapply allocated_free.
    + intros d n Hd H1 H2. by apply (al_other _ _ _ _ _ Ha).
  - split; [done|by exists s'].
Qed.

(** [bfree] returns a block to the free map and changes nothing else; a
    block that is free already is caught. *)
Theorem bfree_frees s H bl b :
  op s H bl -> bitmap_ok s H -> can_log s bl -> (length H + length bl < NBUF)%nat ->
  0 <= b < sb_size (k_sb s) ->
  if bit_used (content s dev (BBLOCK b (k_sb s))) (b mod BPB)
  then exists s', bfree dev b s = Ret tt s' /\ op s' H (absorb bl (BBLOCK b (k_sb s))) /\
    (forall r, 0 <= r < sb_size (k_sb s) -> free_block s' r <-> free_block s r \/ r = b) /\
    (forall d n, d <> 0 -> (d, n) <> (dev, BBLOCK b (k_sb s)) -> content s' d n = content s d n) /\
    fs_frame s s'
  else exists s', bfree dev b s = Panic "freeing free block" s'.
Proof.
  intros Hop [B1 B2 B3] Hcan Hlen Hb. unfold bfree. mrun.
  destruct (B1 b Hb) as (_ & Hsv & Hl).
  destruct (op_bread s H bl (BBLOCK b (k_sb s)) Hop Hsv) as (bp & s1 & E & HbH & Hop1 & Hf);
    [intros y Hy; by apply (B2 y b Hy)|lia|].
  mstep E. mrun. rewrite (fe_data _ _ _ _ Hf).
  assert (Hp : 0 < BPB) by (unfold BPB, BSIZE; lia).
  destruct (bit_used _ _) eqn:Eu; simpl; [|by eexists].
  destruct (op_finish s H bl (BBLOCK b (k_sb s)) bp s1 (bit_clear (b mod BPB)) Hop1 HbH Hf Hcan)
    as (s2 & E2 & [U1 U2 U3 U4 U5]).
  exists s2. split_and!; [done|done| |done|done]. intros r Hr. unfold free_block.
  destruct (frame_same _ _ U5) as (_ & _ & Hsb & _). rewrite Hsb.
  destruct (decide (BBLOCK r (k_sb s) = BBLOCK b (k_sb s))) as [Eb|Eb].
  - rewrite Eb, U2, bit_clear_spec; [|done|by apply Z.mod_pos_bound..]. case_decide as Hd.
    + split; [|done]. intros _. right. unfold BBLOCK in Eb.
      pose proof (Z.div_mod b BPB). pose proof (Z.div_mod r BPB). lia.
    + split; [by left|]. by intros [?| ->].
  - rewrite U3; [|done|congruence]. split; [by left|]. by intros [?| ->].
Qed.
End Blocks.

(** ** A concrete file system *)

Lemma in_range (f : Z -> bool) n : forallb f (map Z.of_nat (seq 0 n)) = true ->
  forall b, 0 <= b < Z.of_nat n -> f b = true.
Proof.
  intros H b Hb. rewrite forallb_forall in H. apply H. apply in_map_iff.
  exists (Z.to_nat b). split; [lia|]. apply in_seq. lia.
Qed.

(** With an empty cache and an empty log an operation can begin. *)
Lemma op_fresh {D : DiskDriver} s p dev :
  k_cur s = Some p -> k_held s = [] -> k_bcache s = demo_bcache -> l_n (k_log s) = 0 ->
  length (l_block (k_log s)) = Z.to_nat LOGSIZE -> op p dev s [] [].
Proof.
  intros Hc Hh Hb Hn Hl.
  assert (Hz : forall b, (b < NBUF)%nat -> b_dev (bufs s b) = 0 /\ b_flags (bufs s b) = 0 /\
    b_refcnt (bufs s b) = 0 /\ sl_locked (b_lock (bufs s b)) = false).
  { unfold bufs. rewrite Hb. apply each_buf.
    repeat (constructor; [vm_compute; auto|]). constructor. }
  split; [|by split|done|].
  - exists (reverse (seq 0 NBUF)). split; [done|done| |intros b Hin; set_solver|].
    + rewrite Hb. split; [done|by rewrite reverse_Permutation|vm_compute; repeat split|].
      intros b1 b2 H1 H2 N1. destruct (Hz b1 H1) as [E _]. unfold bufs in E. rewrite Hb in E. done.
    + intros b Hlt _. destruct (Hz b Hlt) as (_ & Hf & Hr & Hk). auto.
  - intros d n (b & [Hlt _] & Hdt). destruct (Hz b Hlt) as (_ & Hf & _). rewrite Hf in Hdt. done.
Qed.

(** A disk of 100 blocks: the log at 2, the inodes at 32, the free map at 58,
    with the first 64 blocks in use. *)
Definition demo_fs : kstate :=
  set_k_disk (fun _ n => if n =? 58 then replicate 8 255 ++ replicate 504 0 else replicate 512 0)
    (set_k_sb (mk_superblock 100 41 200 30 2 32 58)
      (set_k_log (mk_log 2 30 1 false 1 0 (replicate 30 0)) (demo_kernel [] []))).

Lemma demo_fs_op : op 0 1 demo_fs [] [].
Proof. by apply op_fresh. Qed.

Lemma demo_fs_bitmap : bitmap_ok 1 demo_fs [].
Proof.
  assert (forall b, 0 <= b < Z.of_nat 100 ->
    (memide_serves 1 b 1000 && memide_serves 1 (BBLOCK b (k_sb demo_fs)) 1000 &&
     (BBLOCK b (k_sb demo_fs) =? 58)) = true) as Hb by (apply in_range; vm_compute; reflexivity).
  split.
  - intros b ((H1 & H2)%andb_prop & ->%Z.eqb_eq)%Hb%andb_prop. by split_and!.
  - intros y b Hy. set_solver.
  - intros r b Hr (_ & ->%Z.eqb_eq)%Hb%andb_prop Hf <-. vm_compute in Hf. done.
Qed.

Lemma balloc_allocates_witness :
  exists r s', balloc 1 demo_fs = Ret r s' /\ r = 64 /\ content s' 1 64 = replicate 512 0.
Proof.
  destruct (balloc_allocates 0 1 ltac:(lia) demo_fs [] [] demo_fs_op demo_fs_bitmap)
    as [(r & s' & E & Hr & Hf & Hpre & _ & Hz & _)|(Hno & _)]; [by_eval..| |].
  - exists r, s'. assert (r = 64) as ->; [|exact (conj E (conj eq_refl Hz))].
    destruct (Z.lt_trichotomy r 64) as [H|[H|H]]; [exfalso|exact H|exfalso].
    2: { apply (Hpre 64); [lia|vm_compute; reflexivity]. }
    assert (forall b, 0 <= b < Z.of_nat 64 ->
      bit_used (content demo_fs 1 (BBLOCK b (k_sb demo_fs))) (b mod BPB) = true) as Hu
      by (apply in_range; vm_compute; reflexivity).
    unfold free_block in Hf. rewrite Hu in Hf by lia. discriminate.
  - exfalso. apply (Hno 64); [split; by_eval|vm_compute; reflexivity].
Defined.

Lemma bfree_frees_witness :
  exists s', bfree 1 60 demo_fs = Ret tt s' /\ free_block 1 s' 60 /\ ~ free_block 1 s' 61.
Proof.
  pose proof (bfree_frees 0 1 ltac:(lia) demo_fs [] [] 60 demo_fs_op demo_fs_bitmap
    ltac:(by_eval) ltac:(by_eval) ltac:(by_eval)) as H.
  change (bit_used _ _) with true in H. destruct H as (s' & E & _ & Hfr & _).
  exists s'. split_and!; [exact E|apply Hfr; [split; by_eval|by right]|].
  intros [Hf|Hf]%Hfr; [vm_compute in Hf|..]; [discriminate..|by_eval].
Defined.
