(* ===== verification/Inode.v ===== *)
(** Inodes: what [iupdate] writes is what [ilock] reads, and the inode cache
    holds each inode once.

    A [struct dinode] is 64 bytes of a block of eight.  [iupdate] replaces
    them in the block that [IBLOCK] names; [ilock] decodes them into a cache
    entry that is not valid.  [icache_ok] is the invariant of the cache that
    [iget], [idup], [ilock] and [iput] rely on: one entry for an inode. *)

From stdpp Require Import base list sets strings.
From Stdlib Require Import ZArith Lia.
From S2P Require Import Prelude State Demo CString Sched Sleeplock Disk Bio Log.
From S2P Require Import Fs FsBlock.

Open Scope kernel_scope.

(** ** The bytes of an inode *)

(** The fields fit their types on disk. *)
Record dinode_ok (i : inode) : Prop := {
  do_type : - 2 ^ 15 <= i_type i < 2 ^ 15;
  do_major : - 2 ^ 15 <= i_major i < 2 ^ 15;
  do_minor : - 2 ^ 15 <= i_minor i < 2 ^ 15;
  do_nlink : - 2 ^ 15 <= i_nlink i < 2 ^ 15;
  do_size : 0 <= i_size i < 2 ^ 32;
  do_addrs : Forall (fun a => 0 <= a < 2 ^ 32) (i_addrs i);
  do_len : length (i_addrs i) = 13%nat }.

(** The fields that are on disk, copied from [i] to [x]. *)
Definition copy_dinode (i x : inode) : inode :=
  set_i_addrs (i_addrs i) (set_i_size (i_size i) (set_i_nlink (i_nlink i)
    (set_i_minor (i_minor i) (set_i_major (i_major i) (set_i_type (i_type i) x))))).

Lemma length_words ws : length (concat (map le32 ws)) = (4 * length ws)%nat.
Proof. induction ws as [|w ws IH]; simpl; [done|]. rewrite IH. lia. Qed.

Lemma length_dinode_bytes i : length (i_addrs i) = 13%nat -> length (dinode_bytes i) = 64%nat.
Proof. intros H. unfold dinode_bytes. rewrite !length_app, length_words, H. done. Qed.

Lemma drop_splice off new bs n k :
  (off <= length bs)%nat -> (k + n <= length new)%nat ->
  take n (drop (off + k) (splice off new bs)) = take n (drop k new).
Proof.
  intros H1 H2. unfold splice. rewrite <- drop_drop, drop_app_length' by (rewrite length_take; lia).
  rewrite drop_app_le by lia. rewrite take_app_le; [done|]. rewrite length_drop. lia.
Qed.

Lemma drop_splice_out off new bs n k :
  (off + length new <= length bs)%nat -> (k + n <= off \/ off + length new <= k)%nat ->
  take n (drop k (splice off new bs)) = take n (drop k bs).
Proof.
  intros H1 H2. apply list_eq. intros i. destruct (decide (i < n)%nat).
  - rewrite !lookup_take_lt, !lookup_drop by done. apply lookup_splice_out; lia.
  - rewrite !lookup_take_ge; [done|lia|lia].
Qed.

Lemma s16_u16 x : - 2 ^ 15 <= x < 2 ^ 15 -> s16 (u16 x) = x.
Proof.
  intros H. unfold s16, u16. rewrite Zplus_mod_idemp_l, Z.mod_small; lia.
Qed.

Lemma map_seq_lookup (f : Z -> Z) ws n : length ws = n ->
  map (fun k => f (ws !!! k)) (seq 0 n) = map f ws.
Proof.
  intros <-. induction ws as [|w ws IH]; [done|]. cbn [length seq map].
  rewrite <- seq_shift, map_map. f_equal. exact IH.
Qed.

(** Decoding the bytes [dinode_bytes] in their place gives the fields back. *)
Lemma load_dinode_bytes bs o i x :
  dinode_ok i -> (o <= length bs)%nat ->
  load_dinode (splice o (dinode_bytes i) bs) o x = copy_dinode i x.
Proof.
  intros [D1 D2 D3 D4 D5 D6 D7] Ho. pose proof (length_dinode_bytes i D7) as Hl.
  unfold load_dinode, copy_dinode, get32, get16.
  pose proof (drop_splice o (dinode_bytes i) bs 2 0 Ho ltac:(lia)) as E0.
  rewrite Nat.add_0_r, drop_0 in E0. rewrite E0, !drop_splice by lia.
  change (take 2 (dinode_bytes i)) with (le16 (i_type i)).
  change (take 2 (drop 2 (dinode_bytes i))) with (le16 (i_major i)).
  change (take 2 (drop 4 (dinode_bytes i))) with (le16 (i_minor i)).
  change (take 2 (drop 6 (dinode_bytes i))) with (le16 (i_nlink i)).
  change (take 4 (drop 8 (dinode_bytes i))) with (le32 (i_size i)).
  rewrite !of_le_le16, of_le_le32, !s16_u16, u32_small by done. f_equal.
  assert (H : forall ws, length ws = 13%nat -> Forall (fun a => 0 <= a < 2 ^ 32) ws ->
    map (fun k => get32 (concat (map le32 ws)) (4 * k)) (seq 0 13) = ws).
  { intros ws Hw Hf. rewrite <- (app_nil_r (concat (map le32 ws))).
    etransitivity; [|etransitivity; [apply (map_seq_lookup u32 ws 13 Hw)|]].
    - apply map_ext_in. intros k [_ Hk]%in_seq. apply get32_words. lia.
    - rewrite <- (map_id ws) at 2. apply map_ext_in. intros a Ha. apply u32_small.
      rewrite Forall_forall in Hf. apply Hf. by apply list_elem_of_In. }
  etransitivity; [|apply (H _ D7 D6)]. apply map_ext_in. intros k [_ Hk]%in_seq.
  unfold get32. rewrite <- Nat.add_assoc, drop_splice by lia. done.
Qed.

Lemma dinode_off_le inum : (dinode_off inum + 64 <= 512)%nat.
Proof.
  unfold dinode_off. pose proof (Z.mod_pos_bound inum IPB eq_refl).
  change IPB with 8 in *. unfold DINODE_SIZE. lia.
Qed.

(** Another inode of the same block keeps its bytes. *)
Lemma load_dinode_other bs i inum inum' sb x :
  length bs = Z.to_nat BSIZE -> length (i_addrs i) = 13%nat ->
  IBLOCK inum sb = IBLOCK inum' sb -> inum <> inum' ->
  load_dinode (splice (dinode_off inum) (dinode_bytes i) bs) (dinode_off inum') x
  = load_dinode bs (dinode_off inum') x.
Proof.
  intros Hl Ha HB Hne. change (Z.to_nat BSIZE) with 512%nat in Hl.
  pose proof (length_dinode_bytes i Ha) as Hb. pose proof (dinode_off_le inum).
  assert (dinode_off inum + 64 <= dinode_off inum' \/
    dinode_off inum' + 64 <= dinode_off inum)%nat as Hd.
  { unfold IBLOCK in HB. unfold dinode_off. change IPB with 8 in *. unfold DINODE_SIZE.
    pose proof (Z.div_mod inum 8). pose proof (Z.div_mod inum' 8).
    pose proof (Z.mod_pos_bound inum 8). pose proof (Z.mod_pos_bound inum' 8). lia. }
  unfold load_dinode, get32, get16. rewrite !drop_splice_out by lia. f_equal.
  apply map_ext_in. intros k [_ Hk]%in_seq. rewrite drop_splice_out by lia. done.
Qed.

Section Inode.
Context {D : DiskDriver} (p : nat) (dev : Z) (Hdev : dev <> 0).

(** Changing the inode cache leaves the blocks alone. *)
Lemma op_icache s H bl t : op p dev s H bl -> op p dev (set_k_icache t s) H bl.
Proof. intros [[l [S1 S2 S3 S4 S5]] L1 L2 L3]. split; [exists l; by split|done..]. Qed.

Lemma iupdate_ok s H bl ip :
  let i := inodes s ip in let bno := IBLOCK (i_inum i) (k_sb s) in
  op p dev s H bl -> i_dev i = dev -> readable dev s H bl bno -> can_log s bl ->
  exists s1, iupdate ip s = Ret tt s1 /\
    updated p dev s H bl bno
      (splice (dinode_off (i_inum i)) (dinode_bytes i) (content s dev bno)) s1.
Proof.
  intros i bno Hop Hd (Hsv & HH & Hlen) Hcan. unfold iupdate. mrun. fold i. rewrite Hd. fold bno.
  destruct (op_bread p dev Hdev s H bl bno Hop Hsv HH Hlen) as (b & s1 & E & HbH & Hop1 & Hf).
  mstep E. mrun.
  assert (inodes s1 ip = i) as ->.
  { destruct (frame_same _ _ (fe_frame _ _ _ _ _ Hf)) as (_ & _ & _ & Hi & _).
    unfold inodes. by rewrite Hi. }
  by apply op_finish.
Qed.

Lemma load_dinode_lock bs o lk x :
  load_dinode bs o (set_i_lock lk x) = set_i_lock lk (load_dinode bs o x).
Proof. done. Qed.

(** The cache entry [ip] names an inode that has not been read. *)
Record unread (s : kstate) (ip : nat) (inum : Z) : Prop := {
  un_lt : (ip < length (k_icache s))%nat;
  un_dev : i_dev (inodes s ip) = dev;
  un_inum : i_inum (inodes s ip) = inum;
  un_ref : 1 <= i_ref (inodes s ip);
  un_free : sl_locked (i_lock (inodes s ip)) = false;
  un_valid : i_valid (inodes s ip) = false }.

Lemma inodes_upd_eq ip f s : (ip < length (k_icache s))%nat ->
  inodes (upd_inode ip f s) ip = f (inodes s ip).
Proof. intros H. unfold inodes, upd_inode. kred. by rewrite lookup_total_alter_eq. Qed.

(** [ilock] of an entry that is not valid reads the inode from its block. *)
Lemma ilock_reads s H bl ip inum :
  let bno := IBLOCK inum (k_sb s) in
  let i := load_dinode (content s dev bno) (dinode_off inum) (inodes s ip) in
  op p dev s H bl -> unread s ip inum -> readable dev s H bl bno -> i_type i <> 0 ->
  exists s1, ilock ip s = Ret tt s1 /\ op p dev s1 H bl /\ same_content s s1 /\
    inodes s1 ip = set_i_valid true (set_i_lock (mk_sleeplock true (p_pid (procs s p))) i) /\
    forall y, y <> ip -> inodes s1 y = inodes s y.
Proof.
  intros bno i Hop [U1 U2 U3 U4 U5 U6] Hrd Hty. unfold ilock. mrun.
  rewrite (proj2 (Z.ltb_ge _ _)) by lia.
  pose proof Hop as [[l Hs] _ _ _]. pose proof (ss_cur _ _ _ _ Hs) as Hcur.
  set (lk := mk_sleeplock true (p_pid (procs s p))). set (s0 := upd_inode ip (set_i_lock lk) s).
  assert (acquiresleep (SLInode ip) s = Ret tt s0) as E0.
  { apply (acquiresleep_free (SLInode ip) p s); [done|rewrite (ss_held _ _ _ _ Hs); set_solver|done]. }
  mstep E0. mrun. assert (inodes s0 ip = set_i_lock lk (inodes s ip)) as Ei by by apply inodes_upd_eq.
  rewrite Ei. cbn [i_valid i_dev i_inum set_i_lock]. rewrite U6, U2, U3. cbn [negb]. mrun.
  assert (op p dev s0 H bl) as Hop0 by by apply op_icache.
  destruct Hrd as (Hsv & HH & Hlen).
  destruct (op_bread p dev Hdev s0 H bl bno Hop0 Hsv HH Hlen) as (b & s1 & E & HbH & Hop1 & Hf).
  mstep E. mrun. pose proof Hf as [Fid Fd Fc Fct Fo Ff]. rewrite Fd.
  destruct (frame_same _ _ Ff) as (_ & _ & _ & Hi1 & _).
  change (content s0 dev bno) with (content s dev bno).
  set (ld := load_dinode (content s dev bno) (dinode_off inum)).
  set (s2 := upd_inode ip ld s1).
  destruct (op_brelse p dev Hdev s2 H bl b) as (s3 & E3 & Hop3 & Hc3 & _ & Hf3);
    [by apply op_icache|done| |].
  { destruct Fc as [?|Fc]; [by left|right]. unfold bid in Fid.
    injection Fid as E1 E2. by rewrite <- E1, <- E2 in Fc. }
  mstep E3. mrun. destruct (frame_same _ _ Hf3) as (_ & _ & _ & Hi3 & _).
  assert (ip < length (k_icache s3))%nat as Hlt.
  { rewrite Hi3. unfold s2, upd_inode. kred. rewrite length_alter, Hi1. unfold s0, upd_inode.
    kred. by rewrite length_alter. }
  assert (inodes s3 ip = set_i_lock lk i) as E3i.
  { transitivity (ld (set_i_lock lk (inodes s ip))); [|apply load_dinode_lock]. unfold inodes at 1. rewrite Hi3. unfold s2. fold (inodes (upd_inode ip ld s1) ip).
    rewrite inodes_upd_eq by (rewrite Hi1; unfold s0, upd_inode; kred; by rewrite length_alter).
    f_equal. unfold inodes. by rewrite Hi1. }
  rewrite inodes_upd_eq, E3i by done. cbn [i_type set_i_valid set_i_lock].
  rewrite (proj2 (Z.eqb_neq _ _)) by exact Hty. unfold ret. eexists. split; [done|].
  split_and!.
  - by apply op_icache.
  - intros d n Hd. etransitivity; [apply (Hc3 d n Hd)|]. apply (Fct d n Hd).
  - rewrite inodes_upd_eq, E3i by done. reflexivity.
  - intros y Hy. unfold upd_inode, inodes. kred. rewrite list_lookup_total_alter_ne by done.
    rewrite Hi3. unfold s2, upd_inode. kred. rewrite list_lookup_total_alter_ne by done.
    rewrite Hi1. unfold s0, upd_inode. kred. by rewrite list_lookup_total_alter_ne.
Qed.
End Inode.

(** C25: what [iupdate] writes, [ilock] reads.  After [iupdate] of a cached inode,
    a process that later locks a cache entry for the same inode that has not
    been read gets exactly its type, device numbers, link count, size and
    block addresses, as long as the block was not changed in between; the
    other inodes of the block keep theirs, and no other block changes. *)
Theorem iupdate_ilock {D : DiskDriver} p dev s H bl ip :
  let i := inodes s ip in let bno := IBLOCK (i_inum i) (k_sb s) in
  dev <> 0 -> op p dev s H bl -> i_dev i = dev -> dinode_ok i -> i_type i <> 0 ->
  readable dev s H bl bno -> can_log s bl -> length (content s dev bno) = Z.to_nat BSIZE ->
  exists s1, iupdate ip s = Ret tt s1 /\ op p dev s1 H (absorb bl bno) /\ fs_frame s s1 /\
    (forall d n, d <> 0 -> (d, n) <> (dev, bno) -> content s1 d n = content s d n) /\
    (forall inum x, inum <> i_inum i -> IBLOCK inum (k_sb s) = bno ->
       load_dinode (content s1 dev bno) (dinode_off inum) x
       = load_dinode (content s dev bno) (dinode_off inum) x) /\
    forall q s2 H2 bl2 jp,
      op q dev s2 H2 bl2 -> k_sb s2 = k_sb s -> content s2 dev bno = content s1 dev bno ->
      unread dev s2 jp (i_inum i) -> readable dev s2 H2 bl2 bno ->
      exists s3, ilock jp s2 = Ret tt s3 /\ op q dev s3 H2 bl2 /\ same_content s2 s3 /\
        inodes s3 jp = set_i_valid true (set_i_lock (mk_sleeplock true (p_pid (procs s2 q)))
          (copy_dinode i (inodes s2 jp))).
Proof.
  intros i bno Hdev Hop Hd Hok Hty Hrd Hcan Hl.
  destruct (iupdate_ok p dev Hdev s H bl ip Hop Hd Hrd Hcan) as (s1 & E & [V1 V2 V3 V4 V5]).
  fold i in V1, V2, V3, V4, V5. fold bno in V1, V2, V3.
  exists s1. split_and!; [done|done|done|done| |].
  - intros inum x Hne HB. rewrite V2. apply (load_dinode_other _ _ _ _ (k_sb s)); [done|apply Hok| |done].
    by rewrite HB.
  - intros q s2 H2 bl2 jp Hop2 Hsb Hc2 Hun Hrd2.
    assert (load_dinode (content s2 dev bno) (dinode_off (i_inum i)) (inodes s2 jp)
      = copy_dinode i (inodes s2 jp)) as El.
    { rewrite Hc2, V2. apply load_dinode_bytes; [done|]. rewrite Hl.
      pose proof (dinode_off_le (i_inum i)). change (Z.to_nat BSIZE) with 512%nat. lia. }
    destruct (ilock_reads q dev Hdev s2 H2 bl2 jp (i_inum i) Hop2 Hun) as (s3 & E3 & O3 & C3 & I3 & _).
    + by rewrite Hsb.
    + rewrite Hsb. fold bno. by rewrite El.
    + exists s3. split_and!; [done|done|done|]. rewrite I3, Hsb. fold bno. by rewrite El.
Qed.

(** ** The inode cache *)

(** No inode has two entries in use. *)
Record icache_ok (t : list inode) : Prop := {
  ic_ref : forall ip x, t !! ip = Some x -> 0 <= i_ref x;
  ic_uniq : forall ip jp x y, t !! ip = Some x -> t !! jp = Some y -> 0 < i_ref x -> 0 < i_ref y ->
    (i_dev x, i_inum x) = (i_dev y, i_inum y) -> ip = jp }.

(** The references to inode [inum] of [dev]. *)
Definition irefs (t : list inode) (dev inum : Z) : Z :=
  foldr (fun x n => (if decide (i_dev x = dev /\ i_inum x = inum) then i_ref x else 0) + n) 0 t.

Lemma irefs_insert t ip x y dev inum : t !! ip = Some x ->
  irefs (<[ip := y]> t) dev inum = irefs t dev inum
    - (if decide (i_dev x = dev /\ i_inum x = inum) then i_ref x else 0)
    + (if decide (i_dev y = dev /\ i_inum y = inum) then i_ref y else 0).
Proof.
  revert ip. induction t as [|z t IH]; intros [|ip] Hx; simplify_eq/=; [lia|].
  rewrite (IH ip Hx). lia.
Qed.

(** Giving entry [ip] a new value keeps the invariant if no other entry in use
    is for the same inode. *)
Lemma icache_ok_insert t ip y :
  icache_ok t -> 0 <= i_ref y ->
  (forall jp z, jp <> ip -> t !! jp = Some z -> 0 < i_ref z -> 0 < i_ref y ->
     (i_dev z, i_inum z) <> (i_dev y, i_inum y)) ->
  icache_ok (<[ip := y]> t).
Proof.
  intros [R U] Hy Hne. split.
  - intros jp z [(-> & <- & _)|[_ Hz]]%list_lookup_insert_Some; [done|by eapply R].
  - intros jp kp z w [(-> & <- & _)|[Hj Hz]]%list_lookup_insert_Some
      [(-> & <- & _)|[Hk Hw]]%list_lookup_insert_Some P1 P2 E; [done| | |by eapply U].
    + by destruct (Hne kp w (not_eq_sym Hk) Hw P2 P1).
    + by destruct (Hne jp z (not_eq_sym Hj) Hz P1 P2).
Qed.

Lemma upd_inode_insert ip f s x : k_icache s !! ip = Some x ->
  upd_inode ip f s = set_k_icache (<[ip := f x]> (k_icache s)) s.
Proof.
  intros Hx. unfold upd_inode. f_equal. apply list_eq. intros jp.
  destruct (decide (ip = jp)) as [<-|Hne].
  - rewrite list_lookup_alter_eq, list_lookup_insert_eq, Hx by by eapply lookup_lt_Some. done.
  - by rewrite list_lookup_alter_ne, list_lookup_insert_ne.
Qed.

Lemma irefs_nonneg t dev inum :
  (forall ip x, t !! ip = Some x -> 0 <= i_ref x) -> 0 <= irefs t dev inum.
Proof.
  induction t as [|z t IH]; intros R; [done|]. cbn [irefs foldr]. fold (irefs t dev inum).
  pose proof (R 0%nat z eq_refl). pose proof (IH (fun ip => R (S ip))). case_decide; lia.
Qed.

Lemma irefs_in t ip x : (forall ip x, t !! ip = Some x -> 0 <= i_ref x) ->
  t !! ip = Some x -> i_ref x <= irefs t (i_dev x) (i_inum x).
Proof.
  intros R Hx. pose proof (irefs_insert t ip x (set_i_ref 0 x) (i_dev x) (i_inum x) Hx) as E.
  rewrite !decide_True in E by done. cbn [i_ref set_i_ref] in E.
  assert (0 <= irefs (<[ip := set_i_ref 0 x]> t) (i_dev x) (i_inum x)); [|lia].
  apply irefs_nonneg. intros jp z [(-> & <- & _)|[_ Hz]]%list_lookup_insert_Some; [done|by eapply R].
Qed.

Lemma irefs_none t dev inum :
  (forall ip x, t !! ip = Some x -> i_dev x = dev -> i_inum x = inum -> i_ref x = 0) ->
  irefs t dev inum = 0.
Proof.
  induction t as [|z t IH]; intros R; [done|]. cbn [irefs foldr]. fold (irefs t dev inum).
  rewrite (IH (fun ip => R (S ip))). case_decide as Hd; [|done].
  rewrite (R 0%nat z eq_refl) by apply Hd. done.
Qed.

(** Updating an entry and leaving the critical section. *)
Lemma icache_update ip f x s : L_icache ∉ k_held s -> k_icache s !! ip = Some x ->
  (modify (upd_inode ip f) ;;; release L_icache ;;; ret ip) (set_k_held (L_icache :: k_held s) s)
  = Ret ip (set_k_icache (<[ip := f x]> (k_icache s)) s).
Proof.
  intros Hl Hx. mrun. erewrite upd_inode_insert by (kred; exact Hx).
  erewrite bind_Ret; [|apply (release_ok _ (k_held s)); [reflexivity|done]].
  unfold ret. done.
Qed.

(** [iget], on every branch. *)
Lemma iget_ok dev inum s :
  icache_ok (k_icache s) -> L_icache ∉ k_held s ->
  (exists ip t, iget dev inum s = Ret ip (set_k_icache t s) /\ icache_ok t /\
     (exists x, t !! ip = Some x /\ i_dev x = dev /\ i_inum x = inum /\ 0 < i_ref x /\
        if decide (0 < irefs (k_icache s) dev inum)
        then k_icache s !! ip = Some (set_i_ref (i_ref x - 1) x)
        else i_ref x = 1 /\ i_valid x = false) /\
     (forall jp, jp <> ip -> t !! jp = k_icache s !! jp) /\
     (forall d n, irefs t d n = irefs (k_icache s) d n +
        if decide (d = dev /\ n = inum) then 1 else 0)) \/
  (irefs (k_icache s) dev inum = 0 /\ (forall ip x, k_icache s !! ip = Some x -> 0 < i_ref x) /\
   exists s', iget dev inum s = Panic "iget: no inodes" s').
Proof.
  intros Hok Hl. pose proof Hok as [R U]. unfold iget. mstep (acquire_ok _ _ Hl). mrun. kred.
  unfold icache_find. destruct (list_find _ _) as [[ip x]|] eqn:Ef; cbn [fmap option_fmap option_map fst].
  - left. apply list_find_Some in Ef as (Hx & (Hr & Hd & Hn) & _).
    set (f := fun i => set_i_ref (i_ref i + 1) i).
    exists ip, (<[ip := f x]> (k_icache s)). rewrite (icache_update ip f x s Hl Hx). split_and!; [done| | | |].
    + apply icache_ok_insert; [done|unfold f; simpl; lia|].
      intros jp z Hne Hz Hp _ E. by destruct (Hne (U jp ip z x Hz Hx Hp Hr E)).
    + exists (f x). rewrite list_lookup_insert_eq by by eapply lookup_lt_Some.
      pose proof (irefs_in _ ip x R Hx) as Hin. rewrite Hd, Hn in Hin.
      split_and!; [done|done|done|unfold f; cbn [i_ref set_i_ref]; lia|].
      rewrite decide_True by lia. rewrite Hx. f_equal.
      unfold f. cbn [i_ref set_i_ref]. rewrite Z.add_simpl_r. by destruct x.
    + intros jp Hne. by apply list_lookup_insert_ne.
    + intros d n. rewrite (irefs_insert _ _ _ _ _ _ Hx). unfold f. cbn [i_dev i_inum i_ref set_i_ref].
      rewrite Hd, Hn. repeat case_decide; intuition lia.
  - apply list_find_None in Ef. rewrite Forall_lookup in Ef.
    assert (irefs (k_icache s) dev inum = 0) as H0.
    { apply irefs_none. intros ip x Hx Hd Hn. pose proof (R ip x Hx).
      destruct (decide (0 < i_ref x)); [|lia]. by destruct (Ef ip x Hx). }
    unfold icache_empty. destruct (list_find _ _) as [[ip x]|] eqn:Ee; cbn [fmap option_fmap option_map fst].
    + left. apply list_find_Some in Ee as (Hx & Hr & _).
      set (f := fun i => set_i_valid false (set_i_ref 1 (set_i_inum inum (set_i_dev dev i)))).
      exists ip, (<[ip := f x]> (k_icache s)). rewrite (icache_update ip f x s Hl Hx). split_and!; [done| | | |].
      * apply icache_ok_insert; [done|unfold f; simpl; lia|].
        intros jp z Hne Hz Hp _ E. simpl in E. injection E as E1 E2. by destruct (Ef jp z Hz).
      * exists (f x). rewrite list_lookup_insert_eq by by eapply lookup_lt_Some.
        split_and!; [done..|]. rewrite decide_False by lia. done.
      * intros jp Hne. by apply list_lookup_insert_ne.
      * intros d n. rewrite (irefs_insert _ _ _ _ _ _ Hx). unfold f.
        cbn [i_dev i_inum i_ref set_i_ref set_i_valid set_i_inum set_i_dev]. rewrite Hr.
        repeat case_decide; intuition lia.
    + right. apply list_find_None in Ee. rewrite Forall_lookup in Ee. split_and!; [done| |by eexists].
      intros ip x Hx. pose proof (R ip x Hx). pose proof (Ee ip x Hx) as Hne. simpl in Hne. lia.
Qed.

(** C26: [iget] returns the one cache entry of an inode with one more reference.
    If the inode is in the cache nothing but the count of its entry changes;
    otherwise a free entry becomes the inode's, not yet read.  The counts of
    all other inodes stay, the cache keeps at most one entry for an inode,
    and [iget] panics exactly when the inode is not cached and every entry is
    in use. *)
Theorem iget_unique dev inum s :
  icache_ok (k_icache s) -> L_icache ∉ k_held s ->
  (exists ip t, iget dev inum s = Ret ip (set_k_icache t s) /\ icache_ok t /\
     (exists x, t !! ip = Some x /\ i_dev x = dev /\ i_inum x = inum /\ 0 < i_ref x /\
        if decide (0 < irefs (k_icache s) dev inum)
        then k_icache s !! ip = Some (set_i_ref (i_ref x - 1) x)
        else i_ref x = 1 /\ i_valid x = false) /\
     (forall jp, jp <> ip -> t !! jp = k_icache s !! jp) /\
     (forall d n, irefs t d n = irefs (k_icache s) d n +
        if decide (d = dev /\ n = inum) then 1 else 0)) \/
  (irefs (k_icache s) dev inum = 0 /\ (forall ip x, k_icache s !! ip = Some x -> 0 < i_ref x) /\
   exists s', iget dev inum s = Panic "iget: no inodes" s').
Proof. apply iget_ok. Qed.

(** ** Examples *)

(** Inode 9, a file of 700 bytes, in the first entry of the cache. *)
Definition demo_file : inode :=
  mk_inode 1 9 1 (mk_sleeplock true 3) true 2 0 0 1 700 (70 :: 71 :: replicate 11 0).
Definition demo_ifs : kstate := set_k_icache (demo_file :: replicate 49 inhabitant) demo_fs.

Lemma iupdate_ilock_witness :
  exists s1, iupdate 0 demo_ifs = Ret tt s1 /\
    let s2 := upd_inode 0 (fun i => set_i_valid false (set_i_lock (mk_sleeplock false 0)
      (set_i_size 0 i))) s1 in
    exists s3, ilock 0 s2 = Ret tt s3 /\ i_size (inodes s3 0) = 700.
Proof.
  assert (readable 1 demo_ifs [] [] 33) as Hrd
    by (split_and!; [by_eval|intros b Hb; set_solver|vm_compute; lia]).
  assert (dinode_ok demo_file) as Hok
    by (split; cbn; [lia..|repeat constructor; lia|done]).
  destruct (iupdate_ilock 0 1 demo_ifs [] [] 0 ltac:(lia) ltac:(by apply op_fresh) eq_refl Hok
    ltac:(cbn; lia) Hrd ltac:(by_eval) ltac:(by_eval)) as (s1 & E & Hop & Hf & _ & _ & Hrt).
  destruct (frame_same _ _ Hf) as (_ & Hds & Hsb & Hic & _).
  exists s1. split; [exact E|]. intros s2.
  assert (inodes s2 0 = set_i_valid false (set_i_lock (mk_sleeplock false 0)
    (set_i_size 0 demo_file))) as Ei.
  { unfold s2. rewrite inodes_upd_eq; unfold inodes; rewrite Hic; [reflexivity|simpl; lia]. }
  destruct (Hrt 0%nat s2 [] [33] 0%nat) as (s3 & E3 & _ & _ & I3).
  - apply op_icache, Hop.
  - exact Hsb.
  - reflexivity.
  - split; rewrite ?Ei; [|reflexivity|reflexivity|cbn; lia|reflexivity|reflexivity].
    unfold s2, upd_inode. kred. rewrite length_alter, Hic. simpl. lia.
  - split; [|split; [intros b Hb; destruct (not_elem_of_nil _ Hb)|apply Nat.ltb_lt; by_eval]].
    assert (k_disksize s2 = 1000) as -> by exact Hds. by_eval.
  - exists s3. split; [exact E3|]. by rewrite I3.
Defined.

Lemma iget_unique_witness :
  exists ip t, iget 1 9 demo_ifs = Ret ip (set_k_icache t demo_ifs) /\ icache_ok t /\
    irefs t 1 9 = 2.
Proof.
  assert (icache_ok (k_icache demo_ifs)) as Hok.
  { assert (forall ip x, k_icache demo_ifs !! ip = Some x ->
      ip = 0%nat /\ x = demo_file \/ i_ref x = 0) as Hz.
    { intros [|ip] x Hx; [left; by injection Hx as <-|right].
      change (replicate 49 inhabitant !! ip = Some x) in Hx. by apply lookup_replicate in Hx as [-> _]. }
    split.
    - intros ip x [[_ ->]| ->]%Hz; done.
    - intros ip jp x y [[-> ->]|E1]%Hz [[-> ->]|E2]%Hz P1 P2 _; lia. }
  destruct (iget_unique 1 9 demo_ifs Hok ltac:(by_eval))
    as [(ip & t & E & Ht & _ & _ & Hr)|(H0 & _)]; [|by vm_compute in H0].
  exists ip, t. split; [exact E|]. split; [exact Ht|]. by rewrite Hr.
Defined.
