(* ===== verification/FileData.v ===== *)
(** The bytes of a file: [bmap], [readi] and [writei] on the blocks of an inode.

    [fblock] is the block map of an inode, direct and indirect; [fbyte] the
    bytes of the file it stands for.  [mapped] says that the blocks of the
    first [cap] bytes are allocated, distinct and can be read.  The theorems
    are about reads and writes of kernel buffers within them, as the
    directory code makes them; a read of a user buffer differs only in where
    its pieces go. *)

From stdpp Require Import base list sets strings.
From Stdlib Require Import ZArith Lia.
From S2P Require Import Prelude State Demo CString Sched Sleeplock Disk Bio Log.
From S2P Require Import Fs FsBlock Inode.

Open Scope kernel_scope.

Section FileData.
Context {D : DiskDriver} {V : DevSw} (p : nat) (dev : Z) (Hdev : dev <> 0).

(** The number of the file's block [k]. *)
Definition fblock (s : kstate) (x : inode) (k : Z) : Z :=
  if k <? NDIRECT then i_addrs x !!! Z.to_nat k
  else ind_get (content s dev (i_addrs x !!! Z.to_nat NDIRECT)) (k - NDIRECT).

Definition fbyte (s : kstate) (x : inode) (i : Z) : Z :=
  content s dev (fblock s x (i / BSIZE)) !!! Z.to_nat (i mod BSIZE).

(** [n] bytes from [off] on. *)
Definition fbytes (s : kstate) (x : inode) (off : Z) (n : nat) : list Z :=
  map (fun k => fbyte s x (off + Z.of_nat k)) (seq 0 n).

Record mapped (s : kstate) (H : list nat) (x : inode) (cap : Z) : Prop := {
  mp_dev : i_dev x = dev;
  mp_cap : 0 <= cap <= MAXFILE * BSIZE;
  mp_block k : 0 <= k -> k * BSIZE < cap ->
    fblock s x k <> 0 /\ disk_serves dev (fblock s x k) (k_disksize s) = true /\
    length (content s dev (fblock s x k)) = Z.to_nat BSIZE;
  mp_ind : NDIRECT * BSIZE < cap -> let a := i_addrs x !!! Z.to_nat NDIRECT in
    a <> 0 /\ disk_serves dev a (k_disksize s) = true;
  mp_inj k k' : 0 <= k -> k * BSIZE < cap -> 0 <= k' -> k' * BSIZE < cap ->
    fblock s x k = fblock s x k' -> k = k';
  mp_apart k : 0 <= k -> k * BSIZE < cap -> NDIRECT * BSIZE < cap ->
    fblock s x k <> i_addrs x !!! Z.to_nat NDIRECT;
  mp_held y k : y ∈ H -> 0 <= k -> k * BSIZE < cap -> bid (bufs s y) <> (dev, fblock s x k) /\
    (NDIRECT * BSIZE < cap -> bid (bufs s y) <> (dev, i_addrs x !!! Z.to_nat NDIRECT)) }.

(** What a step that changes no block leaves alone. *)
Record quiet (s : kstate) (H : list nat) (s' : kstate) : Prop := {
  qt_content : same_content s s';
  qt_key : forall y, y ∈ H -> key (bufs s' y) = key (bufs s y);
  qt_frame : fs_frame s s' }.

Lemma quiet_refl s H : quiet s H s.
Proof. by split. Qed.

Lemma quiet_trans s1 s2 s3 H : quiet s1 H s2 -> quiet s2 H s3 -> quiet s1 H s3.
Proof.
  intros [C1 K1 F1] [C2 K2 F2]. split.
  - intros d n Hd. by rewrite C2, C1.
  - intros y Hy. by rewrite K2, K1.
  - by etransitivity.
Qed.

Lemma fblock_quiet s H s' x k : quiet s H s' -> fblock s' x k = fblock s x k.
Proof. intros [C _ _]. unfold fblock. by rewrite C. Qed.

Lemma fbyte_quiet s H s' x i : quiet s H s' -> fbyte s' x i = fbyte s x i.
Proof. intros Hq. unfold fbyte. rewrite (fblock_quiet s H s'), (qt_content _ _ _ Hq); done. Qed.

Lemma mapped_quiet s H s' x cap : quiet s H s' -> mapped s H x cap -> mapped s' H x cap.
Proof.
  intros Hq [M1 M2 M3 M4 M5 M6 M7]. pose proof (fun k => fblock_quiet s H s' x k Hq) as Hf.
  destruct Hq as [C K F]. destruct (frame_same _ _ F) as (_ & Hds & _).
  split; try done; intros *; rewrite ?Hf, ?Hds, ?C by done; eauto.
  intros Hy. rewrite (key_bid _ _ (K y Hy)). by apply M7.
Qed.

Lemma inodes_quiet s H s' ip : quiet s H s' -> inodes s' ip = inodes s ip.
Proof. intros [_ _ F]. destruct (frame_same _ _ F) as (_ & _ & _ & E & _). unfold inodes. by rewrite E. Qed.

(** [bmap] of a block that is allocated finds it. *)
Lemma bmap_mapped s H bl ip cap k :
  op p dev s H bl -> mapped s H (inodes s ip) cap -> 0 <= k -> k * BSIZE < cap ->
  (length H + length bl < NBUF)%nat ->
  exists s', bmap ip k s = Ret (fblock s (inodes s ip) k) s' /\ op p dev s' H bl /\ quiet s H s'.
Proof.
  intros Hop [M1 M2 M3 M4 M5 M6 M7] Hk Hcap Hlen. set (x := inodes s ip) in *.
  destruct (M3 k Hk Hcap) as (Hnz & _ & _). unfold bmap, fblock in *.
  destruct (Z.ltb_spec k NDIRECT) as [Hd|Hd].
  - exists s. split; [|by split; [|apply quiet_refl]]. unfold addr_or_alloc. mrun. fold x.
    by rewrite (proj2 (Z.eqb_neq _ _)).
  - assert (NDIRECT * BSIZE < cap) as Hi by (unfold BSIZE in *; lia).
    destruct (M4 Hi) as (Ha & Hsv).
    rewrite (proj2 (Z.ltb_lt _ _)) by (unfold MAXFILE, BSIZE, NDIRECT, NINDIRECT in *; simpl in *; lia).
    unfold addr_or_alloc. mrun. fold x. rewrite (proj2 (Z.eqb_neq _ _)) by done. mrun. fold x. rewrite M1.
    destruct (op_bread p dev Hdev s H bl (i_addrs x !!! Z.to_nat NDIRECT) Hop Hsv)
      as (b & s1 & E & HbH & Hop1 & Hf); [intros y Hy; by apply (M7 y k Hy)|done|].
    mstep E. mrun. rewrite (fe_data _ _ _ _ _ Hf). rewrite (proj2 (Z.eqb_neq _ _)) by done. mrun.
    destruct (op_giveback p dev Hdev s H bl _ b s1 Hop1 HbH Hf) as (s2 & E2 & Hop2 & C2 & K2 & F2).
    mstep E2. unfold ret. exists s2. by split_and!.
Qed.

(** ** Reading *)

Lemma block_pos off i : 0 <= off -> 0 <= i < BSIZE - off mod BSIZE ->
  (off + i) / BSIZE = off / BSIZE /\ (off + i) mod BSIZE = off mod BSIZE + i.
Proof.
  intros Ho Hi. pose proof (Z.div_mod off BSIZE ltac:(done)).
  pose proof (Z.mod_pos_bound off BSIZE eq_refl).
  assert ((off + i) / BSIZE = off / BSIZE) as E
    by (symmetry; apply Z.div_unique with (off mod BSIZE + i); lia).
  split; [done|]. pose proof (Z.div_mod (off + i) BSIZE ltac:(done)). lia.
Qed.

Lemma fbytes_app s x off n m :
  fbytes s x off (n + m) = fbytes s x off n ++ fbytes s x (off + Z.of_nat n) m.
Proof.
  unfold fbytes. rewrite seq_app, map_app. f_equal. rewrite <- (Nat.add_0_r (0 + n)).
  rewrite <- fmap_add_seq, <- list_fmap_compose. apply map_ext. intros k. cbn. f_equal. lia.
Qed.

(** A piece of one block. *)
Lemma fbytes_block s x off m : 0 <= off -> Z.of_nat m <= BSIZE - off mod BSIZE ->
  length (content s dev (fblock s x (off / BSIZE))) = Z.to_nat BSIZE ->
  take m (drop (Z.to_nat (off mod BSIZE)) (content s dev (fblock s x (off / BSIZE)))) = fbytes s x off m.
Proof.
  intros Ho Hm Hl. pose proof (Z.mod_pos_bound off BSIZE eq_refl). apply list_eq. intros i.
  unfold fbytes. destruct (decide (i < m)%nat) as [Hi|Hi].
  - rewrite lookup_take_lt, lookup_drop by done. rewrite list_lookup_fmap, lookup_seq_lt by done. cbn.
    unfold fbyte. destruct (block_pos off (Z.of_nat i) Ho ltac:(lia)) as [-> ->].
    rewrite list_lookup_lookup_total_lt by lia. f_equal. f_equal. lia.
  - rewrite lookup_take_ge by lia. symmetry. apply lookup_ge_None.
    rewrite length_map, length_seq. lia.
Qed.

(** The rounds it takes to handle [n] bytes from [off]. *)
Definition rounds (off n : Z) : Z := if 0 <? n then (off mod BSIZE + n + BSIZE - 1) / BSIZE + 1 else 1.

Lemma rounds_pos off n : 0 <= off -> 1 <= rounds off n.
Proof.
  intros Ho. unfold rounds. pose proof (Z.mod_pos_bound off BSIZE eq_refl).
  destruct (Z.ltb_spec 0 n); [|lia].
  pose proof (Z.div_pos (off mod BSIZE + n + BSIZE - 1) BSIZE). unfold BSIZE in *. lia.
Qed.

Lemma rounds_step off n : 0 <= off -> 0 < n ->
  let m := Z.min n (BSIZE - off mod BSIZE) in 0 < m /\ rounds (off + m) (n - m) + 1 <= rounds off n.
Proof.
  intros Ho Hn m. pose proof (Z.mod_pos_bound off BSIZE eq_refl) as Hb.
  split; [unfold m, BSIZE in *; lia|]. unfold rounds at 2. rewrite (proj2 (Z.ltb_lt _ _) Hn).
  unfold rounds. destruct (Z.ltb_spec 0 (n - m)) as [Hr|Hr].
  - assert (m = BSIZE - off mod BSIZE) as Em by lia.
    assert ((off + m) mod BSIZE = 0) as ->.
    { pose proof (Z.div_mod off BSIZE ltac:(done)).
      replace (off + m) with ((off / BSIZE + 1) * BSIZE) by lia. apply Z_mod_mult. }
    replace (off mod BSIZE + n + BSIZE - 1) with (0 + (n - m) + BSIZE - 1 + 1 * BSIZE) by lia.
    rewrite Z.div_add by done. lia.
  - assert (1 <= (off mod BSIZE + n + BSIZE - 1) / BSIZE); [|lia].
    apply Z.div_le_lower_bound; unfold BSIZE in *; lia.
Qed.

Lemma copy_rounds_enough off n : 0 <= off -> 0 <= n -> rounds off n <= Z.of_nat (copy_rounds n).
Proof.
  intros Ho Hn. unfold copy_rounds, rounds. pose proof (Z.mod_pos_bound off BSIZE eq_refl).
  pose proof (Z.div_pos n BSIZE). rewrite Z2Nat.id by (unfold BSIZE in *; lia).
  destruct (Z.ltb_spec 0 n); [|unfold BSIZE in *; lia].
  assert ((off mod BSIZE + n + BSIZE - 1) / BSIZE <= n / BSIZE + 2); [|lia].
  rewrite <- (Z.div_add n 2 BSIZE) by done. apply Z.div_le_mono; unfold BSIZE in *; lia.
Qed.

(** Reading the block at [off] and giving it back. *)
Lemma read_block s H bl ip cap off :
  op p dev s H bl -> mapped s H (inodes s ip) cap -> 0 <= off < cap ->
  (length H + length bl < NBUF)%nat ->
  exists s1 b s2, bmap ip (off / BSIZE) s = Ret (fblock s (inodes s ip) (off / BSIZE)) s1 /\
    op p dev s1 H bl /\ quiet s H s1 /\
    bread dev (fblock s (inodes s ip) (off / BSIZE)) s1 = Ret b s2 /\ b ∉ H /\
    op p dev s2 (b :: H) bl /\ fetched dev s1 (fblock s (inodes s ip) (off / BSIZE)) b s2 /\
    b_data (bufs s2 b) = content s dev (fblock s (inodes s ip) (off / BSIZE)) /\
    inodes s1 ip = inodes s ip /\ inodes s2 ip = inodes s ip.
Proof.
  intros Hop Hm Ho Hlen. assert (0 <= off / BSIZE) as Hk by (apply Z.div_pos; [lia|done]).
  assert (off / BSIZE * BSIZE < cap) as Hc by (pose proof (Z.mul_div_le off BSIZE eq_refl); lia).
  destruct (bmap_mapped s H bl ip cap (off / BSIZE) Hop Hm Hk Hc Hlen) as (s1 & E1 & Hop1 & Hq1).
  pose proof (mapped_quiet _ _ _ _ _ Hq1 Hm) as Hm1.
  set (x := inodes s ip) in *. set (bno := fblock s x (off / BSIZE)) in *.
  assert (fblock s1 x (off / BSIZE) = bno) as Eb by by eapply fblock_quiet.
  destruct (mp_block _ _ _ _ Hm1 (off / BSIZE) Hk Hc) as (_ & Hsv & _). rewrite Eb in Hsv.
  destruct (op_bread p dev Hdev s1 H bl bno Hop1 Hsv) as (b & s2 & E2 & HbH & Hop2 & Hf).
  - intros y Hy. rewrite <- Eb. by apply (mp_held _ _ _ _ Hm1).
  - done.
  - exists s1, b, s2. split_and!; try done.
    + rewrite (fe_data _ _ _ _ _ Hf). by apply (qt_content _ _ _ Hq1).
    + by eapply inodes_quiet.
    + destruct (frame_same _ _ (fe_frame _ _ _ _ _ Hf)) as (_ & _ & _ & E & _).
      unfold inodes. rewrite E. by eapply (inodes_quiet s H s1).
Qed.

Lemma readi_loop_ok ip cap n H bl : (length H + length bl < NBUF)%nat ->
  forall k s off tot acc, op p dev s H bl -> mapped s H (inodes s ip) cap ->
  0 <= off -> tot <= n -> off + (n - tot) <= cap -> rounds off (n - tot) <= Z.of_nat k ->
  exists s', readi_loop kern_sink ip off n tot acc k s
      = Ret (acc ++ fbytes s (inodes s ip) off (Z.to_nat (n - tot))) s' /\
    op p dev s' H bl /\ quiet s H s'.
Proof.
  intros Hlen. induction k as [|k IH]; intros s off tot acc Hop Hm Ho Ht Hcap Hr;
    [pose proof (rounds_pos off (n - tot) Ho); lia|].
  cbn [readi_loop]. destruct (Z.ltb_spec tot n) as [Hlt|Hge].
  2: { exists s. replace (Z.to_nat (n - tot)) with 0%nat by lia. cbn. rewrite app_nil_r.
       split_and!; [done|done|apply quiet_refl]. }
  destruct (rounds_step off (n - tot) Ho ltac:(lia)) as [Hmp Hstep].
  set (m := Z.min (n - tot) (BSIZE - off mod BSIZE)) in *.
  destruct (read_block s H bl ip cap off Hop Hm ltac:(lia) Hlen)
    as (s1 & b & s2 & E1 & Hop1 & Hq1 & E2 & HbH & Hop2 & Hf & Hd & I1 & I2).
  mstep E1. mrun. rewrite I1, (mp_dev _ _ _ _ Hm). mstep E2. mrun. unfold kern_sink at 1. mrun.
  destruct (op_giveback p dev Hdev s1 H bl _ b s2 Hop2 HbH Hf) as (s3 & E3 & Hop3 & C3 & K3 & F3).
  mstep E3. rewrite Hd.
  assert (quiet s H s3) as Hq3 by (eapply quiet_trans; [exact Hq1|by split]).
  assert (length (content s dev (fblock s (inodes s ip) (off / BSIZE))) = Z.to_nat BSIZE) as Hlb.
  { apply (mp_block _ _ _ _ Hm); [apply Z.div_pos; [lia|done]|].
    pose proof (Z.mul_div_le off BSIZE eq_refl). lia. }
  rewrite fbytes_block by (done || lia).
  assert (inodes s3 ip = inodes s ip) as I3 by by eapply inodes_quiet.
  destruct (IH s3 (off + m) (tot + m) (acc ++ fbytes s (inodes s ip) off (Z.to_nat m)) Hop3)
    as (s4 & E4 & Hop4 & Hq4).
  - rewrite I3. by eapply mapped_quiet.
  - lia.
  - lia.
  - lia.
  - replace (n - (tot + m)) with (n - tot - m) by lia. lia.
  - exists s4. rewrite E4, I3. split_and!; [|done|by eapply quiet_trans]. f_equal.
    rewrite <- app_assoc. f_equal.
    replace (Z.to_nat (n - tot)) with (Z.to_nat m + Z.to_nat (n - (tot + m)))%nat by lia.
    rewrite fbytes_app. rewrite Z2Nat.id by lia. f_equal. unfold fbytes. apply map_ext. intros i.
    by eapply fbyte_quiet.
Qed.

(** ** Writing *)

(** The log and the cache have room for [r] more blocks. *)
Definition space (s : kstate) (H : list nat) (bl : list Z) (r : Z) : Prop :=
  1 <= l_outstanding (k_log s) /\ Z.of_nat (length bl) + r <= LOGSIZE /\
  Z.of_nat (length bl) + r <= l_size (k_log s) - 1 /\
  Z.of_nat (length H + length bl) + r < Z.of_nat NBUF.

(** The bytes from [off] on are [ds]; the other bytes of the file and the
    other blocks are as they were. *)
Record wrote (s : kstate) (x : inode) (cap off : Z) (ds : list Z) (s' : kstate) : Prop := {
  wr_map k : 0 <= k -> k * BSIZE < cap -> fblock s' x k = fblock s x k;
  wr_byte i : 0 <= i < cap -> fbyte s' x i =
    if decide (off <= i < off + Z.of_nat (length ds)) then ds !!! Z.to_nat (i - off) else fbyte s x i;
  wr_other d n : d <> 0 -> (forall k, 0 <= k -> k * BSIZE < cap -> (d, n) <> (dev, fblock s x k)) ->
    content s' d n = content s d n }.

Lemma block_lt i cap : 0 <= i < cap -> 0 <= i / BSIZE /\ i / BSIZE * BSIZE < cap.
Proof. intros Hi. split; [apply Z.div_pos; [lia|done]|]. pose proof (Z.mul_div_le i BSIZE eq_refl). lia. Qed.

Lemma wrote_nil s H s' x cap off : quiet s H s' -> wrote s x cap off [] s'.
Proof.
  intros Hq. split.
  - intros k _ _. by eapply fblock_quiet.
  - intros i _. rewrite decide_False by (simpl; lia). by eapply fbyte_quiet.
  - intros d n Hd _. by apply (qt_content _ _ _ Hq).
Qed.

Lemma wrote_app s x cap off ds1 ds2 s1 s2 : wrote s x cap off ds1 s1 ->
  wrote s1 x cap (off + Z.of_nat (length ds1)) ds2 s2 -> wrote s x cap off (ds1 ++ ds2) s2.
Proof.
  intros [M1 B1 O1] [M2 B2 O2]. split.
  - intros k H1 H2. by rewrite M2, M1.
  - intros i Hi. rewrite B2, B1, length_app by done.
    repeat case_decide; try lia.
    + rewrite lookup_total_app_r by lia. f_equal. lia.
    + rewrite lookup_total_app_l by lia. done.
  - intros d n Hd Hn. rewrite O2, O1; try done. intros k H1 H2. rewrite M1 by done. by apply Hn.
Qed.

(** The map does not change when a data block does. *)
Lemma fblock_updated s H bl x cap k k0 dat s' : mapped s H x cap ->
  updated p dev s H bl (fblock s x k0) dat s' -> 0 <= k0 -> k0 * BSIZE < cap ->
  0 <= k -> k * BSIZE < cap -> fblock s' x k = fblock s x k.
Proof.
  intros Hm [_ _ U3 _ _] H1 H2 H3 H4. unfold fblock. destruct (Z.ltb_spec k NDIRECT); [done|].
  rewrite U3; [done|done|]. intros Eq. injection Eq as Eq.
  apply (mp_apart _ _ _ _ Hm k0 H1 H2); [unfold BSIZE in *; lia|done].
Qed.

Lemma mapped_updated s H bl x cap k0 dat s' : mapped s H x cap ->
  updated p dev s H bl (fblock s x k0) dat s' -> 0 <= k0 -> k0 * BSIZE < cap ->
  length dat = Z.to_nat BSIZE -> mapped s' H x cap.
Proof.
  intros Hm Hu H1 H2 Hl. pose proof (fun k => fblock_updated s H bl x cap k k0 dat s' Hm Hu H1 H2) as Hfb.
  destruct Hm as [M1 M2 M3 M4 M5 M6 M7]. destruct Hu as [_ U2 U3 U4 U5].
  destruct (frame_same _ _ U5) as (_ & Hds & _).
  split; rewrite ?Hds; try done.
  - intros k Hk Hc. rewrite Hfb by done. destruct (M3 k Hk Hc) as (N1 & N2 & N3). split_and!; try done.
    destruct (decide (fblock s x k = fblock s x k0)) as [->|Hne]; [by rewrite U2|].
    rewrite U3; [done|done|congruence].
  - intros k k' A1 A2 A3 A4. rewrite !Hfb by done. by apply M5.
  - intros k A1 A2 A3. rewrite Hfb by done. by apply M6.
  - intros y k Hy A1 A2. rewrite Hfb, (key_bid _ _ (U4 y Hy)) by done. by apply M7.
Qed.

(** A piece of one block. *)
Lemma wrote_block s H bl x cap off ds s' : mapped s H x cap -> 0 <= off < cap ->
  Z.of_nat (length ds) <= BSIZE - off mod BSIZE ->
  updated p dev s H bl (fblock s x (off / BSIZE))
    (splice (Z.to_nat (off mod BSIZE)) ds (content s dev (fblock s x (off / BSIZE)))) s' ->
  wrote s x cap off ds s'.
Proof.
  intros Hm Ho Hds Hu. destruct (block_lt off cap Ho) as [K1 K2].
  pose proof (fun k => fblock_updated s H bl x cap k _ _ s' Hm Hu K1 K2) as Hfb.
  pose proof Hu as [_ U2 U3 _ _]. pose proof (Z.mod_pos_bound off BSIZE eq_refl).
  destruct (mp_block _ _ _ _ Hm (off / BSIZE) K1 K2) as (_ & _ & Hlen).
  split; [done| |].
  - intros i Hi. destruct (block_lt i cap Hi) as [I1 I2]. unfold fbyte. rewrite Hfb by done.
    pose proof (Z.mod_pos_bound i BSIZE eq_refl).
    pose proof (Z.div_mod i BSIZE ltac:(done)). pose proof (Z.div_mod off BSIZE ltac:(done)).
    destruct (decide (i / BSIZE = off / BSIZE)) as [E|Hne].
    + rewrite E, U2, list_lookup_total_alt. case_decide.
      * rewrite lookup_splice_in by (rewrite ?Hlen; unfold BSIZE in *; lia).
        rewrite list_lookup_total_alt. f_equal. f_equal. lia.
      * rewrite lookup_splice_out by (rewrite ?Hlen; unfold BSIZE in *; lia).
        by rewrite list_lookup_total_alt.
    + rewrite decide_False.
      * rewrite U3; [done|done|]. intros Eq. injection Eq as Eq. apply Hne.
        by apply (mp_inj _ _ _ _ Hm).
      * intros [A1 A2]. apply Hne. symmetry. apply Z.div_unique with (i - off / BSIZE * BSIZE); lia.
  - intros d n Hd Hn. apply U3; [done|]. by apply Hn.
Qed.

Lemma updated_quiet s s1 H bl bno dat s' : quiet s H s1 -> updated p dev s1 H bl bno dat s' ->
  updated p dev s H bl bno dat s'.
Proof.
  intros [C K F] [U1 U2 U3 U4 U5]. split; try done.
  - intros d n Hd Hne. rewrite U3 by done. by apply C.
  - intros y Hy. by rewrite U4, K.
  - by etransitivity.
Qed.

Lemma space_frame s s' H bl r : fs_frame s s' -> space s H bl r -> space s' H bl r.
Proof. intros [E1 E2]%frame_log. unfold space. by rewrite E1, E2. Qed.

(** One round of [writei]: reading the block, changing it and logging it. *)
Lemma write_block s H bl ip cap off ds :
  op p dev s H bl -> mapped s H (inodes s ip) cap -> 0 <= off < cap -> space s H bl 1 ->
  Z.of_nat (length ds) <= BSIZE - off mod BSIZE ->
  let bno := fblock s (inodes s ip) (off / BSIZE) in
  exists s1 b s2 s3, bmap ip (off / BSIZE) s = Ret bno s1 /\ inodes s1 ip = inodes s ip /\
    bread dev bno s1 = Ret b s2 /\
    (upd_data b (splice (Z.to_nat (off mod BSIZE)) ds) ;;; log_write b ;;; brelse b) s2 = Ret tt s3 /\
    op p dev s3 H (absorb bl bno) /\ mapped s3 H (inodes s ip) cap /\ inodes s3 ip = inodes s ip /\
    wrote s (inodes s ip) cap off ds s3 /\ fs_frame s s3 /\
    (forall y, y ∈ H -> key (bufs s3 y) = key (bufs s y)).
Proof.
  intros Hop Hm Ho Hsp Hds bno. destruct (block_lt off cap Ho) as [K1 K2].
  assert (length H + length bl < NBUF)%nat as Hlen by (unfold space in Hsp; lia).
  destruct (read_block s H bl ip cap off Hop Hm Ho Hlen)
    as (s1 & b & s2 & E1 & Hop1 & Hq1 & E2 & HbH & Hop2 & Hf & Hd & I1 & I2). fold bno in E1, E2, Hf, Hd.
  destruct (op_finish p dev Hdev s1 H bl bno b s2 (splice (Z.to_nat (off mod BSIZE)) ds) Hop2 HbH Hf)
    as (s3 & E3 & Hu).
  { apply (can_log_frame s s1); [apply Hq1|]. unfold can_log. unfold space in Hsp. lia. }
  rewrite (qt_content _ _ _ Hq1) in Hu by done. apply (updated_quiet s) in Hu; [|done].
  pose proof (mp_block _ _ _ _ Hm _ K1 K2) as (_ & _ & Hbl). fold bno in Hbl.
  pose proof (Z.mod_pos_bound off BSIZE eq_refl).
  exists s1, b, s2, s3. split_and!; try done; [apply Hu| | | |apply Hu|apply Hu].
  - eapply mapped_updated; [done|exact Hu|done|done|]. rewrite length_splice; [done|].
    rewrite Hbl. unfold BSIZE in *. lia.
  - destruct (frame_same _ _ (up_frame _ _ _ _ _ _ _ _ Hu)) as (_ & _ & _ & E & _). unfold inodes. by rewrite E.
  - by eapply wrote_block.
Qed.

Lemma writei_loop_ok ip cap data H :
  let n := Z.of_nat (length data) in
  forall k s bl off tot, op p dev s H bl -> mapped s H (inodes s ip) cap ->
  0 <= off -> 0 <= tot <= n -> off + (n - tot) <= cap -> rounds off (n - tot) <= Z.of_nat k ->
  space s H bl (rounds off (n - tot) - 1) ->
  exists s' bl', writei_loop (kern_source data) ip off n tot k s = Ret (off + (n - tot)) s' /\
    op p dev s' H bl' /\ mapped s' H (inodes s ip) cap /\ inodes s' ip = inodes s ip /\ fs_frame s s' /\
    (length bl' <= length bl + Z.to_nat (rounds off (n - tot) - 1))%nat /\
    wrote s (inodes s ip) cap off (drop (Z.to_nat tot) data) s'.
Proof.
  intros n. induction k as [|k IH]; intros s bl off tot Hop Hm Ho Ht Hcap Hr Hsp;
    [pose proof (rounds_pos off (n - tot) Ho); lia|].
  cbn [writei_loop]. destruct (Z.ltb_spec tot n) as [Hlt|Hge].
  2: { exists s, bl. rewrite drop_ge by lia. split_and!; try done; [|lia|].
       - unfold ret. f_equal. lia.
       - apply (wrote_nil s H), quiet_refl. }
  destruct (rounds_step off (n - tot) Ho ltac:(lia)) as [Hmp Hstep].
  set (m := Z.min (n - tot) (BSIZE - off mod BSIZE)) in *.
  pose proof (rounds_pos (off + m) (n - tot - m) ltac:(lia)) as Hrp.
  set (ds := take (Z.to_nat m) (drop (Z.to_nat tot) data)).
  assert (Z.of_nat (length ds) = m) as Hlds by (unfold ds; rewrite length_take, length_drop; lia).
  destruct (write_block s H bl ip cap off ds Hop Hm ltac:(lia)) as
    (s1 & b & s2 & s3 & E1 & I1 & E2 & E3 & Hop3 & Hm3 & I3 & Hw3 & F3 & K3);
    [unfold space in *; lia|lia|].
  set (bno := fblock s (inodes s ip) (off / BSIZE)) in *.
  mstep E1. mrun. rewrite I1, (mp_dev _ _ _ _ Hm). mstep E2. unfold kern_source at 1. mrun. fold ds.
  rewrite (bind3_Ret _ _ _ _ _ _ E3). pose proof (length_absorb bl bno).
  destruct (IH s3 (absorb bl bno) (off + m) (tot + m) Hop3)
    as (s4 & bl4 & E4 & Hop4 & Hm4 & I4 & F4 & L4 & W4).
  - by rewrite I3.
  - lia.
  - lia.
  - lia.
  - replace (n - (tot + m)) with (n - tot - m) by lia. lia.
  - replace (n - (tot + m)) with (n - tot - m) by lia. apply (space_frame _ _ _ _ _ F3).
    unfold space in *. lia.
  - rewrite I3 in *. replace (n - (tot + m)) with (n - tot - m) in * by lia.
    exists s4, bl4. split_and!; try done; [|by etransitivity|lia|].
    + rewrite E4. f_equal. lia.
    + assert (drop (Z.to_nat tot) data = ds ++ drop (Z.to_nat (tot + m)) data) as ->.
      { unfold ds. replace (Z.to_nat (tot + m)) with (Z.to_nat tot + Z.to_nat m)%nat by lia.
        rewrite <- drop_drop. by rewrite take_drop. }
      eapply wrote_app; [exact Hw3|]. by rewrite Hlds.
Qed.

Lemma small_sum off n cap : 0 <= off -> 0 <= n -> off + n <= cap -> cap <= MAXFILE * BSIZE ->
  u32 (off + n) = off + n /\ s32 n = n.
Proof.
  intros Ho Hn Hs Hc. change (MAXFILE * BSIZE) with 71680 in Hc.
  split; [apply u32_small|apply s32_small]; lia.
Qed.

(** [readi] within the file. *)
Lemma readi_ok s H bl ip off n :
  let x := inodes s ip in
  op p dev s H bl -> mapped s H x (i_size x) -> i_type x <> T_DEV -> (length H + length bl < NBUF)%nat ->
  0 <= off -> 0 <= n -> off + n <= i_size x ->
  exists s', readi kern_sink [] ip off n s = Ret (n, fbytes s x off (Z.to_nat n)) s' /\
    op p dev s' H bl /\ quiet s H s'.
Proof.
  intros x Hop Hm Ht Hlen Ho Hn Hsz. pose proof (mp_cap _ _ _ _ Hm) as Hcap.
  destruct (small_sum off n (i_size x) Ho Hn Hsz (proj2 Hcap)) as [Eu Es].
  unfold readi. mrun. fold x. rewrite (proj2 (Z.eqb_neq _ _) Ht), Eu. zbool. cbn [orb].
  destruct (readi_loop_ok ip (i_size x) n H bl Hlen (copy_rounds n) s off 0 [] Hop Hm Ho Hn)
    as (s' & E & Hop' & Hq); [lia|rewrite Z.sub_0_r; by apply copy_rounds_enough|].
  mstep E. rewrite Z.sub_0_r. unfold ret. rewrite Es. by exists s'.
Qed.

(** [writei] within the file. *)
Lemma writei_ok s H bl ip off data :
  let x := inodes s ip in let n := Z.of_nat (length data) in
  op p dev s H bl -> mapped s H x (i_size x) -> i_type x <> T_DEV ->
  0 <= off -> off + n <= i_size x -> space s H bl (rounds off n - 1) ->
  exists s1 bl1, writei (kern_source data) ip off n s = Ret n s1 /\ op p dev s1 H bl1 /\
    mapped s1 H x (i_size x) /\ inodes s1 ip = x /\ fs_frame s s1 /\
    (length H + length bl1 < NBUF)%nat /\ wrote s x (i_size x) off data s1.
Proof.
  intros x n Hop Hm Ht Ho Hsz Hsp. pose proof (mp_cap _ _ _ _ Hm) as Hcap.
  destruct (small_sum off n (i_size x) Ho ltac:(lia) Hsz (proj2 Hcap)) as [Eu Es].
  unfold writei. mrun. fold x. rewrite (proj2 (Z.eqb_neq _ _) Ht), Eu. zbool. cbn [orb].
  destruct (writei_loop_ok ip (i_size x) data H (copy_rounds n) s bl off 0 Hop Hm Ho)
    as (s1 & bl1 & E & Hop1 & Hm1 & I1 & F1 & L1 & W1); fold n; rewrite ?Z.sub_0_r;
    [lia|lia|apply copy_rounds_enough; lia|done|].
  fold n x in E, I1, W1. rewrite Z.sub_0_r in E. mstep E. mrun. rewrite I1. zbool.
  rewrite andb_false_r. mrun. unfold ret. rewrite Es. exists s1, bl1. rewrite Z.sub_0_r in L1. fold n in L1.
  split_and!; try done. pose proof (rounds_pos off n Ho). unfold space in Hsp. lia.
Qed.

(** C27: [writei] and [readi] agree.  A write inside a file returns the number of
    bytes and changes those bytes of the file and no other, and no block that
    is not the file's; every later [readi] inside the file returns the new
    bytes where they were written and the old ones elsewhere. *)
Theorem writei_readi s H bl ip off data :
  let x := inodes s ip in let n := Z.of_nat (length data) in
  op p dev s H bl -> mapped s H x (i_size x) -> i_type x <> T_DEV ->
  0 <= off -> off + n <= i_size x -> space s H bl (rounds off n - 1) ->
  exists s1 bl1, writei (kern_source data) ip off n s = Ret n s1 /\ op p dev s1 H bl1 /\
    inodes s1 ip = x /\ fs_frame s s1 /\
    (forall d b, d <> 0 -> (forall k, 0 <= k -> k * BSIZE < i_size x -> (d, b) <> (dev, fblock s x k)) ->
       content s1 d b = content s d b) /\
    forall off' n', 0 <= off' -> 0 <= n' -> off' + n' <= i_size x ->
      exists s2, readi kern_sink [] ip off' n' s1 =
        Ret (n', map (fun k => let i := off' + Z.of_nat k in
          if decide (off <= i < off + n) then data !!! Z.to_nat (i - off) else fbyte s x i)
          (seq 0 (Z.to_nat n'))) s2.
Proof.
  intros x n Hop Hm Ht Ho Hsz Hsp.
  destruct (writei_ok s H bl ip off data Hop Hm Ht Ho Hsz Hsp)
    as (s1 & bl1 & E & Hop1 & Hm1 & I1 & F1 & L1 & [W1 W2 W3]).
  exists s1, bl1. split_and!; try done. intros off' n' Ho' Hn' Hsz'.
  destruct (readi_ok s1 H bl1 ip off' n') as (s2 & E2 & _); rewrite ?I1; try done.
  exists s2. rewrite E2, I1. f_equal. f_equal. unfold fbytes. apply map_ext_in. intros k [_ Hk]%in_seq.
  cbn zeta. by rewrite W2 by (unfold x in *; lia).
Qed.
End FileData.


(** The file of [demo_ifs]: 700 bytes in blocks 70 and 71. *)
Lemma demo_ifs_mapped : mapped 1 demo_ifs [] demo_file 700.
Proof.
  assert (forall k, 0 <= k -> k * BSIZE < 700 -> k = 0 \/ k = 1) as Hk by (unfold BSIZE; lia).
  assert (~ NDIRECT * BSIZE < 700) as Hi by by_eval.
  split; [reflexivity|by_eval| |intros H; destruct (Hi H)| |intros k _ _ H; destruct (Hi H)|].
  - intros k H0 H1. destruct (Hk k H0 H1) as [-> | ->]; split_and!; by_eval.
  - intros k k' H0 H1 H2 H3. destruct (Hk k H0 H1) as [-> | ->], (Hk k' H2 H3) as [-> | ->];
      [reflexivity|vm_compute; discriminate..|reflexivity].
  - intros y k Hy. destruct (not_elem_of_nil _ Hy).
Qed.

(** No devices. *)
Definition no_devsw : DevSw := {| dev_read := fun _ => None; dev_write := fun _ => None |}.

Lemma writei_readi_witness :
  exists s1, writei (V := no_devsw) (kern_source [7; 8; 9]) 0 510 3 demo_ifs = Ret 3 s1 /\
    exists s2, readi (V := no_devsw) kern_sink [] 0 509 5 s1 = Ret (5, [0; 7; 8; 9; 0]) s2.
Proof.
  destruct (writei_readi (V := no_devsw) 0 1 ltac:(lia) demo_ifs [] [] 0 510 [7; 8; 9]
    ltac:(by apply op_fresh) demo_ifs_mapped ltac:(vm_compute; discriminate) ltac:(lia)
    ltac:(vm_compute; discriminate) ltac:(unfold space; split_and!; by_eval))
    as (s1 & bl1 & E & Hop & _ & _ & _ & Hr).
  exists s1. split; [exact E|]. destruct (Hr 509 5) as (s2 & E2); [lia|lia|by_eval|].
  exists s2. rewrite E2. reflexivity.
Defined.
