(* ===== verification/Dir.v ===== *)
(** Directories: [dirlookup] and [dirlink] of fs.c.

    A directory is a file of entries of sixteen bytes, an inode number and a
    name of fourteen bytes at most; number 0 marks an entry that is not in
    use.  [dir_find] is the entry that a name means: the first one in use with
    the same string.  The theorems say that [dirlookup] finds it and that
    [dirlink] adds exactly one name. *)

From stdpp Require Import base list sets strings.
From Stdlib Require Import ZArith Lia.
From S2P Require Import Prelude State Demo CString Sched Sleeplock Disk Bio Log.
From S2P Require Import Fs FsBlock Inode FileData.

Open Scope kernel_scope.

(** A name as the directory code sees it. *)
Definition name_str (name : list Z) : list Z := cstr (Z.to_nat DIRSIZ) (arr name).
Definition bytes_ok (l : list Z) : Prop := Forall (fun c => 0 <= c < 256) l.

Lemma arr_bytes l i : bytes_ok l -> 0 <= arr l i < 256.
Proof.
  intros Hl. unfold arr. destruct (l !! i) as [c|] eqn:E; simpl; [|lia].
  apply (Forall_lookup_1 _ _ _ _ Hl E).
Qed.

(** [namecmp] compares the strings. *)
Lemma namecmp_eq s t : bytes_ok s -> bytes_ok t -> namecmp s t = 0 <-> name_str s = name_str t.
Proof. intros Hs Ht. apply strncmp_eq_iff; intros i; by apply arr_bytes. Qed.

Lemma dirent_inum name inum : 0 <= inum < 2 ^ 16 -> de_inum (dirent_bytes name inum) = inum.
Proof.
  intros Hi. unfold de_inum, dirent_bytes, get16. rewrite drop_0.
  rewrite take_app_le by done. change (take 2 (le16 inum)) with (le16 inum). rewrite of_le_le16.
  unfold u16. by rewrite Z.mod_small.
Qed.

Lemma dirent_name name inum : name_str (de_name (dirent_bytes name inum)) = name_str name.
Proof. unfold de_name, dirent_bytes, name_str. apply strncpy_cstr. by rewrite length_replicate. Qed.

Lemma length_dirent name inum : length (dirent_bytes name inum) = Z.to_nat DIRENT_SIZE.
Proof. unfold dirent_bytes. by rewrite length_app, length_strncpy, length_replicate. Qed.

Lemma strncpy_bytes s t n : bytes_ok s -> (forall i, 0 <= t i < 256) -> bytes_ok (strncpy s t n).
Proof.
  intros Hs Ht. unfold strncpy. generalize (Z.to_nat n), O. intros k i.
  assert (forall k s i, bytes_ok s -> bytes_ok (strncpy_pad s i k)) as Hp.
  { clear. induction k as [|k IH]; intros s i Hs; simpl; [done|]. apply IH, Forall_insert; [done|lia]. }
  revert s i Hs. induction k as [|k IH]; intros s i Hs; simpl; [done|].
  case_match; [apply Hp|apply IH]; by apply Forall_insert.
Qed.

Lemma dirent_bytes_ok name inum : bytes_ok name -> bytes_ok (dirent_bytes name inum).
Proof.
  intros Hn. apply Forall_app. split.
  - repeat constructor; apply u8_range.
  - apply strncpy_bytes; [by apply Forall_replicate|intros i; by apply arr_bytes].
Qed.

Lemma find_only (f : nat -> bool) k l : k ∈ l -> (forall j, j ∈ l -> f j = bool_decide (j = k)) ->
  find f l = Some k.
Proof.
  intros Hk Hf. destruct (find f l) as [j|] eqn:E.
  - apply find_some in E as [Hj E]. apply list_elem_of_In in Hj. rewrite Hf in E by done.
    apply bool_decide_eq_true in E. by subst.
  - pose proof (find_none f l E k (proj1 (list_elem_of_In _ _) Hk)) as E'. rewrite Hf in E' by done.
    by apply bool_decide_eq_false in E'.
Qed.

Lemma find_seq (f : nat -> bool) n k : forall i, find f (seq i n) = Some k <->
  (i <= k < i + n)%nat /\ f k = true /\ forall j, (i <= j < k)%nat -> f j = false.
Proof.
  induction n as [|n IH]; intros i; simpl; [split; [done|lia]|]. destruct (f i) eqn:E.
  - split; [intros [= <-]; split_and!; [lia|lia|done|lia]|]. intros (Hk & _ & Hj).
    destruct (decide (i = k)) as [->|]; [done|]. rewrite Hj in E by lia. done.
  - rewrite IH. split; intros (Hk & Hf & Hj); (split; [|split; [done|]]).
    + lia.
    + intros j Hij. destruct (decide (j = i)) as [->|]; [done|]. apply Hj. lia.
    + destruct (decide (i = k)) as [->|]; [congruence|lia].
    + intros j Hij. apply Hj. lia.
Qed.

Section Dir.
Context {D : DiskDriver} {V : DevSw} (p : nat) (dev : Z) (Hdev : dev <> 0).

(** Entry [k] of the directory, and what it says. *)
Definition dent (s : kstate) (x : inode) (k : nat) : list Z :=
  fbytes dev s x (DIRENT_SIZE * Z.of_nat k) (Z.to_nat DIRENT_SIZE).
Definition in_use (s : kstate) (x : inode) (k : nat) : bool := negb (de_inum (dent s x k) =? 0).
Definition dir_match (s : kstate) (x : inode) (name : list Z) (k : nat) : bool :=
  in_use s x k && bool_decide (name_str name = name_str (de_name (dent s x k))).

Definition dir_len (x : inode) : nat := Z.to_nat (i_size x / DIRENT_SIZE).
Definition dir_find (s : kstate) (x : inode) (name : list Z) : option nat :=
  find (dir_match s x name) (seq 0 (dir_len x)).

(** What [dirlookup] returns when the name means entry [r] of the directory. *)
Definition looked_up (s : kstate) (x : inode) (r : option nat) : K (option (nat * Z)) :=
  match r with
  | Some i => ip <- iget (i_dev x) (de_inum (dent s x i)) ;; ret (Some (ip, DIRENT_SIZE * Z.of_nat i))
  | None => ret None
  end.

Record directory (s : kstate) (H : list nat) (x : inode) : Prop := {
  dr_mapped : mapped dev s H x (i_size x);
  dr_type : i_type x = T_DIR;
  dr_size : i_size x = DIRENT_SIZE * Z.of_nat (dir_len x);
  dr_bytes i : 0 <= i < i_size x -> 0 <= fbyte dev s x i < 256 }.

Lemma dent_quiet s H s' x k : quiet s H s' -> dent s' x k = dent s x k.
Proof. intros Hq. unfold dent, fbytes. apply map_ext. intros i. by eapply fbyte_quiet. Qed.

Lemma directory_quiet s H s' x : quiet s H s' -> directory s H x -> directory s' H x.
Proof.
  intros Hq [M T S B]. split; [by eapply mapped_quiet|done..|]. intros i Hi.
  rewrite (fbyte_quiet dev Hdev s H s') by done. auto.
Qed.

Lemma dent_bytes s H x k : directory s H x -> (k < dir_len x)%nat -> bytes_ok (de_name (dent s x k)).
Proof.
  intros [_ _ S B] Hk. apply Forall_drop. apply Forall_map, Forall_forall. intros i Hi.
  apply list_elem_of_In, in_seq in Hi. apply B. rewrite S. unfold DIRENT_SIZE in *. lia.
Qed.

(** Reading an entry. *)
Lemma read_dirent_ok msg s H bl dp k :
  op p dev s H bl -> directory s H (inodes s dp) -> (length H + length bl < NBUF)%nat ->
  (k < dir_len (inodes s dp))%nat ->
  exists s', read_dirent msg dp (DIRENT_SIZE * Z.of_nat k) s = Ret (dent s (inodes s dp) k) s' /\
    op p dev s' H bl /\ quiet s H s'.
Proof.
  intros Hop [M T S B] Hlen Hk. set (x := inodes s dp) in *.
  destruct (readi_ok p dev Hdev s H bl dp (DIRENT_SIZE * Z.of_nat k) DIRENT_SIZE) as (s' & E & Hop' & Hq);
    fold x; try done; [by rewrite T|unfold DIRENT_SIZE; lia|unfold DIRENT_SIZE in *; lia|].
  exists s'. unfold read_dirent. mstep E. cbn [fst snd]. rewrite Z.eqb_refl. by fold x.
Qed.

(** The loop from entry [k] on. *)
Lemma dirlookup_loop_ok dp name H bl e : bytes_ok name -> (length H + length bl < NBUF)%nat ->
  forall j k s, op p dev s H bl -> directory s H (inodes s dp) -> (k + j = dir_len (inodes s dp))%nat ->
  let x := inodes s dp in
  exists s', op p dev s' H bl /\ quiet s H s' /\
    dirlookup_loop dp name (DIRENT_SIZE * Z.of_nat k) (S j + e) s =
    looked_up s x (find (dir_match s x name) (seq k j)) s'.
Proof.
  intros Hn Hlen. induction j as [|j IH]; intros k s Hop Hd Hk x; cbn [dirlookup_loop Nat.add]; mrun; fold x in Hd, Hk |- *;
    pose proof (dr_size _ _ _ Hd) as Hsz.
  - exists s. rewrite (proj2 (Z.ltb_ge _ _)) by (unfold DIRENT_SIZE in *; lia).
    split_and!; [done|apply quiet_refl|done].
  - rewrite (proj2 (Z.ltb_lt _ _)) by (unfold DIRENT_SIZE in *; lia).
    destruct (read_dirent_ok "dirlookup read" s H bl dp k Hop Hd Hlen ltac:(fold x; lia)) as (s1 & E1 & Hop1 & Hq1).
    mstep E1. fold x. assert (inodes s1 dp = x) as Hx by by eapply inodes_quiet.
    destruct (IH (S k) s1 Hop1) as (s2 & Hop2 & Hq2 & E2);
      [rewrite Hx; by eapply directory_quiet|rewrite Hx; lia|].
    rewrite Hx in E2. replace (DIRENT_SIZE * Z.of_nat (S k)) with (DIRENT_SIZE * Z.of_nat k + DIRENT_SIZE) in E2 by lia.
    assert (find (dir_match s1 x name) (seq (S k) j) = find (dir_match s x name) (seq (S k) j)) as Hf.
    { apply find_ext. intros i _. unfold dir_match, in_use. by rewrite (dent_quiet s H s1). }
    rewrite Hf in E2. cbn [seq find]. unfold dir_match at 1, in_use.
    assert (exists s', op p dev s' H bl /\ quiet s H s' /\
      dirlookup_loop dp name (DIRENT_SIZE * Z.of_nat k + DIRENT_SIZE) (S j + e) s1 =
      looked_up s x (find (dir_match s x name) (seq (S k) j)) s') as Hrest.
    { exists s2. split_and!; [done|by eapply quiet_trans|]. rewrite E2. destruct (find _ _); [|done].
      unfold looked_up. by rewrite (dent_quiet s H s1). }
    destruct (Z.eqb_spec (de_inum (dent s x k)) 0) as [Hz|Hz]; cbn [negb andb]; [exact Hrest|].
    pose proof (namecmp_eq name _ Hn (dent_bytes s H x k Hd ltac:(lia))) as Hc.
    destruct (Z.eqb_spec (namecmp name (de_name (dent s x k))) 0) as [E|E].
    + rewrite bool_decide_eq_true_2 by (by apply Hc). exists s1. by split_and!.
    + rewrite bool_decide_eq_false_2 by (rewrite <- Hc; done). exact Hrest.
Qed.

Lemma dir_rounds_eq s H x : directory s H x -> dir_rounds (i_size x) = (S (dir_len x) + 1)%nat.
Proof.
  intros [_ _ S _]. unfold dir_rounds, dir_len in *.
  assert (0 <= i_size x / DIRENT_SIZE); [|lia]. apply Z.div_pos; unfold DIRENT_SIZE in *; lia.
Qed.

Lemma dirlookup_ok s H bl dp name :
  op p dev s H bl -> directory s H (inodes s dp) -> (length H + length bl < NBUF)%nat -> bytes_ok name ->
  let x := inodes s dp in
  exists s', dirlookup dp name s = looked_up s x (dir_find s x name) s' /\ op p dev s' H bl /\ quiet s H s'.
Proof.
  intros Hop Hd Hlen Hn x. pose proof Hd as [_ T Hsz _]. fold x in T, Hsz.
  unfold dirlookup. mrun. fold x. rewrite T, Z.eqb_refl. cbn [negb].
  destruct (dirlookup_loop_ok dp name H bl 1 Hn Hlen (dir_len x) 0 s Hop Hd eq_refl) as (s' & Hop' & Hq & E).
  exists s'. split_and!; [|done..]. by rewrite (dir_rounds_eq s H x Hd).
Qed.

(** The scan of [dirlink] stops at the first entry that is not in use. *)
Lemma dirlink_scan_ok dp H bl e : (length H + length bl < NBUF)%nat ->
  forall j k s, op p dev s H bl -> directory s H (inodes s dp) -> (k + j = dir_len (inodes s dp))%nat ->
  let x := inodes s dp in
  exists s', op p dev s' H bl /\ quiet s H s' /\
    dirlink_scan dp (DIRENT_SIZE * Z.of_nat k) (S j + e) s =
    Ret (DIRENT_SIZE * Z.of_nat (default (k + j)%nat (find (fun i => negb (in_use s x i)) (seq k j)))) s'.
Proof.
  intros Hlen. induction j as [|j IH]; intros k s Hop Hd Hk x; cbn [dirlink_scan Nat.add]; mrun;
    fold x in Hd, Hk |- *; pose proof (dr_size _ _ _ Hd) as Hsz.
  - exists s. rewrite (proj2 (Z.ltb_ge _ _)) by (unfold DIRENT_SIZE in *; lia).
    split_and!; [done|apply quiet_refl|]. cbn. by rewrite Nat.add_0_r.
  - rewrite (proj2 (Z.ltb_lt _ _)) by (unfold DIRENT_SIZE in *; lia).
    destruct (read_dirent_ok "dirlink read" s H bl dp k Hop Hd Hlen ltac:(fold x; lia)) as (s1 & E1 & Hop1 & Hq1).
    mstep E1. fold x. cbn [seq find]. unfold in_use at 1.
    destruct (Z.eqb_spec (de_inum (dent s x k)) 0) as [Hz|Hz]; cbn [negb]; [by exists s1|].
    assert (inodes s1 dp = x) as Hx by by eapply inodes_quiet.
    destruct (IH (S k) s1 Hop1) as (s2 & Hop2 & Hq2 & E2);
      [rewrite Hx; by eapply directory_quiet|rewrite Hx; lia|]. rewrite Hx in E2.
    exists s2. split_and!; [done|by eapply quiet_trans|].
    replace (DIRENT_SIZE * Z.of_nat (S k)) with (DIRENT_SIZE * Z.of_nat k + DIRENT_SIZE) in E2 by lia.
    etransitivity; [exact E2|]. do 3 f_equal. rewrite (Nat.add_succ_r k), <- Nat.add_succ_l. f_equal.
    apply find_ext. intros i _. unfold in_use. by rewrite (dent_quiet s H s1).
Qed.

(** An entry lies in one block. *)
Lemma dirent_rounds k : rounds (DIRENT_SIZE * Z.of_nat k) DIRENT_SIZE = 2.
Proof.
  unfold rounds, DIRENT_SIZE, BSIZE. cbn [Z.ltb Z.compare].
  pose proof (Z.mod_pos_bound (16 * Z.of_nat k) 512 eq_refl).
  pose proof (Z.div_mod (16 * Z.of_nat k) 512 ltac:(lia)).
  assert ((16 * Z.of_nat k mod 512 + 16 + 512 - 1) / 512 = 1); [|lia].
  symmetry. apply Z.div_unique with (16 * Z.of_nat k mod 512 + 15); lia.
Qed.

(** What a write of entry [k] leaves in the directory. *)
Lemma dent_wrote s x k de s' j : (k < dir_len x)%nat -> (j < dir_len x)%nat ->
  i_size x = DIRENT_SIZE * Z.of_nat (dir_len x) -> length de = Z.to_nat DIRENT_SIZE ->
  wrote dev s x (i_size x) (DIRENT_SIZE * Z.of_nat k) de s' ->
  dent s' x j = if decide (j = k) then de else dent s x j.
Proof.
  intros Hk Hj Hs Hl [_ W _]. unfold dent, fbytes. case_decide as E.
  - subst j. apply list_eq_same_length with (Z.to_nat DIRENT_SIZE); [done|by rewrite length_map, length_seq|].
    intros i a b Hi. rewrite list_lookup_fmap, lookup_seq_lt by done. cbn. intros [= <-] Hb.
    rewrite W, decide_True by (unfold DIRENT_SIZE in *; lia).
    rewrite <- (list_lookup_total_correct _ _ _ Hb). f_equal. lia.
  - apply map_ext_in. intros i [_ Hi]%in_seq. rewrite W, decide_False; [done|..]; unfold DIRENT_SIZE in *; lia.
Qed.

Lemma directory_wrote s H x k name inum s' : directory s H x -> (k < dir_len x)%nat -> bytes_ok name ->
  mapped dev s' H x (i_size x) ->
  wrote dev s x (i_size x) (DIRENT_SIZE * Z.of_nat k) (dirent_bytes name inum) s' -> directory s' H x.
Proof.
  intros [_ T S B] Hk Hn Hm [_ W _]. split; try done. intros i Hi. rewrite W by done. case_decide as E; [|auto].
  rewrite length_dirent in E. pose proof (dirent_bytes_ok name inum Hn) as Hb.
  rewrite list_lookup_total_alt. unfold bytes_ok in Hb. rewrite Forall_lookup in Hb.
  destruct (dirent_bytes name inum !! Z.to_nat (i - DIRENT_SIZE * Z.of_nat k)) as [c|] eqn:Ec; [|simpl; done].
  simpl. by apply (Hb _ _ Ec).
Qed.

(** The names of the directory after the write. *)
Lemma dir_find_wrote s H x k name inum s' name' : directory s H x -> (k < dir_len x)%nat ->
  0 < inum < 2 ^ 16 -> in_use s x k = false -> dir_find s x name = None ->
  wrote dev s x (i_size x) (DIRENT_SIZE * Z.of_nat k) (dirent_bytes name inum) s' ->
  dir_find s' x name' = if decide (name_str name' = name_str name) then Some k else dir_find s x name'.
Proof.
  intros Hd Hk Hi Hfree Hno Hw. pose proof (dr_size _ _ _ Hd) as Hsz.
  assert (forall j, (j < dir_len x)%nat -> dir_match s' x name' j =
    if decide (j = k) then bool_decide (name_str name' = name_str name) else dir_match s x name' j) as Hm.
  { intros j Hj. unfold dir_match, in_use.
    rewrite (dent_wrote s x k (dirent_bytes name inum) s' j) by (done || apply length_dirent).
    case_decide; [|done]. rewrite dirent_inum, dirent_name by lia. by rewrite (proj2 (Z.eqb_neq _ _)) by lia. }
  unfold dir_find in *. case_decide as E.
  - apply find_only; [apply elem_of_seq; lia|]. intros j Hj. pose proof Hj as [_ Hlt]%elem_of_seq.
    rewrite Hm by done. case_decide as Ej; [by rewrite !bool_decide_eq_true_2|].
    rewrite (bool_decide_eq_false_2 _ Ej).
    pose proof (find_none _ _ Hno j (proj1 (list_elem_of_In _ _) Hj)) as Hf.
    unfold dir_match in *. by rewrite E.
  - apply find_ext. intros j [_ Hj]%elem_of_seq. rewrite Hm by done. case_decide as Ej; [|done].
    rewrite bool_decide_eq_false_2 by done. subst j. unfold dir_match. by rewrite Hfree.
Qed.

(** C28: [dirlookup] finds what a name means: the first entry in use with the same
    string, whose inode it takes from the cache, and nothing when there is no
    such entry.  It changes no block and no inode. *)
Theorem dirlookup_first s H bl dp name :
  op p dev s H bl -> directory s H (inodes s dp) -> (length H + length bl < NBUF)%nat -> bytes_ok name ->
  let x := inodes s dp in
  exists s', dirlookup dp name s = looked_up s x (dir_find s x name) s' /\ op p dev s' H bl /\ quiet s H s' /\
    forall k, dir_find s x name = Some k <->
      (k < dir_len x)%nat /\ dir_match s x name k = true /\
      forall j, (j < k)%nat -> dir_match s x name j = false.
Proof.
  intros Hop Hd Hlen Hn x. destruct (dirlookup_ok s H bl dp name Hop Hd Hlen Hn) as (s' & E & Hop' & Hq).
  exists s'. split_and!; [done..|]. intros k. unfold dir_find. rewrite find_seq.
  split; intros (Hk & Hm & Hj); (split; [lia|split; [done|]]); intros j Hlt; apply Hj; lia.
Qed.

End Dir.

(** ** Examples *)

(** A directory in block 70: ".", an entry that is not in use, and "ab". *)
Definition demo_dir : inode :=
  mk_inode 1 9 1 (mk_sleeplock true 3) true 1 0 0 1 48 (70 :: replicate 12 0).
Definition demo_dirents : list Z :=
  dirent_bytes [46] 1 ++ replicate 16 0 ++ dirent_bytes [97; 98] 5 ++ replicate 464 0.
Definition demo_dfs : kstate :=
  set_k_icache (demo_dir :: replicate 49 inhabitant)
    (set_k_disk (fun _ n => if n =? 70 then demo_dirents else replicate 512 0) demo_fs).

Lemma demo_directory : directory 1 demo_dfs [] demo_dir.
Proof.
  assert (forall k, 0 <= k -> k * BSIZE < 48 -> k = 0) as Hk by (unfold BSIZE; lia).
  assert (~ NDIRECT * BSIZE < 48) as Hi by by_eval.
  split; [|reflexivity|reflexivity|].
  - split; [reflexivity|by_eval| |intros H; destruct (Hi H)| |intros k _ _ H; destruct (Hi H)|].
    + intros k H0 H1. rewrite (Hk k H0 H1). split_and!; by_eval.
    + intros k k' H0 H1 H2 H3 _. by rewrite (Hk k H0 H1), (Hk k' H2 H3).
    + intros y k Hy. destruct (not_elem_of_nil _ Hy).
  - intros i Hin. assert (((0 <=? fbyte 1 demo_dfs demo_dir i) && (fbyte 1 demo_dfs demo_dir i <? 256)) = true) as H.
    { revert i Hin. apply (in_range _ 48). vm_compute. reflexivity. }
    apply andb_prop in H as [H1%Z.leb_le H2%Z.ltb_lt]. by split.
Qed.

Lemma dirlookup_first_witness : exists s', dirlookup (V := no_devsw) 0 [97; 98] demo_dfs =
  (ip <- iget 1 5 ;; ret (Some (ip, 32))) s'.
Proof.
  destruct (dirlookup_first (V := no_devsw) 0 1 ltac:(lia) demo_dfs [] [] 0 [97; 98]
    ltac:(by apply op_fresh) demo_directory ltac:(by_eval) ltac:(repeat constructor; lia)) as (s' & E & _).
  exists s'. assert (dir_find 1 demo_dfs (inodes demo_dfs 0) [97; 98] = Some 2%nat) as Ef by by_eval.
  rewrite Ef in E. exact E.
Defined.

