(* ===== verification/Path.v ===== *)
(** Path names: [skipelem] of fs.c against the components of a path.

    The reference is to split the path at its slashes and to drop the empty
    pieces.  [skipelem] takes the components off one at a time. *)

From stdpp Require Import base list strings.
From Stdlib Require Import ZArith Lia.
From S2P Require Import Prelude State CString Fs Dir.

Open Scope Z_scope.

Definition SLASH : Z := 47.

(** The pieces between the slashes. *)
Fixpoint pieces (path : list Z) : list (list Z) :=
  match path with
  | [] => [[]]
  | c :: rest =>
    if c =? SLASH then [] :: pieces rest
    else match pieces rest with e :: es => (c :: e) :: es | [] => [[c]] end
  end.

Definition components (path : list Z) : list (list Z) := filter (fun e => e <> []) (pieces path).

Lemma components_slash rest : components (SLASH :: rest) = components rest.
Proof. done. Qed.

Lemma components_skip path : components (skip_slashes path) = components path.
Proof.
  induction path as [|c rest IH]; [done|]. simpl. destruct (Z.eqb_spec c 47) as [->|]; [|done].
  by rewrite IH, components_slash.
Qed.

Lemma skip_slashes_cases path : skip_slashes path = [] \/ exists c r, skip_slashes path = c :: r /\ c <> SLASH.
Proof.
  induction path as [|c rest IH]; [by left|]. simpl. destruct (Z.eqb_spec c 47) as [->|]; [done|].
  right. by exists c, rest.
Qed.

Lemma skip_slashes_length path : (length (skip_slashes path) <= length path)%nat.
Proof. induction path as [|c rest IH]; simpl; [lia|]. case_match; simpl; lia. Qed.

Lemma skip_slashes_bytes path : Forall (fun c => c <> 0) path -> Forall (fun c => c <> 0) (skip_slashes path).
Proof. induction 1 as [|c rest Hc Hr IH]; simpl; [done|]. case_match; [done|by constructor]. Qed.

(** The first piece, and what is left at its slash. *)
Lemma take_elem_spec path : let (e, r) := take_elem path in
  path = e ++ r /\ SLASH ∉ e /\ (r = [] \/ exists r', r = SLASH :: r').
Proof.
  induction path as [|c rest IH]; simpl; [split_and!; [done|apply not_elem_of_nil|by left]|].
  destruct (Z.eqb_spec c 47) as [->|Hc]; [split_and!; [done|apply not_elem_of_nil|right; by exists rest]|].
  destruct (take_elem rest) as [e r]. destruct IH as (-> & He & Hr). split_and!; [done| |done].
  apply not_elem_of_cons. split; [|done]. by intros <-.
Qed.

Lemma pieces_app e r : SLASH ∉ e -> (r = [] \/ exists r', r = SLASH :: r') ->
  pieces (e ++ r) = e :: match r with [] => [] | _ :: r' => pieces r' end.
Proof.
  intros He Hr. induction e as [|c e IH].
  - by destruct Hr as [->|[r' ->]].
  - apply not_elem_of_cons in He as [Hc He]. simpl. rewrite (proj2 (Z.eqb_neq c SLASH)) by done.
    by rewrite IH.
Qed.

Lemma components_app e r : e <> [] -> SLASH ∉ e -> (r = [] \/ exists r', r = SLASH :: r') ->
  components (e ++ r) = e :: components r.
Proof.
  intros Hne He Hr. unfold components. rewrite pieces_app by done. rewrite filter_cons_True by done.
  f_equal. by destruct Hr as [->|[r' ->]].
Qed.

(** The string in the name buffer. *)
Lemma cstr_text n l r : Forall (fun c => c <> 0) l -> (n <= length l)%nat \/ head r = Some 0 ->
  cstr n (arr (l ++ r)) = take n l.
Proof.
  intros Hl. revert n. induction Hl as [|c l Hc Hl IH]; intros n Hr.
  - destruct n as [|n]; [done|]. destruct Hr as [Hr|Hr]; [simpl in Hr; lia|].
    destruct r as [|x r]; [done|]. injection Hr as ->. done.
  - destruct n as [|n]; [done|]. rewrite cstr_S. change (arr ((c :: l) ++ r) 0) with c.
    rewrite (proj2 (Z.eqb_neq c 0)) by done. cbn [take]. f_equal. rewrite <- IH.
    + apply cstr_ext. done.
    + simpl in Hr. destruct Hr; [left; lia|by right].
Qed.

(** A path that does not start with a slash has a first component. *)
Lemma components_first c r : c <> SLASH -> let (e, r') := take_elem (c :: r) in
  e <> [] /\ c :: r = e ++ r' /\ components (c :: r) = e :: components r'.
Proof.
  intros Hc. pose proof (take_elem_spec (c :: r)) as Ht. destruct (take_elem (c :: r)) as [e r'].
  destruct Ht as (E & He & Hr). assert (e <> []) as Hne.
  { intros ->. simpl in E. subst r'. destruct Hr as [?|[? [= ? _]]]; congruence. }
  split_and!; [done..|]. rewrite E. by apply components_app.
Qed.

Lemma components_nil path : skip_slashes path = [] <-> components path = [].
Proof.
  rewrite <- components_skip. destruct (skip_slashes_cases path) as [->|(c & r & -> & Hc)]; [done|].
  pose proof (components_first c r Hc) as H. destruct (take_elem (c :: r)). by destruct H as (_ & _ & ->).
Qed.

(** What [skipelem] leaves in the name buffer. *)
Lemma name_buffer e name : Forall (fun c => c <> 0) e -> length name = Z.to_nat DIRSIZ ->
  let name' := if DIRSIZ <=? Z.of_nat (length e) then splice 0 (take (Z.to_nat DIRSIZ) e) name
               else splice 0 (e ++ [0]) name in
  name_str name' = take (Z.to_nat DIRSIZ) e /\ length name' = Z.to_nat DIRSIZ.
Proof.
  intros He Hn. unfold name_str. destruct (Z.leb_spec DIRSIZ (Z.of_nat (length e))) as [H|H]; cbn zeta.
  - split; [|rewrite length_splice; [done|rewrite length_take; lia]]. unfold splice. rewrite take_0. cbn [app].
    rewrite cstr_text; [by rewrite take_idemp|by apply Forall_take|left; rewrite length_take; lia].
  - split; [|rewrite length_splice; [done|rewrite length_app; simpl; lia]]. unfold splice. rewrite take_0. cbn [app].
    rewrite <- app_assoc. apply cstr_text; [done|by right].
Qed.

(** C30: [skipelem] takes one component off a path.  It gives 0 exactly when the
    path has no components left; otherwise the name buffer holds the first
    component, cut to [DIRSIZ] bytes, and the rest of the path has the other
    components, is empty exactly when there are none, and is shorter. *)
Theorem skipelem_components path name :
  Forall (fun c => c <> 0) path -> length name = Z.to_nat DIRSIZ ->
  match components path with
  | [] => skipelem path name = None
  | e :: es => exists path' name', skipelem path name = Some (path', name') /\
      name_str name' = take (Z.to_nat DIRSIZ) e /\ length name' = Z.to_nat DIRSIZ /\
      components path' = es /\ (path' = [] <-> es = []) /\ (length path' < length path)%nat /\
      Forall (fun c => c <> 0) path'
  end.
Proof.
  intros Hb Hn. rewrite <- components_skip. unfold skipelem. pose proof (skip_slashes_bytes _ Hb) as Hb'.
  pose proof (skip_slashes_length path) as Hlen.
  destruct (skip_slashes_cases path) as [E|(c & r & E & Hc)]; rewrite E in *; [done|].
  pose proof (components_first c r Hc) as Hf. destruct (take_elem (c :: r)) as [e r'].
  destruct Hf as (Hne & Er & ->). rewrite Er in Hb', Hlen. apply Forall_app in Hb' as [Hbe Hbr].
  destruct (name_buffer e name Hbe Hn) as [Hs Hl].
  eexists _, _. split; [reflexivity|]. split; [exact Hs|]. split; [exact Hl|].
  split; [apply components_skip|]. split; [apply components_nil|]. split; [|by apply skip_slashes_bytes].
  pose proof (skip_slashes_length r'). rewrite length_app in Hlen. destruct e; [done|simpl in Hlen; lia].
Qed.

Lemma skipelem_components_witness :
  components [47; 97; 47; 47; 98] = [[97]; [98]] /\
  exists path' name', skipelem [47; 97; 47; 47; 98] (replicate 14 1) = Some (path', name') /\
    name_str name' = [97] /\ components path' = [[98]].
Proof.
  split; [vm_compute; reflexivity|].
  destruct (skipelem_components [47; 97; 47; 47; 98] (replicate 14 1)
    ltac:(repeat constructor; lia) ltac:(reflexivity)) as (path' & name' & E & Hs & _ & Hc & _).
  exists path', name'. split; [exact E|]. split; [exact Hs|exact Hc].
Defined.
