(* ===== verification/Mkfs.v ===== *)
(** The builder of the first disk image: mkfs.c.

    The image is a file of sectors of 512 bytes on the host.  [rsect] and
    [wsect] read and write a sector; reading past the end of the file, a failed
    assertion and an error of the host end the program, here with [Panic].  A
    file that is put into the image is the name of the argument and the pieces
    that the reads of it return.

    [area] relates the data blocks of the image to the files it holds, each with
    its list of blocks: every block in use belongs to one file and holds its
    bytes.  [iappend_loop_ok]: the loop of [iappend] appends to one file and
    leaves the others alone.  MkfsImage.v adds the inodes, the directory and the
    free map. *)

From stdpp Require Import base list sets strings.
From Stdlib Require Import ZArith Lia.
From S2P Require Import Prelude State CString Disk Bio Log Fs FsBlock Inode FileData Dir.

Open Scope Z_scope.
Open Scope kernel_scope.

Definition NINODES : Z := 200.
Definition nbitmap : Z := FSSIZE / (BSIZE * 8) + 1.
Definition ninodeblocks : Z := NINODES / IPB + 1.
Definition nlog : Z := LOGSIZE.
Definition nmeta : Z := 2 + nlog + ninodeblocks + nbitmap.
Definition nblocks : Z := FSSIZE - nmeta.

Record mkfs : Type := mk_mkfs {
  (** the sectors of the image and their number *)
  mk_img : Z -> list Z;
  mk_len : Z;
  freeinode : Z;
  freeblock : Z }.

Definition set_freeinode v s := mk_mkfs (mk_img s) (mk_len s) v (freeblock s).
Definition set_freeblock v s := mk_mkfs (mk_img s) (mk_len s) (freeinode s) v.

Abbreviation MK A := (M mkfs A).

(** On a machine with the byte order of the x86 these are the identity. *)
Definition xshort (x : Z) : Z := of_le (le16 x).
Definition xint (x : Z) : Z := of_le (le32 x).

Definition sb : superblock :=
  mk_superblock (xint FSSIZE) (xint nblocks) (xint NINODES) (xint nlog) (xint 2) (xint (2 + nlog))
    (xint (2 + nlog + ninodeblocks)).

Definition sb_bytes (b : superblock) : list Z :=
  concat (map le32 [sb_size b; sb_nblocks b; sb_ninodes b; sb_nlog b; sb_logstart b; sb_inodestart b; sb_bmapstart b]).

(** [sec * BSIZE] is a [uint]. *)
Definition sector (sec : Z) : Z := u32 (sec * BSIZE) / BSIZE.

Definition wsect (sec : Z) (buf : list Z) : MK unit :=
  modify (fun s => mk_mkfs (upd (mk_img s) (sector sec) buf) (Z.max (mk_len s) (sector sec + 1))
    (freeinode s) (freeblock s)).

Definition rsect (sec : Z) : MK (list Z) :=
  len <- gets mk_len ;;
  if sector sec <? len then gets (fun s => mk_img s (sector sec)) else panic "read".

(** A [struct dinode] is the disk fields of an [inode]. *)
Definition no_inode : inode := mk_inode 0 0 0 (mk_sleeplock false 0) false 0 0 0 0 0 (replicate 13 0).

Definition winode (inum : Z) (ip : inode) : MK unit :=
  let bn := IBLOCK inum sb in
  buf <- rsect bn ;;
  wsect bn (splice (dinode_off inum) (dinode_bytes ip) buf).

Definition rinode (inum : Z) : MK inode :=
  buf <- rsect (IBLOCK inum sb) ;;
  ret (load_dinode buf (dinode_off inum) no_inode).

Definition ialloc (type : Z) : MK Z :=
  inum <- gets freeinode ;;
  modify (set_freeinode (u32 (inum + 1))) ;;;
  winode inum (set_i_size (xint 0) (set_i_nlink (s16 (xshort 1)) (set_i_type (s16 (xshort type)) no_inode))) ;;;
  ret inum.

Definition balloc (used : Z) : MK unit :=
  if negb (used <? BSIZE * 8) then panic "assert" else
  wsect (sb_bmapstart sb) (foldl (fun buf i => bit_set i buf) (replicate (Z.to_nat BSIZE) 0) (seqZ 0 used)).

(** [freeblock++] *)
Definition fresh_block : MK Z :=
  b <- gets freeblock ;; modify (set_freeblock (u32 (b + 1))) ;;; ret (xint b).

(** [din.addrs[k]], allocated if it is 0. *)
Definition addr_fresh (din : inode) (k : Z) : MK inode :=
  if xint (i_addrs din !!! Z.to_nat k) =? 0 then
    b <- fresh_block ;; ret (set_i_addrs (<[Z.to_nat k := b]> (i_addrs din)) din)
  else ret din.

(** The block of the file that holds its block number [fbn]. *)
Definition iappend_block (din : inode) (fbn : Z) : MK (inode * Z) :=
  if fbn <? NDIRECT then
    din <- addr_fresh din fbn ;; ret (din, xint (i_addrs din !!! Z.to_nat fbn))
  else
    din <- addr_fresh din NDIRECT ;;
    let a := xint (i_addrs din !!! Z.to_nat NDIRECT) in
    indirect <- rsect a ;;
    if ind_get indirect (fbn - NDIRECT) =? 0 then
      b <- fresh_block ;;
      let indirect := ind_set (fbn - NDIRECT) b indirect in
      wsect a indirect ;;;
      ret (din, xint (ind_get indirect (fbn - NDIRECT)))
    else ret (din, xint (ind_get indirect (fbn - NDIRECT))).

(** The loop with [p] still to be written; one round per block. *)
Fixpoint iappend_loop (din : inode) (off : Z) (p : list Z) (k : nat) : MK (inode * Z) :=
  match k with
  | O => spin
  | S k =>
    if 0 <? Z.of_nat (length p) then
      let fbn := off / BSIZE in
      if negb (fbn <? MAXFILE) then panic "assert" else
      r <- iappend_block din fbn ;;
      let n1 := Z.min (Z.of_nat (length p)) ((fbn + 1) * BSIZE - off) in
      buf <- rsect (snd r) ;;
      wsect (snd r) (splice (Z.to_nat (off - fbn * BSIZE)) (take (Z.to_nat n1) p) buf) ;;;
      iappend_loop (fst r) (off + n1) (drop (Z.to_nat n1) p) k
    else ret (din, off)
  end.

Definition iappend (inum : Z) (p : list Z) : MK unit :=
  din <- rinode inum ;;
  r <- iappend_loop din (xint (i_size din)) p (S (length p)) ;;
  winode inum (set_i_size (xint (snd r)) (fst r)).

(** A [struct dirent] with the bytes of [name] at the start of its name. *)
Definition root_dirent (inum : Z) (name : list Z) : list Z :=
  le16 (xshort inum) ++ splice 0 (name ++ [0]) (replicate (Z.to_nat DIRSIZ) 0).

(** An argument: its name and the pieces [read] returns, [None] if it cannot be
    opened. *)
Definition skip_underscore (name : list Z) : list Z :=
  match name with 95 :: rest => rest | _ => name end.

Definition add_file (rootino : Z) (arg : list Z * option (list (list Z))) : MK unit :=
  let '(name, pieces) := arg in
  if bool_decide (47 ∈ name) then panic "assert" else
  match pieces with
  | None => panic "open"
  | Some pieces =>
    inum <- ialloc T_FILE ;;
    iappend rootino (dirent_bytes (skip_underscore name) (xshort inum)) ;;;
    mfor (iappend inum) pieces
  end.

Definition main (args : list (list Z * option (list (list Z)))) : MK unit :=
  modify (set_freeblock nmeta) ;;;
  mfor (fun i => wsect i (replicate (Z.to_nat BSIZE) 0)) (seqZ 0 FSSIZE) ;;;
  wsect 1 (splice 0 (sb_bytes sb) (replicate (Z.to_nat BSIZE) 0)) ;;;
  rootino <- ialloc T_DIR ;;
  (if rootino =? ROOTINO then ret tt else panic "assert") ;;;
  iappend rootino (root_dirent rootino [46]) ;;;
  iappend rootino (root_dirent rootino [46; 46]) ;;;
  mfor (add_file rootino) args ;;;
  din <- rinode rootino ;;
  let off := xint (i_size din) in
  let off := (off / BSIZE + 1) * BSIZE in
  winode rootino (set_i_size (xint off) din) ;;;
  used <- gets freeblock ;;
  balloc used.

(** The state when [main] starts: an empty file. *)
Definition mkfs_start : mkfs := mk_mkfs (fun _ => []) 0 1 0.

(** ** Arithmetic and bytes *)

Lemma xint_small x : 0 <= x < 2 ^ 32 -> xint x = x.
Proof. intros H. unfold xint. by rewrite of_le_le32, u32_small. Qed.

Lemma xshort_small x : 0 <= x < 2 ^ 16 -> xshort x = x.
Proof. intros H. unfold xshort, u16. rewrite of_le_le16. unfold u16. by rewrite Z.mod_small. Qed.

Lemma sector_small sec : 0 <= sec < FSSIZE -> sector sec = sec.
Proof.
  intros H. unfold sector. rewrite u32_small by (unfold FSSIZE, BSIZE in *; lia).
  apply Z.div_mul. done.
Qed.

(** The word [j] of an indirect block in which word [k] was set. *)
Lemma ind_get_set bs k v j : length bs = Z.to_nat BSIZE -> 0 <= k < NINDIRECT -> 0 <= j < NINDIRECT ->
  ind_get (ind_set k v bs) j = if decide (j = k) then u32 v else ind_get bs j.
Proof.
  intros Hl Hk Hj. unfold ind_get, ind_set, get32. change NINDIRECT with 128 in *.
  change (Z.to_nat BSIZE) with 512%nat in Hl. case_decide as E.
  - subst j. pose proof (drop_splice (Z.to_nat (4 * k)) (le32 v) bs 4 0 ltac:(lia) ltac:(done)) as H.
    rewrite Nat.add_0_r in H. rewrite H. apply of_le_le32.
  - f_equal. apply drop_splice_out; simpl; lia.
Qed.

Lemma length_ind_set k v bs : length bs = Z.to_nat BSIZE -> 0 <= k < NINDIRECT ->
  length (ind_set k v bs) = Z.to_nat BSIZE.
Proof.
  intros Hl Hk. unfold ind_set. rewrite length_splice; [done|]. rewrite Hl. change NINDIRECT with 128 in Hk.
  change (Z.to_nat BSIZE) with 512%nat. simpl. lia.
Qed.

(** ** The files of an image *)

(** A file with its blocks in order and its indirect block, 0 if it has none. *)
Record ifile : Type := mk_ifile {
  f_type : Z;
  f_bytes : list Z;
  f_blocks : list Z;
  f_ind : Z }.

Definition addrs_of (f : ifile) : list Z :=
  take 12 (f_blocks f) ++ replicate (12 - length (f_blocks f)) 0 ++ [f_ind f].

Definition used (f : ifile) : list Z := f_blocks f ++ (if decide (f_ind f = 0) then [] else [f_ind f]).
Definition all_used (fs : list ifile) : list Z := concat (map used fs).

(** The blocks of [f] hold its bytes, and zeroes after them. *)
Record data_ok (img : Z -> list Z) (f : ifile) : Prop := {
  da_fits : (length (f_bytes f) <= 512 * length (f_blocks f))%nat;
  da_max : (length (f_blocks f) <= Z.to_nat MAXFILE)%nat;
  da_noind : (length (f_blocks f) <= 12)%nat -> f_ind f = 0;
  da_ind : (12 < length (f_blocks f))%nat -> f_ind f <> 0 /\
    forall j, (j < 128)%nat -> ind_get (img (f_ind f)) (Z.of_nat j) = default 0 (f_blocks f !! (12 + j)%nat);
  da_byte k o : (k < length (f_blocks f))%nat -> (o < 512)%nat ->
    img (f_blocks f !!! k) !!! o = default 0 (f_bytes f !! (512 * k + o)%nat) }.

(** The image outside the inodes: exactly the blocks from [nmeta] to [freeblock] are
    in use, each by one file, and those after them are still zero. *)
Record area (s : mkfs) (fs : list ifile) : Prop := {
  ar_len : mk_len s = FSSIZE;
  ar_free : nmeta <= freeblock s <= FSSIZE;
  ar_used : all_used fs ≡ₚ seqZ nmeta (freeblock s - nmeta);
  ar_block b : 0 <= b < FSSIZE -> length (mk_img s b) = Z.to_nat BSIZE;
  ar_zero b : freeblock s <= b < FSSIZE -> mk_img s b = replicate (Z.to_nat BSIZE) 0;
  ar_data f : f ∈ fs -> data_ok (mk_img s) f }.

Lemma data_ok_ext img img' f : (forall b, b ∈ used f -> img' b = img b) -> data_ok img f -> data_ok img' f.
Proof.
  intros He [D1 D2 D3 D4 D5]. unfold used in He. split; try done.
  - intros Hl. destruct (D4 Hl) as [Hi Hj]. split; [done|]. intros j Hlt. rewrite He; [by apply Hj|].
    rewrite decide_False by done. set_solver.
  - intros k o Hk Ho. rewrite He; [by apply D5|]. apply elem_of_app. left.
    apply list_elem_of_lookup_2 with k. by apply list_lookup_lookup_total_lt.
Qed.

Lemma used_range s fs b : area s fs -> b ∈ all_used fs -> nmeta <= b < freeblock s.
Proof. intros [_ _ U _ _ _] Hb. rewrite U in Hb. apply elem_of_seqZ in Hb. lia. Qed.

Lemma used_in fs i f b : fs !! i = Some f -> b ∈ used f -> b ∈ all_used fs.
Proof.
  intros Hf Hb. unfold all_used. rewrite list_elem_of_In, in_concat. exists (used f).
  rewrite <- !list_elem_of_In. split; [|done]. apply list_elem_of_fmap. exists f. split; [done|].
  by eapply list_elem_of_lookup_2.
Qed.

Lemma used_once fs i j f g b : NoDup (all_used fs) -> fs !! i = Some f -> fs !! j = Some g ->
  b ∈ used f -> b ∈ used g -> i = j.
Proof.
  revert i j. induction fs as [|h fs IH]; intros i j Hn Hi Hj Hf Hg; [done|].
  unfold all_used in Hn. cbn [map concat] in Hn. apply NoDup_app in Hn as (N1 & N2 & N3).
  destruct i as [|i], j as [|j]; simpl in *; try done.
  - injection Hi as ->. exfalso. eapply N2; [exact Hf|]. by eapply used_in.
  - injection Hj as ->. exfalso. eapply N2; [exact Hg|]. by eapply used_in.
  - f_equal. by apply IH.
Qed.

Lemma area_nodup s fs : area s fs -> NoDup (all_used fs).
Proof. intros [_ _ -> _ _ _]. apply NoDup_seqZ. Qed.

Lemma all_used_insert fs i f f' l : fs !! i = Some f -> used f' ≡ₚ l ++ used f ->
  all_used (<[i:=f']> fs) ≡ₚ l ++ all_used fs.
Proof.
  revert i. induction fs as [|h fs IH]; intros i Hi Hu; [done|]. unfold all_used in *.
  destruct i as [|i]; cbn in *.
  - injection Hi as ->. by rewrite Hu, app_assoc.
  - rewrite (IH i Hi Hu). rewrite !app_assoc. by rewrite (Permutation_app_comm (used h) l).
Qed.

(** Replacing file [f] by [f'], which got the fresh blocks [l]; only blocks of [f']
    change. *)
Lemma area_change s s' fs i f f' l : area s fs -> fs !! i = Some f ->
  mk_len s' = mk_len s -> freeblock s' = freeblock s + Z.of_nat (length l) -> freeblock s' <= FSSIZE ->
  l ≡ₚ seqZ (freeblock s) (Z.of_nat (length l)) -> used f' ≡ₚ l ++ used f ->
  (forall b, b ∉ used f' -> mk_img s' b = mk_img s b) ->
  (forall b, b ∈ used f' -> length (mk_img s' b) = Z.to_nat BSIZE) -> data_ok (mk_img s') f' ->
  area s' (<[i:=f']> fs).
Proof.
  intros Ha Hi El Ef Hle Hl Hu Hout Hlen Hd. pose proof Ha as [A1 A2 A3 A4 A5 A6].
  pose proof (all_used_insert fs i f f' l Hi Hu) as Hall.
  assert (all_used (<[i:=f']> fs) ≡ₚ seqZ nmeta (freeblock s' - nmeta)) as Hseq.
  { rewrite Hall, A3, Hl, Permutation_app_comm.
    replace (freeblock s) with (nmeta + (freeblock s - nmeta)) at 2 by lia.
    rewrite <- seqZ_app by lia. rewrite Ef. by replace (freeblock s - nmeta + Z.of_nat (length l)) with (freeblock s + Z.of_nat (length l) - nmeta) by lia. }
  split; [by rewrite El|lia|done| | |].
  - intros b Hb. destruct (decide (b ∈ used f')) as [H|H]; [by apply Hlen|rewrite Hout by done; by apply A4].
  - intros b Hb. rewrite Hout; [apply A5; lia|]. intros Hin.
    assert (b ∈ all_used (<[i:=f']> fs)) as Hin'.
    { eapply used_in; [|exact Hin]. apply list_lookup_insert_eq. by eapply lookup_lt_Some. }
    rewrite Hseq in Hin'. apply elem_of_seqZ in Hin'. lia.
  - intros g Hg. apply list_elem_of_lookup in Hg as [j Hj]. destruct (decide (j = i)) as [->|Hne].
    + rewrite list_lookup_insert_eq in Hj by (by eapply lookup_lt_Some). by injection Hj as <-.
    + rewrite list_lookup_insert_ne in Hj by done. apply (data_ok_ext (mk_img s)).
      * intros b Hb. apply Hout. intros Hin. rewrite Hu in Hin. apply elem_of_app in Hin as [Hin|Hin].
        -- rewrite Hl in Hin. apply elem_of_seqZ in Hin.
           pose proof (used_range s fs b Ha (used_in _ _ _ _ Hj Hb)). lia.
        -- apply Hne. by apply (used_once fs j i g f b (area_nodup _ _ Ha)).
      * apply A6. by eapply list_elem_of_lookup_2.
Qed.

Definition set_block (b : Z) (buf : list Z) (s : mkfs) : mkfs :=
  mk_mkfs (upd (mk_img s) b buf) (mk_len s) (freeinode s) (freeblock s).

Lemma rsect_ok s b : mk_len s = FSSIZE -> 0 <= b < FSSIZE -> rsect b s = Ret (mk_img s b) s.
Proof. intros Hl Hb. unfold rsect. mrun. rewrite sector_small, Hl by done. by zbool. Qed.

Lemma wsect_ok s b buf : mk_len s = FSSIZE -> 0 <= b < FSSIZE -> wsect b buf s = Ret tt (set_block b buf s).
Proof.
  intros Hl Hb. unfold wsect, set_block, modify. rewrite sector_small by done. do 2 f_equal. lia.
Qed.

Lemma fresh_block_ok s : 0 <= freeblock s < FSSIZE ->
  fresh_block s = Ret (freeblock s) (set_freeblock (freeblock s + 1) s).
Proof.
  intros Hb. unfold fresh_block. mrun. unfold ret. rewrite xint_small, u32_small by (unfold FSSIZE in *; lia). done.
Qed.

(** ** The addresses of a file *)

Lemma length_addrs f : length (addrs_of f) = 13%nat.
Proof. unfold addrs_of. rewrite !length_app, length_take, length_replicate. cbn [length]. lia. Qed.

Lemma addrs_direct f k : (k < 12)%nat -> addrs_of f !!! k = default 0 (f_blocks f !! k).
Proof.
  intros Hk. unfold addrs_of. rewrite list_lookup_total_alt. destruct (decide (k < length (f_blocks f))%nat) as [H|H].
  - rewrite lookup_app_l, lookup_take_lt by (rewrite ?length_take; lia).
    destruct (f_blocks f !! k) eqn:E; [done|]. apply lookup_ge_None in E. lia.
  - rewrite lookup_app_r by (rewrite length_take; lia). rewrite length_take.
    rewrite lookup_app_l by (rewrite length_replicate; lia).
    rewrite lookup_replicate_2 by lia. by rewrite lookup_ge_None_2 by lia.
Qed.

Lemma addrs_ind f : addrs_of f !!! 12%nat = f_ind f.
Proof.
  unfold addrs_of. rewrite app_assoc, lookup_total_app_r; rewrite length_app, length_take, length_replicate; [|lia].
  by replace (12 - (12 `min` length (f_blocks f) + (12 - length (f_blocks f))))%nat with 0%nat by lia.
Qed.

(** The file with one more block, and with an indirect block. *)
Definition add_block (b : Z) (f : ifile) : ifile := mk_ifile (f_type f) (f_bytes f) (f_blocks f ++ [b]) (f_ind f).
Definition add_ind (b : Z) (f : ifile) : ifile := mk_ifile (f_type f) (f_bytes f) (f_blocks f) b.

Lemma addrs_add_direct b f : (length (f_blocks f) < 12)%nat ->
  addrs_of (add_block b f) = <[length (f_blocks f) := b]> (addrs_of f).
Proof.
  intros Hl. apply list_eq_same_length with 13%nat; [by rewrite length_insert, length_addrs|apply length_addrs|].
  intros k x y Hk Hx Hy. apply list_lookup_total_correct in Hx, Hy. subst x y.
  destruct (decide (k = 12%nat)) as [->|].
  - rewrite list_lookup_total_insert_ne, !addrs_ind by lia. done.
  - rewrite addrs_direct by lia. cbn [add_block f_blocks]. destruct (decide (k = length (f_blocks f))) as [->|].
    + rewrite list_lookup_total_insert_eq by (rewrite length_addrs; lia). by rewrite list_lookup_middle.
    + rewrite list_lookup_total_insert_ne, addrs_direct by lia.
      destruct (decide (k < length (f_blocks f))%nat); [by rewrite lookup_app_l by lia|].
      rewrite !lookup_ge_None_2; [done|lia|rewrite length_app; simpl; lia].
Qed.

Lemma addrs_add_indirect b f : (12 <= length (f_blocks f))%nat -> addrs_of (add_block b f) = addrs_of f.
Proof.
  intros Hl. unfold addrs_of, add_block. cbn. rewrite take_app_le by lia.
  do 2 f_equal. rewrite length_app. simpl. by replace (12 - (length (f_blocks f) + 1))%nat with (12 - length (f_blocks f))%nat by lia.
Qed.

Lemma addrs_add_ind b f : addrs_of (add_ind b f) = <[12%nat := b]> (addrs_of f).
Proof.
  unfold addrs_of, add_ind. cbn. rewrite app_assoc, (app_assoc (take _ _)).
  rewrite insert_app_r_alt; rewrite length_app, length_take, length_replicate; [|lia].
  by replace (12 - (12 `min` length (f_blocks f) + (12 - length (f_blocks f))))%nat with 0%nat by lia.
Qed.

(** ** One round of [iappend] *)

Lemma ind_get_zero j : 0 <= j < NINDIRECT -> ind_get (replicate (Z.to_nat BSIZE) 0) j = 0.
Proof.
  intros Hj. unfold ind_get, get32. rewrite drop_replicate, take_replicate.
  change NINDIRECT with 128 in Hj. replace (4 `min` _)%nat with 4%nat; [done|].
  change (Z.to_nat BSIZE) with 512%nat. lia.
Qed.

(** A zero block added to a file, in an image with the same blocks. *)
Lemma data_ok_grow img0 img f b a : data_ok img0 f -> (forall c, c ∈ f_blocks f -> img c = img0 c) ->
  img b = replicate (Z.to_nat BSIZE) 0 -> (length (f_blocks f) < Z.to_nat MAXFILE)%nat ->
  (length (f_blocks f) < 12)%nat /\ a = 0 \/
  (12 <= length (f_blocks f))%nat /\ a <> 0 /\ (forall j, (j < 128)%nat ->
     ind_get (img a) (Z.of_nat j) = default 0 ((f_blocks f ++ [b]) !! (12 + j)%nat)) ->
  data_ok img (add_block b (add_ind a f)).
Proof.
  intros [D1 D2 D3 D4 D5] He Hz Hm Ha. split; cbn; rewrite ?length_app; cbn [length].
  - lia.
  - lia.
  - intros Hl. destruct Ha as [[_ ->]|[? _]]; [done|lia].
  - intros Hl. destruct Ha as [[? _]|[_ ?]]; [lia|done].
  - intros k o Hk Ho. destruct (decide (k = length (f_blocks f))) as [->|Hne].
    + rewrite lookup_total_app_r, Nat.sub_diag by done. cbn. rewrite Hz, lookup_total_replicate_2.
      * rewrite (lookup_ge_None_2 (f_bytes f)); [done|lia].
      * change (Z.to_nat BSIZE) with 512%nat. done.
    + rewrite lookup_total_app_l, He by first [lia|apply list_elem_of_lookup_2 with k, list_lookup_lookup_total_lt; lia].
      apply D5; lia.
Qed.

(** The words of an indirect block to which [b] was added. *)
Lemma ind_get_grow buf blocks b j : length buf = Z.to_nat BSIZE -> 0 <= b < 2 ^ 32 ->
  (12 <= length blocks < 140)%nat -> (j < 128)%nat ->
  ind_get buf (Z.of_nat j) = default 0 (blocks !! (12 + j)%nat) ->
  ind_get (ind_set (Z.of_nat (length blocks - 12)) b buf) (Z.of_nat j) = default 0 ((blocks ++ [b]) !! (12 + j)%nat).
Proof.
  intros Hl Hb Hn Hj Hg. rewrite ind_get_set by (try done; change NINDIRECT with 128; lia). case_decide as E.
  - replace (12 + j)%nat with (length blocks) by lia. rewrite list_lookup_middle by done. by rewrite u32_small.
  - rewrite Hg. destruct (decide (12 + j < length blocks)%nat); [by rewrite lookup_app_l by lia|].
    rewrite !lookup_ge_None_2; [done|rewrite length_app; cbn [length]; lia|lia].
Qed.

Lemma used_nodup fs i f : NoDup (all_used fs) -> fs !! i = Some f -> NoDup (used f).
Proof.
  revert i. induction fs as [|h fs IH]; intros i Hn Hi; [done|]. unfold all_used in Hn. cbn [map concat] in Hn.
  apply NoDup_app in Hn as (N1 & _ & N3). destruct i as [|i]; [by injection Hi as ->|by eapply IH].
Qed.

Lemma block_used f k : (k < length (f_blocks f))%nat -> f_blocks f !!! k ∈ used f.
Proof.
  intros Hk. apply elem_of_app. left. apply list_elem_of_lookup_2 with k. by apply list_lookup_lookup_total_lt.
Qed.

Lemma ind_used f : f_ind f <> 0 -> f_ind f ∈ used f.
Proof. intros H. unfold used. rewrite decide_False by done. set_solver. Qed.

Lemma set_addrs_same din f : i_addrs din = addrs_of f -> set_i_addrs (addrs_of f) din = din.
Proof. intros <-. by destruct din. Qed.

(** The blocks that a file of [n] blocks needs to get block [k]. *)
Definition block_cost (n k : nat) : Z :=
  if decide (k < n)%nat then 0 else if decide (k = 12)%nat then 2 else 1.

(** What [iappend_block] does: the file has block [k] now. *)
Record has_block (s : mkfs) (fs : list ifile) (i : nat) (f : ifile) (k : nat) (f' : ifile) (s' : mkfs) : Prop := {
  hb_area : area s' (<[i:=f']> fs);
  hb_bytes : f_bytes f' = f_bytes f;
  hb_type : f_type f' = f_type f;
  hb_len : length (f_blocks f') = (length (f_blocks f) `max` S k)%nat;
  hb_free : freeblock s' = freeblock s + block_cost (length (f_blocks f)) k;
  hb_inode : freeinode s' = freeinode s;
  hb_meta b : b < nmeta -> mk_img s' b = mk_img s b }.

Lemma used_add_block b f : used (add_block b f) ≡ₚ b :: used f.
Proof. unfold used. cbn [add_block f_blocks f_ind]. rewrite <- app_assoc. cbn [app]. by rewrite <- Permutation_middle. Qed.

Section Round.
Context (s : mkfs) (fs : list ifile) (i : nat) (f : ifile) (din : inode).
Hypothesis (Ha : area s fs) (Hi : fs !! i = Some f) (Hdin : i_addrs din = addrs_of f).

Lemma block_range b : b ∈ used f -> nmeta <= b < freeblock s.
Proof using Ha Hi. intros Hb. apply (used_range s fs b Ha). by eapply used_in. Qed.

Lemma file_data : data_ok (mk_img s) f.
Proof using Ha Hi. apply (ar_data _ _ Ha). by eapply list_elem_of_lookup_2. Qed.

Lemma append_old k : (k < length (f_blocks f))%nat ->
  iappend_block din (Z.of_nat k) s = Ret (set_i_addrs (addrs_of f) din, f_blocks f !!! k) s /\
  has_block s fs i f k f s.
Proof using Ha Hi Hdin.
  intros Hk. pose proof file_data as [D1 D2 D3 D4 D5]. pose proof (ar_free _ _ Ha) as Hfree.
  pose proof (block_range _ (block_used f k Hk)) as Hb. rewrite (set_addrs_same din f Hdin).
  assert (f_blocks f !! k = Some (f_blocks f !!! k)) as Hlk by by apply list_lookup_lookup_total_lt.
  assert (forall a, nmeta <= a < freeblock s -> xint a = a /\ (a =? 0) = false) as Hx.
  { intros a Hr. change nmeta with 59 in *. unfold FSSIZE in *. rewrite xint_small by lia. split; [done|]. zbool. done. }
  split.
  - unfold iappend_block. destruct (Z.ltb_spec (Z.of_nat k) NDIRECT) as [Hd|Hd]; unfold addr_fresh.
    + rewrite Hdin, Nat2Z.id, addrs_direct, Hlk by (unfold NDIRECT in *; lia). cbn [from_option id].
      destruct (Hx _ Hb) as [-> ->]. mrun. rewrite Hdin, addrs_direct, Hlk by (unfold NDIRECT in *; lia).
      cbn [from_option id]. by destruct (Hx _ Hb) as [-> _].
    + destruct (D4 ltac:(unfold NDIRECT in *; lia)) as [Hind Hj].
      pose proof (block_range _ (ind_used f Hind)) as Hr. change (Z.to_nat NDIRECT) with 12%nat.
      rewrite Hdin, addrs_ind. destruct (Hx _ Hr) as [Hx1 Hx2]. rewrite Hx1, Hx2. mrun. rewrite Hdin, addrs_ind, Hx1.
      mstep (rsect_ok s (f_ind f) (ar_len _ _ Ha) ltac:(change nmeta with 59 in *; lia)).
      replace (Z.of_nat k - NDIRECT) with (Z.of_nat (k - 12)) by (unfold NDIRECT in *; lia).
      change (Z.to_nat MAXFILE) with 140%nat in *.
      rewrite Hj by lia. replace (12 + (k - 12))%nat with k by (unfold NDIRECT in *; lia).
      rewrite Hlk. cbn [from_option id]. destruct (Hx _ Hb) as [-> ->]. done.
  - split; [by rewrite list_insert_id|done|done|lia| |done|done]. unfold block_cost. rewrite decide_True by done. lia.
Qed.

Lemma append_direct : (length (f_blocks f) < 12)%nat -> freeblock s + 1 <= FSSIZE ->
  exists f' s', iappend_block din (Z.of_nat (length (f_blocks f))) s =
    Ret (set_i_addrs (addrs_of f') din, f_blocks f' !!! length (f_blocks f)) s' /\
  has_block s fs i f (length (f_blocks f)) f' s'.
Proof using Ha Hi Hdin.
  intros Hk Hfree. pose proof file_data as Hd. pose proof (ar_free _ _ Ha) as Hfr. set (b := freeblock s).
  assert (f_ind f = 0) as Hind by by apply (da_noind _ _ Hd); lia.
  assert (data_ok (mk_img s) (add_block b (add_ind 0 f))) as Hd'.
  { apply (data_ok_grow (mk_img s)); [done|done|apply (ar_zero _ _ Ha); unfold b; lia| |by left].
    change (Z.to_nat MAXFILE) with 140%nat. lia. }
  assert (add_ind 0 f = f) as Ef by (unfold add_ind; rewrite <- Hind; by destruct f). rewrite Ef in Hd'.
  exists (add_block b f), (set_freeblock (b + 1) s). split.
  - unfold iappend_block. rewrite (proj2 (Z.ltb_lt _ _)) by (unfold NDIRECT; lia). unfold addr_fresh.
    rewrite Hdin, Nat2Z.id, addrs_direct, lookup_ge_None_2 by lia. cbn [from_option]. rewrite xint_small by lia.
    rewrite Z.eqb_refl, bind_assoc. mstep (fresh_block_ok s ltac:(change nmeta with 59 in *; lia)). mrun.
    rewrite <- addrs_add_direct by done. cbn [i_addrs set_i_addrs].
    rewrite addrs_direct by lia. cbn [add_block f_blocks]. rewrite list_lookup_middle by done. cbn [from_option id].
    rewrite xint_small by (unfold b, FSSIZE in *; change nmeta with 59 in *; lia).
    by rewrite lookup_total_app_r, Nat.sub_diag by lia.
  - split; try done; [|cbn; rewrite length_app; cbn [length]; lia|].
    + apply (area_change s _ fs i f _ [b]); try done.
      * apply used_add_block.
      * intros x Hx. apply (ar_block _ _ Ha). rewrite used_add_block in Hx. apply elem_of_cons in Hx as [->|Hx].
        -- unfold b. change nmeta with 59 in *. lia.
        -- pose proof (block_range x Hx). change nmeta with 59 in *. lia.
    + unfold block_cost. rewrite !decide_False by lia. done.
Qed.

(** The first block past the direct ones: the file gets its indirect block too. *)
Lemma append_first_ind : length (f_blocks f) = 12%nat -> freeblock s + 2 <= FSSIZE ->
  exists f' s', iappend_block din (Z.of_nat (length (f_blocks f))) s =
    Ret (set_i_addrs (addrs_of f') din, f_blocks f' !!! length (f_blocks f)) s' /\
  has_block s fs i f (length (f_blocks f)) f' s'.
Proof using Ha Hi Hdin.
  intros Hk Hfree. pose proof file_data as Hd. pose proof (ar_free _ _ Ha) as Hfr. set (a := freeblock s) in *.
  assert (f_ind f = 0) as Hind by (apply (da_noind _ _ Hd); lia).
  assert (59 <= a < 999) as Har by (change nmeta with 59 in *; unfold FSSIZE in *; lia).
  assert (forall b, a <= b < FSSIZE -> mk_img s b = replicate (Z.to_nat BSIZE) 0) as Hz by apply (ar_zero _ _ Ha).
  set (buf := ind_set 0 (a + 1) (replicate (Z.to_nat BSIZE) 0)).
  set (s' := set_block a buf (set_freeblock (a + 2) s)). set (f' := add_block (a + 1) (add_ind a f)).
  assert (used f' ≡ₚ [a; a + 1] ++ used f) as Hu.
  { unfold f'. rewrite used_add_block. unfold used. cbn [add_ind f_blocks f_ind]. rewrite Hind, decide_False, decide_True by lia.
    rewrite app_nil_r, (Permutation_app_comm (f_blocks f)). cbn [app]. apply Permutation_swap. }
  assert (forall b, b <> a -> mk_img s' b = mk_img s b) as Hout by (intros b Hb; by apply upd_ne).
  assert (mk_img s' a = buf) as Hbuf by apply upd_eq.
  exists f', s'. split.
  - unfold iappend_block. rewrite (proj2 (Z.ltb_ge _ _)) by (unfold NDIRECT; lia). unfold addr_fresh.
    change (Z.to_nat NDIRECT) with 12%nat. rewrite Hdin, addrs_ind, Hind, xint_small by lia. rewrite Z.eqb_refl, bind_assoc.
    mstep (fresh_block_ok s ltac:(unfold FSSIZE; lia)). mrun. cbn [i_addrs set_i_addrs].
    rewrite <- addrs_add_ind, addrs_ind. cbn [add_ind f_ind]. rewrite xint_small by lia.
    mstep (rsect_ok (set_freeblock (a + 1) s) a (ar_len _ _ Ha) ltac:(unfold FSSIZE; lia)).
    cbn [mk_img set_freeblock]. rewrite Hz by (unfold FSSIZE; lia). rewrite Hk. change (Z.of_nat 12 - NDIRECT) with 0.
    rewrite ind_get_zero by done. rewrite Z.eqb_refl.
    mstep (fresh_block_ok (set_freeblock (a + 1) s) ltac:(cbn; unfold FSSIZE; lia)). cbn [freeblock set_freeblock].
    mstep (wsect_ok (set_freeblock (a + 1 + 1) (set_freeblock (a + 1) s)) a buf (ar_len _ _ Ha) ltac:(unfold FSSIZE; lia)).
    rewrite ind_get_set, decide_True, u32_small, xint_small by (try done; lia).
    replace (a + 1 + 1) with (a + 2) by lia. unfold ret. do 2 f_equal.
    + unfold f'. by rewrite addrs_add_indirect by (cbn; lia).
    + cbn. by rewrite lookup_total_app_r, Hk by lia.
  - split; try done; [|cbn; rewrite length_app; cbn [length]; lia| |].
    + apply (area_change s _ fs i f _ [a; a + 1]); try done.
      * cbn [length]. rewrite !seqZ_cons by lia. fold a. by rewrite Z.add_1_r.
      * intros b Hb. apply Hout. intros ->. apply Hb. rewrite Hu. set_solver.
      * intros x Hx. destruct (decide (x = a)) as [->|Hne].
        -- rewrite Hbuf. by apply length_ind_set.
        -- rewrite Hout by done. apply (ar_block _ _ Ha). rewrite Hu in Hx. apply elem_of_app in Hx as [Hx|Hx].
           ++ unfold FSSIZE in *. set_solver by lia.
           ++ pose proof (block_range x Hx). change nmeta with 59 in *. fold a in H. lia.
      * apply (data_ok_grow (mk_img s)); [done| |rewrite Hout by lia; apply Hz; lia|change (Z.to_nat MAXFILE) with 140%nat; lia|].
        -- intros c Hc. apply Hout. intros ->. pose proof (block_range a (proj2 (elem_of_app _ _ _) (or_introl Hc))). lia.
        -- right. split_and!; [lia|lia|]. intros j Hj. rewrite Hbuf. unfold buf.
           replace 0 with (Z.of_nat (length (f_blocks f) - 12)) at 1 by (rewrite Hk; done). apply ind_get_grow; try done; try lia.
           rewrite ind_get_zero by (change NINDIRECT with 128; lia). by rewrite lookup_ge_None_2 by lia.
    + unfold block_cost. rewrite decide_False, decide_True by lia. done.
    + intros b Hb. apply Hout. change nmeta with 59 in *. lia.
Qed.

(** A later block of the indirect ones. *)
Lemma append_ind : (12 < length (f_blocks f) < 140)%nat -> freeblock s + 1 <= FSSIZE ->
  exists f' s', iappend_block din (Z.of_nat (length (f_blocks f))) s =
    Ret (set_i_addrs (addrs_of f') din, f_blocks f' !!! length (f_blocks f)) s' /\
  has_block s fs i f (length (f_blocks f)) f' s'.
Proof using Ha Hi Hdin.
  intros Hk Hfree. pose proof file_data as Hd. pose proof (ar_free _ _ Ha) as Hfr. set (b := freeblock s) in *.
  destruct (da_ind _ _ Hd ltac:(lia)) as [Hind Hj]. set (a := f_ind f) in *.
  pose proof (block_range a (ind_used f Hind)) as Har. fold b in Har.
  assert (59 <= b < 1000) as Hbr by (change nmeta with 59 in *; unfold FSSIZE in *; lia).
  change nmeta with 59 in *.
  set (k := (length (f_blocks f) - 12)%nat). set (buf := ind_set (Z.of_nat k) b (mk_img s a)).
  assert (length (mk_img s a) = Z.to_nat BSIZE) as Hla by (apply (ar_block _ _ Ha); unfold FSSIZE in *; lia).
  set (s' := set_block a buf (set_freeblock (b + 1) s)). set (f' := add_block b f).
  assert (forall c, c <> a -> mk_img s' c = mk_img s c) as Hout by (intros c Hc; by apply upd_ne).
  assert (mk_img s' a = buf) as Hbuf by apply upd_eq.
  exists f', s'. split.
  - unfold iappend_block. rewrite (proj2 (Z.ltb_ge _ _)) by (unfold NDIRECT; lia). unfold addr_fresh.
    change (Z.to_nat NDIRECT) with 12%nat. rewrite Hdin, addrs_ind, xint_small by (fold a; lia).
    fold a. rewrite (proj2 (Z.eqb_neq a 0)) by lia. mrun. rewrite Hdin, addrs_ind. fold a. rewrite xint_small by lia.
    mstep (rsect_ok s a (ar_len _ _ Ha) ltac:(unfold FSSIZE; lia)).
    replace (Z.of_nat (length (f_blocks f)) - NDIRECT) with (Z.of_nat k) by (unfold NDIRECT; lia).
    rewrite Hj, lookup_ge_None_2 by lia. cbn [from_option]. rewrite Z.eqb_refl.
    mstep (fresh_block_ok s ltac:(fold b; unfold FSSIZE; lia)). fold b.
    mstep (wsect_ok (set_freeblock (b + 1) s) a buf (ar_len _ _ Ha) ltac:(unfold FSSIZE; lia)).
    rewrite ind_get_set, decide_True, u32_small, xint_small by (try done; change NINDIRECT with 128; lia).
    unfold ret. do 2 f_equal. unfold f'. rewrite addrs_add_indirect, set_addrs_same by (try done; lia). f_equal. cbn.
    by rewrite lookup_total_app_r, Nat.sub_diag by lia.
  - split; try done; [|cbn; rewrite length_app; cbn [length]; lia| |].
    + apply (area_change s _ fs i f _ [b]); try done.
      * apply used_add_block.
      * intros c Hc. apply Hout. intros ->. apply Hc. unfold f'. rewrite used_add_block. apply elem_of_cons. right. by apply ind_used.
      * intros x Hx. destruct (decide (x = a)) as [->|Hne].
        -- rewrite Hbuf. apply length_ind_set; [done|]. change NINDIRECT with 128; lia.
        -- rewrite Hout by done. apply (ar_block _ _ Ha). unfold f' in Hx. rewrite used_add_block in Hx. apply elem_of_cons in Hx as [->|Hx].
           ++ unfold FSSIZE in *. lia.
           ++ pose proof (block_range x Hx). change nmeta with 59 in *. fold b in H. lia.
      * replace f' with (add_block b (add_ind a f)) by (unfold f', a; by destruct f).
        pose proof (used_nodup fs i f (area_nodup _ _ Ha) Hi) as Hn. unfold used in Hn. fold a in Hn. rewrite decide_False in Hn by done.
        apply (data_ok_grow (mk_img s)); [done| |rewrite Hout by lia; apply (ar_zero _ _ Ha); fold b; lia|change (Z.to_nat MAXFILE) with 140%nat; lia|].
        -- intros c Hc. apply Hout. intros ->. apply NoDup_app in Hn as (_ & Hn & _). apply (Hn a Hc). set_solver.
        -- right. split_and!; [lia|lia|]. intros j Hlt. rewrite Hbuf. apply ind_get_grow; try done; try lia. by apply Hj.
    + unfold block_cost. rewrite !decide_False by lia. done.
    + intros c Hc. apply Hout. change nmeta with 59 in *. lia.
Qed.

(** Every case: block [k], which the file has or which is the next one. *)
Lemma iappend_block_ok k : (k <= length (f_blocks f))%nat -> (k < 140)%nat ->
  freeblock s + block_cost (length (f_blocks f)) k <= FSSIZE ->
  exists f' s', iappend_block din (Z.of_nat k) s = Ret (set_i_addrs (addrs_of f') din, f_blocks f' !!! k) s' /\
  has_block s fs i f k f' s'.
Proof using Ha Hi Hdin.
  intros Hle Hk Hfree. destruct (decide (k < length (f_blocks f))%nat) as [H|H].
  { exists f, s. by apply append_old. }
  unfold block_cost in Hfree. rewrite decide_False in Hfree by done.
  assert (k = length (f_blocks f)) as -> by lia.
  destruct (decide (length (f_blocks f) < 12)%nat); [rewrite decide_False in Hfree by lia; by apply append_direct|].
  case_decide; [by apply append_first_ind|apply append_ind; lia].
Qed.
End Round.

(** ** Appending bytes *)

Definition set_bytes (bs : list Z) (f : ifile) : ifile := mk_ifile (f_type f) bs (f_blocks f) (f_ind f).

(** The bytes of a block after the copy of [q] to the end of the file. *)
Lemma splice_end img f k q o : data_ok img f -> (k < length (f_blocks f))%nat -> (o < 512)%nat ->
  length (img (f_blocks f !!! k)) = Z.to_nat BSIZE ->
  (512 * k <= length (f_bytes f))%nat -> (length (f_bytes f) + length q <= 512 * S k)%nat ->
  splice (length (f_bytes f) - 512 * k) q (img (f_blocks f !!! k)) !!! o
  = default 0 ((f_bytes f ++ q) !! (512 * k + o)%nat).
Proof.
  intros Hd Hk Ho Hl H1 H2. change (Z.to_nat BSIZE) with 512%nat in Hl.
  pose proof (da_byte _ _ Hd k o Hk Ho) as Hb. rewrite list_lookup_total_alt in Hb |- *.
  destruct (decide (length (f_bytes f) - 512 * k <= o < length (f_bytes f) - 512 * k + length q)%nat) as [Hin|Hout].
  - rewrite lookup_splice_in by lia. rewrite lookup_app_r by lia.
    replace (512 * k + o - length (f_bytes f))%nat with (o - (length (f_bytes f) - 512 * k))%nat by lia.
    destruct (lookup_lt_is_Some_2 q (o - (length (f_bytes f) - 512 * k))%nat) as [c ->]; [lia|done].
  - rewrite lookup_splice_out by lia.
    destruct (decide (512 * k + o < length (f_bytes f))%nat); [rewrite lookup_app_l by lia; done|].
    rewrite lookup_app_r by lia. rewrite (lookup_ge_None_2 q) by lia.
    by rewrite (lookup_ge_None_2 (f_bytes f)) in Hb by lia.
Qed.

(** Writing [q] at the end of the last block. *)
Lemma write_end s fs i f k q : area s fs -> fs !! i = Some f -> (k < length (f_blocks f))%nat ->
  (512 * k <= length (f_bytes f))%nat -> (length (f_bytes f) + length q <= 512 * S k)%nat ->
  let b := f_blocks f !!! k in
  area (set_block b (splice (length (f_bytes f) - 512 * k) q (mk_img s b)) s) (<[i := set_bytes (f_bytes f ++ q) f]> fs).
Proof.
  intros Ha Hi Hk H1 H2 b. pose proof (file_data s fs i f Ha Hi) as Hd.
  pose proof (used_nodup fs i f (area_nodup _ _ Ha) Hi) as Hn. unfold used in Hn. apply NoDup_app in Hn as (N1 & N2 & _).
  pose proof (block_used f k Hk) as Hb. fold b in Hb. pose proof (block_range s fs i f Ha Hi b Hb) as Hr.
  pose proof (ar_free _ _ Ha) as Hfr.
  assert (length (mk_img s b) = Z.to_nat BSIZE) as Hlb by (apply (ar_block _ _ Ha); change nmeta with 59 in *; lia).
  assert (f_blocks f !! k = Some b) as Hkb by by apply list_lookup_lookup_total_lt.
  set (buf := splice _ _ _). set (s' := set_block b buf s).
  assert (forall c, c <> b -> mk_img s' c = mk_img s c) as Hout by (intros c Hc; by apply upd_ne).
  assert (mk_img s' b = buf) as Hbuf by apply upd_eq.
  apply (area_change s s' fs i f _ []); try done; [cbn; lia|cbn; lia| | |].
  - intros c Hc. apply Hout. by intros ->.
  - intros c Hc. destruct (decide (c = b)) as [->|Hne].
    + rewrite Hbuf. unfold buf. rewrite length_splice; [done|]. rewrite Hlb. change (Z.to_nat BSIZE) with 512%nat. lia.
    + rewrite Hout by done. apply (ar_block _ _ Ha). pose proof (block_range s fs i f Ha Hi c Hc). change nmeta with 59 in *. lia.
  - pose proof Hd as [D1 D2 D3 D4 D5]. split; cbn [set_bytes f_bytes f_blocks f_ind]; try done.
    + rewrite length_app. lia.
    + intros Hl. destruct (D4 Hl) as [Hz Hj]. split; [done|]. rewrite Hout; [done|]. intros E.
      rewrite decide_False in N2 by done. apply (N2 b); [by eapply list_elem_of_lookup_2|set_solver].
    + intros k' o Hk' Ho. destruct (decide (k' = k)) as [->|Hne].
      * fold b. rewrite Hbuf. by apply splice_end.
      * rewrite Hout.
        -- rewrite D5 by done. destruct (decide (k' < k)%nat); [by rewrite lookup_app_l by lia|].
           rewrite !lookup_ge_None_2; [done|rewrite length_app; lia|lia].
        -- intros E. apply Hne. apply (NoDup_lookup (f_blocks f) k' k b N1); [|done].
           rewrite <- E. by apply list_lookup_lookup_total_lt.
Qed.

(** The blocks of a file of [n] bytes, and all it takes with its indirect block. *)
Definition file_blocks (n : nat) : nat := ((n + 511) / 512)%nat.
Definition file_cost (n : nat) : nat := (file_blocks n + if decide (12 < file_blocks n) then 1 else 0)%nat.

Lemma file_blocks_spec n : (n <= 512 * file_blocks n < n + 512)%nat.
Proof.
  unfold file_blocks. pose proof (Nat.div_mod (n + 511) 512 ltac:(done)).
  pose proof (Nat.mod_upper_bound (n + 511) 512 ltac:(done)). lia.
Qed.

(** What appending [p] to file [i] does. *)
Record appended (s : mkfs) (fs : list ifile) (i : nat) (f : ifile) (p : list Z) (f' : ifile) (s' : mkfs) : Prop := {
  ap_area : area s' (<[i:=f']> fs);
  ap_bytes : f_bytes f' = f_bytes f ++ p;
  ap_type : f_type f' = f_type f;
  ap_blocks : length (f_blocks f') = file_blocks (length (f_bytes f'));
  ap_free : freeblock s' = freeblock s + Z.of_nat (file_cost (length (f_bytes f'))) - Z.of_nat (file_cost (length (f_bytes f)));
  ap_inode : freeinode s' = freeinode s;
  ap_meta b : b < nmeta -> mk_img s' b = mk_img s b }.

(** One round, up to the end of the block. *)
Lemma iappend_round s fs i f din q k :
  area s fs -> fs !! i = Some f -> i_addrs din = addrs_of f -> length (f_blocks f) = file_blocks (length (f_bytes f)) ->
  (0 < length q)%nat -> (512 * k <= length (f_bytes f))%nat -> (length (f_bytes f) + length q <= 512 * S k)%nat -> (k < 140)%nat ->
  freeblock s + Z.of_nat (file_cost (length (f_bytes f) + length q)) - Z.of_nat (file_cost (length (f_bytes f))) <= FSSIZE ->
  exists f' s1 s2, iappend_block din (Z.of_nat k) s = Ret (set_i_addrs (addrs_of f') din, f_blocks f' !!! k) s1 /\
    rsect (f_blocks f' !!! k) s1 = Ret (mk_img s1 (f_blocks f' !!! k)) s1 /\
    wsect (f_blocks f' !!! k) (splice (length (f_bytes f) - 512 * k) q (mk_img s1 (f_blocks f' !!! k))) s1 = Ret tt s2 /\
    appended s fs i f q f' s2.
Proof.
  intros Ha Hi Hdin Hb Hq H1 H2 Hk Hfree.
  pose proof (file_blocks_spec (length (f_bytes f))) as S1.
  pose proof (file_blocks_spec (length (f_bytes f) + length q)) as S2.
  assert (Z.of_nat (file_cost (length (f_bytes f) + length q))
    = Z.of_nat (file_cost (length (f_bytes f))) + block_cost (length (f_blocks f)) k) as Hc.
  { unfold file_cost, block_cost. repeat case_decide; lia. }
  destruct (iappend_block_ok s fs i f din Ha Hi Hdin k) as (f1 & s1 & E & [B1 B2 B3 B4 B5 B6 B7]); [lia..|].
  assert (<[i:=f1]> fs !! i = Some f1) as Hi1 by (apply list_lookup_insert_eq; by eapply lookup_lt_Some).
  pose proof (write_end s1 (<[i:=f1]> fs) i f1 k q B1 Hi1 ltac:(lia) ltac:(rewrite B2; lia) ltac:(rewrite B2; lia)) as Hw.
  cbn zeta in Hw. rewrite list_insert_insert_eq, B2 in Hw.
  pose proof (block_range s1 _ i f1 B1 Hi1 _ (block_used f1 k ltac:(lia))) as Hr.
  pose proof (ar_free _ _ B1) as Hfr. change nmeta with 59 in *.
  eexists (set_bytes (f_bytes f ++ q) f1), s1, _. cbn [set_bytes f_blocks].
  split_and!; [exact E|apply rsect_ok; [apply (ar_len _ _ B1)|lia]|apply wsect_ok; [apply (ar_len _ _ B1)|lia]|].
  split; cbn [set_bytes f_bytes f_blocks f_type]; try done; rewrite ?length_app; try lia.
  - cbn [freeblock set_block]. lia.
  - intros b Hlt. change nmeta with 59 in Hlt. cbn. rewrite upd_ne by lia. by apply B7.
Qed.

Lemma iappend_loop_ok n : forall p s fs i f din,
  area s fs -> fs !! i = Some f -> i_addrs din = addrs_of f -> length (f_blocks f) = file_blocks (length (f_bytes f)) ->
  (length p < n)%nat -> (length (f_bytes f) + length p <= 512 * 140)%nat ->
  freeblock s + Z.of_nat (file_cost (length (f_bytes f) + length p)) - Z.of_nat (file_cost (length (f_bytes f))) <= FSSIZE ->
  exists f' s', iappend_loop din (Z.of_nat (length (f_bytes f))) p n s =
    Ret (set_i_addrs (addrs_of f') din, Z.of_nat (length (f_bytes f'))) s' /\ appended s fs i f p f' s'.
Proof.
  induction n as [|n IH]; intros p s fs i f din Ha Hi Hdin Hb Hn Hmax Hfree; [lia|]. cbn [iappend_loop].
  destruct (decide (length p = 0)%nat) as [Hz|Hnz].
  { apply length_zero_iff_nil in Hz as ->. cbn [length Z.of_nat Z.ltb Z.compare]. exists f, s.
    rewrite set_addrs_same by done. split; [done|]. split; rewrite ?app_nil_r; try done; [by rewrite list_insert_id|lia]. }
  rewrite (proj2 (Z.ltb_lt _ _)) by lia. set (L := length (f_bytes f)) in *.
  set (k := (L / 512)%nat). pose proof (Nat.div_mod L 512 ltac:(done)) as Hdm. pose proof (Nat.mod_upper_bound L 512 ltac:(done)) as Hmb.
  replace (Z.of_nat L / BSIZE) with (Z.of_nat k) by (unfold k; by rewrite Nat2Z.inj_div). fold k in Hdm.
  rewrite (proj2 (Z.ltb_lt _ MAXFILE)) by (change MAXFILE with 140; lia). cbn [negb].
  set (n1 := (length p `min` (512 * S k - L))%nat).
  replace (Z.min (Z.of_nat (length p)) ((Z.of_nat k + 1) * BSIZE - Z.of_nat L)) with (Z.of_nat n1) by (unfold BSIZE; lia).
  replace (Z.to_nat (Z.of_nat L - Z.of_nat k * BSIZE)) with (L - 512 * k)%nat by (unfold BSIZE; lia). rewrite !Nat2Z.id.
  assert (length (take n1 p) = n1) as Hl1 by (rewrite length_take; lia).
  assert (file_cost (L + n1) <= file_cost (L + length p))%nat as Hmono.
  { pose proof (file_blocks_spec (L + n1)). pose proof (file_blocks_spec (L + length p)).
    unfold file_cost. repeat case_decide; lia. }
  destruct (iappend_round s fs i f din (take n1 p) k) as (f1 & s1 & s2 & E1 & E2 & E3 & A); try done;
    try (rewrite Hl1; fold L; lia); [fold L; lia|lia|]. fold L in E3. mstep E1. cbn [fst snd]. mstep E2. mstep E3.
  destruct A as [A1 A2 A3 A4 A5 A6 A7].
  assert (length (f_bytes f1) = L + n1)%nat as HL by (rewrite A2, length_app, Hl1; done).
  assert (<[i:=f1]> fs !! i = Some f1) as Hi1 by (apply list_lookup_insert_eq; by eapply lookup_lt_Some).
  destruct (IH (drop n1 p) s2 (<[i:=f1]> fs) i f1 (set_i_addrs (addrs_of f1) din)) as (f' & s' & E & [C1 C2 C3 C4 C5 C6 C7]);
    try done; rewrite ?length_drop; [lia|lia| |].
  { rewrite HL. replace (L + n1 + (length p - n1))%nat with (L + length p)%nat by lia. fold L in A5. rewrite A5, HL. lia. }
  exists f', s'. rewrite HL, Nat2Z.inj_add in E. rewrite E. split; [done|]. split; try done; try congruence.
  - by rewrite list_insert_insert_eq in C1.
  - by rewrite C2, A2, <- app_assoc, take_drop.
  - fold L in A5. fold L. lia.
  - intros b Hlt. by rewrite C7, A7.
Qed.
