(* ===== verification/MkfsImage.v ===== *)
(** The image that mkfs.c builds: inodes, directory, free map.

    [built] relates the state of the builder to the list of files put into the
    image, each with its type and its bytes: the inode table, the blocks and
    the counters.  [ialloc] adds a file, [iappend] extends one, and [main] ends
    with an image in which the kernel finds every file under its name, its
    bytes complete, and the free map of exactly the blocks in use. *)

From stdpp Require Import base list sets strings.
From Stdlib Require Import ZArith Lia.
From S2P Require Import Prelude State Demo CString Disk Bio Log Fs FsBlock Inode FileData Dir Mkfs.

Open Scope Z_scope.
Open Scope kernel_scope.

(** ** Inodes *)

Definition inode_of (f : ifile) : inode :=
  set_i_addrs (addrs_of f) (set_i_size (Z.of_nat (length (f_bytes f)))
    (set_i_nlink 1 (set_i_type (f_type f) no_inode))).

(** The inode of number [j + 1] in an image. *)
Definition slot (img : Z -> list Z) (j : nat) : inode :=
  load_dinode (img (IBLOCK (Z.of_nat (S j)) sb)) (dinode_off (Z.of_nat (S j))) no_inode.

Lemma iblock_range j : (j < 207)%nat -> 32 <= IBLOCK (Z.of_nat (S j)) sb < 58.
Proof.
  intros Hj. change (32 <= Z.of_nat (S j) / 8 + 32 < 58).
  pose proof (Z.div_pos (Z.of_nat (S j)) 8). assert (Z.of_nat (S j) / 8 < 26); [apply Z.div_lt_upper_bound|]; lia.
Qed.

(** Writing an inode changes no other. *)
Lemma winode_ok s j x : (j < 207)%nat -> mk_len s = FSSIZE ->
  (forall b, 0 <= b < FSSIZE -> length (mk_img s b) = Z.to_nat BSIZE) -> dinode_ok x ->
  exists buf, let b := IBLOCK (Z.of_nat (S j)) sb in let s' := set_block b buf s in
    winode (Z.of_nat (S j)) x s = Ret tt s' /\ length buf = Z.to_nat BSIZE /\
    forall j', slot (mk_img s') j' = if decide (j' = j) then copy_dinode x no_inode else slot (mk_img s) j'.
Proof.
  intros Hj Hlen Hb Hx. pose proof (iblock_range j Hj) as Hr. set (b := IBLOCK _ sb) in *.
  pose proof (dinode_off_le (Z.of_nat (S j))) as Ho.
  assert (length (mk_img s b) = Z.to_nat BSIZE) as Hl by (apply Hb; unfold FSSIZE; lia).
  exists (splice (dinode_off (Z.of_nat (S j))) (dinode_bytes x) (mk_img s b)). cbn zeta. split_and!.
  - unfold winode. fold b. mstep (rsect_ok s b Hlen ltac:(unfold FSSIZE; lia)). apply wsect_ok; [done|unfold FSSIZE; lia].
  - rewrite length_splice; [done|]. rewrite length_dinode_bytes by apply Hx. rewrite Hl. change (Z.to_nat BSIZE) with 512%nat. lia.
  - intros j'. unfold slot. cbn [set_block mk_img]. case_decide as E.
    + subst j'. fold b. rewrite upd_eq. apply load_dinode_bytes; [done|]. rewrite Hl. change (Z.to_nat BSIZE) with 512%nat. lia.
    + destruct (decide (IBLOCK (Z.of_nat (S j')) sb = b)) as [Eb|Eb]; [|by rewrite upd_ne].
      rewrite Eb, upd_eq. apply (load_dinode_other _ _ _ _ sb); [done|apply Hx|by rewrite Eb|lia].
Qed.

(** ** The image *)

Record image (s : mkfs) (fs : list ifile) : Prop := {
  im_area : area s fs;
  im_blocks f : f ∈ fs -> length (f_blocks f) = file_blocks (length (f_bytes f)) /\ 0 < f_type f < 2 ^ 15;
  im_count : (length fs < 200)%nat;
  im_next : freeinode s = Z.of_nat (S (length fs));
  im_table j : (j < 207)%nat -> slot (mk_img s) j = default no_inode (inode_of <$> fs !! j);
  im_super : superblock_of (mk_img s 1) = sb }.

(** The data blocks do not depend on the others. *)
Lemma area_meta s s' fs : area s fs -> mk_len s' = mk_len s -> freeblock s' = freeblock s ->
  (forall b, nmeta <= b -> mk_img s' b = mk_img s b) ->
  (forall b, 0 <= b < nmeta -> length (mk_img s' b) = Z.to_nat BSIZE) -> area s' fs.
Proof.
  intros Ha El Ef Hb Hl. pose proof Ha as [A1 A2 A3 A4 A5 A6]. split; rewrite ?El, ?Ef; try done.
  - intros b Hr. destruct (decide (b < nmeta)); [apply Hl; lia|]. rewrite Hb by lia. by apply A4.
  - intros b Hr. rewrite Hb by lia. by apply A5.
  - intros f Hf. apply (data_ok_ext (mk_img s)); [|by apply A6]. intros b Hu. apply Hb.
    apply list_elem_of_lookup in Hf as [i Hi]. pose proof (used_range s fs b Ha (used_in _ _ _ _ Hi Hu)). lia.
Qed.

Lemma addrs_range s fs i f : area s fs -> fs !! i = Some f -> Forall (fun a => 0 <= a < 2 ^ 32) (addrs_of f).
Proof.
  intros Ha Hi. pose proof (ar_free _ _ Ha) as Hfr. unfold FSSIZE in Hfr.
  assert (forall a, a ∈ used f -> 0 <= a < 2 ^ 32) as Hu.
  { intros a Hin. pose proof (block_range s fs i f Ha Hi a Hin). change nmeta with 59 in *. lia. }
  unfold addrs_of. apply Forall_app. split; [|apply Forall_app; split].
  - apply Forall_take, Forall_forall. intros a Hin. apply Hu, elem_of_app. by left.
  - by apply Forall_replicate.
  - constructor; [|done]. destruct (decide (f_ind f = 0)) as [->|]; [lia|]. by apply Hu, ind_used.
Qed.

Lemma inode_of_ok s fs i f : area s fs -> fs !! i = Some f -> 0 < f_type f < 2 ^ 15 -> dinode_ok (inode_of f).
Proof.
  intros Ha Hi Ht. pose proof (file_data s fs i f Ha Hi) as Hd.
  pose proof (da_fits _ _ Hd). pose proof (da_max _ _ Hd). change (Z.to_nat MAXFILE) with 140%nat in *.
  split; cbn; try lia; [by eapply addrs_range|apply length_addrs].
Qed.

(** Writing the inode of file [i] when only its blocks have changed. *)
Lemma write_inode s s1 fs i f' : image s fs -> (i < length fs)%nat -> area s1 (<[i:=f']> fs) ->
  length (f_blocks f') = file_blocks (length (f_bytes f')) -> 0 < f_type f' < 2 ^ 15 ->
  freeinode s1 = freeinode s -> (forall b, b < nmeta -> mk_img s1 b = mk_img s b) ->
  exists s', winode (Z.of_nat (S i)) (inode_of f') s1 = Ret tt s' /\ image s' (<[i:=f']> fs) /\ freeblock s' = freeblock s1.
Proof.
  intros [I1 I2 I3 I4 I5 I6] Hi Ha Hb Ht Hn Hm.
  assert (<[i:=f']> fs !! i = Some f') as Hi' by by apply list_lookup_insert_eq.
  destruct (winode_ok s1 i (inode_of f')) as (buf & E & Hl & Hs); [lia|apply (ar_len _ _ Ha)|apply (ar_block _ _ Ha)|by eapply inode_of_ok|].
  pose proof (iblock_range i ltac:(lia)) as Hr. set (b := IBLOCK _ sb) in *.
  eexists. split; [exact E|]. split; [|done]. split.
  - apply (area_meta s1); try done; cbn.
    + intros c Hc. apply upd_ne. change nmeta with 59 in *. lia.
    + intros c Hc. destruct (decide (c = b)) as [->|]; [by rewrite upd_eq|rewrite upd_ne by done]. apply (ar_block _ _ Ha). change nmeta with 59 in *. unfold FSSIZE. lia.
  - intros g Hg. apply list_elem_of_lookup in Hg as [j Hj]. destruct (decide (j = i)) as [->|].
    + rewrite Hi' in Hj. by injection Hj as <-.
    + rewrite list_lookup_insert_ne in Hj by done. apply I2. by eapply list_elem_of_lookup_2.
  - by rewrite length_insert.
  - rewrite length_insert, <- I4. exact Hn.
  - intros j Hj. rewrite Hs. case_decide as Ej; [subst j; by rewrite Hi'|].
    rewrite list_lookup_insert_ne, <- I5 by done. unfold slot. rewrite Hm; [done|]. pose proof (iblock_range j Hj). change nmeta with 59. lia.
  - cbn. rewrite upd_ne by lia. by rewrite Hm.
Qed.

Definition empty_file (type : Z) : ifile := mk_ifile type [] [] 0.

Lemma area_empty s fs type : area s fs -> area s (fs ++ [empty_file type]).
Proof.
  intros [A1 A2 A3 A4 A5 A6]. split; try done.
  - unfold all_used. rewrite map_app, concat_app. cbn. by rewrite !app_nil_r.
  - intros f Hf. apply elem_of_app in Hf as [Hf|Hf]; [by apply A6|]. apply list_elem_of_singleton in Hf as ->.
    split; cbn; try done; lia.
Qed.

(** [ialloc] adds an empty file. *)
Lemma ialloc_ok s fs type : image s fs -> (length fs < 199)%nat -> 0 < type < 2 ^ 15 ->
  exists s', ialloc type s = Ret (Z.of_nat (S (length fs))) s' /\ image s' (fs ++ [empty_file type]) /\
    freeblock s' = freeblock s.
Proof.
  intros [I1 I2 I3 I4 I5 I6] Hn Ht. unfold ialloc. mrun.
  replace (set_i_size _ _) with (inode_of (empty_file type)); cycle 1.
  { unfold inode_of, xshort. by rewrite !of_le_le16, !s16_u16 by lia. }
  rewrite I4. set (n := length fs) in *. rewrite u32_small by lia. set (s0 := set_freeinode _ s).
  assert (area s0 (fs ++ [empty_file type])) as Ha.
  { apply area_empty, (area_meta s); try done. intros b Hb. apply (ar_block _ _ I1). change nmeta with 59 in *. unfold FSSIZE. lia. }
  assert ((fs ++ [empty_file type]) !! n = Some (empty_file type)) as Hlk by by apply list_lookup_middle.
  destruct (winode_ok s0 n (inode_of (empty_file type))) as (buf & E & Hl & Hs);
    [lia|apply (ar_len _ _ Ha)|apply (ar_block _ _ Ha)|by eapply inode_of_ok|].
  pose proof (iblock_range n ltac:(lia)) as Hr. set (b := IBLOCK _ sb) in *.
  mstep E. eexists. split; [done|]. split; [|done]. split; rewrite ?length_app; cbn [length].
  - apply (area_meta s0); try done; cbn.
    + intros c Hc. apply upd_ne. change nmeta with 59 in *. lia.
    + intros c Hc. destruct (decide (c = b)) as [->|]; [by rewrite upd_eq|rewrite upd_ne by done].
      apply (ar_block _ _ I1). change nmeta with 59 in *. unfold FSSIZE. lia.
  - intros g Hg. apply elem_of_app in Hg as [Hg|Hg]; [by apply I2|]. by apply list_elem_of_singleton in Hg as ->.
  - lia.
  - cbn. lia.
  - intros j Hj. rewrite Hs. case_decide as Ej; [subst j; by rewrite Hlk|]. cbn [s0 set_freeinode mk_img]. rewrite I5 by done.
    destruct (decide (j < n)%nat); [by rewrite lookup_app_l|]. rewrite !lookup_ge_None_2; [done|rewrite length_app; cbn; lia|lia].
  - cbn. by rewrite upd_ne by lia.
Qed.

Lemma rinode_ok s fs i : image s fs -> (i < 207)%nat ->
  rinode (Z.of_nat (S i)) s = Ret (default no_inode (inode_of <$> fs !! i)) s.
Proof.
  intros [I1 _ _ _ I5 _] Hi. unfold rinode. pose proof (iblock_range i Hi).
  mstep (rsect_ok s (IBLOCK (Z.of_nat (S i)) sb) (ar_len _ _ I1) ltac:(unfold FSSIZE; lia)). unfold ret. f_equal. by apply I5.
Qed.

(** [iappend] extends a file. *)
Lemma iappend_file s fs i f p : image s fs -> fs !! i = Some f ->
  (length (f_bytes f) + length p <= 512 * 140)%nat ->
  freeblock s + Z.of_nat (file_cost (length (f_bytes f) + length p)) - Z.of_nat (file_cost (length (f_bytes f))) <= FSSIZE ->
  exists f' s', iappend (Z.of_nat (S i)) p s = Ret tt s' /\ image s' (<[i:=f']> fs) /\
    f_type f' = f_type f /\ f_bytes f' = f_bytes f ++ p /\
    freeblock s' = freeblock s + Z.of_nat (file_cost (length (f_bytes f'))) - Z.of_nat (file_cost (length (f_bytes f))).
Proof.
  intros Him Hi Hmax Hfree. pose proof Him as [I1 I2 I3 I4 I5 I6]. pose proof (lookup_lt_Some _ _ _ Hi) as Hlt.
  destruct (I2 f ltac:(by eapply list_elem_of_lookup_2)) as [Hb Ht].
  unfold iappend. mstep (rinode_ok s fs i Him ltac:(lia)). rewrite Hi. cbn [fmap option_fmap option_map from_option id].
  change (i_size (inode_of f)) with (Z.of_nat (length (f_bytes f))). rewrite xint_small by lia.
  destruct (iappend_loop_ok (S (length p)) p s fs i f (inode_of f) I1 Hi eq_refl Hb ltac:(lia) Hmax Hfree) as (f' & s1 & E & [A1 A2 A3 A4 A5 A6 A7]).
  mstep E. cbn [fst snd].
  assert (length (f_bytes f') = length (f_bytes f) + length p)%nat as Hl by by rewrite A2, length_app.
  rewrite xint_small by lia.
  destruct (write_inode s s1 fs i f' Him Hlt A1 A4 ltac:(by rewrite A3) A6 A7) as (s' & E' & Him' & Hf).
  exists f', s'. split; [|by rewrite Hf]. rewrite <- E'. f_equal. unfold inode_of. by rewrite A3.
Qed.

(** ** What has been put into the image *)

Definition content_of (f : ifile) : Z * list Z := (f_type f, f_bytes f).
Definition total (l : list (Z * list Z)) : nat := sum_list_with (fun x => file_cost (length (snd x))) l.

Definition built (s : mkfs) (l : list (Z * list Z)) : Prop :=
  exists fs, image s fs /\ map content_of fs = l /\ freeblock s = nmeta + Z.of_nat (total l).

Lemma total_insert l i x y : l !! i = Some x ->
  (total (<[i:=y]> l) + file_cost (length (snd x)) = total l + file_cost (length (snd y)))%nat.
Proof.
  unfold total. generalize file_cost. intros cost. revert i. induction l as [|z l IH]; intros i Hi; [done|]. destruct i as [|i]; cbn in *.
  - injection Hi as ->. lia.
  - rewrite <- !Nat.add_assoc. f_equal. exact (IH i Hi).
Qed.

Lemma file_cost_mono n m : (n <= m)%nat -> (file_cost n <= file_cost m)%nat.
Proof.
  intros H. pose proof (file_blocks_spec n). pose proof (file_blocks_spec m). unfold file_cost. repeat case_decide; lia.
Qed.

Lemma built_ialloc s l type : built s l -> (length l < 199)%nat -> 0 < type < 2 ^ 15 ->
  exists s', ialloc type s = Ret (Z.of_nat (S (length l))) s' /\ built s' (l ++ [(type, [])]).
Proof.
  intros (fs & Him & Hl & Hf) Hn Ht. assert (length l = length fs) as E by by rewrite <- Hl, length_map.
  rewrite E in *. destruct (ialloc_ok s fs type Him Hn Ht) as (s' & E1 & Him' & Hf'). exists s'. split; [done|].
  exists (fs ++ [empty_file type]). split_and!; [done|by rewrite map_app, Hl|]. rewrite Hf', Hf. do 2 f_equal.
  unfold total. rewrite sum_list_with_app. cbn. by rewrite Nat.add_0_r.
Qed.

Lemma built_iappend s l i t bs p : built s l -> l !! i = Some (t, bs) ->
  (length (bs ++ p) <= 512 * 140)%nat -> (Z.of_nat (total (<[i:=(t, bs ++ p)]> l)) <= nblocks) ->
  exists s', iappend (Z.of_nat (S i)) p s = Ret tt s' /\ built s' (<[i:=(t, bs ++ p)]> l).
Proof.
  intros (fs & Him & Hl & Hf) Hi Hmax Hfree. pose proof Hi as Hfi. rewrite <- Hl, list_lookup_fmap in Hfi.
  apply fmap_Some in Hfi as (f & Hfi & [= -> ->]). pose proof (total_insert l i _ (f_type f, f_bytes f ++ p) Hi) as Ht.
  cbn [snd] in Ht. rewrite length_app in *. change nblocks with (FSSIZE - nmeta) in Hfree.
  destruct (iappend_file s fs i f p Him Hfi Hmax ltac:(lia)) as (f' & s' & E & Him' & T & B & F).
  exists s'. split; [done|]. exists (<[i:=f']> fs). split_and!; [done| |rewrite B, length_app in F; lia].
  rewrite list_fmap_insert. unfold content_of at 1. by rewrite T, B, <- Hl.
Qed.

Lemma built_pieces ps : forall s l i t bs, built s l -> l !! i = Some (t, bs) ->
  (length (bs ++ concat ps) <= 512 * 140)%nat -> (Z.of_nat (total (<[i:=(t, bs ++ concat ps)]> l)) <= nblocks) ->
  exists s', mfor (iappend (Z.of_nat (S i))) ps s = Ret tt s' /\ built s' (<[i:=(t, bs ++ concat ps)]> l).
Proof.
  induction ps as [|q ps IH]; intros s l i t bs Hs Hi Hmax Hfree; cbn [mfor concat] in *.
  { exists s. rewrite app_nil_r, list_insert_id by done. done. }
  pose proof (total_insert l i _ (t, bs ++ q) Hi) as T1. pose proof (total_insert l i _ (t, bs ++ q ++ concat ps) Hi) as T2.
  cbn [snd] in *. rewrite !length_app in *.
  pose proof (file_cost_mono (length bs + length q) (length bs + (length q + length (concat ps)))).
  destruct (built_iappend s l i t bs q Hs Hi) as (s1 & E1 & H1); [rewrite length_app; lia|lia|].
  mstep E1. assert (<[i:=(t, bs ++ q)]> l !! i = Some (t, bs ++ q)) as Hi1 by (apply list_lookup_insert_eq; by eapply lookup_lt_Some).
  destruct (IH s1 _ i t (bs ++ q) H1 Hi1) as (s2 & E2 & H2).
  - rewrite !length_app. lia.
  - rewrite list_insert_insert_eq, <- app_assoc. done.
  - exists s2. by rewrite list_insert_insert_eq, <- app_assoc in H2.
Qed.

(** ** The start of [main] *)

Lemma zero_sectors n : forall start s, mk_len s = Z.of_nat start -> (start + n <= 1000)%nat ->
  (forall b, 0 <= b < Z.of_nat start -> mk_img s b = replicate (Z.to_nat BSIZE) 0) ->
  exists s', mfor (fun i => wsect i (replicate (Z.to_nat BSIZE) 0)) (map Z.of_nat (seq start n)) s = Ret tt s' /\
    mk_len s' = Z.of_nat (start + n) /\ freeinode s' = freeinode s /\ freeblock s' = freeblock s /\
    forall b, 0 <= b < Z.of_nat (start + n) -> mk_img s' b = replicate (Z.to_nat BSIZE) 0.
Proof.
  induction n as [|n IH]; intros start s Hl Hn Hz; cbn [seq map mfor].
  { exists s. rewrite Nat.add_0_r. done. }
  unfold wsect at 1. rewrite sector_small by (unfold FSSIZE; lia). mstep (modify_eq (S := mkfs)
    (fun s => mk_mkfs (upd (mk_img s) (Z.of_nat start) (replicate (Z.to_nat BSIZE) 0))
      (Z.max (mk_len s) (Z.of_nat start + 1)) (freeinode s) (freeblock s)) s).
  edestruct (IH (S start)) as (s' & E & H1 & H2 & H3 & H4); [| | |exists s'; rewrite E; replace (start + S n)%nat with (S start + n)%nat by lia; done].
  - cbn. lia.
  - lia.
  - intros b Hb. cbn. destruct (decide (b = Z.of_nat start)) as [->|]; [by rewrite upd_eq|].
    rewrite upd_ne by done. apply Hz. lia.
Qed.

Lemma slot_zero img j : img (IBLOCK (Z.of_nat (S j)) sb) = replicate (Z.to_nat BSIZE) 0 -> slot img j = no_inode.
Proof.
  intros E. unfold slot, dinode_off. rewrite E. change IPB with 8. change DINODE_SIZE with 64.
  pose proof (Z.mod_pos_bound (Z.of_nat (S j)) 8 ltac:(lia)) as Hm. generalize dependent (Z.of_nat (S j) mod 8). intros m Hm.
  assert (m ∈ [0; 1; 2; 3; 4; 5; 6; 7]) as Hin by (rewrite !elem_of_cons; lia).
  rewrite !elem_of_cons, elem_of_nil in Hin. destruct_or! Hin; subst; done.
Qed.

Lemma start_ok : exists s1 s,
  mfor (fun i => wsect i (replicate (Z.to_nat BSIZE) 0)) (seqZ 0 FSSIZE) (set_freeblock nmeta mkfs_start) = Ret tt s1 /\
  wsect 1 (splice 0 (sb_bytes sb) (replicate (Z.to_nat BSIZE) 0)) s1 = Ret tt s /\ built s [].
Proof.
  destruct (zero_sectors 1000 0 (set_freeblock nmeta mkfs_start)) as (s & E & Hl & Hi & Hb & Hz);
    [reflexivity|lia|intros b Hb; lia|].
  change (Z.of_nat (0 + 1000)) with 1000 in *. change (freeinode s = 1) in Hi. change (freeblock s = nmeta) in Hb.
  assert (seqZ 0 FSSIZE = map Z.of_nat (seq 0 1000)) as Es.
  { unfold seqZ. apply map_ext. intros k. apply Z.add_0_r. }
  rewrite Es. exists s. set (buf := splice _ _ _). eexists.
  split; [exact E|]. split; [apply wsect_ok; [exact Hl|unfold FSSIZE; lia]|]. exists []. split_and!; [|reflexivity|exact Hb].
  clear E Es.
  assert (forall b, b <> 1 -> 0 <= b < 1000 -> mk_img (set_block 1 buf s) b = replicate (Z.to_nat BSIZE) 0) as Hz'.
  { intros b Hne Hr. cbn. rewrite upd_ne by done. by apply Hz. }
  split; cbn [set_block mk_img mk_len freeblock freeinode length]; [|by intros f ?%elem_of_nil|lia|done| |].
  - split; cbn [set_block mk_img mk_len freeblock freeinode]; rewrite ?Hb; [exact Hl|done|by rewrite Z.sub_diag| | |by intros f ?%elem_of_nil].
    + intros b Hr. destruct (decide (b = 1)) as [->|]; [by rewrite upd_eq|]. change (upd _ _ _ b) with (mk_img (set_block 1 buf s) b). by rewrite Hz'.
    + intros b Hr. apply Hz'; change nmeta with 59 in *; unfold FSSIZE in *; lia.
  - intros j Hj. pose proof (iblock_range j Hj). apply slot_zero. apply Hz'; lia.
  - rewrite upd_eq. by vm_compute.
Qed.

(** ** The files *)

Abbreviation arg := (list Z * option (list (list Z)))%type.
Definition arg_bytes (a : arg) : list Z := concat (default [] (snd a)).
Definition arg_files (args : list arg) : list (Z * list Z) := map (fun a => (T_FILE, arg_bytes a)) args.
Fixpoint entries (inum : nat) (args : list arg) : list Z :=
  match args with
  | [] => []
  | a :: args => dirent_bytes (skip_underscore (fst a)) (Z.of_nat inum) ++ entries (S inum) args
  end.

Definition arg_ok (a : arg) : Prop :=
  bytes_ok (fst a) /\ 47 ∉ fst a /\ is_Some (snd a) /\ (length (arg_bytes a) <= 512 * 140)%nat.

Lemma total_cons x l : total (x :: l) = (file_cost (length (snd x)) + total l)%nat.
Proof. done. Qed.

Lemma total_app l1 l2 : total (l1 ++ l2) = (total l1 + total l2)%nat.
Proof. apply sum_list_with_app. Qed.

Lemma add_file_ok s d l a : built s ((T_DIR, d) :: l) -> (length l < 198)%nat -> arg_ok a ->
  (length d + 16 <= 512 * 140)%nat ->
  let e := dirent_bytes (skip_underscore (fst a)) (Z.of_nat (S (S (length l)))) in
  Z.of_nat (total ((T_DIR, d ++ e) :: l ++ [(T_FILE, arg_bytes a)])) <= nblocks ->
  exists s', add_file 1 a s = Ret tt s' /\ built s' ((T_DIR, d ++ e) :: l ++ [(T_FILE, arg_bytes a)]).
Proof.
  intros Hs Hl (_ & Hn & [ps Hps] & Hsz) Hd e Hfree. destruct a as [name o]. cbn [fst snd] in *. subst o.
  unfold arg_bytes in *. cbn [snd from_option id] in *. unfold add_file. rewrite bool_decide_eq_false_2 by done.
  destruct (built_ialloc s _ T_FILE Hs ltac:(cbn [length]; lia) ltac:(done)) as (s1 & E1 & H1). mstep E1. cbn [length] in *.
  rewrite xshort_small by lia. fold e. assert (length e = 16%nat) as He by apply length_dirent.
  rewrite total_cons, total_app in Hfree. unfold total in Hfree at 2. cbn [snd sum_list_with] in Hfree.
  destruct (built_iappend s1 ((T_DIR, d) :: l ++ [(T_FILE, [])]) 0 T_DIR d e H1 eq_refl) as (s2 & E2 & H2).
  - rewrite length_app. lia.
  - cbn [insert list_insert]. rewrite total_cons, total_app. cbn [snd]. change (total [(T_FILE, [])]) with 0%nat. lia.
  - change (Z.of_nat 1) with 1 in E2. mstep E2. cbn [insert list_insert] in H2.
    assert (((T_DIR, d ++ e) :: l ++ [(T_FILE, [])]) !! S (length l) = Some (T_FILE, [])) as Hlk by (cbn; by apply list_lookup_middle).
    assert (<[S (length l):=(T_FILE, [] ++ concat ps)]> ((T_DIR, d ++ e) :: l ++ [(T_FILE, [])])
      = (T_DIR, d ++ e) :: l ++ [(T_FILE, concat ps)]) as Eins.
    { change ((T_DIR, d ++ e) :: <[length l:=(T_FILE, concat ps)]> (l ++ [(T_FILE, [])]) = (T_DIR, d ++ e) :: l ++ [(T_FILE, concat ps)]).
      by rewrite insert_app_r_alt, Nat.sub_diag by lia. }
    destruct (built_pieces ps s2 _ (S (length l)) T_FILE [] H2 Hlk) as (s3 & E3 & H3); [done| |].
    + rewrite Eins, total_cons, total_app. unfold total at 2. cbn [snd sum_list_with]. lia.
    + exists s3. split; [exact E3|]. by rewrite Eins in H3.
Qed.

Lemma add_files args : forall s d l, built s ((T_DIR, d) :: l) -> (length l + length args <= 198)%nat -> Forall arg_ok args ->
  (length d + 16 * length args <= 512 * 140)%nat ->
  Z.of_nat (total ((T_DIR, d ++ entries (S (S (length l))) args) :: l ++ arg_files args)) <= nblocks ->
  exists s', mfor (add_file 1) args s = Ret tt s' /\
    built s' ((T_DIR, d ++ entries (S (S (length l))) args) :: l ++ arg_files args).
Proof.
  induction args as [|a args IH]; intros s d l Hs Hl Hok Hd Hfree; cbn [mfor entries arg_files map length] in *.
  { exists s. by rewrite !app_nil_r. }
  apply Forall_cons in Hok as [Ha Hok]. set (e := dirent_bytes _ _) in *.
  assert (length e = 16%nat) as He by apply length_dirent.
  rewrite app_assoc, cons_middle, (app_assoc l) in Hfree. fold (arg_files args) in Hfree |- *.
  set (rest := entries _ _) in *. set (x := (T_FILE, arg_bytes a)) in *.
  destruct (add_file_ok s d l a Hs) as (s1 & E1 & H1); [lia|done|lia| |].
  - fold e x. rewrite total_cons, total_app in Hfree. rewrite total_cons. cbn [snd] in *.
    pose proof (file_cost_mono (length (d ++ e)) (length ((d ++ e) ++ rest)) ltac:(rewrite (length_app _ rest); lia)). lia.
  - fold e x in H1. mstep E1.
    destruct (IH s1 (d ++ e) (l ++ [x]) H1) as (s2 & E2 & H2); rewrite ?length_app; cbn [length]; try done; try lia.
    + replace (S (S (length l + 1))) with (S (S (S (length l)))) by lia. done.
    + exists s2. split; [done|]. rewrite length_app in H2. cbn [length] in H2.
      replace (S (S (length l + 1))) with (S (S (S (length l)))) in H2 by lia. fold rest in H2.
      by rewrite <- !app_assoc in H2.
Qed.

(** ** The end of [main] *)

(** The size of a file that ends within a block, rounded up. *)
Definition padding (n : nat) : nat := (512 * (n / 512 + 1) - n)%nat.

Lemma image_pad s fs i f : image s fs -> fs !! i = Some f -> (length (f_bytes f) mod 512 <> 0)%nat ->
  (length (f_bytes f) + padding (length (f_bytes f)) <= 512 * 140)%nat ->
  exists s', winode (Z.of_nat (S i)) (set_i_size (xint ((Z.of_nat (length (f_bytes f)) / BSIZE + 1) * BSIZE)) (inode_of f)) s = Ret tt s' /\
    image s' (<[i := set_bytes (f_bytes f ++ replicate (padding (length (f_bytes f))) 0) f]> fs) /\ freeblock s' = freeblock s /\
    file_cost (length (f_bytes f) + padding (length (f_bytes f))) = file_cost (length (f_bytes f)).
Proof.
  intros Him Hi Hm Hmax. pose proof Him as [I1 I2 I3 I4 I5 I6]. destruct (I2 f ltac:(by eapply list_elem_of_lookup_2)) as [Hb Ht].
  set (n := length (f_bytes f)) in *. unfold padding in *. set (f' := set_bytes _ f).
  pose proof (Nat.div_mod n 512 ltac:(done)) as Hdm. pose proof (Nat.mod_upper_bound n 512 ltac:(done)) as Hub.
  pose proof (file_blocks_spec n) as S1. pose proof (file_blocks_spec (n + (512 * (n / 512 + 1) - n))) as S2.
  assert (length (f_bytes f') = 512 * (n / 512 + 1))%nat as Hl'.
  { unfold f'. cbn [set_bytes f_bytes]. rewrite length_app, length_replicate. fold n. lia. }
  assert (file_blocks (n + (512 * (n / 512 + 1) - n)) = file_blocks n) as Hfb by lia.
  pose proof (file_data s fs i f I1 Hi) as Hd. pose proof (ar_free _ _ I1) as Hfr.
  assert (area s (<[i:=f']> fs)) as Ha.
  { apply (area_change s s fs i f f' []); try done; [cbn; lia|lia| |].
    - intros b Hu. apply (ar_block _ _ I1). pose proof (block_range s fs i f I1 Hi b Hu). change nmeta with 59 in *. lia.
    - destruct Hd as [D1 D2 D3 D4 D5]. split; try done; unfold f'; cbn [set_bytes f_bytes f_blocks].
      + rewrite length_app, length_replicate. fold n. lia.
      + intros k o Hk Ho. rewrite D5 by done. destruct (decide (512 * k + o < n)%nat); [by rewrite lookup_app_l|].
        rewrite lookup_app_r, (lookup_ge_None_2 (f_bytes f)) by (fold n; lia). cbn [from_option].
        destruct (replicate _ _ !! _) eqn:E; [|done]. apply lookup_replicate in E as [-> _]. done. }
  destruct (write_inode s s fs i f' Him ltac:(by eapply lookup_lt_Some) Ha) as (s' & E & Him' & Hf); try done.
  { rewrite Hl'. cbn [f' set_bytes f_blocks]. rewrite Hb. fold n. rewrite <- Hfb. f_equal. lia. }
  exists s'. split_and!; [|done|done|unfold file_cost; by rewrite Hfb]. rewrite <- E. f_equal. unfold inode_of. rewrite Hl'.
  cbn [f' set_bytes f_type]. replace ((Z.of_nat n / BSIZE + 1) * BSIZE) with (Z.of_nat (512 * (n / 512 + 1))).
  - by rewrite xint_small by lia.
  - unfold BSIZE. rewrite Nat2Z.inj_mul, Nat2Z.inj_add, Nat2Z.inj_div. lia.
Qed.

(** The free map that [balloc] writes. *)
Definition used_map (n : nat) : list Z := foldl (fun buf i => bit_set i buf) (replicate (Z.to_nat BSIZE) 0) (map Z.of_nat (seq 0 n)).

Lemma used_map_spec n : (n <= 4096)%nat -> length (used_map n) = Z.to_nat BSIZE /\
  forall b, 0 <= b < BPB -> bit_used (used_map n) b = bool_decide (b < Z.of_nat n).
Proof.
  induction n as [|n IH]; intros Hn.
  - split; [done|]. intros b Hb. rewrite bool_decide_eq_false_2 by lia. rewrite bit_used_eq. unfold used_map. cbn [seq map foldl].
    rewrite lookup_total_replicate_2, Z.testbit_0_l; [done|]. pose proof (bit_index (replicate (Z.to_nat BSIZE) 0) b Hb ltac:(done)) as H.
    by rewrite length_replicate in H.
  - destruct (IH ltac:(lia)) as [Hl Hb]. unfold used_map in *. rewrite seq_S, map_app, foldl_app. cbn [map foldl].
    split; [unfold bit_set; by rewrite length_insert|]. intros b Hr.
    rewrite bit_set_spec by (try done; unfold BPB, BSIZE; lia). case_decide as E.
    + rewrite bool_decide_eq_true_2; [done|lia].
    + rewrite Hb by done. apply bool_decide_ext. lia.
Qed.

Lemma balloc_ok s fs : image s fs -> exists s', balloc (freeblock s) s = Ret tt s' /\ image s' fs /\
  freeblock s' = freeblock s /\ mk_img s' (sb_bmapstart sb) = used_map (Z.to_nat (freeblock s)).
Proof.
  intros [I1 I2 I3 I4 I5 I6]. pose proof (ar_free _ _ I1) as Hfr. unfold FSSIZE in Hfr. change nmeta with 59 in Hfr.
  unfold balloc. rewrite (proj2 (Z.ltb_lt _ _)) by (unfold BSIZE; lia). cbn [negb].
  assert (seqZ 0 (freeblock s) = map Z.of_nat (seq 0 (Z.to_nat (freeblock s)))) as Es.
  { unfold seqZ. apply map_ext. intros k. apply Z.add_0_r. }
  rewrite Es. fold (used_map (Z.to_nat (freeblock s))). change (sb_bmapstart sb) with 58.
  rewrite wsect_ok by (first [apply I1|done]). destruct (used_map_spec (Z.to_nat (freeblock s)) ltac:(lia)) as [Hl _].
  set (buf := used_map _) in *. eexists. split_and!; [done| |done|apply upd_eq].
  split; try done; cbn [set_block mk_img].
  - apply (area_meta s); try done; cbn [set_block mk_img].
    + intros b Hb. apply upd_ne. change nmeta with 59 in Hb. lia.
    + intros b Hb. change nmeta with 59 in Hb. destruct (decide (b = 58)) as [->|]; [by rewrite upd_eq|rewrite upd_ne by done].
      apply (ar_block _ _ I1). unfold FSSIZE. lia.
  - intros j Hj. rewrite <- I5 by done. unfold slot. pose proof (iblock_range j Hj). by rewrite upd_ne by lia.
Qed.

(** ** The image as the kernel reads it *)

Section Kernel.
Context {D : DiskDriver} (k : kstate) (dev : Z) (s : mkfs) (fs : list ifile) (x0 : inode).
Hypothesis (Him : image s fs) (Hx0 : i_dev x0 = dev).
Hypothesis Hc : forall b, 0 <= b < FSSIZE -> content k dev b = mk_img s b.
Hypothesis Hs : forall b, 0 <= b < FSSIZE -> disk_serves dev b (k_disksize k) = true.

(** The inode [inum] as [ilock] loads it. *)
Definition kinode (inum : Z) : inode := load_dinode (content k dev (IBLOCK inum sb)) (dinode_off inum) x0.

Lemma kinode_ok j : (j < 207)%nat ->
  kinode (Z.of_nat (S j)) = copy_dinode (default no_inode (inode_of <$> fs !! j)) x0.
Proof using Him Hc.
  intros Hj. pose proof (iblock_range j Hj). rewrite <- (im_table _ _ Him j Hj). unfold kinode, slot.
  by rewrite Hc by (unfold FSSIZE; lia).
Qed.

Context (i : nat) (f : ifile) (x : inode).
Hypothesis (Hi : fs !! i = Some f) (Hx : i_addrs x = addrs_of f) (Hxd : i_dev x = dev).

Lemma used_here b : b ∈ used f -> nmeta <= b < FSSIZE.
Proof using Him Hi.
  intros Hb. pose proof (block_range s fs i f (im_area _ _ Him) Hi b Hb). pose proof (ar_free _ _ (im_area _ _ Him)). lia.
Qed.

Lemma fblock_here j : (j < length (f_blocks f))%nat -> fblock dev k x (Z.of_nat j) = f_blocks f !!! j.
Proof using Him Hc Hi Hx.
  intros Hj. pose proof (file_data s fs i f (im_area _ _ Him) Hi) as Hd. unfold fblock.
  assert (f_blocks f !! j = Some (f_blocks f !!! j)) as Hlk by by apply list_lookup_lookup_total_lt.
  pose proof (da_max _ _ Hd) as Hmax. change (Z.to_nat MAXFILE) with 140%nat in Hmax.
  destruct (Z.ltb_spec (Z.of_nat j) NDIRECT) as [Hlt|Hge]; unfold NDIRECT in *.
  - by rewrite Nat2Z.id, Hx, addrs_direct, Hlk by lia.
  - change (Z.to_nat 12) with 12%nat. rewrite Hx, addrs_ind. destruct (da_ind _ _ Hd ltac:(lia)) as [Hne Hj'].
    pose proof (used_here _ (ind_used f Hne)). rewrite Hc by (change nmeta with 59 in *; lia).
    replace (Z.of_nat j - 12) with (Z.of_nat (j - 12)) by lia. rewrite Hj' by lia.
    replace (12 + (j - 12))%nat with j by lia. by rewrite Hlk.
Qed.

Lemma mapped_here : mapped dev k [] x (Z.of_nat (length (f_bytes f))).
Proof using Him Hc Hi Hx Hs Hxd.
  pose proof (file_data s fs i f (im_area _ _ Him) Hi) as Hd.
  destruct (im_blocks _ _ Him f ltac:(by eapply list_elem_of_lookup_2)) as [Hb _].
  pose proof (file_blocks_spec (length (f_bytes f))) as Hsp. pose proof (da_max _ _ Hd) as Hmax. change (Z.to_nat MAXFILE) with 140%nat in Hmax.
  pose proof (used_nodup fs i f (area_nodup _ _ (im_area _ _ Him)) Hi) as Hn. unfold used in Hn. apply NoDup_app in Hn as (N1 & N2 & _).
  assert (forall q, 0 <= q -> q * BSIZE < Z.of_nat (length (f_bytes f)) -> exists j, q = Z.of_nat j /\ (j < length (f_blocks f))%nat) as Hq.
  { intros q Hq1 Hq2. exists (Z.to_nat q). unfold BSIZE in *. lia. }
  assert (NDIRECT * BSIZE < Z.of_nat (length (f_bytes f)) -> f_ind f <> 0) as Hind.
  { intros Hlt. unfold NDIRECT, BSIZE in *. by destruct (da_ind _ _ Hd ltac:(lia)). }
  change (Z.to_nat NDIRECT) with 12%nat in *.
  split; [done|change MAXFILE with 140; unfold BSIZE; lia| | | | |by intros y q ?%elem_of_nil]; change (Z.to_nat NDIRECT) with 12%nat.
  - intros q Hq1 Hq2. destruct (Hq q Hq1 Hq2) as (j & -> & Hj). rewrite fblock_here by done.
    pose proof (used_here _ (block_used f j Hj)) as Hr. change nmeta with 59 in Hr. split_and!; [lia|apply Hs; lia|].
    rewrite Hc by lia. apply (ar_block _ _ (im_area _ _ Him)). lia.
  - intros Hlt. cbn zeta. rewrite Hx, addrs_ind. pose proof (used_here _ (ind_used f (Hind Hlt))) as Hr. change nmeta with 59 in Hr.
    split; [by apply Hind|apply Hs; lia].
  - intros q q' Q1 Q2 Q3 Q4. destruct (Hq q Q1 Q2) as (j & -> & Hj), (Hq q' Q3 Q4) as (j' & -> & Hj'). rewrite !fblock_here by done.
    intros E. f_equal. apply (NoDup_lookup (f_blocks f) j j' (f_blocks f !!! j) N1); [|rewrite E]; by apply list_lookup_lookup_total_lt.
  - intros q Q1 Q2 Hlt E. destruct (Hq q Q1 Q2) as (j & -> & Hj). rewrite fblock_here, Hx, addrs_ind in E by done.
    apply (N2 (f_blocks f !!! j)); [apply list_elem_of_lookup_2 with j; by apply list_lookup_lookup_total_lt|].
    rewrite decide_False by by apply Hind. rewrite E. by apply list_elem_of_singleton.
Qed.

Lemma fbyte_here o : (o < length (f_bytes f))%nat -> fbyte dev k x (Z.of_nat o) = f_bytes f !!! o.
Proof using Him Hc Hi Hx.
  intros Ho. pose proof (file_data s fs i f (im_area _ _ Him) Hi) as Hd. unfold fbyte.
  pose proof (Nat.div_mod o 512 ltac:(done)) as Hdm. pose proof (Nat.mod_upper_bound o 512 ltac:(done)) as Hub.
  pose proof (da_fits _ _ Hd) as Hfit. assert (o / 512 < length (f_blocks f))%nat as Hj by lia.
  change BSIZE with (Z.of_nat 512). rewrite <- Nat2Z.inj_div, <- Nat2Z.inj_mod, Nat2Z.id. rewrite fblock_here by done.
  pose proof (used_here _ (block_used f _ Hj)) as Hr. change nmeta with 59 in Hr. rewrite Hc by lia.
  rewrite (da_byte _ _ Hd) by done. rewrite <- Hdm. by rewrite (list_lookup_lookup_total_lt _ _ Ho).
Qed.

Lemma fbytes_here o n : (o + n <= length (f_bytes f))%nat -> fbytes dev k x (Z.of_nat o) n = take n (drop o (f_bytes f)).
Proof using Him Hc Hi Hx.
  intros Hn. assert (length (take n (drop o (f_bytes f))) = n) as Hl by (rewrite length_take, length_drop; lia).
  rewrite <- (map_id (take n _)), <- (map_seq_lookup (fun c => c) _ n Hl). unfold fbytes. apply map_ext_in.
  intros q Hq. apply in_seq in Hq. rewrite <- Nat2Z.inj_add, fbyte_here by lia.
  rewrite !list_lookup_total_alt, lookup_take_lt, lookup_drop by lia. done.
Qed.
End Kernel.

(** ** [main] *)

Definition dir_bytes (args : list arg) : list Z := dirent_bytes [46] 1 ++ dirent_bytes [46; 46] 1 ++ entries 2 args.
Definition root_bytes (args : list arg) : list Z := dir_bytes args ++ replicate (padding (length (dir_bytes args))) 0.

(** Arguments that fit: the files are there, and there are blocks and inodes
    for them; the entries of the root do not fill their last block. *)
Record args_ok (args : list arg) : Prop := {
  ao_arg : Forall arg_ok args;
  ao_count : (length args <= 198)%nat;
  ao_room : ((2 + length args) mod 32 <> 0)%nat;
  ao_space : Z.of_nat (total ((T_DIR, dir_bytes args) :: arg_files args)) <= nblocks }.

Lemma length_entries n args : length (entries n args) = (16 * length args)%nat.
Proof. revert n. induction args as [|a args IH]; intros n; [done|]. cbn [entries length]. rewrite length_app, length_dirent, IH. change (Z.to_nat DIRENT_SIZE) with 16%nat. lia. Qed.

Lemma length_dir args : length (dir_bytes args) = (16 * (2 + length args))%nat.
Proof. unfold dir_bytes. rewrite !length_app, !length_dirent, length_entries. change (Z.to_nat DIRENT_SIZE) with 16%nat. lia. Qed.

Lemma main_image args : args_ok args -> exists s fs, main args mkfs_start = Ret tt s /\ image s fs /\
  map content_of fs = (T_DIR, root_bytes args) :: arg_files args /\
  freeblock s = nmeta + Z.of_nat (total ((T_DIR, dir_bytes args) :: arg_files args)) /\
  mk_img s (sb_bmapstart sb) = used_map (Z.to_nat (freeblock s)).
Proof.
  intros [Hok Hcnt Hroom Hsp]. destruct start_ok as (s0 & s1 & E0 & E1 & H1). unfold main. mstep (modify_eq (set_freeblock nmeta) mkfs_start). mstep E0. mstep E1.
  destruct (built_ialloc s1 [] T_DIR H1 ltac:(cbn; lia) ltac:(done)) as (s2 & E2 & H2). mstep E2.
  change (Z.of_nat (S (length []))) with 1. change (1 =? ROOTINO) with true. cbn match. rewrite bind_ret_l.
  change (root_dirent 1 [46]) with (dirent_bytes [46] 1). change (root_dirent 1 [46; 46]) with (dirent_bytes [46; 46] 1).
  destruct (built_iappend s2 [(T_DIR, [])] 0 T_DIR [] (dirent_bytes [46] 1) H2 eq_refl) as (s3 & E3 & H3);
    [rewrite length_app, length_dirent; change (Z.to_nat DIRENT_SIZE) with 16%nat; cbn [length]; lia|by vm_compute|].
  change (Z.of_nat 1) with 1 in E3. mstep E3.
  destruct (built_iappend s3 _ 0 T_DIR _ (dirent_bytes [46; 46] 1) H3 eq_refl) as (s4 & E4 & H4);
    [rewrite !length_app, !length_dirent; change (Z.to_nat DIRENT_SIZE) with 16%nat; cbn [length]; lia|by vm_compute|].
  change (Z.of_nat 1) with 1 in E4. mstep E4. cbn [insert list_insert app] in H4.
  destruct (add_files args s4 _ [] H4 ltac:(cbn; lia) Hok) as (s5 & E5 & H5).
  { rewrite length_app, !length_dirent. change (Z.to_nat DIRENT_SIZE) with 16%nat. lia. }
  { rewrite <- app_assoc. exact Hsp. }
  rewrite <- app_assoc in H5. cbn [length app] in H5. fold (dir_bytes args) in H5. mstep E5.
  destruct H5 as (fs & Him & Hfs & Hfree). destruct fs as [|f fs]; [done|]. injection Hfs as Ht Hb Hfs.
  change 1 with (Z.of_nat 1). mstep (rinode_ok s5 (f :: fs) 0 Him ltac:(lia)). cbn [lookup list_lookup fmap option_fmap option_map from_option id].
  change (i_size (inode_of f)) with (Z.of_nat (length (f_bytes f))).
  pose proof (length_dir args) as Hl. rewrite <- Hb in Hl.
  assert (length (f_bytes f) mod 512 <> 0)%nat as Hmod.
  { rewrite Hl. change 512%nat with (16 * 32)%nat. rewrite Nat.Div0.mul_mod_distr_l by done. lia. }
  assert (length (f_bytes f) + padding (length (f_bytes f)) <= 512 * 140)%nat as Hpad.
  { unfold padding. pose proof (Nat.div_mod (length (f_bytes f)) 512 ltac:(done)). lia. }
  destruct (image_pad s5 (f :: fs) 0 f Him eq_refl Hmod Hpad) as (s6 & E6 & H6 & F6 & _).
  rewrite (xint_small (Z.of_nat (length (f_bytes f)))) by lia. mstep E6. mrun.
  destruct (balloc_ok s6 _ H6) as (s7 & E7 & H7 & F7 & B7).
  eexists s7, _. split_and!; [exact E7|exact H7| |by rewrite F7, F6|by rewrite F7, B7].
  change ((f_type f, f_bytes f ++ replicate (padding (length (f_bytes f))) 0) :: map content_of fs = (T_DIR, root_bytes args) :: arg_files args).
  unfold root_bytes. by rewrite Ht, Hb, Hfs.
Qed.

(** ** What the kernel finds *)

Definition blocks_used (args : list arg) : Z := Z.of_nat (total ((T_DIR, dir_bytes args) :: arg_files args)).

(** The state [k] of a kernel whose disk [dev] has the files [args] in its root:
    their inodes and bytes, the directory, and the free map. *)
Record holds_files {D : DiskDriver} (k : kstate) (dev : Z) (x0 : inode) (args : list arg) : Prop := {
  hf_super : superblock_of (content k dev 1) = sb;
  hf_file j a : args !! j = Some a -> let x := kinode k dev x0 (Z.of_nat (2 + j)) in
    i_type x = T_FILE /\ i_nlink x = 1 /\ i_size x = Z.of_nat (length (arg_bytes a)) /\
    mapped dev k [] x (i_size x) /\ fbytes dev k x 0 (length (arg_bytes a)) = arg_bytes a;
  hf_root : directory dev k [] (kinode k dev x0 ROOTINO) /\ i_nlink (kinode k dev x0 ROOTINO) = 1;
  hf_dot : dent dev k (kinode k dev x0 ROOTINO) 0 = dirent_bytes [46] ROOTINO;
  hf_dotdot : dent dev k (kinode k dev x0 ROOTINO) 1 = dirent_bytes [46; 46] ROOTINO;
  hf_entry j a : args !! j = Some a ->
    dent dev k (kinode k dev x0 ROOTINO) (2 + j) = dirent_bytes (skip_underscore (fst a)) (Z.of_nat (2 + j));
  hf_rest j : (2 + length args <= j < dir_len (kinode k dev x0 ROOTINO))%nat ->
    in_use dev k (kinode k dev x0 ROOTINO) j = false;
  hf_block i q : (i <= length args)%nat -> let x := kinode k dev x0 (Z.of_nat (S i)) in
    0 <= q -> q * BSIZE < i_size x -> nmeta <= fblock dev k x q < nmeta + blocks_used args;
  hf_apart i q i' q' : (i <= length args)%nat -> (i' <= length args)%nat -> i <> i' ->
    let x := kinode k dev x0 (Z.of_nat (S i)) in let x' := kinode k dev x0 (Z.of_nat (S i')) in
    0 <= q -> q * BSIZE < i_size x -> 0 <= q' -> q' * BSIZE < i_size x' -> fblock dev k x q <> fblock dev k x' q';
  hf_map b : 0 <= b < FSSIZE ->
    bit_used (content k dev (BBLOCK b sb)) (b mod BPB) = bool_decide (b < nmeta + blocks_used args);
  hf_free inum : Z.of_nat (2 + length args) <= inum < NINODES -> i_type (kinode k dev x0 inum) = 0 }.

(** Entry [j] of a list of entries. *)
Lemma entry_nth args : forall n j a rest, args !! j = Some a ->
  take 16 (drop (16 * j) (entries n args ++ rest)) = dirent_bytes (skip_underscore (fst a)) (Z.of_nat (n + j)).
Proof.
  induction args as [|b args IH]; intros n j a rest Hj; [done|]. cbn [entries].
  assert (forall name i, length (dirent_bytes name i) = 16%nat) as Hl by (intros; apply length_dirent).
  destruct j as [|j].
  - injection Hj as ->. rewrite Nat.add_0_r, Nat.mul_0_r, drop_0, <- app_assoc.
    rewrite <- (Hl (skip_underscore (fst a)) (Z.of_nat n)) at 1. apply take_app_length.
  - rewrite <- app_assoc. replace (16 * S j)%nat with (length (dirent_bytes (skip_underscore (fst b)) (Z.of_nat n)) + 16 * j)%nat by (rewrite Hl; lia).
    rewrite <- drop_drop, drop_app_length, (IH (S n) j a rest Hj). do 2 f_equal. lia.
Qed.

Lemma root_entry args j a : args !! j = Some a ->
  take 16 (drop (16 * (2 + j)) (root_bytes args)) = dirent_bytes (skip_underscore (fst a)) (Z.of_nat (2 + j)).
Proof.
  intros Hj. unfold root_bytes, dir_bytes. rewrite <- !app_assoc. replace (16 * (2 + j))%nat with (16 + (16 + 16 * j))%nat by lia.
  rewrite <- !drop_drop. rewrite (drop_app_length' (dirent_bytes [46] 1)), (drop_app_length' (dirent_bytes [46; 46] 1)) by (by rewrite length_dirent).
  by apply entry_nth.
Qed.

Lemma root_rest args j : (2 + length args <= j)%nat -> exists n, take 16 (drop (16 * j) (root_bytes args)) = replicate n 0.
Proof.
  intros Hj. unfold root_bytes. rewrite drop_app_ge by (rewrite length_dir; lia). rewrite drop_replicate, take_replicate. by eexists.
Qed.

Lemma entries_bytes args : forall n, Forall arg_ok args -> bytes_ok (entries n args).
Proof.
  induction args as [|a args IH]; intros n Hok; cbn [entries]; [constructor|]. apply Forall_cons in Hok as [(Hb & _) Hok].
  apply Forall_app. split; [|by apply IH]. apply dirent_bytes_ok. unfold skip_underscore. repeat case_match; try done. by inversion Hb.
Qed.

Lemma root_bytes_ok args : Forall arg_ok args -> bytes_ok (root_bytes args).
Proof.
  intros Hok. unfold root_bytes, dir_bytes. rewrite <- !app_assoc. apply Forall_app; split; [|apply Forall_app; split; [|apply Forall_app; split]].
  - apply dirent_bytes_ok. repeat constructor; lia.
  - apply dirent_bytes_ok. repeat constructor; lia.
  - by apply entries_bytes.
  - by apply Forall_replicate.
Qed.

Lemma length_root args : (length (root_bytes args) = 512 * (16 * (2 + length args) / 512 + 1))%nat.
Proof.
  unfold root_bytes, padding. rewrite length_app, length_replicate, length_dir.
  pose proof (Nat.div_mod (16 * (2 + length args)) 512 ltac:(done)). pose proof (Nat.mod_upper_bound (16 * (2 + length args)) 512 ltac:(done)). lia.
Qed.

Section Found.
Context {D : DiskDriver} (k : kstate) (dev : Z) (x0 : inode) (args : list arg) (s : mkfs) (fs : list ifile).
Hypothesis (Hargs : args_ok args) (Him : image s fs) (Hx0 : i_dev x0 = dev).
Hypothesis Hfs : map content_of fs = (T_DIR, root_bytes args) :: arg_files args.
Hypothesis Hfree : freeblock s = nmeta + blocks_used args.
Hypothesis Hmap : mk_img s (sb_bmapstart sb) = used_map (Z.to_nat (freeblock s)).
Hypothesis Hc : forall b, 0 <= b < FSSIZE -> content k dev b = mk_img s b.
Hypothesis Hs : forall b, 0 <= b < FSSIZE -> disk_serves dev b (k_disksize k) = true.

Local Abbreviation inode_at i := (kinode k dev x0 (Z.of_nat (S i))).

Lemma fs_length : length fs = S (length args).
Proof using Hfs. pose proof (f_equal length Hfs) as E. unfold arg_files in E. cbn [length] in E. by rewrite !length_map in E. Qed.

(** File [i] of the image. *)
Lemma file_at i c : ((T_DIR, root_bytes args) :: arg_files args) !! i = Some c -> exists f,
  fs !! i = Some f /\ f_type f = fst c /\ f_bytes f = snd c /\ inode_at i = copy_dinode (inode_of f) x0.
Proof using Him Hfs Hc Hargs.
  intros Hi. rewrite <- Hfs, list_lookup_fmap in Hi. apply fmap_Some in Hi as (f & Hf & ->).
  exists f. split_and!; [done..|]. pose proof (lookup_lt_Some _ _ _ Hf) as Hlt. pose proof (ao_count _ Hargs). rewrite fs_length in Hlt.
  rewrite (kinode_ok k dev s fs x0 Him Hc) by lia. by rewrite Hf.
Qed.

Lemma found_blocks i q : (i <= length args)%nat -> 0 <= q -> q * BSIZE < i_size (inode_at i) ->
  exists f, fs !! i = Some f /\ fblock dev k (inode_at i) q ∈ used f.
Proof using Him Hfs Hc Hargs.
  intros Hi Hq Hlt. destruct (((T_DIR, root_bytes args) :: arg_files args) !! i) as [c|] eqn:E.
  - destruct (file_at i c E) as (f & Hf & _ & _ & Hx). exists f. split; [done|].
    rewrite Hx in Hlt |- *. change (q * BSIZE < Z.of_nat (length (f_bytes f))) in Hlt.
    pose proof (file_data s fs i f (im_area _ _ Him) Hf) as Hd. pose proof (da_fits _ _ Hd).
    replace q with (Z.of_nat (Z.to_nat q)) by lia. unfold BSIZE in Hlt.
    rewrite (fblock_here k dev s fs Him Hc i f); [apply block_used; lia|done|done|lia].
  - apply lookup_ge_None in E. cbn [length] in E. unfold arg_files in E. rewrite length_map in E. lia.
Qed.

Lemma found_file j a : args !! j = Some a -> let x := kinode k dev x0 (Z.of_nat (2 + j)) in
  i_type x = T_FILE /\ i_nlink x = 1 /\ i_size x = Z.of_nat (length (arg_bytes a)) /\
  mapped dev k [] x (i_size x) /\ fbytes dev k x 0 (length (arg_bytes a)) = arg_bytes a.
Proof using Him Hfs Hc Hargs Hs Hx0.
  intros Hj. destruct (file_at (S j) (T_FILE, arg_bytes a)) as (f & Hf & T & B & Hx).
  { change (((fun b => (T_FILE, arg_bytes b)) <$> args) !! j = Some (T_FILE, arg_bytes a)). by rewrite list_lookup_fmap, Hj. }
  cbn [fst snd] in T, B. cbn zeta. change (2 + j)%nat with (S (S j)). rewrite Hx, <- B. split_and!; [exact T|done|done| |].
  - by apply (mapped_here k dev s fs Him Hc Hs (S j) f).
  - change 0 with (Z.of_nat 0). rewrite (fbytes_here k dev s fs Him Hc (S j) f) by done. by rewrite drop_0, firstn_all.
Qed.

(** The root directory. *)
Lemma found_root : exists f, fs !! 0%nat = Some f /\ f_bytes f = root_bytes args /\
  kinode k dev x0 ROOTINO = copy_dinode (inode_of f) x0 /\
  directory dev k [] (kinode k dev x0 ROOTINO) /\ (16 * dir_len (kinode k dev x0 ROOTINO) = length (root_bytes args))%nat.
Proof using Him Hfs Hc Hargs Hs Hx0.
  destruct (file_at 0 _ eq_refl) as (f & Hf & T & B & Hx). change (Z.of_nat 1) with ROOTINO in Hx. exists f. rewrite Hx.
  cbn [fst snd] in T, B. pose proof (length_root args) as Hl.
  set (x := copy_dinode _ x0). assert (i_size x = Z.of_nat (length (root_bytes args))) as Hsz by (cbn; by rewrite B).
  assert (dir_len x = (length (root_bytes args) / 16)%nat) as Hdl.
  { unfold dir_len. rewrite Hsz. change DIRENT_SIZE with (Z.of_nat 16). by rewrite <- Nat2Z.inj_div, Nat2Z.id. }
  assert (16 * dir_len x = length (root_bytes args))%nat as Hdir.
  { rewrite Hdl, Hl. set (q := (_ / 512 + 1)%nat). replace (512 * q)%nat with (32 * q * 16)%nat by lia. rewrite Nat.div_mul by done. lia. }
  split_and!; try done. split.
  - rewrite Hsz, <- B. by apply (mapped_here k dev s fs Him Hc Hs 0 f).
  - exact T.
  - rewrite Hsz. unfold DIRENT_SIZE. lia.
  - intros o Ho. rewrite Hsz in Ho. replace o with (Z.of_nat (Z.to_nat o)) by lia.
    rewrite (fbyte_here k dev s fs Him Hc 0 f) by (try done; rewrite B; lia). rewrite B.
    apply (Forall_lookup_total_1 (fun c => 0 <= c < 256)); [apply root_bytes_ok, Hargs|lia].
Qed.

Lemma found_dent j : (j < dir_len (kinode k dev x0 ROOTINO))%nat ->
  dent dev k (kinode k dev x0 ROOTINO) j = take 16 (drop (16 * j) (root_bytes args)).
Proof using Him Hfs Hc Hargs Hs Hx0.
  intros Hj. destruct found_root as (f & Hf & B & Hx & _ & Hlen). unfold dent. change (Z.to_nat DIRENT_SIZE) with 16%nat.
  replace (DIRENT_SIZE * Z.of_nat j) with (Z.of_nat (16 * j)) by (unfold DIRENT_SIZE; lia).
  rewrite (fbytes_here k dev s fs Him Hc 0 f); [by rewrite B|done|by rewrite Hx|rewrite B; lia].
Qed.

Lemma found : holds_files k dev x0 args.
Proof using Him Hfs Hc Hargs Hs Hx0 Hfree Hmap.
  destruct found_root as (f & Hf & B & Hx & Hdir & Hlen). pose proof (length_root args) as Hl.
  pose proof (Nat.div_mod (16 * (2 + length args)) 512 ltac:(done)) as Hdm. pose proof (Nat.mod_upper_bound (16 * (2 + length args)) 512 ltac:(done)).
  pose proof (im_area _ _ Him) as Ha. split.
  - rewrite Hc by done. apply Him.
  - apply found_file.
  - split; [done|]. by rewrite Hx.
  - by rewrite found_dent by lia.
  - by rewrite found_dent by lia.
  - intros j a Hj. pose proof (lookup_lt_Some _ _ _ Hj). rewrite found_dent by lia. by apply root_entry.
  - intros j Hj. unfold in_use. rewrite found_dent by lia. destruct (root_rest args j ltac:(lia)) as [n ->].
    by do 2 (destruct n as [|n]; [done|]).
  - intros i q Hi x Hq Hlt. destruct (found_blocks i q Hi Hq Hlt) as (g & Hg & Hu). rewrite <- Hfree. by apply (block_range s fs i g).
  - intros i q i' q' Hi Hi' Hne x x' Q1 Q2 Q3 Q4 E.
    destruct (found_blocks i q Hi Q1 Q2) as (g & Hg & Hu), (found_blocks i' q' Hi' Q3 Q4) as (g' & Hg' & Hu').
    apply Hne. apply (used_once fs i i' g g' _ (area_nodup _ _ Ha) Hg Hg' Hu). unfold x, x' in E. by rewrite E.
  - intros b Hb. pose proof (ar_free _ _ Ha) as Hfr. unfold FSSIZE in *. unfold BBLOCK. change BPB with 4096.
    rewrite (Z.div_small b 4096), (Z.mod_small b 4096) by lia. rewrite Z.add_0_l, Hc, Hmap by done.
    rewrite (proj2 (used_map_spec (Z.to_nat (freeblock s)) ltac:(lia))) by (change BPB with 4096; lia). rewrite Hfree. apply bool_decide_ext.
    change nmeta with 59 in *. lia.
  - intros inum Hi. unfold NINODES in Hi. replace inum with (Z.of_nat (S (Z.to_nat (inum - 1)))) by lia.
    rewrite (kinode_ok k dev s fs x0 Him Hc) by lia. rewrite lookup_ge_None_2 by (rewrite fs_length; lia). done.
Qed.
End Found.

(** C23: mkfs.c builds an image that holds its files.  For arguments that can be read
    and fit, [main] ends without an error, and a kernel whose disk has the image's
    blocks finds the superblock, an inode for each argument with the type of a
    file and one link, mapped and with exactly the bytes that were read; the root
    is a directory whose entries are [.], [..] and the arguments' names without a
    leading underscore, the others not in use; no two files share a block; the
    free map has exactly the blocks in use, and the other inodes are free. *)
Theorem main_builds args : args_ok args -> exists s, main args mkfs_start = Ret tt s /\ mk_len s = FSSIZE /\
  forall (D : DiskDriver) (k : kstate) (dev : Z) (x0 : inode), i_dev x0 = dev ->
    (forall b, 0 <= b < FSSIZE -> content k dev b = mk_img s b) ->
    (forall b, 0 <= b < FSSIZE -> disk_serves dev b (k_disksize k) = true) -> holds_files k dev x0 args.
Proof.
  intros Hargs. destruct (main_image args Hargs) as (s & fs & E & Him & Hfs & Hfree & Hmap). exists s.
  split_and!; [done|apply (ar_len _ _ (im_area _ _ Him))|]. intros D k dev x0 Hx0 Hc Hs. by apply (found k dev x0 args s fs).
Qed.

(** Two files: one of a block and a half, read in pieces, with an underscore in
    front of its name, and an empty one. *)
Definition demo_args : list arg :=
  [([95; 99; 97; 116], Some [replicate 512 7; replicate 256 8]); ([82; 69; 65; 68; 77; 69], Some [])].

(** A kernel that has booted from the image [s]. *)
Definition demo_booted (s : mkfs) : kstate :=
  set_k_disksize FSSIZE (set_k_disk (fun _ => mk_img s) (demo_kernel [] [])).

Lemma main_builds_witness : exists s, main demo_args mkfs_start = Ret tt s /\
  holds_files (D := memide) (demo_booted s) 1 (set_i_dev 1 no_inode) demo_args.
Proof.
  destruct (main_builds demo_args) as (s & E & _ & H).
  - split; [|cbn; lia|done|by vm_compute].
    unfold demo_args. apply List.Forall_cons; [|apply List.Forall_cons; [|apply List.Forall_nil]]; (split_and!;
      [repeat (apply List.Forall_cons; [lia|]); apply List.Forall_nil|cbn [fst]; rewrite !elem_of_cons, elem_of_nil; lia|by eexists|by apply Nat.leb_le]).
  - exists s. split; [exact E|]. apply H; [reflexivity|intros b Hb; reflexivity|].
    intros b Hb. unfold disk_serves, memide, memide_serves. cbn [andb Z.eqb Pos.eqb]. apply Z.ltb_lt, Hb.
Defined.
