(* ===== verification/File.v ===== *)
(** Open files, file.c, and [pipealloc] of pipe.c.

    A [struct file *] is an index into [ftable.file]. *)

From stdpp Require Import base list sets strings.
From Stdlib Require Import ZArith Lia.
From S2P Require Import Prelude State CString Sched Kalloc Vm SysArgs Pipe Sleeplock.
From S2P Require Import Disk Bio Log Fs.

Open Scope kernel_scope.

(** ** The file table *)

(** The first entry with no references. *)
Definition ftable_free (tbl : list file) : option nat :=
  fst <$> list_find (fun f => f_ref f = 0) tbl.

Definition filealloc : K (option nat) :=
  acquire L_ftable ;;;
  tbl <- gets k_ftable ;;
  match ftable_free tbl with
  | Some f =>
    modify (upd_file f (set_f_ref 1)) ;;;
    release L_ftable ;;;
    ret (Some f)
  | None => release L_ftable ;;; ret None
  end.

Definition filedup (f : nat) : K nat :=
  acquire L_ftable ;;;
  ref <- gets (fun s => f_ref (files s f)) ;;
  if ref <? 1 then panic "filedup" else
  modify (upd_file f (fun x => set_f_ref (f_ref x + 1) x)) ;;;
  release L_ftable ;;;
  ret f.

Section File.
Context {D : DiskDriver} {V : DevSw}.

Definition fileclose (f : nat) : K unit :=
  acquire L_ftable ;;;
  ref <- gets (fun s => f_ref (files s f)) ;;
  if ref <? 1 then panic "fileclose" else
  modify (upd_file f (fun x => set_f_ref (f_ref x - 1) x)) ;;;
  ff <- gets (fun s => files s f) ;;
  if 0 <? f_ref ff then release L_ftable else
  modify (upd_file f (fun x => set_f_type FD_NONE (set_f_ref 0 x))) ;;;
  release L_ftable ;;;
  match f_type ff with
  | FD_PIPE => pipeclose (f_pipe ff) (f_writable ff)
  | FD_INODE =>
    begin_op ;;;
    match f_ip ff with Some ip => iput ip | None => panic "trap" end ;;;
    end_op
  | FD_NONE => ret tt
  end.

(** [f->ip] dereferenced. *)
Definition file_ip (f : nat) : K nat :=
  ip <- gets (fun s => f_ip (files s f)) ;;
  match ip with Some ip => ret ip | None => panic "trap" end.

Definition filestat (f : nat) (st : Z) : K Z :=
  type <- gets (fun s => f_type (files s f)) ;;
  match type with
  | FD_INODE =>
    ip <- file_ip f ;;
    ilock ip ;;;
    stati ip st ;;;
    iunlock ip ;;;
    ret 0
  | _ => ret (-1)
  end.

(** [f->off += r] when [r > 0]. *)
Definition advance (f : nat) (r : Z) : K unit :=
  if 0 <? r then modify (upd_file f (fun x => set_f_off (u32 (f_off x + r)) x))
  else ret tt.

Definition fileread (f : nat) (addr n : Z) : K Z :=
  x <- gets (fun s => files s f) ;;
  if negb (f_readable x) then ret (-1) else
  match f_type x with
  | FD_PIPE => piperead (f_pipe x) addr n
  | FD_INODE =>
    ip <- file_ip f ;;
    ilock ip ;;;
    off <- gets (fun s => f_off (files s f)) ;;
    r <- readi user_sink addr ip off (u32 n) ;;
    advance f (fst r) ;;;
    iunlock ip ;;;
    ret (fst r)
  | FD_NONE => panic "fileread"
  end.

(** The most bytes one transaction writes. *)
Definition write_max : Z := (MAXOPBLOCKS - 1 - 1 - 2) / 2 * 512.

(** The loop of [filewrite] from byte [i]; each round writes at least one byte
    or ends it. *)
Fixpoint filewrite_loop (f : nat) (addr n i : Z) (k : nat) : K Z :=
  match k with
  | O => spin
  | S k =>
    if i <? n then
      let n1 := Z.min (n - i) write_max in
      begin_op ;;;
      ip <- file_ip f ;;
      ilock ip ;;;
      off <- gets (fun s => f_off (files s f)) ;;
      r <- writei (user_source (addr + i)) ip off n1 ;;
      advance f r ;;;
      iunlock ip ;;;
      end_op ;;;
      if r <? 0 then ret (if i =? n then n else -1) else
      if negb (r =? n1) then panic "short filewrite" else
      filewrite_loop f addr n (i + r) k
    else ret (if i =? n then n else -1)
  end.

Definition filewrite (f : nat) (addr n : Z) : K Z :=
  x <- gets (fun s => files s f) ;;
  if negb (f_writable x) then ret (-1) else
  match f_type x with
  | FD_PIPE => pipewrite (f_pipe x) addr n
  | FD_INODE => filewrite_loop f addr n 0 (Z.to_nat (n / write_max + 2))
  | FD_NONE => panic "filewrite"
  end.

(** ** [pipealloc] *)

(** The files made so far are closed on the way out. *)
Definition pipealloc_bad (f0 f1 : option nat) (p : Z) : K (option (nat * nat)) :=
  (if p =? 0 then ret tt else kfree p) ;;;
  (match f0 with Some f => fileclose f | None => ret tt end) ;;;
  (match f1 with Some f => fileclose f | None => ret tt end) ;;;
  ret None.

Definition pipealloc : K (option (nat * nat)) :=
  f0 <- filealloc ;;
  match f0 with
  | None => pipealloc_bad None None 0
  | Some g0 =>
    f1 <- filealloc ;;
    match f1 with
    | None => pipealloc_bad f0 None 0
    | Some g1 =>
      p <- kalloc ;;
      if p =? 0 then pipealloc_bad f0 f1 0 else
      modify (upd_pipe p (fun pi =>
        set_pi_nread 0 (set_pi_nwrite 0 (set_pi_writeopen true (set_pi_readopen true pi))))) ;;;
      modify (upd_file g0 (fun x => set_f_pipe p (set_f_writable false
        (set_f_readable true (set_f_type FD_PIPE x))))) ;;;
      modify (upd_file g1 (fun x => set_f_pipe p (set_f_writable true
        (set_f_readable false (set_f_type FD_PIPE x))))) ;;;
      ret (Some (g0, g1))
    end
  end.
End File.
