(* ===== verification/Exec.v ===== *)
(** Running a program: [exec] of exec.c and [loaduvm] of vm.c. *)

From stdpp Require Import base list sets strings.
From Stdlib Require Import ZArith Lia.
From S2P Require Import Prelude State CString Sched Cons Kalloc Vm SysArgs Sleeplock.
From S2P Require Import Disk Bio Log Fs.

Open Scope kernel_scope.

(** ** ELF headers *)

Definition ELF_MAGIC : Z := 0x464C457F.
Definition ELF_PROG_LOAD : Z := 1.
Definition ELFHDR_SIZE : Z := 52.
Definition PROGHDR_SIZE : Z := 32.

(** The fields [exec] uses of [struct elfhdr] and [struct proghdr]. *)
Definition elf_magic (h : list Z) : Z := get32 h 0.
Definition elf_entry (h : list Z) : Z := get32 h 24.
Definition elf_phoff (h : list Z) : Z := get32 h 28.
Definition elf_phnum (h : list Z) : Z := get16 h 44.
Definition ph_type (h : list Z) : Z := get32 h 0.
Definition ph_off (h : list Z) : Z := get32 h 4.
Definition ph_vaddr (h : list Z) : Z := get32 h 8.
Definition ph_filesz (h : list Z) : Z := get32 h 16.
Definition ph_memsz (h : list Z) : Z := get32 h 20.

Section Exec.
Context {D : DiskDriver} {V : DevSw}.

(** A page of kernel memory as the destination of [readi]. *)
Definition page_sink : sink Z :=
  fun v bs => modify (store_bytes v bs) ;;; ret (v + Z.of_nat (length bs)).

Fixpoint loaduvm_loop (pgdir addr : Z) (ip : nat) (offset sz i : Z) (k : nat) : K Z :=
  match k with
  | O => spin
  | S k =>
    if i <? sz then
      pte <- walkpgdir pgdir (u32 (addr + i)) false ;;
      if pte =? 0 then panic "loaduvm: address should exist" else
      e <- gets (load32 pte) ;;
      let pa := PTE_ADDR e in
      let n := if sz - i <? PGSIZE then sz - i else PGSIZE in
      r <- readi page_sink (P2V pa) ip (u32 (offset + i)) n ;;
      if negb (fst r =? n) then ret (-1) else
      loaduvm_loop pgdir addr ip offset sz (i + PGSIZE) k
    else ret 0
  end.

Definition loaduvm (pgdir addr : Z) (ip : nat) (offset sz : Z) : K Z :=
  if negb (addr mod PGSIZE =? 0) then panic "loaduvm: addr must be page aligned" else
  loaduvm_loop pgdir addr ip offset sz 0 (Z.to_nat (sz / PGSIZE + 2)).

(** The loop over the program headers: the new size, [None] for [goto bad]. *)
Fixpoint exec_load (pgdir : Z) (ip : nat) (off sz : Z) (k : nat) : K (option Z) :=
  match k with
  | O => ret (Some sz)
  | S k =>
    r <- readi kern_sink [] ip off PROGHDR_SIZE ;;
    if negb (fst r =? PROGHDR_SIZE) then ret None else
    let ph := snd r in
    if negb (ph_type ph =? ELF_PROG_LOAD)
    then exec_load pgdir ip (u32 (off + PROGHDR_SIZE)) sz k else
    if ph_memsz ph <? ph_filesz ph then ret None else
    if u32 (ph_vaddr ph + ph_memsz ph) <? ph_vaddr ph then ret None else
    sz <- allocuvm pgdir sz (u32 (ph_vaddr ph + ph_memsz ph)) ;;
    if sz =? 0 then ret None else
    if negb (ph_vaddr ph mod PGSIZE =? 0) then ret None else
    r <- loaduvm pgdir (ph_vaddr ph) ip (ph_off ph) (ph_filesz ph) ;;
    if r <? 0 then ret None else
    exec_load pgdir ip (u32 (off + PROGHDR_SIZE)) sz k
  end.

(** The loop that pushes the argument strings: the stack pointer and the
    pointers pushed, [None] for [goto bad]. *)
Fixpoint exec_push (pgdir sp argc : Z) (argv : list (list Z)) (ustack : list Z)
    : K (option (Z * list Z)) :=
  match argv with
  | [] => ret (Some (sp, ustack))
  | arg :: argv =>
    if MAXARG <=? argc then ret None else
    let sp := Z.land (u32 (sp - (Z.of_nat (length arg) + 1))) (u32 (Z.lnot 3)) in
    r <- copyout pgdir sp (arg ++ [0]) ;;
    if r <? 0 then ret None else
    exec_push pgdir sp (argc + 1) argv (ustack ++ [sp])
  end.

(** The part of the path after the last slash. *)
Definition last_elem (path : list Z) : list Z :=
  List.fold_left (fun last c => if c =? 47 then [] else last ++ [c]) path [].

Definition exec_bad (pgdir : Z) (ip : option nat) : K Z :=
  (if pgdir =? 0 then ret tt else freevm pgdir) ;;;
  (match ip with
   | Some ip => iunlockput ip ;;; end_op
   | None => ret tt
   end) ;;;
  ret (-1).

(** From the user stack on: the file is closed. *)
Definition exec_stack (p : nat) (path : list Z) (argv : list (list Z)) (entry pgdir sz : Z) : K Z :=
  let sz := PGROUNDUP sz in
  sz <- allocuvm pgdir sz (u32 (sz + 2 * PGSIZE)) ;;
  if sz =? 0 then exec_bad pgdir None else
  clearpteu pgdir (u32 (sz - 2 * PGSIZE)) ;;;
  r <- exec_push pgdir sz 0 argv [] ;;
  match r with
  | None => exec_bad pgdir None
  | Some (sp, ptrs) =>
    let argc := Z.of_nat (length ptrs) in
    let ustack := [0xffffffff; argc; u32 (sp - (argc + 1) * 4)] ++ ptrs ++ [0] in
    let sp := u32 (sp - (3 + argc + 1) * 4) in
    r <- copyout pgdir sp (concat (map le32 ustack)) ;;
    if r <? 0 then exec_bad pgdir None else
    oldpgdir <- gets (fun s => p_pgdir (procs s p)) ;;
    modify (upd_proc p (fun x =>
      set_p_tf (set_tf_esp sp (set_tf_eip entry (p_tf x)))
        (set_p_sz sz (set_p_pgdir pgdir
          (set_p_name (safestrcpy (p_name x) (arr (last_elem path)) 16) x))))) ;;;
    switchuvm (Some p) ;;;
    freevm oldpgdir ;;;
    ret 0
  end.

Definition exec (path : list Z) (argv : list (list Z)) : K Z :=
  p <- curproc ;;
  begin_op ;;;
  ip <- namei path ;;
  match ip with
  | None => end_op ;;; cputs "exec: fail" ;;; ret (-1)
  | Some ip =>
    ilock ip ;;;
    r <- readi kern_sink [] ip 0 ELFHDR_SIZE ;;
    if negb (fst r =? ELFHDR_SIZE) then exec_bad 0 (Some ip) else
    let elf := snd r in
    if negb (elf_magic elf =? ELF_MAGIC) then exec_bad 0 (Some ip) else
    pgdir <- setupkvm ;;
    if pgdir =? 0 then exec_bad 0 (Some ip) else
    r <- exec_load pgdir ip (elf_phoff elf) 0 (Z.to_nat (elf_phnum elf)) ;;
    match r with
    | None => exec_bad pgdir (Some ip)
    | Some sz =>
      iunlockput ip ;;;
      end_op ;;;
      exec_stack p path argv (elf_entry elf) pgdir sz
    end
  end.
End Exec.
