(* ===== verification/Sysfile.v ===== *)
(** The file-system system calls, sysfile.c. *)

From stdpp Require Import base list sets strings.
From Stdlib Require Import ZArith Lia.
From S2P Require Import Prelude State CString Sched Cons Kalloc Vm SysArgs Pipe.
From S2P Require Import Sleeplock Disk Bio Log Fs File Exec.

Open Scope kernel_scope.

Section Sysfile.
Context {D : DiskDriver} {V : DevSw}.

(** ** Arguments *)

(** The descriptor and the file; [None] is -1. *)
Definition argfd (n : Z) : K (option (nat * nat)) :=
  fd <- argint n ;;
  match fd with
  | None => ret None
  | Some fd =>
    p <- curproc ;;
    if (fd <? 0) || (Z.of_nat NOFILE <=? fd) then ret None else
    f <- gets (fun s => p_ofile (procs s p) !!! Z.to_nat fd) ;;
    match f with
    | None => ret None
    | Some f => ret (Some (Z.to_nat fd, f))
    end
  end.

(** The bytes of a string argument; the code reads them through the pointer
    when it uses them. *)
Definition argpath (n : Z) : K (option (list Z)) :=
  r <- argstr n ;;
  match r with
  | None => ret None
  | Some (addr, len) => bs <- uloadn addr (Z.to_nat len) ;; ret (Some bs)
  end.

Definition set_ofile (p fd : nat) (f : option nat) : K unit :=
  modify (upd_proc p (fun x => set_p_ofile (<[fd := f]> (p_ofile x)) x)).

Definition fdalloc (f : nat) : K Z :=
  p <- curproc ;;
  tbl <- gets (fun s => p_ofile (procs s p)) ;;
  match list_find (fun x => x = None) tbl with
  | Some (fd, _) => set_ofile p fd (Some f) ;;; ret (Z.of_nat fd)
  | None => ret (-1)
  end.

(** ** Calls on descriptors *)

Definition sys_dup : K Z :=
  r <- argfd 0 ;;
  match r with
  | None => ret (-1)
  | Some (_, f) =>
    fd <- fdalloc f ;;
    if fd <? 0 then ret (-1) else
    filedup f ;;;
    ret fd
  end.

(** The checks [sys_read] and [sys_write] share: the file, the buffer and the
    count. *)
Definition arg_rw : K (option (nat * Z * Z)) :=
  r <- argfd 0 ;;
  match r with
  | None => ret None
  | Some (_, f) =>
    n <- argint 2 ;;
    match n with
    | None => ret None
    | Some n =>
      p <- argptr 1 n ;;
      match p with
      | None => ret None
      | Some p => ret (Some (f, p, n))
      end
    end
  end.

Definition sys_read : K Z :=
  r <- arg_rw ;;
  match r with
  | None => ret (-1)
  | Some (f, p, n) => fileread f p n
  end.

Definition sys_write : K Z :=
  r <- arg_rw ;;
  match r with
  | None => ret (-1)
  | Some (f, p, n) => filewrite f p n
  end.

Definition sys_close : K Z :=
  r <- argfd 0 ;;
  match r with
  | None => ret (-1)
  | Some (fd, f) =>
    p <- curproc ;;
    set_ofile p fd None ;;;
    fileclose f ;;;
    ret 0
  end.

Definition STAT_SIZE : Z := 20.

Definition sys_fstat : K Z :=
  r <- argfd 0 ;;
  match r with
  | None => ret (-1)
  | Some (_, f) =>
    st <- argptr 1 STAT_SIZE ;;
    match st with
    | None => ret (-1)
    | Some st => filestat f st
    end
  end.

(** ** Links *)

(** A 14-byte [name] on the stack. *)
Definition name_buf : list Z := replicate (Z.to_nat DIRSIZ) 0.

Definition add_nlink (ip : nat) (d : Z) : K unit :=
  modify (upd_inode ip (fun i => set_i_nlink (s16 (i_nlink i + d)) i)).

Definition link_bad (ip : nat) : K Z :=
  ilock ip ;;;
  add_nlink ip (-1) ;;;
  iupdate ip ;;;
  iunlockput ip ;;;
  end_op ;;;
  ret (-1).

Definition sys_link : K Z :=
  old <- argpath 0 ;;
  match old with
  | None => ret (-1)
  | Some old =>
  new <- argpath 1 ;;
  match new with
  | None => ret (-1)
  | Some new =>
    begin_op ;;;
    ip <- namei old ;;
    match ip with
    | None => end_op ;;; ret (-1)
    | Some ip =>
      ilock ip ;;;
      type <- gets (fun s => i_type (inodes s ip)) ;;
      if type =? T_DIR then iunlockput ip ;;; end_op ;;; ret (-1) else
      add_nlink ip 1 ;;;
      iupdate ip ;;;
      iunlock ip ;;;
      r <- nameiparent new name_buf ;;
      match r with
      | (None, _) => link_bad ip
      | (Some dp, name) =>
        ilock dp ;;;
        ddev <- gets (fun s => i_dev (inodes s dp)) ;;
        i <- gets (fun s => inodes s ip) ;;
        r <- (if negb (ddev =? i_dev i) then ret (-1)
              else dirlink dp name (i_inum i)) ;;
        if r <? 0 then iunlockput dp ;;; link_bad ip else
        iunlockput dp ;;;
        iput ip ;;;
        end_op ;;;
        ret 0
      end
    end
  end end.

(** The loop of [isdirempty]. *)
Fixpoint isdirempty_loop (dp : nat) (off : Z) (k : nat) : K bool :=
  match k with
  | O => spin
  | S k =>
    size <- gets (fun s => i_size (inodes s dp)) ;;
    if off <? size then
      de <- read_dirent "isdirempty: readi" dp off ;;
      if negb (de_inum de =? 0) then ret false
      else isdirempty_loop dp (off + DIRENT_SIZE) k
    else ret true
  end.

Definition isdirempty (dp : nat) : K bool :=
  size <- gets (fun s => i_size (inodes s dp)) ;;
  isdirempty_loop dp (2 * DIRENT_SIZE) (dir_rounds size).

Definition unlink_bad (dp : nat) : K Z :=
  iunlockput dp ;;; end_op ;;; ret (-1).

Definition dot : list Z := bytes_of ".".
Definition dotdot : list Z := bytes_of "..".

Definition sys_unlink : K Z :=
  path <- argpath 0 ;;
  match path with
  | None => ret (-1)
  | Some path =>
    begin_op ;;;
    r <- nameiparent path name_buf ;;
    match r with
    | (None, _) => end_op ;;; ret (-1)
    | (Some dp, name) =>
      ilock dp ;;;
      if (namecmp name dot =? 0) || (namecmp name dotdot =? 0) then unlink_bad dp else
      r <- dirlookup dp name ;;
      match r with
      | None => unlink_bad dp
      | Some (ip, off) =>
        ilock ip ;;;
        i <- gets (fun s => inodes s ip) ;;
        if i_nlink i <? 1 then panic "unlink: nlink < 1" else
        empty <- (if i_type i =? T_DIR then isdirempty ip else ret true) ;;
        if negb empty then iunlockput ip ;;; unlink_bad dp else
        n <- writei (kern_source (replicate (Z.to_nat DIRENT_SIZE) 0)) dp off DIRENT_SIZE ;;
        if negb (n =? DIRENT_SIZE) then panic "unlink: writei" else
        (if i_type i =? T_DIR then add_nlink dp (-1) ;;; iupdate dp else ret tt) ;;;
        iunlockput dp ;;;
        add_nlink ip (-1) ;;;
        iupdate ip ;;;
        iunlockput ip ;;;
        end_op ;;;
        ret 0
      end
    end
  end.

(** ** Creating files *)

(** A new inode: the part of [create] after [ialloc]. *)
Definition create_new (dp ip : nat) (name : list Z) (type major minor : Z) : K (option nat) :=
  ilock ip ;;;
  modify (upd_inode ip (fun i =>
    set_i_nlink 1 (set_i_minor (s16 minor) (set_i_major (s16 major) i)))) ;;;
  iupdate ip ;;;
  inum <- gets (fun s => i_inum (inodes s ip)) ;;
  (if type =? T_DIR then
     add_nlink dp 1 ;;;
     iupdate dp ;;;
     r <- dirlink ip dot inum ;;
     if r <? 0 then panic "create dots" else
     dnum <- gets (fun s => i_inum (inodes s dp)) ;;
     r <- dirlink ip dotdot dnum ;;
     if r <? 0 then panic "create dots" else ret tt
   else ret tt) ;;;
  r <- dirlink dp name inum ;;
  if r <? 0 then panic "create: dirlink" else
  iunlockput dp ;;;
  ret (Some ip).

Definition create (path : list Z) (type major minor : Z) : K (option nat) :=
  r <- nameiparent path name_buf ;;
  match r with
  | (None, _) => ret None
  | (Some dp, name) =>
    ilock dp ;;;
    r <- dirlookup dp name ;;
    match r with
    | Some (ip, _) =>
      iunlockput dp ;;;
      ilock ip ;;;
      itype <- gets (fun s => i_type (inodes s ip)) ;;
      if (type =? T_FILE) && (itype =? T_FILE) then ret (Some ip) else
      iunlockput ip ;;;
      ret None
    | None =>
      ddev <- gets (fun s => i_dev (inodes s dp)) ;;
      ip <- ialloc ddev type ;;
      create_new dp ip name type major minor
    end
  end.

(** [sys_open] from the file table on: [ip] is locked. *)
Definition open_file (ip : nat) (omode : Z) : K Z :=
  f <- filealloc ;;
  match f with
  | None => iunlockput ip ;;; end_op ;;; ret (-1)
  | Some f =>
    fd <- fdalloc f ;;
    if fd <? 0 then fileclose f ;;; iunlockput ip ;;; end_op ;;; ret (-1) else
    iunlock ip ;;;
    end_op ;;;
    modify (upd_file f (fun x =>
      set_f_writable (has omode O_WRONLY || has omode O_RDWR)
        (set_f_readable (negb (has omode O_WRONLY))
          (set_f_off 0 (set_f_ip (Some ip) (set_f_type FD_INODE x)))))) ;;;
    ret fd
  end.

Definition sys_open : K Z :=
  path <- argpath 0 ;;
  match path with
  | None => ret (-1)
  | Some path =>
  omode <- argint 1 ;;
  match omode with
  | None => ret (-1)
  | Some omode =>
    begin_op ;;;
    if has omode O_CREATE then
      ip <- create path T_FILE 0 0 ;;
      match ip with
      | None => end_op ;;; ret (-1)
      | Some ip => open_file ip omode
      end
    else
      ip <- namei path ;;
      match ip with
      | None => end_op ;;; ret (-1)
      | Some ip =>
        ilock ip ;;;
        type <- gets (fun s => i_type (inodes s ip)) ;;
        if (type =? T_DIR) && negb (omode =? O_RDONLY)
        then iunlockput ip ;;; end_op ;;; ret (-1)
        else open_file ip omode
      end
  end end.

Definition sys_mkdir : K Z :=
  begin_op ;;;
  path <- argpath 0 ;;
  match path with
  | None => end_op ;;; ret (-1)
  | Some path =>
    ip <- create path T_DIR 0 0 ;;
    match ip with
    | None => end_op ;;; ret (-1)
    | Some ip => iunlockput ip ;;; end_op ;;; ret 0
    end
  end.

Definition sys_mknod : K Z :=
  begin_op ;;;
  path <- argpath 0 ;;
  match path with
  | None => end_op ;;; ret (-1)
  | Some path =>
  major <- argint 1 ;;
  match major with
  | None => end_op ;;; ret (-1)
  | Some major =>
  minor <- argint 2 ;;
  match minor with
  | None => end_op ;;; ret (-1)
  | Some minor =>
    ip <- create path T_DEV major minor ;;
    match ip with
    | None => end_op ;;; ret (-1)
    | Some ip => iunlockput ip ;;; end_op ;;; ret 0
    end
  end end end.

Definition sys_chdir : K Z :=
  p <- curproc ;;
  begin_op ;;;
  path <- argpath 0 ;;
  match path with
  | None => end_op ;;; ret (-1)
  | Some path =>
    ip <- namei path ;;
    match ip with
    | None => end_op ;;; ret (-1)
    | Some ip =>
      ilock ip ;;;
      type <- gets (fun s => i_type (inodes s ip)) ;;
      if negb (type =? T_DIR) then iunlockput ip ;;; end_op ;;; ret (-1) else
      iunlock ip ;;;
      cwd <- gets (fun s => p_cwd (procs s p)) ;;
      match cwd with Some old => iput old | None => panic "trap" end ;;;
      end_op ;;;
      modify (upd_proc p (set_p_cwd (Some ip))) ;;;
      ret 0
    end
  end.

(** ** Programs and pipes *)

(** The loop of [sys_exec] over the argument vector; [k] slots are left. *)
Fixpoint exec_args (uargv i : Z) (argv : list (list Z)) (k : nat) : K (option (list (list Z))) :=
  match k with
  | O => ret None
  | S k =>
    uarg <- fetchint (u32 (uargv + 4 * i)) ;;
    match uarg with
    | None => ret None
    | Some uarg =>
      if uarg =? 0 then ret (Some argv) else
      len <- fetchstr (u32 uarg) ;;
      match len with
      | None => ret None
      | Some len =>
        bs <- uloadn (u32 uarg) (Z.to_nat len) ;;
        exec_args uargv (i + 1) (argv ++ [bs]) k
      end
    end
  end.

Definition sys_exec : K Z :=
  path <- argpath 0 ;;
  match path with
  | None => ret (-1)
  | Some path =>
  uargv <- argint 1 ;;
  match uargv with
  | None => ret (-1)
  | Some uargv =>
    argv <- exec_args (u32 uargv) 0 [] (Z.to_nat MAXARG) ;;
    match argv with
    | None => ret (-1)
    | Some argv => exec path argv
    end
  end end.

Definition sys_pipe : K Z :=
  fd <- argptr 0 8 ;;
  match fd with
  | None => ret (-1)
  | Some fd =>
    r <- pipealloc ;;
    match r with
    | None => ret (-1)
    | Some (rf, wf) =>
      p <- curproc ;;
      fd0 <- fdalloc rf ;;
      if fd0 <? 0 then fileclose rf ;;; fileclose wf ;;; ret (-1) else
      fd1 <- fdalloc wf ;;
      if fd1 <? 0 then
        set_ofile p (Z.to_nat fd0) None ;;;
        fileclose rf ;;; fileclose wf ;;; ret (-1)
      else
        ustore32 fd fd0 ;;;
        ustore32 (fd + 4) fd1 ;;;
        ret 0
    end
  end.

(** ** [sys_copy]

    [buffer] is the address of its 512-byte local array. *)

Fixpoint copy_loop (src_file dst_file : nat) (buffer : Z) (k : nat) : K Z :=
  match k with
  | O => spin
  | S k =>
    n <- fileread src_file buffer 512 ;;
    if 0 <? n then
      r <- filewrite dst_file buffer n ;;
      if negb (r =? n) then
        fileclose src_file ;;; fileclose dst_file ;;; end_op ;;; ret (-1)
      else copy_loop src_file dst_file buffer k
    else
      fileclose src_file ;;;
      fileclose dst_file ;;;
      end_op ;;;
      ret 0
  end.

Definition open_inode_file (f ip : nat) (readable writable : bool) : K unit :=
  modify (upd_file f (fun x =>
    set_f_writable writable (set_f_readable readable
      (set_f_off 0 (set_f_ip (Some ip) (set_f_type FD_INODE x)))))).

(** The longest file has [MAXFILE] blocks, so as many rounds and one more. *)
Definition sys_copy (buffer : Z) : K Z :=
  src <- argpath 0 ;;
  match src with
  | None => cputs "sys_copy: invalid arguments" ;;; ret (-1)
  | Some src =>
  dst <- argpath 1 ;;
  match dst with
  | None => cputs "sys_copy: invalid arguments" ;;; ret (-1)
  | Some dst =>
    cprintf (bytes_of "sys_copy: src=%s, dst=%s" ++ [10]) [PStr (Some src); PStr (Some dst)] ;;;
    begin_op ;;;
    ip <- namei src ;;
    match ip with
    | None => end_op ;;; ret (-1)
    | Some src_inode =>
      ilock src_inode ;;;
      f <- filealloc ;;
      match f with
      | None => iunlockput src_inode ;;; end_op ;;; ret (-1)
      | Some src_file =>
        open_inode_file src_file src_inode true false ;;;
        ip <- create dst T_FILE 0 0 ;;
        match ip with
        | None => fileclose src_file ;;; end_op ;;; ret (-1)
        | Some dst_inode =>
          f <- filealloc ;;
          match f with
          | None => fileclose src_file ;;; iunlockput dst_inode ;;; end_op ;;; ret (-1)
          | Some dst_file =>
            open_inode_file dst_file dst_inode false true ;;;
            copy_loop src_file dst_file buffer (S (Z.to_nat MAXFILE))
          end
        end
      end
    end
  end end.
End Sysfile.
