(* ===== verification/Proc.v ===== *)
(** Processes, proc.c: allocation, [fork], [exit], [wait], the scheduler and
    [procdump].  The switch primitives are in Sched.v and [growproc] in Vm.v.

    A [struct proc *] is an index into [ptable.proc].  The trap frame and the
    saved context of a process are fields of its record, not bytes of its
    kernel stack.  [forkret_addr] is the address of [forkret]. *)

From stdpp Require Import base list sets strings.
From Stdlib Require Import ZArith Lia.
From S2P Require Import Prelude State Demo CString Sched Cons Kalloc Vm SysArgs.
From S2P Require Import Pipe Sleeplock Disk Bio Log Fs File.

Open Scope kernel_scope.

Section Proc.
Context {D : DiskDriver} {V : DevSw} (forkret_addr : Z).

(** ** Allocation *)

(** The slot [allocproc] takes: the first UNUSED one. *)
Definition unused_slot (tbl : list proc) : option nat :=
  fst <$> list_find (fun p => p_state p = UNUSED) tbl.

Definition allocproc : K (option nat) :=
  acquire L_ptable ;;;
  tbl <- gets k_proc ;;
  match unused_slot tbl with
  | None => release L_ptable ;;; ret None
  | Some p =>
    modify (upd_proc p (set_p_state EMBRYO)) ;;;
    pid <- gets k_nextpid ;;
    modify (upd_proc p (set_p_pid pid)) ;;;
    modify (set_k_nextpid (s32 (pid + 1))) ;;;
    modify (upd_proc p (fun x =>
      set_p_handlers (replicate NUMSIGNALS 0) (set_p_pending 0 x))) ;;;
    release L_ptable ;;;
    kstack <- kalloc ;;
    modify (upd_proc p (set_p_kstack kstack)) ;;;
    if kstack =? 0 then modify (upd_proc p (set_p_state UNUSED)) ;;; ret None else
    modify (upd_proc p (set_p_context (mk_context 0 0 0 0 forkret_addr))) ;;;
    ret (Some p)
  end.

(** ** The first process *)

(** [init] is the code of initcode.S, linked into the kernel. *)
Definition userinit (init : list Z) : K unit :=
  p <- allocproc ;;
  modify (set_k_initproc p) ;;;
  match p with
  | None => panic "trap"
  | Some p =>
    pgdir <- setupkvm ;;
    modify (upd_proc p (set_p_pgdir pgdir)) ;;;
    if pgdir =? 0 then panic "userinit: out of memory?" else
    inituvm pgdir init ;;;
    let ds := Z.lor (Z.shiftl SEG_UDATA 3) DPL_USER in
    modify (upd_proc p (fun x =>
      set_p_tf (set_tf_eip 0 (set_tf_esp PGSIZE (set_tf_eflags FL_IF
          (set_tf_ss ds (set_tf_es ds (set_tf_ds ds
            (set_tf_cs (Z.lor (Z.shiftl SEG_UCODE 3) DPL_USER)
              (mk_trapframe 0 0 0 0 0 0 0 0 0 0 0 0 0 0 0 0 0 0 0))))))))
        (set_p_sz PGSIZE x))) ;;;
    modify (upd_proc p (fun x =>
      set_p_name (safestrcpy (p_name x) (arr (bytes_of "initcode")) 16) x)) ;;;
    cwd <- namei [47] ;;
    modify (upd_proc p (set_p_cwd cwd)) ;;;
    acquire L_ptable ;;;
    modify (upd_proc p (set_p_state RUNNABLE)) ;;;
    release L_ptable
  end.

(** ** [fork] *)

(** [if(curproc->ofile[i]) np->ofile[i] = filedup(curproc->ofile[i])] *)
Definition fork_file (cp np i : nat) : K unit :=
  f <- gets (fun s => p_ofile (procs s cp) !!! i) ;;
  match f with
  | None => ret tt
  | Some f =>
    g <- filedup f ;;
    modify (upd_proc np (fun x => set_p_ofile (<[i := Some g]> (p_ofile x)) x))
  end.

Definition fork : K Z :=
  cp <- curproc ;;
  np <- allocproc ;;
  match np with
  | None => ret (-1)
  | Some np =>
    cur <- gets (fun s => procs s cp) ;;
    pgdir <- copyuvm (p_pgdir cur) (p_sz cur) ;;
    modify (upd_proc np (set_p_pgdir pgdir)) ;;;
    if pgdir =? 0 then
      kstack <- gets (fun s => p_kstack (procs s np)) ;;
      kfree kstack ;;;
      modify (upd_proc np (fun x => set_p_state UNUSED (set_p_kstack 0 x))) ;;;
      ret (-1)
    else
      modify (fun s => upd_proc np (fun x =>
        set_p_tf (set_tf_eax 0 (p_tf (procs s cp)))
          (set_p_handlers (p_handlers (procs s cp))
            (set_p_parent (Some cp) (set_p_sz (p_sz (procs s cp)) x)))) s) ;;;
      mfor (fork_file cp np) (seq 0 NOFILE) ;;;
      cwd <- gets (fun s => p_cwd (procs s cp)) ;;
      ip <- match cwd with Some ip => idup ip | None => panic "trap" end ;;
      modify (upd_proc np (set_p_cwd (Some ip))) ;;;
      modify (fun s => upd_proc np (fun x =>
        set_p_name (safestrcpy (p_name x) (arr (p_name (procs s cp))) 16) x) s) ;;;
      pid <- gets (fun s => p_pid (procs s np)) ;;
      acquire L_ptable ;;;
      modify (upd_proc np (set_p_state RUNNABLE)) ;;;
      release L_ptable ;;;
      ret pid
  end.

(** ** [exit] *)

Definition exit_file (cp fd : nat) : K unit :=
  f <- gets (fun s => p_ofile (procs s cp) !!! fd) ;;
  match f with
  | None => ret tt
  | Some f =>
    fileclose f ;;;
    modify (upd_proc cp (fun x => set_p_ofile (<[fd := None]> (p_ofile x)) x))
  end.

(** The channel of a process pointer. *)
Definition chan_of (p : option nat) : chan :=
  match p with Some p => ChanProc p | None => ChanNull end.

(** One round of the loop that passes children to init. *)
Definition exit_adopt (cp p : nat) : K unit :=
  x <- gets (fun s => procs s p) ;;
  if decide (p_parent x = Some cp) then
    init <- gets k_initproc ;;
    modify (upd_proc p (set_p_parent init)) ;;;
    if decide (p_state x = ZOMBIE) then wakeup1 (chan_of init) else ret tt
  else ret tt.

(** [exit] from the lock on: the files are closed. *)
Definition exit_tail (cp : nat) : K unit :=
  acquire L_ptable ;;;
  modify (upd_proc cp (set_p_handlers (replicate NUMSIGNALS 0))) ;;;
  parent <- gets (fun s => p_parent (procs s cp)) ;;
  wakeup1 (chan_of parent) ;;;
  mfor (exit_adopt cp) (seq 0 NPROC) ;;;
  modify (upd_proc cp (set_p_state ZOMBIE)) ;;;
  sched (A := unit) ;;;
  panic "zombie exit".

Definition exit : K unit :=
  cp <- curproc ;;
  init <- gets k_initproc ;;
  if decide (init = Some cp) then panic "init exiting" else
  mfor (exit_file cp) (seq 0 NOFILE) ;;;
  begin_op ;;;
  cwd <- gets (fun s => p_cwd (procs s cp)) ;;
  match cwd with Some ip => iput ip | None => panic "trap" end ;;;
  end_op ;;;
  modify (upd_proc cp (set_p_cwd None)) ;;;
  exit_tail cp.

(** ** [wait] *)

Definition is_child (cp : nat) (p : proc) : bool := bool_decide (p_parent p = Some cp).

(** The first exited child in table order. *)
Definition zombie_child (cp : nat) (tbl : list proc) : option nat :=
  fst <$> list_find (fun p => p_parent p = Some cp /\ p_state p = ZOMBIE) tbl.

(** One round of [wait], with the table locked; a parent that slept starts
    here again. *)
Definition wait_loop (cp : nat) : K Z :=
  tbl <- gets k_proc ;;
  match zombie_child cp tbl with
  | Some p =>
    pid <- gets (fun s => p_pid (procs s p)) ;;
    kstack <- gets (fun s => p_kstack (procs s p)) ;;
    kfree kstack ;;;
    modify (upd_proc p (set_p_kstack 0)) ;;;
    pgdir <- gets (fun s => p_pgdir (procs s p)) ;;
    freevm pgdir ;;;
    modify (upd_proc p (fun x =>
      set_p_state UNUSED (set_p_killed false
        (set_p_name (<[0%nat := 0]> (p_name x)) (set_p_parent None (set_p_pid 0 x)))))) ;;;
    release L_ptable ;;;
    ret pid
  | None =>
    killed <- gets (fun s => p_killed (procs s cp)) ;;
    if negb (existsb (is_child cp) tbl) || killed then release L_ptable ;;; ret (-1)
    else sleep (ChanProc cp) (Some L_ptable)
  end.

Definition wait : K Z :=
  cp <- curproc ;;
  acquire L_ptable ;;;
  wait_loop cp.

(** ** The scheduler

    [run_handler] stands for the call of a signal handler, the user's code,
    and [run p] for what process [p] does from the switch to it until it
    switches back. *)
Context (run_handler : Z -> K unit) (run : nat -> kstate -> kstate).

(** One round of the signal loop. *)
Definition deliver_one (p i : nat) : K unit :=
  x <- gets (fun s => procs s p) ;;
  if Z.testbit (p_pending x) (Z.of_nat i) then
    modify (upd_proc p (fun x => set_p_pending (Z.clearbit (p_pending x) (Z.of_nat i)) x)) ;;;
    let h := p_handlers x !!! i in
    if negb (h =? 0) then
      release L_ptable ;;;
      run_handler h ;;;
      acquire L_ptable
    else if (i =? 2)%nat then modify (upd_proc p (set_p_killed true))
    else ret tt
  else ret tt.

(** The body of the loop over the table; returns whether [p] ran. *)
Definition sched_one (p : nat) : K bool :=
  x <- gets (fun s => procs s p) ;;
  if decide (p_state x <> RUNNABLE) then ret false else
  (if p_pending x =? 0 then ret tt else mfor (deliver_one p) (seq 0 NUMSIGNALS)) ;;;
  modify (set_k_cur (Some p)) ;;;
  switchuvm (Some p) ;;;
  modify (upd_proc p (set_p_state RUNNING)) ;;;
  modify (run p) ;;;
  modify (set_k_cur None) ;;;
  ret true.

(** The processes that ran, in order. *)
Fixpoint sched_loop (ps : list nat) : K (list nat) :=
  match ps with
  | [] => ret []
  | p :: ps =>
    r <- sched_one p ;;
    rs <- sched_loop ps ;;
    ret (if (r : bool) then p :: rs else rs)
  end.

(** One pass of [scheduler]'s endless loop. *)
Definition scheduler_pass : K (list nat) :=
  acquire L_ptable ;;;
  rs <- sched_loop (seq 0 NPROC) ;;
  release L_ptable ;;;
  ret rs.

(** The first thing a new process runs. *)
Definition forkret : K unit :=
  release L_ptable ;;;
  first <- gets k_first ;;
  if (first : bool) then
    modify (set_k_first false) ;;;
    iinit ROOTDEV ;;;
    initlog ROOTDEV
  else ret tt.

(** ** [procdump] *)

Definition state_name (st : procstate) : string :=
  match st with
  | UNUSED => "UNUSED" | EMBRYO => "EMBRYO" | SLEEPING => "SLEEPING"
  | RUNNABLE => "RUNNABLE" | RUNNING => "RUNNING" | ZOMBIE => "ZOMBIE"
  end.

(** "%d\t%d\t%s\t%s\n" *)
Definition procdump_fmt : list Z := [37; 100; 9; 37; 100; 9; 37; 115; 9; 37; 115; 10].

Definition procdump_one (p : nat) : K unit :=
  x <- gets (fun s => procs s p) ;;
  if decide (p_state x = UNUSED) then ret tt else
  ppid <- gets (fun s => match p_parent x with Some q => p_pid (procs s q) | None => 0 end) ;;
  cprintf procdump_fmt
    [PInt (p_pid x); PInt ppid; PStr (Some (bytes_of (state_name (p_state x))));
     PStr (Some (cstr 16 (arr (p_name x))))].

Definition procdump : K unit := mfor procdump_one (seq 0 NPROC).
End Proc.

(** ** [exit] and [wait] *)

(** What the loop of [exit] makes of the first [k] slots: children of [cp] go
    to init, which is woken if one of them had exited already. *)
Definition adopt (cp : nat) (init : option nat) (x : proc) : proc :=
  if decide (p_parent x = Some cp) then set_p_parent init x else x.

Definition orphan_zombie (cp : nat) (x : proc) : bool :=
  bool_decide (p_parent x = Some cp /\ p_state x = ZOMBIE).

Definition adopted (cp : nat) (init : option nat) (k : nat) (tbl : list proc) : list proc :=
  imap (fun i x =>
    (if existsb (orphan_zombie cp) (take k tbl) then wake_one (chan_of init) else id)
      (if (i <? k)%nat then adopt cp init x else x)) tbl.

Lemma wake_adopt ch cp init x : wake_one ch (adopt cp init x) = adopt cp init (wake_one ch x).
Proof. unfold wake_one, adopt. by repeat (case_decide; simpl in *; try tauto). Qed.

Lemma wake_wake ch x : wake_one ch (wake_one ch x) = wake_one ch x.
Proof. unfold wake_one. by repeat (case_decide; simpl in *; try naive_solver). Qed.

Lemma wake_runnable ch x : p_state x = RUNNABLE -> wake_one ch x = x.
Proof. intros H. unfold wake_one. rewrite decide_False; [done|]. rewrite H. by intros [? _]. Qed.

Lemma wake_parent ch x : p_parent (wake_one ch x) = p_parent x.
Proof. unfold wake_one. by case_decide. Qed.

Lemma wake_zombie ch x : p_state (wake_one ch x) = ZOMBIE <-> p_state x = ZOMBIE.
Proof. unfold wake_one. case_decide as H; simpl; [|done]. destruct H as [-> _]. done. Qed.

Lemma length_adopted cp init k tbl : length (adopted cp init k tbl) = length tbl.
Proof. apply length_imap. Qed.

Lemma adopted_0 cp init tbl : adopted cp init 0 tbl = tbl.
Proof.
  unfold adopted. rewrite take_0. simpl. apply list_eq. intros i. rewrite list_lookup_imap.
  destruct (tbl !! i); simpl; [|done]. by destruct i.
Qed.

Lemma lookup_adopted cp init k tbl i :
  adopted cp init k tbl !! i =
    (fun x => (if existsb (orphan_zombie cp) (take k tbl) then wake_one (chan_of init) else id)
      (if (i <? k)%nat then adopt cp init x else x)) <$> tbl !! i.
Proof. apply list_lookup_imap. Qed.

Lemma existsb_take_S {A} (f : A -> bool) l k x :
  l !! k = Some x -> existsb f (take (S k) l) = existsb f (take k l) || f x.
Proof.
  intros Hx. rewrite (take_S_r _ _ _ Hx), existsb_app. simpl. by rewrite orb_false_r.
Qed.

(** The slots other than [k] do not change when [k] is processed, except that
    their owners may be woken. *)
Lemma adopted_S cp init k tbl x :
  tbl !! k = Some x ->
  adopted cp init (S k) tbl =
    (if orphan_zombie cp x then map (wake_one (chan_of init)) else id)
      (alter (adopt cp init) k (adopted cp init k tbl)).
Proof.
  intros Hx. apply list_eq. intros i. rewrite lookup_adopted, (existsb_take_S _ _ _ _ Hx).
  assert (forall (b : bool) (l : list proc), ((if b then map (wake_one (chan_of init)) else id) l) !! i =
    (fun y => (if b then wake_one (chan_of init) else id) y) <$> l !! i) as ->.
  { intros b l. destruct b; [apply list_lookup_fmap|]. simpl. by destruct (l !! i). }
  assert (alter (adopt cp init) k (adopted cp init k tbl) !! i =
    (fun x => (if existsb (orphan_zombie cp) (take k tbl) then wake_one (chan_of init) else id)
      (if (i <? S k)%nat then adopt cp init x else x)) <$> tbl !! i) as ->.
  { destruct (decide (i = k)) as [->|Hne].
    - rewrite list_lookup_alter_eq, lookup_adopted, Hx. simpl.
      rewrite (proj2 (Nat.ltb_lt k (S k))), (proj2 (Nat.ltb_ge k k)) by lia.
      destruct (existsb _ _); [by rewrite wake_adopt|done].
    - rewrite list_lookup_alter_ne, lookup_adopted by done.
      by replace (i <? S k)%nat with (i <? k)%nat
        by (destruct (Nat.ltb_spec i k), (Nat.ltb_spec i (S k)); lia). }
  destruct (tbl !! i); simpl; [|done]. f_equal.
  destruct (existsb _ _), (orphan_zombie cp x); simpl; by rewrite ?wake_wake.
Qed.

Lemma procs_adopted cp init k s :
  (k < length (k_proc s))%nat ->
  procs (set_k_proc (adopted cp init k (k_proc s)) s) k =
    (if existsb (orphan_zombie cp) (take k (k_proc s)) then wake_one (chan_of init) else id)
      (procs s k).
Proof.
  intros Hk. unfold procs. kred. apply list_lookup_total_correct. rewrite lookup_adopted.
  rewrite (list_lookup_lookup_total_lt _ _ Hk). simpl. by rewrite Nat.ltb_irrefl.
Qed.

Lemma exit_adopt_run cp p s :
  (p < length (k_proc s))%nat ->
  exit_adopt cp p s = Ret tt (set_k_proc
    ((if orphan_zombie cp (procs s p) then map (wake_one (chan_of (k_initproc s))) else id)
      (alter (adopt cp (k_initproc s)) p (k_proc s))) s).
Proof.
  intros Hp. unfold exit_adopt, orphan_zombie. mrun.
  destruct (lookup_lt_is_Some_2 (k_proc s) p Hp) as [x Hx].
  assert (procs s p = x) as -> by by apply list_lookup_total_correct.
  destruct (decide (p_parent x = Some cp)) as [E|E]; simpl.
  - assert (alter (adopt cp (k_initproc s)) p (k_proc s) =
      alter (set_p_parent (k_initproc s)) p (k_proc s)) as ->.
    { apply list_alter_ext; [|done]. intros y Hy. unfold adopt. rewrite decide_True; congruence. }
    mrun. case_decide as Hz.
    + rewrite bool_decide_true by done. done.
    + rewrite bool_decide_false by tauto. done.
  - rewrite bool_decide_false by tauto. simpl. unfold ret.
    rewrite (list_alter_ext _ id _ (k_proc s)), list_alter_id; [by rewrite set_k_proc_id|done| |done].
    intros y Hy. unfold adopt. rewrite decide_False; [done|congruence].
Qed.

Lemma adopt_loop cp s k :
  (k <= length (k_proc s))%nat ->
  mfor (exit_adopt cp) (seq 0 k) s =
    Ret tt (set_k_proc (adopted cp (k_initproc s) k (k_proc s)) s).
Proof.
  induction k as [|k IH]; intros Hk.
  { simpl. unfold ret. by rewrite adopted_0, set_k_proc_id. }
  rewrite seq_S, mfor_app. rewrite (bind_Ret _ _ _ _ _ (IH ltac:(lia))). simpl.
  set (s1 := set_k_proc (adopted cp (k_initproc s) k (k_proc s)) s).
  assert (k < length (k_proc s1))%nat as Hk1 by (subst s1; kred; rewrite length_adopted; lia).
  rewrite (bind_Ret _ _ _ _ _ (exit_adopt_run cp k s1 Hk1)). subst s1.
  unfold ret. rewrite set_k_proc_set. do 2 f_equal. kred.
  destruct (lookup_lt_is_Some_2 (k_proc s) k ltac:(lia)) as [x Hx].
  rewrite (adopted_S _ _ _ _ _ Hx), procs_adopted by lia.
  unfold procs. rewrite (list_lookup_total_correct _ _ _ Hx).
  replace (orphan_zombie cp _) with (orphan_zombie cp x); [done|].
  destruct (existsb _ _); [|done]. unfold orphan_zombie. apply bool_decide_ext.
  simpl. by rewrite wake_parent, wake_zombie.
Qed.

Lemma existsb_map_ext {A B} (f : A -> bool) (g : B -> bool) (h : B -> A) l :
  (forall x, f (h x) = g x) -> existsb f (map h l) = existsb g l.
Proof. intros H. induction l as [|x l IH]; simpl; [done|]. by rewrite H, IH. Qed.

Lemma orphan_wake cp ch x : orphan_zombie cp (wake_one ch x) = orphan_zombie cp x.
Proof. unfold orphan_zombie. apply bool_decide_ext. by rewrite wake_parent, wake_zombie. Qed.

Lemma existsb_alter {A} (f : A -> bool) g k l :
  (forall x, f (g x) = f x) -> existsb f (alter g k l) = existsb f l.
Proof.
  intros H. revert k. induction l as [|x l IH]; intros [|k]; simpl; [done..|by rewrite H|].
  f_equal. apply IH.
Qed.

(** Every other process after the exit of [cp]. *)
Definition after_exit (cp : nat) (s : kstate) (x : proc) : proc :=
  adopt cp (k_initproc s)
    ((if existsb (orphan_zombie cp) (k_proc s) then wake_one (chan_of (k_initproc s)) else id)
      (wake_one (chan_of (p_parent (procs s cp))) x)).

(** The table after both wake-ups and the adoption. *)
Lemma procs_after_exit cp s q :
  (q < length (k_proc s))%nat -> length (k_proc s) = NPROC ->
  let t := map (wake_one (chan_of (p_parent (procs s cp))))
    (alter (set_p_handlers (replicate NUMSIGNALS 0)) cp (k_proc s)) in
  adopted cp (k_initproc s) NPROC t !!! q =
    after_exit cp s (if decide (q = cp)
      then set_p_handlers (replicate NUMSIGNALS 0) (procs s q) else procs s q).
Proof.
  intros Hq Hlen t. apply list_lookup_total_correct. rewrite lookup_adopted.
  assert (length t = NPROC) as Ht by (subst t; by rewrite length_map, length_alter).
  rewrite take_ge by lia. rewrite (proj2 (Nat.ltb_lt _ _)) by lia.
  replace (existsb (orphan_zombie cp) t) with (existsb (orphan_zombie cp) (k_proc s)).
  2: { subst t. rewrite (existsb_map_ext _ (orphan_zombie cp)) by apply orphan_wake.
       by rewrite existsb_alter. }
  subst t. rewrite list_lookup_fmap. unfold after_exit, procs.
  pose proof (list_lookup_lookup_total_lt _ _ Hq) as Hx.
  destruct (decide (q = cp)) as [->|].
  - rewrite list_lookup_alter_eq, Hx. simpl. destruct (existsb _ _); [by rewrite wake_adopt|done].
  - rewrite list_lookup_alter_ne, Hx by done. simpl.
    destruct (existsb _ _); [by rewrite wake_adopt|done].
Qed.

Lemma exit_tail_run cp s :
  k_cur s = Some cp -> k_held s = [] -> length (k_proc s) = NPROC -> (cp < NPROC)%nat ->
  exists s', exit_tail cp s = Switch s' /\ k_held s' = [L_ptable] /\
    length (k_proc s') = NPROC /\
    p_state (procs s' cp) = ZOMBIE /\ p_parent (procs s' cp) = p_parent (after_exit cp s (procs s cp)) /\
    forall q, (q < NPROC)%nat -> q <> cp -> procs s' q = after_exit cp s (procs s q).
Proof.
  intros Hc Hh Hlen Hcp. unfold exit_tail.
  mstep (acquire_ok L_ptable s ltac:(rewrite Hh; set_solver)). rewrite Hh. mrun. kred.
  rewrite procs_upd_eq by (kred; lia).
  change (p_parent (set_p_handlers _ ?x)) with (p_parent x).
  change (procs (set_k_held [L_ptable] s) cp) with (procs s cp).
  unfold wakeup1. mrun.
  set (t0 := alter (set_p_handlers (replicate NUMSIGNALS 0)) cp (k_proc s)).
  set (ch := chan_of (p_parent (procs s cp))).
  set (s1 := set_k_proc (map (wake_one ch) t0) (set_k_held [L_ptable] s)).
  change (set_k_proc (map (wake_one ch) (k_proc (upd_proc cp
    (set_p_handlers (replicate NUMSIGNALS 0)) (set_k_held [L_ptable] s))))
    (upd_proc cp (set_p_handlers (replicate NUMSIGNALS 0)) (set_k_held [L_ptable] s))) with s1.
  assert (length (k_proc s1) = NPROC) as Hl1.
  { subst s1 t0. kred. rewrite length_map, length_alter. done. }
  mstep (adopt_loop cp s1 NPROC ltac:(lia)). mrun.
  set (s2 := set_k_proc (adopted cp (k_initproc s1) NPROC (k_proc s1)) s1).
  assert (length (k_proc s2) = NPROC) as Hl2 by (subst s2; kred; by rewrite length_adopted).
  assert (forall q, (q < NPROC)%nat -> procs s2 q = after_exit cp s (if decide (q = cp)
      then set_p_handlers (replicate NUMSIGNALS 0) (procs s q) else procs s q)) as Hq.
  { intros q Hq. exact (procs_after_exit cp s q ltac:(lia) Hlen). }
  rewrite (bind_Switch _ _ _ _ (sched_switch (A := unit) cp (upd_proc cp (set_p_state ZOMBIE) s2)
    Hc eq_refl ltac:(rewrite procs_upd_eq by lia; done))).
  eexists. split; [done|]. rewrite length_upd_proc, procs_upd_eq by lia.
  split_and!; try done.
  - change (p_parent (set_p_state ZOMBIE ?x)) with (p_parent x).
    rewrite Hq, decide_True by done. unfold after_exit, adopt.
    destruct (existsb _ _); simpl; rewrite ?wake_parent; simpl; case_decide; simpl;
      by rewrite ?wake_parent.
  - intros q Hqn Hne. rewrite procs_upd_ne by done. by rewrite Hq, decide_False.
Qed.

Lemma after_exit_parent_eq cp s x :
  p_parent (after_exit cp s x) =
    if decide (p_parent x = Some cp) then k_initproc s else p_parent x.
Proof.
  unfold after_exit, adopt. destruct (existsb _ _); simpl; rewrite ?wake_parent;
    case_decide; simpl; by rewrite ?wake_parent.
Qed.

Lemma after_exit_parent cp s x :
  k_initproc s <> Some cp -> p_parent (after_exit cp s x) <> Some cp.
Proof. intros H. rewrite after_exit_parent_eq. by case_decide. Qed.

Lemma after_exit_parent_other cp s x :
  p_parent x <> Some cp -> p_parent (after_exit cp s x) = p_parent x.
Proof. intros H. rewrite after_exit_parent_eq. by rewrite decide_False. Qed.

(** C14: [exit] hands the process over to its parent and its children to init.
    From the point where its files are closed it always reaches the switch
    and never returns: the process is a zombie, no process has it as its
    parent any more (its children are init's, and init is woken when one of
    them is a zombie), every other field of every other process is as before,
    and a parent asleep in [wait] is runnable and will find a zombie child:
    no wake-up is lost. *)
Theorem exit_hands_over cp s :
  k_cur s = Some cp -> k_held s = [] -> length (k_proc s) = NPROC -> (cp < NPROC)%nat ->
  k_initproc s <> Some cp -> p_parent (procs s cp) <> Some cp ->
  exists s', exit_tail cp s = Switch s' /\ p_state (procs s' cp) = ZOMBIE /\
    (forall q, (q < NPROC)%nat -> p_parent (procs s' q) <> Some cp) /\
    (forall q, (q < NPROC)%nat -> q <> cp -> procs s' q = after_exit cp s (procs s q)) /\
    (forall pp, p_parent (procs s cp) = Some pp -> (pp < NPROC)%nat ->
       p_state (procs s pp) = SLEEPING -> p_chan (procs s pp) = ChanProc pp ->
       p_state (procs s' pp) = RUNNABLE /\ is_Some (zombie_child pp (k_proc s'))).
Proof.
  intros Hc Hh Hlen Hcp Hinit Hself.
  destruct (exit_tail_run cp s Hc Hh Hlen Hcp) as (s' & E & _ & Hlen' & Hz & Hpar & Hq).
  exists s'. split; [done|]. split; [done|]. split_and!; [|done|].
  - intros q Hqn. destruct (decide (q = cp)) as [->|Hne].
    + rewrite Hpar. by apply after_exit_parent.
    + rewrite Hq by done. by apply after_exit_parent.
  - intros pp Hpp Hppn Hsl Hch.
    assert (pp <> cp) as Hne by (intros ->; done).
    split.
    + rewrite Hq by done. unfold after_exit. rewrite Hpp. simpl chan_of.
      assert (wake_one (ChanProc pp) (procs s pp) = set_p_state RUNNABLE (procs s pp)) as ->.
      { unfold wake_one. by rewrite decide_True. }
      unfold adopt. destruct (existsb _ _); [rewrite wake_runnable by done|]; by case_decide.
    + unfold zombie_child. apply fmap_is_Some, list_find_elem_of with (procs s' cp).
      * apply list_elem_of_lookup_2 with cp. apply list_lookup_lookup_total_lt. lia.
      * split; [|done]. rewrite Hpar, after_exit_parent_other; done.
Qed.

(** Init, a process asleep in [wait], its child, and a grandchild that has
    exited. *)
Definition demo_family : kstate :=
  let ofp st parent ch x := set_p_state st (set_p_parent parent (set_p_chan ch x)) in
  set_k_cur (Some 2%nat) (set_k_proc
    (<[0%nat := ofp RUNNABLE None ChanNull inhabitant]>
      (<[1%nat := ofp SLEEPING (Some 0%nat) (ChanProc 1) inhabitant]>
        (<[2%nat := ofp RUNNING (Some 1%nat) ChanNull inhabitant]>
          (<[3%nat := ofp ZOMBIE (Some 2%nat) ChanNull inhabitant]>
            (k_proc (demo_kernel [] [])))))) (demo_kernel [] [])).

Lemma exit_hands_over_witness :
  exists s', exit_tail 2 demo_family = Switch s' /\ p_state (procs s' 2) = ZOMBIE /\
    p_state (procs s' 1) = RUNNABLE /\ is_Some (zombie_child 1 (k_proc s')).
Proof.
  destruct (exit_hands_over 2 demo_family) as (s' & E & Hz & _ & _ & Hw); [by_eval..|].
  exists s'. split; [exact E|]. split; [exact Hz|]. apply (Hw 1%nat); by_eval.
Defined.

(** ** The scheduler *)

Section Fairness.
Context (run_handler : Z -> K unit) (run : nat -> kstate -> kstate).

(** Between processes: the scheduler holds only the table's lock, and whoever
    is runnable has a kernel stack and a page directory. *)
Definition table_ok (s : kstate) : Prop :=
  k_held s = [L_ptable] /\ length (k_proc s) = NPROC /\
  forall q, (q < NPROC)%nat -> p_state (procs s q) = RUNNABLE ->
    p_kstack (procs s q) <> 0 /\ p_pgdir (procs s q) <> 0.

(** A signal handler returns and leaves the process table alone. *)
Context (handler_returns : forall h s, k_held s = [] ->
  exists s', run_handler h s = Ret tt s' /\ k_held s' = [] /\ k_proc s' = k_proc s).

(** A process that gives the CPU back holds the table's lock, and has set up
    the processes it made runnable. *)
Context (run_table : forall q s, table_ok s -> table_ok (run q s)).

(** The fields the scheduler decides on. *)
Definition same_sched (s s' : kstate) : Prop :=
  k_held s' = k_held s /\ length (k_proc s') = length (k_proc s) /\
  forall q, (q < length (k_proc s))%nat -> p_state (procs s' q) = p_state (procs s q) /\
    p_kstack (procs s' q) = p_kstack (procs s q) /\ p_pgdir (procs s' q) = p_pgdir (procs s q).

Lemma same_sched_refl s : same_sched s s.
Proof. done. Qed.

Lemma same_sched_trans s1 s2 s3 : same_sched s1 s2 -> same_sched s2 s3 -> same_sched s1 s3.
Proof.
  intros (H1 & L1 & E1) (H2 & L2 & E2). split; [congruence|]. split; [congruence|].
  intros q Hq. destruct (E1 q Hq) as (? & ? & ?), (E2 q ltac:(lia)) as (? & ? & ?).
  split_and!; congruence.
Qed.

Lemma same_sched_upd p f s :
  (forall x, p_state (f x) = p_state x /\ p_kstack (f x) = p_kstack x /\
     p_pgdir (f x) = p_pgdir x) -> same_sched s (upd_proc p f s).
Proof.
  intros Hf. split; [done|]. split; [apply length_upd_proc|]. intros q Hq.
  destruct (decide (p = q)) as [->|]; [rewrite procs_upd_eq by done; apply Hf|].
  by rewrite procs_upd_ne.
Qed.

Lemma table_ok_same s s' : same_sched s s' -> table_ok s -> table_ok s'.
Proof.
  intros (H1 & L1 & E1) (H & L & Hr). split; [congruence|]. split; [congruence|].
  intros q Hq. destruct (E1 q ltac:(lia)) as (-> & -> & ->). by apply Hr.
Qed.

Lemma deliver_one_ok p i s :
  k_held s = [L_ptable] -> exists s', deliver_one run_handler p i s = Ret tt s' /\ same_sched s s'.
Proof.
  intros Hh. unfold deliver_one. mrun.
  destruct (Z.testbit _ _); [|eexists; split; [done|apply same_sched_refl]]. mrun.
  set (s1 := upd_proc p _ s).
  assert (same_sched s s1) as H1 by (by apply same_sched_upd).
  destruct (negb _).
  - assert (k_held s1 = [L_ptable]) as Hh1 by (destruct H1 as [-> _]; done).
    mstep (release_ok L_ptable [] s1 Hh1 ltac:(set_solver)).
    destruct (handler_returns (p_handlers (procs s p) !!! i) (set_k_held [] s1) eq_refl)
      as (s2 & E & Hh2 & Hp2). mstep E.
    rewrite (acquire_ok L_ptable s2) by (rewrite Hh2; set_solver).
    eexists. split; [done|]. apply (same_sched_trans _ s1); [done|]. rewrite Hh2.
    unfold same_sched, procs. kred. rewrite Hp2. kred. by rewrite Hh1.
  - destruct (i =? 2)%nat; [|eexists; split; [done|done]].
    eexists. split; [done|]. apply (same_sched_trans _ s1); [done|]. by apply same_sched_upd.
Qed.

Lemma deliver_ok p l : forall s, k_held s = [L_ptable] ->
  exists s', mfor (deliver_one run_handler p) l s = Ret tt s' /\ same_sched s s'.
Proof.
  induction l as [|i l IH]; intros s Hh; simpl; [eexists; split; [done|apply same_sched_refl]|].
  destruct (deliver_one_ok p i s Hh) as (s1 & E1 & H1). mstep E1.
  destruct (IH s1) as (s2 & E2 & H2); [destruct H1 as [-> _]; done|].
  exists s2. split; [done|by eapply same_sched_trans].
Qed.

Lemma sched_one_ok q s :
  (q < NPROC)%nat -> table_ok s ->
  if decide (p_state (procs s q) = RUNNABLE)
  then exists s1, same_sched s s1 /\
    sched_one run_handler run q s =
      Ret true (set_k_cur None (run q (upd_proc q (set_p_state RUNNING) (set_k_cur (Some q) s1))))
  else sched_one run_handler run q s = Ret false s.
Proof.
  intros Hq Hok. unfold sched_one. mrun. case_decide as Hr.
  - rewrite decide_False by tauto.
    assert (exists s1, (if p_pending (procs s q) =? 0 then ret tt
      else mfor (deliver_one run_handler q) (seq 0 NUMSIGNALS)) s = Ret tt s1 /\
      same_sched s s1) as (s1 & E & H1).
    { destruct (p_pending _ =? 0); [by exists s|]. apply deliver_ok, Hok. }
    exists s1. split; [done|]. mstep E. mrun.
    destruct (table_ok_same _ _ H1 Hok) as (Hh & Hl & Hk).
    destruct (Hk q Hq) as [Hks Hpg].
    { destruct H1 as (_ & _ & H1). destruct (H1 q) as (-> & _); [|done].
      destruct Hok as (_ & -> & _). done. }
    unfold switchuvm at 1. mrun.
    change (procs (set_k_cur (Some q) s1) q) with (procs s1 q).
    rewrite (proj2 (Z.eqb_neq _ _) Hks), (proj2 (Z.eqb_neq _ _) Hpg). mrun. done.
  - by rewrite decide_True.
Qed.

(** Running other processes does not take [p] off the ready list. *)
Context (p : nat) (run_keeps : forall q s, q <> p ->
  p_state (procs s p) = RUNNABLE -> p_state (procs (run q s) p) = RUNNABLE).

Lemma table_ok_run q s1 :
  table_ok s1 ->
  table_ok (set_k_cur None (run q (upd_proc q (set_p_state RUNNING) (set_k_cur (Some q) s1)))).
Proof.
  intros (Hh & Hl & Hk).
  destruct (run_table q (upd_proc q (set_p_state RUNNING) (set_k_cur (Some q) s1)))
    as (Hh' & Hl' & Hk'); [|done].
  split; [done|]. split; [by rewrite length_upd_proc|]. intros r Hr.
  destruct (decide (q = r)) as [->|]; [by rewrite procs_upd_eq by (kred; lia)|].
  rewrite procs_upd_ne by done. by apply Hk.
Qed.

Lemma sched_loop_ok ps : forall s, table_ok s -> Forall (fun q => (q < NPROC)%nat) ps -> NoDup ps ->
  exists rs s', sched_loop run_handler run ps s = Ret rs s' /\ table_ok s' /\
    rs `sublist_of` ps /\ (p ∈ ps -> p_state (procs s p) = RUNNABLE -> p ∈ rs).
Proof.
  induction ps as [|q ps IH]; intros s Hok Hps Hnd; simpl.
  { exists [], s. split_and!; try done. }
  apply Forall_cons in Hps as [Hq Hps]. apply NoDup_cons in Hnd as [Hni Hnd].
  pose proof (sched_one_ok q s Hq Hok) as Hone. case_decide as Hr.
  - destruct Hone as (s1 & H1 & E). mstep E. set (s2 := set_k_cur None _).
    assert (table_ok s2) as Hok2 by (apply table_ok_run; by eapply table_ok_same).
    destruct (IH s2 Hok2 Hps Hnd) as (rs & s' & E2 & Hok' & Hsub & Hin). mstep E2.
    exists (q :: rs), s'. split; [done|]. split; [done|].
    split; [by constructor|]. intros [->|Hp]%elem_of_cons Hrun; [by left|right].
    apply Hin; [done|]. assert (q <> p) as Hne by (intros ->; done).
    change (procs s2 p) with (procs (run q (upd_proc q (set_p_state RUNNING)
      (set_k_cur (Some q) s1))) p).
    apply run_keeps; [done|]. rewrite procs_upd_ne by done.
    destruct H1 as (_ & _ & H1). destruct (H1 p) as (E1 & _); [|by rewrite <- Hrun].
    destruct Hok as (_ & -> & _). rewrite Forall_forall in Hps. by apply Hps.
  - mstep Hone. destruct (IH s Hok Hps Hnd) as (rs & s' & E2 & Hok' & Hsub & Hin). mstep E2.
    exists rs, s'. split_and!; [done..|by constructor|].
    intros [->|Hp]%elem_of_cons Hrun; [done|by apply Hin].
Qed.

End Fairness.

(** Three runnable processes that each go to sleep when they have run. *)
Definition demo_ready : kstate :=
  set_k_cur None (set_k_proc
    (replicate 3 (set_p_state RUNNABLE (set_p_kstack 0x80400000 (set_p_pgdir 0x80401000 inhabitant)))
      ++ replicate 61 inhabitant) (demo_kernel [] [])).

Definition demo_run (q : nat) (s : kstate) : kstate := upd_proc q (set_p_state SLEEPING) s.


(** ** [allocproc] and [kill] *)

(** The process [allocproc] makes of slot [x]. *)
Definition embryo (forkret_addr pid kstack : Z) (x : proc) : proc :=
  set_p_context (mk_context 0 0 0 0 forkret_addr) (set_p_kstack kstack
    (set_p_handlers (replicate NUMSIGNALS 0) (set_p_pending 0 (set_p_pid pid
      (set_p_state EMBRYO x))))).

Lemma allocproc_ok forkret_addr i page l s :
  L_ptable ∉ k_held s -> kmem_ready s -> free_pages s (page :: l) ->
  unused_slot (k_proc s) = Some i -> (i < length (k_proc s))%nat ->
  exists s', allocproc forkret_addr s = Ret (Some i) s' /\ free_pages s' l /\
    procs s' i = embryo forkret_addr (k_nextpid s) page (procs s i) /\
    (forall q, q <> i -> procs s' q = procs s q) /\
    k_nextpid s' = s32 (k_nextpid s + 1) /\ k_held s' = k_held s.
Proof.
  intros Hl Hm Hf Hu Hi. unfold allocproc. mstep (acquire_ok L_ptable s Hl). mrun. kred.
  rewrite Hu. mrun.
  set (s1 := upd_proc i _ (set_k_nextpid _ _)).
  mstep (release_ok L_ptable (k_held s) s1 eq_refl Hl).
  set (s2 := set_k_held (k_held s) s1).
  destruct (kalloc_pop page l s2 Hm Hf) as [E Hf']. mstep E. mrun.
  assert (page <> 0) as Hne.
  { destruct Hf as [_ (_ & Hp & _)]. by eapply is_page_nonzero. }
  rewrite (proj2 (Z.eqb_neq _ _) Hne). mrun.
  eexists. split; [done|]. split; [exact Hf'|]. split_and!; try done.
  - subst s2 s1. unfold procs, set_freelist, upd_proc. kred. rewrite !lookup_total_alter_eq by (rewrite ?length_alter; done). done.
  - intros q Hq. subst s2 s1. unfold procs, set_freelist, upd_proc. kred. by rewrite !lookup_total_alter_ne by done.
Qed.

(** The process [kill] makes of its target. *)
Definition killed (x : proc) : proc :=
  let x := set_p_killed true x in
  if decide (p_state x = SLEEPING) then set_p_state RUNNABLE x else x.

Lemma kill_ok pid i x s :
  L_ptable ∉ k_held s -> list_find (fun p => p_pid p = pid) (k_proc s) = Some (i, x) ->
  kill pid s = Ret 0 (upd_proc i killed s).
Proof.
  intros Hl Hf. unfold kill. mstep (acquire_ok L_ptable s Hl). mrun. kred. rewrite Hf. mrun.
  apply list_find_Some in Hf as (Hi & _).
  assert (forall f, (forall y, k_proc s !! i = Some y -> killed y = f (set_p_killed true y)) ->
    upd_proc i f (upd_proc i (set_p_killed true) s) = upd_proc i killed s) as Heq.
  { intros f Hy. unfold upd_proc. kred. rewrite set_k_proc_set. f_equal.
    rewrite alter_alter. symmetry. by apply list_alter_ext. }
  case_decide as Hs.
  - mrun. rewrite (bind_Ret _ _ _ _ _ (release_ok L_ptable (k_held s)
      (upd_proc i _ (upd_proc i _ (set_k_held _ s))) eq_refl Hl)).
    unfold ret. f_equal. rewrite <- (Heq (set_p_state RUNNABLE)); [destruct s; reflexivity|].
    intros y Hy. assert (y = x) as -> by congruence. unfold killed. simpl. by rewrite decide_True.
  - mrun. rewrite (bind_Ret _ _ _ _ _ (release_ok L_ptable (k_held s)
      (upd_proc i _ (set_k_held _ s)) eq_refl Hl)).
    unfold ret. f_equal. rewrite <- (Heq (fun x => x)).
    { unfold upd_proc. kred. rewrite (list_alter_id (fun x => x)) by done. destruct s; reflexivity. }
    intros y Hy. assert (y = x) as -> by congruence. unfold killed. simpl. by rewrite decide_False.
Qed.

Lemma find_state_alter f i tbl :
  (forall x, p_state x = UNUSED -> p_state (f x) = UNUSED) ->
  fst <$> list_find (fun p => p_state p = UNUSED) tbl = Some i ->
  fst <$> list_find (fun p => p_state p = UNUSED) (alter f i tbl) = Some i.
Proof.
  intros Hf ([j x] & E & ->)%fmap_Some. simpl in *. apply list_find_Some in E as (Hj & Hx & Hlt).
  apply fmap_Some. exists (j, f x). split; [|done]. apply list_find_Some. split_and!.
  - by rewrite list_lookup_alter_eq, Hj.
  - by apply Hf.
  - intros k y Hk Hkj. rewrite list_lookup_alter_ne in Hk by lia. by eapply Hlt.
Qed.

(** [kill] sets the killed flag of the process with the given pid and wakes
    it if it sleeps, and [kill(0)] finds the first free slot, whose pid is 0:
    it returns success, and because [allocproc] does not reset the flag, the
    next process allocated there is born killed. *)
Theorem kill_zero_poisons forkret_addr i page l s :
  L_ptable ∉ k_held s -> kmem_ready s -> free_pages s (page :: l) ->
  unused_slot (k_proc s) = Some i -> (i < length (k_proc s))%nat ->
  list_find (fun p => p_pid p = 0) (k_proc s) = Some (i, procs s i) ->
  exists s1 s2, kill 0 s = Ret 0 s1 /\ allocproc forkret_addr s1 = Ret (Some i) s2 /\
    p_killed (procs s2 i) = true /\ p_state (procs s2 i) = EMBRYO /\
    p_pid (procs s2 i) = k_nextpid s.
Proof.
  intros Hl Hm Hf Hu Hi Hfind. exists (upd_proc i killed s).
  pose proof (kill_ok 0 i _ s Hl Hfind) as Ek.
  assert (killed (procs s i) = set_p_killed true (procs s i)) as Hk.
  { unfold unused_slot in Hu. apply fmap_Some in Hu as ([j y] & Hy & ->). simpl in *.
    apply list_find_Some in Hy as (Hy & Hst & _). unfold killed.
    unfold procs. rewrite (list_lookup_total_correct _ _ _ Hy). simpl.
    rewrite decide_False; [done|]. congruence. }
  destruct (allocproc_ok forkret_addr i page l (upd_proc i killed s))
    as (s2 & Ea & _ & Hp & _); [done..| |by rewrite length_upd_proc|].
  { unfold unused_slot, upd_proc in *. kred. apply find_state_alter; [|done].
    intros x Hx. unfold killed. simpl. rewrite decide_False; [done|]. by rewrite Hx. }
  exists s2. split; [done|]. split; [done|]. rewrite Hp, procs_upd_eq, Hk by done. done.
Qed.

(** The demo process and one free page. *)
Definition demo_free : kstate := freed 0x80400000 (demo_kernel [] []).

Lemma kill_zero_poisons_witness :
  exists s1 s2, kill 0 demo_free = Ret 0 s1 /\ allocproc 0x80100000 s1 = Ret (Some 1%nat) s2 /\
    p_killed (procs s2 1) = true /\ p_state (procs s2 1) = EMBRYO /\
    p_pid (procs s2 1) = 4.
Proof.
  apply (kill_zero_poisons 0x80100000 1 0x80400000 [] demo_free);
    [by_eval|by_eval| |by_eval..].
  apply (kfree_push _ _ []); [split; [constructor|reflexivity]|by_eval..].
Defined.
