(* ===== verification/FdRefs.v ===== *)
(** File descriptors and reference counts.

    The reference count of an open file is the number of descriptors that name
    it, in the tables of all the processes, and of the references a system call
    in progress holds.  [refs_ok s ex] says so of a state in which [ex] is the
    list of the latter.  [filealloc], [filedup], [fileclose] and [fdalloc] each
    keep it with the references they hand out or take back, so [dup], [close]
    and the copy of the table in [fork] keep it too: no descriptor ever names a
    free entry, and an entry is freed when its last descriptor is closed. *)

From stdpp Require Import base list sets strings.
From Stdlib Require Import ZArith Lia.
From S2P Require Import Prelude State Demo CString Sched Kalloc Vm SysArgs Pipe Sleeplock Disk Bio Log Fs File Sysfile Proc.

Open Scope Z_scope.
Open Scope kernel_scope.

(** ** Counting *)

Definition count_refs (f : nat) (l : list nat) : nat := length (filter (fun g => g = f) l).

#[export] Instance count_refs_perm f : Proper ((≡ₚ) ==> eq) (count_refs f).
Proof. intros l l' H. unfold count_refs. by rewrite H. Qed.

Lemma count_refs_cons f g l : count_refs f (g :: l) = ((if decide (g = f) then 1 else 0) + count_refs f l)%nat.
Proof. unfold count_refs. rewrite filter_cons. by case_decide. Qed.

Lemma count_refs_in f l : f ∈ l <-> (0 < count_refs f l)%nat.
Proof.
  induction l as [|g l IH]; [split; [by intros ?%elem_of_nil|unfold count_refs; cbn; lia]|].
  rewrite elem_of_cons, count_refs_cons, IH. case_decide; subst; [split; [lia|by left]|]. split; [intros [->|]; [done|lia]|right; lia].
Qed.

(** The open files of a descriptor table, and all descriptors of the system. *)
Definition open_files (o : list (option nat)) : list nat := omap id o.
Definition descriptors (s : kstate) : list nat := concat (map (fun x => open_files (p_ofile x)) (k_proc s)).

Lemma open_files_insert o fd y z : o !! fd = Some y ->
  open_files (<[fd:=z]> o) ++ option_list y ≡ₚ open_files o ++ option_list z.
Proof.
  revert fd. induction o as [|x o IH]; intros fd Hy; [done|]. unfold open_files in *. destruct fd as [|fd].
  - injection Hy as ->. destruct y, z; cbn; rewrite ?app_nil_r; try done; rewrite <- ?Permutation_cons_append; try done. apply Permutation_swap.
  - specialize (IH fd Hy). change (<[S fd:=z]> (x :: o)) with (x :: <[fd:=z]> o). destruct x as [x|]; cbn; [|done]. by rewrite IH.
Qed.

Lemma concat_insert {A B} (g : A -> list B) l i x y : l !! i = Some x ->
  concat (map g (<[i:=y]> l)) ++ g x ≡ₚ concat (map g l) ++ g y.
Proof.
  revert i. induction l as [|z l IH]; intros i Hi; [done|]. destruct i as [|i]; cbn.
  - injection Hi as ->. rewrite <- !app_assoc, (Permutation_app_comm _ (g x)), (Permutation_app_comm _ (g y)), !app_assoc.
    by rewrite (Permutation_app_comm (g y)).
  - rewrite <- !app_assoc. by rewrite (IH i Hi).
Qed.

(** Setting descriptor [fd] of process [p]. *)
Definition with_ofile (p fd : nat) (y : option nat) (s : kstate) : kstate :=
  upd_proc p (fun x => set_p_ofile (<[fd := y]> (p_ofile x)) x) s.

Lemma alter_insert {A} (f : A -> A) (l : list A) (i : nat) x : l !! i = Some x -> alter f i l = <[i := f x]> l.
Proof. revert i. induction l as [|y l IH]; intros [|i] H; [done..|by injection H as ->|]. cbn. f_equal. by apply IH. Qed.

Lemma descriptors_set p fd y z s : (p < length (k_proc s))%nat -> p_ofile (procs s p) !! fd = Some y ->
  descriptors (with_ofile p fd z s) ++ option_list y ≡ₚ descriptors s ++ option_list z.
Proof.
  intros Hp Hy. assert (k_proc s !! p = Some (procs s p)) as Hl by by apply list_lookup_lookup_total_lt.
  unfold descriptors, with_ofile, upd_proc. cbn [k_proc set_k_proc]. rewrite (alter_insert _ _ _ _ Hl).
  set (x' := set_p_ofile _ _). pose proof (concat_insert (fun x => open_files (p_ofile x)) _ _ _ x' Hl) as H1.
  pose proof (open_files_insert _ _ _ z Hy) as H2. change (<[fd:=z]> (p_ofile (procs s p))) with (p_ofile x') in H2.
  apply (Permutation_app_inv_r (open_files (p_ofile (procs s p)))). cbn beta in H1.
  rewrite <- app_assoc, (Permutation_app_comm (option_list y)), app_assoc, H1, <- app_assoc, H2.
  by rewrite (Permutation_app_comm (open_files _)), app_assoc.
Qed.

(** ** The invariant *)

Record refs_ok (s : kstate) (ex : list nat) : Prop := {
  ro_size : length (k_ftable s) = NFILE;
  ro_ofile p : (p < length (k_proc s))%nat -> length (p_ofile (procs s p)) = NOFILE;
  ro_range f : f ∈ ex ++ descriptors s -> (f < NFILE)%nat;
  ro_count f : (f < NFILE)%nat -> f_ref (files s f) = Z.of_nat (count_refs f (ex ++ descriptors s)) }.

(** Moving a reference between a call and a descriptor. *)
Lemma refs_move s ex p fd y z ex' : refs_ok s ex -> (p < length (k_proc s))%nat -> p_ofile (procs s p) !! fd = Some y ->
  ex ++ option_list y ≡ₚ ex' ++ option_list z -> refs_ok (with_ofile p fd z s) ex'.
Proof.
  intros [R1 R2 R3 R4] Hp Hy He.
  assert (ex' ++ descriptors (with_ofile p fd z s) ≡ₚ ex ++ descriptors s) as H.
  { apply (Permutation_app_inv_r (option_list y)). rewrite <- app_assoc, (descriptors_set p fd y z s Hp Hy).
    rewrite (Permutation_app_comm (descriptors s)), app_assoc, <- He, <- !app_assoc.
    by rewrite (Permutation_app_comm (option_list y)). }
  split; [done| |intros f; rewrite H; apply R3|intros f Hf; rewrite H; by apply R4].
  intros q Hq. unfold with_ofile in *. rewrite length_upd_proc in Hq. destruct (decide (p = q)) as [<-|Hne].
  - rewrite procs_upd_eq by done. cbn. rewrite length_insert. by apply R2.
  - rewrite procs_upd_ne by done. by apply R2.
Qed.

Definition with_ref (f : nat) (d : Z) (s : kstate) : kstate := upd_file f (fun x => set_f_ref (f_ref x + d) x) s.

(** A count that goes up or down with the references. *)
Lemma refs_change s ex f g d ex' : refs_ok s ex -> (f < NFILE)%nat ->
  f_ref (g (files s f)) = f_ref (files s f) + d ->
  (forall x, x ∈ ex' ++ descriptors s -> (x < NFILE)%nat) ->
  (forall x, Z.of_nat (count_refs x (ex' ++ descriptors s)) =
    Z.of_nat (count_refs x (ex ++ descriptors s)) + if decide (x = f) then d else 0) ->
  refs_ok (upd_file f g s) ex'.
Proof.
  intros [R1 R2 R3 R4] Hf Hg Hr Hc. change (descriptors s) with (descriptors (upd_file f g s)) in *.
  split; [cbn; by rewrite length_alter|done|done|]. intros x Hx. rewrite Hc.
  change (descriptors (upd_file f g s)) with (descriptors s). rewrite <- R4 by done.
  unfold files, upd_file. cbn [k_ftable set_k_ftable]. case_decide as E.
  - subst x. rewrite lookup_total_alter_eq by (rewrite R1; done). exact Hg.
  - rewrite lookup_total_alter_ne by done. lia.
Qed.

Lemma refs_add s ex f : refs_ok s ex -> f ∈ ex ++ descriptors s -> refs_ok (with_ref f 1 s) (f :: ex).
Proof.
  intros Hr Hin. pose proof (ro_range _ _ Hr f Hin) as Hf. apply (refs_change s ex f _ 1); try done.
  - intros x [->|Hx]%elem_of_cons; [done|by apply (ro_range _ _ Hr)].
  - intros x. cbn [app]. rewrite count_refs_cons. repeat case_decide; subst; try done; lia.
Qed.

Lemma held_back h f g s : h = k_held s -> set_k_held h (upd_file f g (set_k_held (L_ftable :: h) s)) = upd_file f g s.
Proof. intros ->. by destruct s. Qed.

(** ** The operations *)

Lemma filedup_ok s f : L_ftable ∉ k_held s -> 1 <= f_ref (files s f) -> filedup f s = Ret f (with_ref f 1 s).
Proof.
  intros Hh Href. unfold filedup. mstep (acquire_ok _ _ Hh). mrun.
  change (files (set_k_held _ s) f) with (files s f). rewrite (proj2 (Z.ltb_ge _ _)) by lia. mrun.
  mstep (release_ok L_ftable (k_held s) (with_ref f 1 (set_k_held (L_ftable :: k_held s) s)) eq_refl Hh).
  unfold ret. f_equal; exact (held_back _ _ _ _ eq_refl).
Qed.

(** A file that somebody has open has a reference. *)
Lemma refs_pos s ex f : refs_ok s ex -> f ∈ ex ++ descriptors s -> 1 <= f_ref (files s f).
Proof.
  intros Hr Hin. rewrite (ro_count _ _ Hr f) by by apply (ro_range _ _ Hr). apply count_refs_in in Hin. lia.
Qed.

Lemma filealloc_refs s ex : refs_ok s ex -> L_ftable ∉ k_held s ->
  match ftable_free (k_ftable s) with
  | Some f => filealloc s = Ret (Some f) (upd_file f (set_f_ref 1) s) /\ refs_ok (upd_file f (set_f_ref 1) s) (f :: ex) /\
      f ∉ ex ++ descriptors s
  | None => filealloc s = Ret None s /\ forall f, (f < NFILE)%nat -> f ∈ ex ++ descriptors s
  end.
Proof.
  intros Hr Hh. unfold filealloc, ftable_free. destruct (list_find _ (k_ftable s)) as [[f x]|] eqn:E; cbn [fmap option_fmap option_map fst].
  - pose proof E as E'. apply list_find_Some in E as (Hf & H0 & _). pose proof (lookup_lt_Some _ _ _ Hf) as Hlt. rewrite (ro_size _ _ Hr) in Hlt.
    assert (files s f = x) as Hx by (unfold files; by apply list_lookup_total_correct).
    pose proof (ro_count _ _ Hr f Hlt) as Hc. rewrite Hx, H0 in Hc.
    assert (f ∉ ex ++ descriptors s) as Hin by (rewrite count_refs_in; lia).
    split_and!; [| |done].
    + mstep (acquire_ok _ _ Hh). mrun. cbn [k_ftable set_k_held]. rewrite E'. cbn [fmap option_fmap option_map fst]. mrun.
      mstep (release_ok L_ftable (k_held s) (upd_file f (set_f_ref 1) (set_k_held (L_ftable :: k_held s) s)) eq_refl Hh).
      unfold ret. f_equal; exact (held_back _ _ _ _ eq_refl).
    + apply (refs_change s ex f _ 1); [done|done|rewrite Hx, H0; done| |].
      * intros y [->|Hy]%elem_of_cons; [done|by apply (ro_range _ _ Hr)].
      * intros y. cbn [app]. rewrite count_refs_cons. repeat case_decide; subst; try done; lia.
  - split.
    + mstep (acquire_ok _ _ Hh). mrun. cbn [k_ftable set_k_held]. rewrite E. cbn [fmap option_fmap option_map].
      mstep (release_ok L_ftable (k_held s) (set_k_held (L_ftable :: k_held s) s) eq_refl Hh). unfold ret. f_equal. by destruct s.
    + intros f Hf. apply count_refs_in. pose proof (ro_count _ _ Hr f Hf) as Hc. apply list_find_None in E.
      assert (k_ftable s !! f = Some (files s f)) as Hlk by (apply list_lookup_lookup_total_lt; by rewrite (ro_size _ _ Hr)).
      pose proof (Forall_lookup_1 _ _ _ _ E Hlk) as Hne. cbn in Hne. lia.
Qed.

Section Close.
Context {D : DiskDriver}.

(** What [fileclose] does with the last reference, when the entry is free. *)
Definition close_last (ff : file) : K unit :=
  match f_type ff with
  | FD_PIPE => pipeclose (f_pipe ff) (f_writable ff)
  | FD_INODE => begin_op ;;; match f_ip ff with Some ip => iput ip | None => panic "trap" end ;;; end_op
  | FD_NONE => ret tt
  end.

(** [fileclose] gives a reference back; the entry is free exactly when it was
    the last one, and then the pipe end or the inode goes too. *)
Lemma fileclose_refs s ex f : refs_ok s (f :: ex) -> L_ftable ∉ k_held s ->
  exists s', refs_ok s' ex /\ descriptors s' = descriptors s /\ k_proc s' = k_proc s /\ k_held s' = k_held s /\
  fileclose f s = (if decide (f ∈ ex ++ descriptors s) then Ret tt s' else close_last (files s f) s') /\
  (f ∉ ex ++ descriptors s -> f_type (files s' f) = FD_NONE /\ f_ref (files s' f) = 0).
Proof.
  intros Hr Hh. pose proof (ro_range _ _ Hr f ltac:(by left)) as Hf. pose proof (ro_count _ _ Hr f Hf) as Hc.
  cbn [app] in Hc. rewrite count_refs_cons, decide_True in Hc by done.
  pose proof (count_refs_in f (ex ++ descriptors s)) as Hin. pose proof (ro_size _ _ Hr) as Hsz.
  assert (forall g, f_ref (g (files s f)) = f_ref (files s f) + -1 -> refs_ok (upd_file f g s) ex) as Hok.
  { intros g Hg. apply (refs_change s (f :: ex) f g (-1)); [done..|intros x Hx; apply (ro_range _ _ Hr); by right|].
    intros x. cbn [app]. rewrite count_refs_cons. repeat case_decide; subst; try done; lia. }
  assert (forall g, files (upd_file f g s) f = g (files s f)) as Hup.
  { intros g. unfold files, upd_file. cbn. by rewrite lookup_total_alter_eq by (rewrite Hsz; done). }
  unfold fileclose. mstep (acquire_ok _ _ Hh). mrun. change (files (set_k_held _ s) f) with (files s f).
  rewrite (proj2 (Z.ltb_ge _ _)) by lia. mrun.
  set (dec := fun x => set_f_ref (f_ref x - 1) x).
  change (files (upd_file f dec (set_k_held _ s)) f) with (files (upd_file f dec s) f). rewrite Hup.
  change (f_ref (dec (files s f))) with (f_ref (files s f) - 1). case_decide as Hd.
  - apply Hin in Hd. rewrite (proj2 (Z.ltb_lt _ _)) by lia. exists (upd_file f dec s). split_and!; try done.
    + apply Hok. cbn. lia.
    + rewrite (release_ok L_ftable (k_held s) (upd_file f dec (set_k_held (L_ftable :: k_held s) s)) eq_refl Hh).
      f_equal; exact (held_back _ _ _ _ eq_refl).
    + intros []. by apply Hin.
  - rewrite (proj2 (Z.ltb_ge _ _)) by (rewrite Hin in Hd; lia). mrun.
    set (free := fun x => set_f_type FD_NONE (set_f_ref 0 x)).
    exists (upd_file f free s). split_and!; try done.
    + apply Hok. cbn. rewrite Hin in Hd. lia.
    + mstep (release_ok L_ftable (k_held s) (upd_file f free (upd_file f dec (set_k_held (L_ftable :: k_held s) s))) eq_refl Hh).
      unfold close_last. cbn [dec set_f_ref f_type f_pipe f_writable f_ip].
      replace (set_k_held _ _) with (upd_file f free s); [done|]. destruct s. cbn. f_equal. unfold upd_file. cbn.
      by rewrite list_alter_alter_eq.
    + intros _. by rewrite Hup.
Qed.

(** ** The system calls *)

Lemma descriptor_in s p fd f : (p < length (k_proc s))%nat -> p_ofile (procs s p) !! fd = Some (Some f) -> f ∈ descriptors s.
Proof.
  intros Hp Hf. pose proof (descriptors_set p fd _ None s Hp Hf) as H. cbn [option_list] in H. rewrite app_nil_r in H.
  rewrite <- H. apply elem_of_app. right. by apply list_elem_of_singleton.
Qed.

(** The descriptor and the file that the argument [a] of a call names. *)
Definition open_fd (o : list (option nat)) (a : option Z) : option (nat * nat) :=
  match a with
  | Some fd => if (fd <? 0) || (Z.of_nat NOFILE <=? fd) then None
      else match o !!! Z.to_nat fd with Some f => Some (Z.to_nat fd, f) | None => None end
  | None => None
  end.

Context (s : kstate) (p : nat) (a : option Z).
Hypothesis (Hr : refs_ok s []) (Hcur : k_cur s = Some p) (Hp : (p < length (k_proc s))%nat).
Hypothesis (Hh : L_ftable ∉ k_held s) (Ha : argint 0 s = Ret a s).
Let o := p_ofile (procs s p).

Lemma curproc_ok : curproc s = Ret p s.
Proof using Hcur. unfold curproc, myproc. mrun. by rewrite Hcur. Qed.

Lemma argfd_ok : argfd 0 s = Ret (open_fd o a) s.
Proof using Hcur Ha.
  unfold argfd, open_fd. mstep Ha. destruct a as [fd|]; [|done]. mstep curproc_ok. destruct (_ || _); [done|]. mrun.
  fold o. by destruct (o !!! Z.to_nat fd).
Qed.

Lemma open_fd_lookup fd f : open_fd o a = Some (fd, f) -> o !! fd = Some (Some f).
Proof using Hr Hp.
  clear Ha. unfold open_fd. destruct a as [z|]; [|done]. destruct (Z.ltb_spec z 0); [done|]. destruct (Z.leb_spec (Z.of_nat NOFILE) z); [done|].
  cbn [orb]. destruct (o !!! Z.to_nat z) as [g|] eqn:E; [|done]. intros [= <- <-]. rewrite <- E.
  apply list_lookup_lookup_total_lt. unfold o. rewrite (ro_ofile _ _ Hr) by done. lia.
Qed.

(** [dup]: the lowest free descriptor names the file too, or -1. *)
Lemma sys_dup_refs :
  match open_fd o a, list_find (fun x => x = None) o with
  | Some (_, f), Some (fd, _) => exists s', sys_dup s = Ret (Z.of_nat fd) s' /\ refs_ok s' [] /\
      p_ofile (procs s' p) = <[fd := Some f]> o
  | _, _ => sys_dup s = Ret (-1) s
  end.
Proof using Hr Hcur Hp Hh Ha.
  unfold sys_dup. mstep argfd_ok. destruct (open_fd o a) as [[fd0 f]|] eqn:Efd; [|by destruct (list_find (fun x => x = None) o)].
  apply open_fd_lookup in Efd. unfold fdalloc. mrun. mstep curproc_ok. mrun. fold o.
  destruct (list_find (fun x => x = None) o) as [[fd y]|] eqn:Ef; [|done].
  apply list_find_Some in Ef as (Hy & -> & _). unfold set_ofile. mrun. change (upd_proc p _ s) with (with_ofile p fd (Some f) s).
  rewrite (proj2 (Z.ltb_ge _ _)) by lia. pose proof (descriptor_in s p fd0 f Hp Efd) as Hin.
  mstep (filedup_ok (with_ofile p fd (Some f) s) f Hh (refs_pos s [] f Hr Hin)). eexists. split_and!; [done| |].
  - change (with_ref f 1 (with_ofile p fd (Some f) s)) with (with_ofile p fd (Some f) (with_ref f 1 s)).
    by apply (refs_move _ [f] p fd None); [apply refs_add|..].
  - change (procs (with_ref f 1 ?x) p) with (procs x p). unfold with_ofile. by rewrite procs_upd_eq.
Qed.

(** [close]: the descriptor is free; the file too if it was the last one. *)
Lemma sys_close_refs :
  match open_fd o a with
  | Some (fd, f) => exists s', refs_ok s' [] /\ p_ofile (procs s' p) = <[fd := None]> o /\
      sys_close s = (_ <- (if decide (f ∈ descriptors s') then ret tt else close_last (files s f)) ;; ret 0) s' /\
      (f ∉ descriptors s' -> f_type (files s' f) = FD_NONE /\ f_ref (files s' f) = 0)
  | None => sys_close s = Ret (-1) s
  end.
Proof using Hr Hcur Hp Hh Ha.
  unfold sys_close. mstep argfd_ok. destruct (open_fd o a) as [[fd f]|] eqn:Efd; [|done].
  apply open_fd_lookup in Efd. mstep curproc_ok. unfold set_ofile. mrun. change (upd_proc p _ s) with (with_ofile p fd None s).
  assert (refs_ok (with_ofile p fd None s) [f]) as Hr1 by by apply (refs_move s [] p fd (Some f)).
  destruct (fileclose_refs _ [] f Hr1 Hh) as (s' & Hok & Hd & Hpr & _ & E & Hfree). cbn [app] in E, Hfree.
  exists s'. rewrite Hd. split_and!; [done| | |done].
  - unfold procs. rewrite Hpr. change (k_proc (with_ofile p fd None s) !!! p) with (procs (with_ofile p fd None s) p).
    unfold with_ofile. by rewrite procs_upd_eq.
  - unfold bind. rewrite E. by case_decide.
Qed.

(** The loop of [fork]: the child has the parent's descriptors. *)
Lemma fork_file_refs t np i y : refs_ok t [] -> L_ftable ∉ k_held t -> (np < length (k_proc t))%nat -> (p < length (k_proc t))%nat ->
  p_ofile (procs t p) !! i = Some y -> p_ofile (procs t np) !! i = Some None ->
  exists t', fork_file p np i t = Ret tt t' /\ refs_ok t' [] /\ k_held t' = k_held t /\ length (k_proc t') = length (k_proc t) /\
    p_ofile (procs t' np) = <[i := y]> (p_ofile (procs t np)) /\ forall q, q <> np -> procs t' q = procs t q.
Proof using.
  intros Rt Ht Hnp Hpp Hy Hn. unfold fork_file. mrun. rewrite (list_lookup_total_correct _ _ _ Hy). destruct y as [f|].
  - pose proof (descriptor_in t p i f Hpp Hy) as Hin. mstep (filedup_ok t f Ht (refs_pos t [] f Rt Hin)).
    exists (with_ofile np i (Some f) (with_ref f 1 t)). split_and!; try done.
    + by apply (refs_move _ [f] np i None); [apply refs_add|..].
    + unfold with_ofile. by rewrite length_upd_proc.
    + unfold with_ofile. by rewrite procs_upd_eq.
    + intros q Hq. unfold with_ofile. by rewrite procs_upd_ne.
  - exists t. split_and!; try done. by rewrite list_insert_id.
Qed.

Lemma fork_files_from np n : forall i t, refs_ok t [] -> L_ftable ∉ k_held t -> (np < length (k_proc t))%nat ->
  (p < length (k_proc t))%nat -> np <> p -> procs t p = procs s p -> (i + n = NOFILE)%nat ->
  p_ofile (procs t np) = take i o ++ replicate n None ->
  exists t', mfor (fork_file p np) (seq i n) t = Ret tt t' /\ refs_ok t' [] /\ p_ofile (procs t' np) = o /\
    forall q, q <> np -> procs t' q = procs t q.
Proof using Hr Hp.
  pose proof (ro_ofile _ _ Hr p Hp) as Hlo. fold o in Hlo.
  induction n as [|n IH]; intros i t Rt Ht Hnp Hpp Hne Hps Hi Hof; cbn [seq mfor].
  { exists t. split_and!; try done. rewrite Hof, app_nil_r. apply firstn_all2. lia. }
  assert (length (take i o) = i) as Hti by (rewrite length_take; lia).
  destruct (lookup_lt_is_Some_2 o i ltac:(lia)) as [y Hy].
  destruct (fork_file_refs t np i y Rt Ht Hnp Hpp) as (t1 & E & R1 & H1 & L1 & O1 & Q1).
  - by rewrite Hps.
  - rewrite Hof. by apply list_lookup_middle.
  - mstep E. destruct (IH (S i) t1) as (t' & E' & R' & O' & Q'); try done; [by rewrite H1|by rewrite L1..|by rewrite Q1|lia| |].
    + rewrite O1, Hof, insert_app_r_alt, Hti, Nat.sub_diag by lia. rewrite (take_S_r _ _ _ Hy), <- app_assoc. done.
    + exists t'. split_and!; try done. intros q Hq. by rewrite Q', Q1.
Qed.
End Close.

(** C24: descriptors are references.  In a state in which the count of every open file is
    the number of descriptors that name it, and a file is open exactly when its
    count is positive: [dup] gives the lowest free descriptor to the same file or
    returns -1 and changes nothing; [close] frees the descriptor, and the file when
    no descriptor names it any more, before the pipe or the inode is let go; the
    loop of [fork] gives the child the parent's descriptors.  The counts are right
    after each of them. *)
Theorem descriptors_counted {D : DiskDriver} (s : kstate) (p np : nat) (a : option Z) :
  refs_ok s [] -> k_cur s = Some p -> (p < length (k_proc s))%nat -> L_ftable ∉ k_held s -> argint 0 s = Ret a s ->
  np <> p -> (np < length (k_proc s))%nat -> p_ofile (procs s np) = replicate NOFILE None ->
  let o := p_ofile (procs s p) in
  match open_fd o a, list_find (fun x => x = None) o with
  | Some (_, f), Some (fd, _) => exists s', sys_dup s = Ret (Z.of_nat fd) s' /\ refs_ok s' [] /\
      p_ofile (procs s' p) = <[fd := Some f]> o
  | _, _ => sys_dup s = Ret (-1) s
  end /\
  match open_fd o a with
  | Some (fd, f) => exists s', refs_ok s' [] /\ p_ofile (procs s' p) = <[fd := None]> o /\
      sys_close s = (_ <- (if decide (f ∈ descriptors s') then ret tt else close_last (files s f)) ;; ret 0) s' /\
      (f ∉ descriptors s' -> f_type (files s' f) = FD_NONE /\ f_ref (files s' f) = 0)
  | None => sys_close s = Ret (-1) s
  end /\
  exists s', mfor (fork_file p np) (seq 0 NOFILE) s = Ret tt s' /\ refs_ok s' [] /\ p_ofile (procs s' np) = o /\
    forall q, q <> np -> procs s' q = procs s q.
Proof.
  intros Hr Hcur Hp Hh Ha Hne Hnp Hof o. split; [by apply sys_dup_refs|]. split; [by apply sys_close_refs|].
  by apply (fork_files_from s p Hr Hp np NOFILE 0).
Qed.

(** The invariant, evaluated. *)
Definition refs_check (s : kstate) : bool :=
  (length (k_ftable s) =? NFILE)%nat &&
  forallb (fun x => length (p_ofile x) =? NOFILE)%nat (k_proc s) &&
  forallb (fun f => f <? NFILE)%nat (descriptors s) &&
  forallb (fun f => f_ref (files s f) =? Z.of_nat (count_refs f (descriptors s))) (seq 0 NFILE).

Lemma refs_check_ok s : refs_check s = true -> refs_ok s [].
Proof.
  unfold refs_check. rewrite !andb_true_iff, !forallb_forall. intros (((H1 & H2) & H3) & H4). split.
  - by apply Nat.eqb_eq.
  - intros p Hp. apply Nat.eqb_eq, H2, list_elem_of_In, list_elem_of_lookup_2 with p. by apply list_lookup_lookup_total_lt.
  - intros f Hf. by apply Nat.ltb_lt, H3, list_elem_of_In.
  - intros f Hf. apply Z.eqb_eq, H4, in_seq. lia.
Qed.

(** A process with descriptors 0 and 2 open on one file, and a free slot. *)
Definition demo_fds : kstate :=
  upd_file 3 (fun x => set_f_ref 2 (set_f_type FD_INODE x))
    (upd_proc 0 (set_p_ofile (Some 3%nat :: None :: Some 3%nat :: replicate 13 None)) (demo_kernel [0] [])).

Definition result {A} (o : outcome kstate A) : option A := match o with Ret v _ => Some v | _ => None end.

Lemma argint_result n s v : result (argint n s) = Some v -> argint n s = Ret v s.
Proof. destruct (argint n s) as [w s'| | |] eqn:E; [|done..]. intros [= <-]. by rewrite (argint_pure _ _ _ _ E). Qed.

Lemma descriptors_counted_witness :
  (exists s', sys_dup demo_fds = Ret 1 s' /\ refs_ok s' [] /\
     p_ofile (procs s' 0) = Some 3%nat :: Some 3%nat :: Some 3%nat :: replicate 13 None) /\
  (exists s', refs_ok s' [] /\ p_ofile (procs s' 0) = None :: None :: Some 3%nat :: replicate 13 None /\
     sys_close (D := memide) demo_fds =
       (_ <- (if decide (3%nat ∈ descriptors s') then ret tt else close_last (files demo_fds 3)) ;; ret 0) s') /\
  exists s', mfor (fork_file 0 1) (seq 0 NOFILE) demo_fds = Ret tt s' /\ refs_ok s' [].
Proof.
  destruct (descriptors_counted (D := memide) demo_fds 0 1 (Some 0)) as (H1 & H2 & s' & E & R & _).
  - apply refs_check_ok. by vm_compute.
  - reflexivity.
  - apply Nat.ltb_lt. by vm_compute.
  - apply not_elem_of_nil.
  - apply argint_result. by vm_compute.
  - done.
  - apply Nat.ltb_lt. by vm_compute.
  - reflexivity.
  - split; [exact H1|]. split; [|exists s'; exact (conj E R)]. destruct H2 as (s2 & R2 & O2 & E2 & _). exists s2. exact (conj R2 (conj O2 E2)).
Defined.
