(* ===== verification/Userinit.v ===== *)
(** The first process: [userinit] of proc.c with [inituvm] of vm.c.

    The theorem says what the scheduler finds: a runnable process whose page 0
    holds the code of initcode.S, with the registers to enter it and the root
    directory as its working directory. *)

From stdpp Require Import base list sets strings.
From Stdlib Require Import ZArith Lia.
From S2P Require Import Prelude State Demo CString Sched Cons Kalloc Vm PageTable Freevm Kvm Uvm Allocuvm.
From S2P Require Import Pipe Sleeplock Disk Bio Log Fs Inode File Proc.

Open Scope Z_scope.
Open Scope kernel_scope.

(** ** Writing to a page that is neither free nor a table *)

Lemma vm_write s d l q m' : vm_ok s d l -> q ∉ l -> ~ owned (k_mem s) d q ->
  (forall q', is_page (k_end s) q' -> q' <> q -> agree (k_mem s) m' q') ->
  vm_ok (set_k_mem m' s) d l /\ (forall va, 0 <= va -> entry m' d va = entry (k_mem s) d va) /\
  (forall q', owned m' d q' <-> owned (k_mem s) d q').
Proof.
  intros [Hr [Hnd Hch] Hwf] Hl Ho Hag.
  destruct (pt_agree (k_mem s) m' (k_end s) d l Hwf) as (Hwf' & He & Ho').
  { intros q' Hq'. apply Hag; [by eapply owned_used|]. by intros ->. }
  split; [|done]. split; [exact Hr| |exact Hwf']. split; [done|].
  eapply chain_ext; [|exact Hch]. intros q' x Hq' Hp Hx. apply (Hag q'); [done| |done]. by intros ->.
Qed.

Lemma uvm_write s d l q m' : uvm_ok s d l -> q ∉ l -> ~ owned (k_mem s) d q ->
  (forall q', is_page (k_end s) q' -> q' <> q -> agree (k_mem s) m' q') ->
  uvm_ok (set_k_mem m' s) d l /\ (forall va, 0 <= va -> entry m' d va = entry (k_mem s) d va) /\
  (forall q', pages m' d l q' <-> pages (k_mem s) d l q').
Proof.
  intros Hu Hl Ho Hag. destruct (vm_write s d l q m' (uvm_vm _ _ _ Hu) Hl Ho Hag) as (Hvm & He & Ho').
  destruct (uvm_ok_sub s (set_k_mem m' s) d l l Hu Hvm eq_refl (fun va Hva => He va (proj1 Hva)) Ho' ltac:(done)) as [Hu' Hup].
  split; [done|]. split; [done|]. intros q'. unfold pages. by rewrite Ho', <- Hup.
Qed.

(** ** [inituvm] *)

(** An address space with the bytes [init] at 0 and zeros up to the end of the
    page, and no other user page. *)
Record first_page (m : Z -> Z) (d : Z) (init : list Z) : Prop := {
  fp_page va : 0 <= va < PGSIZE -> exists pa, mmu m d va = Some pa /\ m pa = default 0 (init !! Z.to_nat va) /\
    PTE_FLAGS (entry m d va) = Z.lor (Z.lor PTE_P PTE_W) PTE_U;
  fp_rest va : PGSIZE <= va < KERNBASE -> mmu m d va = None;
  fp_kernel va : KERNBASE <= va < 2 ^ 32 -> mmu m d va = kernel_map va }.

(** The byte at [va] of a zero page over which [init] was written. *)
Lemma first_page_byte s1 d p init m2 va : m2 = upd_list (k_mem s1) (V2P p) init -> is_page (k_end s1) p ->
  zero_at (k_mem s1) d va -> 0 <= va < PGSIZE -> (forall va, 0 <= va -> entry m2 d va = entry (k_mem s1) d va) ->
  PTE_ADDR (entry (k_mem s1) d va) = V2P p ->
  exists pa, mmu m2 d va = Some pa /\ m2 pa = default 0 (init !! Z.to_nat va) /\
    PTE_FLAGS (entry m2 d va) = Z.lor (Z.lor PTE_P PTE_W) PTE_U.
Proof.
  intros -> Hp (pa & E1 & E2 & E3) Hva He Epg. exists pa. rewrite He by lia. rewrite (mmu_same (k_mem s1)) by (apply He; lia).
  split; [done|]. split; [|done]. rewrite mmu_entry in E1. destruct (has _ _); [|done].
  rewrite (Z.mod_small va), Epg in E1 by done. injection E1 as <-.
  destruct (init !! Z.to_nat va) as [c|] eqn:Ec; cbn [default from_option id].
  - apply upd_list_in; [lia|]. replace (V2P p + va - V2P p) with va by lia. done.
  - rewrite upd_list_out; [done|]. apply lookup_ge_None in Ec. lia.
Qed.

Lemma inituvm_ok s d p l init : uvm_ok s d (p :: l) -> l <> [] ->
  (forall va, 0 <= va < 2 ^ 32 -> mmu (k_mem s) d va = kernel_map va) ->
  Z.of_nat (length init) < PGSIZE ->
  exists s' l', inituvm d init s = Ret tt s' /\ uvm_ok s' d l' /\ first_page (k_mem s') d init /\
    (forall q, pages (k_mem s') d l' q <-> pages (k_mem s) d (p :: l) q) /\
    (forall q, is_page (k_end s) q -> ~ pages (k_mem s) d (p :: l) q -> agree (k_mem s) (k_mem s') q) /\
    only_mem s s'.
Proof.
  intros Hu Hne Hk Hlen. unfold inituvm. rewrite (proj2 (Z.leb_gt _ _) Hlen).
  assert (forall va, 0 <= va < KERNBASE -> mmu (k_mem s) d va = None) as Hnone.
  { intros va Hva. rewrite Hk by (unfold KERNBASE in *; lia). by apply kernel_map_user. }
  pose proof (vm_free _ _ _ (uvm_vm _ _ _ Hu)) as [Hnd (_ & Hp & _)].
  destruct (take_page d p l s (memset (k_mem s) (V2P p) 0 PGSIZE) 0 (Z.lor PTE_W PTE_U) Hu) as (Ek & Hp0 & Hcase);
    [intros q Hq Hn; by apply (memset_page_agree _ (k_end s))|done|done|done|apply page_off_mmu, Hnone; done|].
  destruct Hcase as [(? & ? & _)|(s1 & l1 & Em & Hadd)]; [done|].
  pose proof (added_zero d s s1 0 p l l1 Hu ltac:(done) ltac:(done) Hadd) as Hz.
  pose proof Hadd as [Pu Pe Pp Pn Pf Po]. pose proof (only_mem_end _ _ Po) as Ee.
  set (m2 := upd_list (k_mem s1) (V2P p) init).
  assert (forall q', is_page (k_end s1) q' -> q' <> p -> agree (k_mem s1) m2 q') as Hag.
  { intros q' Hq' Hn x Hx. apply upd_list_out. rewrite Ee in Hq'.
    destruct (pages_apart (k_end s) p q' Hp Hq'); [by apply not_eq_sym|lia|lia]. }
  assert (forall va, 0 <= va < PGSIZE -> PTE_ADDR (entry (k_mem s1) d va) = V2P p) as Ead.
  { intros va Hva. rewrite Pe, decide_True by (unfold PGSIZE in *; lia). destruct (V2P_range _ _ Hp) as [Hr Ha].
    by destruct (mk_pte_spec (V2P p) (Z.lor PTE_W PTE_U) Ha Hr ltac:(done)) as (_ & _ & ->). }
  assert (page_at (k_mem s1) d 0 = p) as Epg by (unfold page_at; rewrite Ead by done; by eapply P2V_V2P).
  destruct (uvm_page _ _ _ Pu 0) as (_ & Hpl & Hpo & _).
  { split; [done|]. destruct (Hz 0 ltac:(unfold PGSIZE; lia)) as (pa & E & _). rewrite mmu_entry in E. by destruct (has _ _). }
  rewrite Epg in Hpl, Hpo. destruct (uvm_write s1 d l1 p m2 Pu Hpl Hpo Hag) as (Hu2 & He2 & Hp2).
  exists (set_k_mem m2 s1), l1. split_and!; [|done| | | |].
  - mstep Ek. rewrite (proj2 (Z.eqb_neq _ _) Hp0). rewrite (bind_Ret _ _ _ _ _ (modify_eq _ _)).
    rewrite (bind_Ret _ _ _ _ _ Em). done.
  - assert (forall va, 0 <= va < 2 ^ 32 -> mmu m2 d va = mmu (k_mem s1) d va) as Hm2 by (intros va Hva; apply mmu_same, He2; lia).
    assert (forall va, PGSIZE <= va < 2 ^ 32 -> mmu m2 d va = kernel_map va) as Hout.
    { intros va Hva. rewrite Hm2 by (unfold PGSIZE in *; lia). rewrite <- Hk by (unfold PGSIZE in *; lia).
      apply mmu_same. rewrite Pe, decide_False by (unfold PGSIZE in *; lia). done. }
    split; change (k_mem (set_k_mem m2 s1)) with m2.
    + intros va Hva. apply (first_page_byte s1 d p init m2); [done|by rewrite Ee|apply Hz; lia|done..|by apply Ead].
    + intros va Hva. rewrite Hout by (unfold KERNBASE in *; lia). apply kernel_map_user. unfold PGSIZE in *. lia.
    + intros va Hva. apply Hout. unfold KERNBASE, PGSIZE in *. lia.
  - intros q. by rewrite Hp2, Pp.
  - intros q Hq Hn x Hx. rewrite (Hag q); [|by rewrite Ee| |done].
    + apply (Pf q); [done| | |done]; [|intros Hc; apply Hn, Pp; right; by left]. intros ->. apply Hn. left. by left.
    + intros ->. apply Hn. left. by left.
  - eapply only_mem_trans; [done|]. unfold only_mem. kred. by destruct s1 as [? []].
Qed.

(** ** Transporting address spaces *)

Lemma vm_ok_proj s s' d l : k_mem s' = k_mem s -> k_kmem s' = k_kmem s -> k_end s' = k_end s -> k_held s' = k_held s ->
  vm_ok s d l -> vm_ok s' d l.
Proof.
  intros E1 E2 E3 E4 [H1 H2 H3]. split; [by unfold kmem_ready; rewrite E4| |by rewrite E1, E3].
  unfold free_pages. by rewrite E1, E2, E3.
Qed.

Lemma uvm_ok_proj s s' d l : k_mem s' = k_mem s -> k_kmem s' = k_kmem s -> k_end s' = k_end s -> k_held s' = k_held s ->
  uvm_ok s d l -> uvm_ok s' d l.
Proof.
  intros E1 E2 E3 E4 [H1 H2 H3 H4]. split; [by rewrite E3|by apply (vm_ok_proj s)|rewrite E1, ?E3; done|by rewrite E1].
Qed.

(** ** [allocproc] and [namei] *)

Section First.
Context {D : DiskDriver} {V : DevSw} (forkret_addr : Z).

Lemma allocproc_state i page l s :
  L_ptable ∉ k_held s -> kmem_ready s -> free_pages s (page :: l) ->
  unused_slot (k_proc s) = Some i ->
  allocproc forkret_addr s = Ret (Some i) (upd_proc i (embryo forkret_addr (k_nextpid s) page)
    (set_k_nextpid (s32 (k_nextpid s + 1)) (set_freelist (load32 page s) s))).
Proof.
  intros Hl Hm Hf Hu. unfold allocproc. mstep (acquire_ok L_ptable s Hl). mrun. kred. rewrite Hu. mrun.
  set (s1 := upd_proc i _ (set_k_nextpid _ _)).
  mstep (release_ok L_ptable (k_held s) s1 eq_refl Hl).
  destruct (kalloc_pop page l (set_k_held (k_held s) s1) Hm Hf) as [E Hf']. mstep E. mrun.
  assert (page <> 0) as Hne by (destruct Hf as [_ (_ & Hp & _)]; by eapply is_page_nonzero).
  rewrite (proj2 (Z.eqb_neq _ _) Hne). mrun. unfold ret. f_equal.
  subst s1. unfold upd_proc, set_freelist. kred. rewrite !alter_alter. by destruct s.
Qed.

(** The path "/". *)
Lemma namei_root s : icache_ok (k_icache s) -> L_icache ∉ k_held s ->
  (exists ip x, k_icache s !! ip = Some x /\ i_ref x = 0) ->
  exists ip t x, namei [47] s = Ret (Some ip) (set_k_icache t s) /\ icache_ok t /\
    t !! ip = Some x /\ i_dev x = ROOTDEV /\ i_inum x = ROOTINO /\ 0 < i_ref x.
Proof.
  intros Hok Hl (jp & y & Hy & Hr). unfold namei, namex.
  change (bool_decide (head [47] = Some 47)) with true. cbn match.
  destruct (iget_ok ROOTDEV ROOTINO s Hok Hl) as [(ip & t & E & Hok' & (x & Hx & Hd & Hn & Hp & _) & _)|(_ & Hall & _)].
  - exists ip, t, x. split; [|done]. rewrite bind_assoc. mstep E. reflexivity.
  - specialize (Hall jp y Hy). lia.
Qed.

(** The slot of the first process. *)
Definition init_tf : trapframe :=
  let ds := Z.lor (Z.shiftl SEG_UDATA 3) DPL_USER in
  mk_trapframe 0 0 0 0 0 0 0 0 0 0 ds ds 0 0 0 (Z.lor (Z.shiftl SEG_UCODE 3) DPL_USER) FL_IF PGSIZE ds.

Definition init_proc (pid kstack pgdir : Z) (cwd : option nat) (x : proc) : proc :=
  let x := set_p_tf init_tf (set_p_sz PGSIZE (set_p_pgdir pgdir (embryo forkret_addr pid kstack x))) in
  set_p_state RUNNABLE (set_p_cwd cwd (set_p_name (safestrcpy (p_name x) (arr (bytes_of "initcode")) 16) x)).

(** What [userinit] leaves: the process [i] with the address space [pgdir],
    made of the pages [l]; only the named variables change. *)
Record first_process (s s' : kstate) (init : list Z) (i : nat) (kstack pgdir : Z) (l l' : list Z) : Prop := {
  fr_uvm : uvm_ok s' pgdir l';
  fr_page : first_page (k_mem s') pgdir init;
  fr_pages q : pages (k_mem s') pgdir l' q <-> q ∈ l;
  fr_frame q : is_page (k_end s) q -> q ∉ l -> agree (k_mem s) (k_mem s') q;
  fr_root : exists ip x, k_icache s' !! ip = Some x /\ i_dev x = ROOTDEV /\ i_inum x = ROOTINO /\ 0 < i_ref x /\
    k_proc s' = alter (init_proc (k_nextpid s) kstack pgdir (Some ip)) i (k_proc s);
  fr_only : s' = set_k_mem (k_mem s') (set_k_kmem (set_km_freelist (km_freelist (k_kmem s')) (k_kmem s)) (set_k_proc (k_proc s')
    (set_k_icache (k_icache s') (set_k_nextpid (s32 (k_nextpid s + 1)) (set_k_initproc (Some i) s))))) }.

Lemma userinit_ok s init i kstack p l :
  KERNBASE < k_end s -> L_ptable ∉ k_held s -> L_icache ∉ k_held s -> kmem_ready s -> free_pages s (kstack :: p :: l) ->
  (KVM_PAGES < length l)%nat -> k_data s mod PGSIZE = 0 -> KERNLINK < k_data s < KERNBASE + PHYSTOP ->
  unused_slot (k_proc s) = Some i -> icache_ok (k_icache s) -> (exists ip x, k_icache s !! ip = Some x /\ i_ref x = 0) ->
  Z.of_nat (length init) < PGSIZE ->
  exists s' l', userinit forkret_addr init s = Ret tt s' /\ first_process s s' init i kstack p (p :: l) l'.
Proof using.
  intros Hend Hpt Hic Hr Hf Hlen Hal Hd Hu Hok Hfree Hinit. unfold userinit.
  mstep (allocproc_state i kstack (p :: l) s Hpt Hr Hf Hu). mrun. kred.
  destruct (kalloc_pop _ _ _ Hr Hf) as [_ Hf1].
  set (s1 := set_k_initproc (Some i) (upd_proc i (embryo forkret_addr (k_nextpid s) kstack)
    (set_k_nextpid (s32 (k_nextpid s + 1)) (set_freelist (load32 kstack s) s)))).
  destruct (setupkvm_ok s1 p l Hend Hr Hf1 Hal Hd) as [(s2 & l2 & E & _ & Hk)|(s2 & _ & _ & Hc)]; [|simpl in Hc; lia].
  mstep E. mrun. rewrite (proj2 (Z.eqb_neq _ _)) by (destruct Hf1 as [_ (_ & Hp & _)]; by eapply is_page_nonzero).
  set (s3 := upd_proc i (set_p_pgdir p) s2).
  pose proof (kvm_made_copied s1 p s2 p l l2 Hend Hk) as [[Hu2 Hp2 Hf2 Ho2] _ _ _].
  assert (uvm_ok s3 p l2) as Hu3 by (by apply (uvm_ok_proj s2)).
  destruct l2 as [|p2 l2]; [pose proof (km_used _ _ _ _ _ Hk) as Hu'; cbn [length] in Hu'; lia|].
  destruct (inituvm_ok s3 p p2 l2 init Hu3) as (s4 & l4 & E4 & Hu4 & Hfp & Hp4 & Hf4 & Ho4); [|apply Hk|done|].
  { intros ->. pose proof (km_used _ _ _ _ _ Hk) as Hu'. cbn [length] in Hu'. lia. }
  mstep E4. mrun.
  assert (k_icache s4 = k_icache s) as Ei by exact (eq_trans (f_equal k_icache Ho4) (f_equal k_icache Ho2)).
  assert (k_held s4 = k_held s) as Eh by exact (eq_trans (f_equal k_held Ho4) (f_equal k_held Ho2)).
  assert (k_proc s2 = k_proc s1) as Ep2 by exact (f_equal k_proc Ho2).
  set (s5 := upd_proc i _ (upd_proc i _ s4)).
  destruct (namei_root s5) as (ip & t & x & E5 & Hok5 & Hx); [by rewrite <- Ei in Hok|by rewrite <- Eh in Hic|by rewrite <- Ei in Hfree|].
  mstep E5. mrun. set (s6 := upd_proc i _ _). assert (L_ptable ∉ k_held s6) as Hpt6 by (by rewrite <- Eh in Hpt).
  mstep (acquire_ok L_ptable s6 Hpt6). mrun.
  erewrite (release_ok L_ptable (k_held s6)); [|reflexivity|done].
  eexists _, l4. split; [reflexivity|]. split.
  - eapply (uvm_ok_proj s4); [reflexivity..|exact Hu4].
  - exact Hfp.
  - intros q. etransitivity; [apply Hp4|]. apply Hp2.
  - intros q Hq Hl y Hy. transitivity (k_mem s3 y).
    + apply (Hf4 q); [|by rewrite <- Hp2 in Hl|done]. by change (k_end s3) with (k_end s2); rewrite (only_mem_end _ _ Ho2).
    + by apply (Hf2 q).
  - exists ip, x. destruct Hx as (Hx & ? & ? & ?). split_and!; [exact Hx|done..|].
    subst s6 s5. unfold upd_proc. kred. rewrite (f_equal k_proc Ho4 : k_proc s4 = k_proc s3).
    unfold s3, upd_proc. kred. rewrite Ep2. unfold s1, upd_proc. kred. by rewrite !alter_alter.
  - subst s6 s5. unfold upd_proc. kred. rewrite Ho4. kred. unfold s3, upd_proc. kred. rewrite Ho2. by kred.
Qed.
End First.
