(* ===== verification/Kbd.v ===== *)
(** The keyboard, kbd.c and the tables of kbd.h.

    [kbdgetc] is a function of the byte the controller delivers ([None] when it
    has none) and of its static variable [shift]. *)

From stdpp Require Import base list.
From Stdlib Require Import ZArith Lia.
From S2P Require Import Prelude.

Definition SHIFT : Z := 1.
Definition CTL : Z := 2.
Definition ALT : Z := 4.
Definition CAPSLOCK : Z := 8.
Definition NUMLOCK : Z := 16.
Definition SCROLLLOCK : Z := 32.
Definition E0ESC : Z := 64.

(** ** Tables

    An array indexed by scan code; the rows below 0x60 are a list. *)

Definition shiftcode (c : Z) : Z :=
  if c =? 0x1D then CTL else
  if c =? 0x2A then SHIFT else
  if c =? 0x36 then SHIFT else
  if c =? 0x38 then ALT else
  if c =? 0x9D then CTL else
  if c =? 0xB8 then ALT else
  0.

Definition togglecode (c : Z) : Z :=
  if c =? 0x3A then CAPSLOCK else
  if c =? 0x45 then NUMLOCK else
  if c =? 0x46 then SCROLLLOCK else
  0.

Definition normalmap_low : list Z :=
  [ 0; 27; 49; 50; 51; 52; 53; 54;
    55; 56; 57; 48; 45; 61; 8; 9;
    113; 119; 101; 114; 116; 121; 117; 105;
    111; 112; 91; 93; 10; 0; 97; 115;
    100; 102; 103; 104; 106; 107; 108; 59;
    39; 96; 0; 92; 122; 120; 99; 118;
    98; 110; 109; 44; 46; 47; 0; 42;
    0; 32; 0; 0; 0; 0; 0; 0;
    0; 0; 0; 0; 0; 0; 0; 55;
    56; 57; 45; 52; 53; 54; 43; 49;
    50; 51; 48; 46; 0; 0; 0; 0 ].

Definition normalmap (c : Z) : Z :=
  if c =? 0x97 then 224 else
  if c =? 0x9C then 10 else
  if c =? 0xB5 then 47 else
  if c =? 0xC8 then 226 else
  if c =? 0xC9 then 230 else
  if c =? 0xCB then 228 else
  if c =? 0xCD then 229 else
  if c =? 0xCF then 225 else
  if c =? 0xD0 then 227 else
  if c =? 0xD1 then 231 else
  if c =? 0xD2 then 232 else
  if c =? 0xD3 then 233 else
  default 0 (normalmap_low !! Z.to_nat c).

Definition shiftmap_low : list Z :=
  [ 0; 27; 33; 64; 35; 36; 37; 94;
    38; 42; 40; 41; 95; 43; 8; 9;
    81; 87; 69; 82; 84; 89; 85; 73;
    79; 80; 123; 125; 10; 0; 65; 83;
    68; 70; 71; 72; 74; 75; 76; 58;
    34; 126; 0; 124; 90; 88; 67; 86;
    66; 78; 77; 60; 62; 63; 0; 42;
    0; 32; 0; 0; 0; 0; 0; 0;
    0; 0; 0; 0; 0; 0; 0; 55;
    56; 57; 45; 52; 53; 54; 43; 49;
    50; 51; 48; 46; 0; 0; 0; 0 ].

Definition shiftmap (c : Z) : Z :=
  if c =? 0x97 then 224 else
  if c =? 0x9C then 10 else
  if c =? 0xB5 then 47 else
  if c =? 0xC8 then 226 else
  if c =? 0xC9 then 230 else
  if c =? 0xCB then 228 else
  if c =? 0xCD then 229 else
  if c =? 0xCF then 225 else
  if c =? 0xD0 then 227 else
  if c =? 0xD1 then 231 else
  if c =? 0xD2 then 232 else
  if c =? 0xD3 then 233 else
  default 0 (shiftmap_low !! Z.to_nat c).

Definition ctlmap_low : list Z :=
  [ 0; 0; 0; 0; 0; 0; 0; 0;
    0; 0; 0; 0; 0; 0; 0; 0;
    17; 23; 5; 18; 20; 25; 21; 9;
    15; 16; 0; 0; 13; 0; 1; 19;
    4; 6; 7; 8; 10; 11; 12; 0;
    0; 0; 0; 28; 26; 24; 3; 22;
    2; 14; 13; 0; 0; 239; 0; 0 ].

Definition ctlmap (c : Z) : Z :=
  if c =? 0x97 then 224 else
  if c =? 0x9C then 13 else
  if c =? 0xB5 then 239 else
  if c =? 0xC8 then 226 else
  if c =? 0xC9 then 230 else
  if c =? 0xCB then 228 else
  if c =? 0xCD then 229 else
  if c =? 0xCF then 225 else
  if c =? 0xD0 then 227 else
  if c =? 0xD1 then 231 else
  if c =? 0xD2 then 232 else
  if c =? 0xD3 then 233 else
  default 0 (ctlmap_low !! Z.to_nat c).

(** ** Decoding *)

(** [charcode[shift & (CTL | SHIFT)]] *)
Definition charcode (i : Z) : Z -> Z :=
  if i =? 0 then normalmap else if i =? 1 then shiftmap else ctlmap.

Definition caps (c : Z) : Z :=
  if (97 <=? c) && (c <=? 122) then c + (65 - 97)
  else if (65 <=? c) && (c <=? 90) then c + (97 - 65)
  else c.

(** The character, 0 for none and -1 for no data, and the new [shift]. *)
Definition kbdgetc (data : option Z) (shift : Z) : Z * Z :=
  match data with
  | None => (-1, shift)
  | Some data =>
    if data =? 0xE0 then (0, Z.lor shift E0ESC)
    else if has data 0x80 then
      let data := if has shift E0ESC then data else Z.land data 0x7F in
      (0, Z.land shift (Z.lnot (Z.lor (shiftcode data) E0ESC)))
    else
      let '(data, shift) :=
        if has shift E0ESC then (Z.lor data 0x80, Z.land shift (Z.lnot E0ESC))
        else (data, shift) in
      let shift := Z.lor shift (shiftcode data) in
      let shift := Z.lxor shift (togglecode data) in
      let c := charcode (Z.land shift (Z.lor CTL SHIFT)) data in
      ((if has shift CAPSLOCK then caps c else c), shift)
  end.

(** The characters [consoleintr] gets from the scan codes waiting. *)
Fixpoint kbd_chars (codes : list Z) (shift : Z) : list Z * Z :=
  match codes with
  | [] => ([], shift)
  | d :: codes =>
    let '(c, shift) := kbdgetc (Some d) shift in
    let '(cs, shift) := kbd_chars codes shift in
    (c :: cs, shift)
  end.
