(* ===== verification/Console.v ===== *)
(** Console input and the console device, the second half of console.c.

    [input] is a ring of [INPUT_BUF] characters with the free-running indices
    [r] (read), [w] (written lines) and [e] (edited).  [consoleintr] gets the
    characters the keyboard or the serial port delivers as a list. *)

From stdpp Require Import base list sets strings.
From Stdlib Require Import ZArith Lia.
From S2P Require Import Prelude State CString Sched Cons Kalloc Vm SysArgs Sleeplock.
From S2P Require Import Disk Bio Log Fs Pipe File Proc Demo.

Open Scope kernel_scope.

Definition upd_input (f : input -> input) : K unit :=
  modify (fun s => set_k_input (f (k_input s)) s).

(** [input.buf[i % INPUT_BUF]] *)
Definition in_at (i : input) (k : Z) : Z := in_buf i !!! Z.to_nat (u32 k mod INPUT_BUF).

(** ** Input *)

(** [C('U')]: erase back to the last newline or written line; the edit index
    reaches the write index in at most [e - w] steps. *)
Fixpoint kill_line (k : nat) : K unit :=
  match k with
  | O => ret tt
  | S k =>
    i <- gets k_input ;;
    if negb (in_e i =? in_w i) && negb (in_at i (in_e i - 1) =? 10) then
      upd_input (fun i => set_in_e (u32 (in_e i - 1)) i) ;;;
      consputc BACKSPACE ;;;
      kill_line k
    else ret tt
  end.

(** The default case: store, echo and, at the end of a line or of the buffer,
    hand the line to the readers. *)
Definition console_store (c : Z) : K unit :=
  i <- gets k_input ;;
  if negb (c =? 0) && (u32 (in_e i - in_r i) <? INPUT_BUF) then
    let c := if c =? 13 then 10 else c in
    upd_input (fun i => set_in_e (u32 (in_e i + 1))
      (set_in_buf (<[Z.to_nat (in_e i mod INPUT_BUF) := u8 c]> (in_buf i)) i)) ;;;
    consputc c ;;;
    i <- gets k_input ;;
    if (c =? 10) || (c =? 4) || (in_e i =? u32 (in_r i + INPUT_BUF)) then
      upd_input (fun i => set_in_w (in_e i) i) ;;;
      wakeup ChanInput
    else ret tt
  else ret tt.

(** One character; returns whether a process listing was asked for. *)
Definition console_char (c : Z) : K bool :=
  if c =? 16 then ret true
  else if c =? 21 then
    i <- gets k_input ;;
    kill_line (Z.to_nat (u32 (in_e i - in_w i))) ;;; ret false
  else if (c =? 8) || (c =? 0x7f) then
    i <- gets k_input ;;
    (if negb (in_e i =? in_w i) then
       upd_input (fun i => set_in_e (u32 (in_e i - 1)) i) ;;;
       consputc BACKSPACE
     else ret tt) ;;;
    ret false
  else if c =? 67 then
    cputs "Shift+C detected" ;;;
    p <- myproc ;;
    (match p with
     | Some p => modify (upd_proc p (fun x => set_p_pending (Z.lor (p_pending x) (Z.shiftl 1 2)) x))
     | None => ret tt
     end) ;;;
    ret false
  else console_store c ;;; ret false.

Fixpoint console_chars (cs : list Z) (dump : bool) : K bool :=
  match cs with
  | [] => ret dump
  | c :: cs => d <- console_char c ;; console_chars cs (dump || d)
  end.

Definition consoleintr (cs : list Z) : K unit :=
  acquire L_cons ;;;
  dump <- console_chars cs false ;;
  release L_cons ;;;
  if (dump : bool) then procdump else ret tt.

(** ** The device *)

Section Device.
Context {D : DiskDriver}.

(** The loop of [consoleread] with [n] characters wanted; returns how many are
    left, [None] when the process was killed. *)
Fixpoint consoleread_loop {A} (put : sink A) (a : A) (target : Z) (n : nat)
    : K (option Z * A) :=
  match n with
  | O => ret (Some 0, a)
  | S n' =>
    i <- gets k_input ;;
    if in_r i =? in_w i then
      p <- curproc ;;
      killed <- gets (fun s => p_killed (procs s p)) ;;
      if (killed : bool) then ret (None, a)
      else sleep ChanInput (Some L_cons)
    else
      let c := in_at i (in_r i) in
      upd_input (fun i => set_in_r (u32 (in_r i + 1)) i) ;;;
      if c =? 4 then
        (if Z.of_nat n <? target
         then upd_input (fun i => set_in_r (u32 (in_r i - 1)) i) else ret tt) ;;;
        ret (Some (Z.of_nat n), a)
      else
        a <- put a [c] ;;
        if c =? 10 then ret (Some (Z.of_nat n'), a)
        else consoleread_loop put a target n'
  end.

Definition consoleread {A} (put : sink A) (a : A) (ip : nat) (n : Z) : K (Z * A) :=
  iunlock ip ;;;
  acquire L_cons ;;;
  r <- consoleread_loop put a n (Z.to_nat n) ;;
  release L_cons ;;;
  ilock ip ;;;
  match r with
  | (None, a) => ret (-1, a)
  | (Some rest, a) => ret (n - rest, a)
  end.

(** Characters are fetched from the buffer one at a time. *)
Definition consolewrite (get : source) (ip : nat) (n : Z) : K Z :=
  iunlock ip ;;;
  acquire L_cons ;;;
  mfor (fun i => bs <- get (Z.of_nat i) 1 ;; mfor (fun c => consputc (Z.land c 0xff)) bs)
    (seq 0 (Z.to_nat n)) ;;;
  release L_cons ;;;
  ilock ip ;;;
  ret n.

Definition CONSOLE : Z := 1.

(** [consoleinit] fills the console's entry of [devsw]. *)
#[export] Instance console_devsw : DevSw := {|
  dev_read := fun m => if m =? CONSOLE then Some (@consoleread) else None;
  dev_write := fun m => if m =? CONSOLE then Some consolewrite else None |}.

Definition consoleinit : K unit := modify (set_k_locking true).
End Device.

(** ** Properties *)

(** Typing a capital C panics the kernel: [consoleintr] prints its message
    while it holds [cons.lock], which [cprintf] acquires again. *)
Theorem shift_c_panics cs s :
  k_locking s = true -> L_cons ∉ k_held s ->
  exists s', consoleintr (67 :: cs) s = Panic "acquire" s' /\ k_proc s' = k_proc s.
Proof.
  intros Hk Hl. unfold consoleintr. mstep (acquire_ok _ _ Hl).
  cbn [console_chars]. exists (set_k_held (L_cons :: k_held s) s). split; [|done].
  rewrite bind_assoc. unfold console_char. change (67 =? 16) with false.
  change (67 =? 21) with false. change ((67 =? 8) || (67 =? 0x7f)) with false.
  change (67 =? 67) with true. cbn match. rewrite bind_assoc.
  apply bind_Panic. apply cprintf_locked; [done|]. kred. set_solver.
Qed.

Lemma shift_c_panics_witness :
  exists s', consoleintr [67] (demo_kernel [] []) = Panic "acquire" s' /\
    k_proc s' = k_proc (demo_kernel [] []).
Proof. apply (shift_c_panics [] (demo_kernel [] [])); by_eval. Defined.
