(* ===== verification/Sysproc.v ===== *)
(** The process system calls, sysproc.c; [sys_send] and [sys_recv] are in
    MsgQueue.v. *)

From stdpp Require Import base list sets strings.
From Stdlib Require Import ZArith Lia.
From S2P Require Import Prelude State Demo CString Sched Cons Kalloc Vm PageTable SysArgs Pipe.
From S2P Require Import Sleeplock Disk Bio Log Fs File Proc.

Open Scope kernel_scope.

Section Sysproc.
Context {D : DiskDriver} {V : DevSw} (forkret_addr : Z).

Definition sys_fork : K Z := fork forkret_addr.

Definition sys_exit : K Z := exit ;;; ret 0.

Definition sys_wait : K Z := wait.

Definition sys_kill : K Z :=
  pid <- argint 0 ;;
  match pid with
  | None => ret (-1)
  | Some pid => kill pid
  end.

Definition sys_getpid : K Z :=
  p <- curproc ;; gets (fun s => p_pid (procs s p)).

Definition sys_sbrk : K Z :=
  n <- argint 0 ;;
  match n with
  | None => ret (-1)
  | Some n =>
    p <- curproc ;;
    addr <- gets (fun s => s32 (p_sz (procs s p))) ;;
    r <- growproc n ;;
    if r <? 0 then ret (-1) else ret addr
  end.

(** One round of the wait, with the ticks' lock held; [ticks - ticks0 < n] is
    an unsigned comparison. *)
Definition sys_sleep_loop (ticks0 n : Z) : K Z :=
  ticks <- gets k_ticks ;;
  if u32 (ticks - ticks0) <? u32 n then
    p <- curproc ;;
    killed <- gets (fun s => p_killed (procs s p)) ;;
    if (killed : bool) then release L_tickslock ;;; ret (-1)
    else sleep ChanTicks (Some L_tickslock)
  else release L_tickslock ;;; ret 0.

Definition sys_sleep : K Z :=
  n <- argint 0 ;;
  match n with
  | None => ret (-1)
  | Some n =>
    acquire L_tickslock ;;;
    ticks0 <- gets k_ticks ;;
    sys_sleep_loop ticks0 n
  end.

Definition sys_uptime : K Z :=
  acquire L_tickslock ;;;
  xticks <- gets k_ticks ;;
  release L_tickslock ;;;
  ret (s32 xticks).

(** A null parent is dereferenced as the code does: it faults. *)
Definition sys_getppid : K Z :=
  p <- curproc ;;
  parent <- gets (fun s => p_parent (procs s p)) ;;
  match parent with
  | Some q => gets (fun s => p_pid (procs s q))
  | None => panic "trap"
  end.

(** ** Shared memory *)

Definition sys_shmget_map : K Z :=
  p <- curproc ;;
  shm <- gets k_shm ;;
  pgdir <- gets (fun s => p_pgdir (procs s p)) ;;
  r <- mappages pgdir SHMEM PGSIZE (V2P shm) (Z.lor PTE_W PTE_U) ;;
  if r <? 0 then cputs "sys_shmget: mappages failed" ;;; ret (-1)
  else ret (s32 SHMEM).

Definition sys_shmget : K Z :=
  shm <- gets k_shm ;;
  if shm =? 0 then
    mem <- kalloc ;;
    modify (set_k_shm mem) ;;;
    if mem =? 0 then cputs "sys_shmget: kalloc failed" ;;; ret (-1) else
    modify (kmemset mem 0 PGSIZE) ;;;
    sys_shmget_map
  else sys_shmget_map.

Definition sys_shmrem : K Z :=
  shm <- gets k_shm ;;
  if shm =? 0 then ret (-1) else
  kfree shm ;;;
  modify (set_k_shm 0) ;;;
  ret 0.

(** ** Signals and the console *)

Definition sys_signal : K Z :=
  signum <- argint 0 ;;
  match signum with
  | None => ret (-1)
  | Some signum =>
    handler <- argptr 1 4 ;;
    match handler with
    | None => ret (-1)
    | Some handler =>
      if (signum <? 0) || (Z.of_nat NUMSIGNALS <=? signum) then ret (-1) else
      p <- curproc ;;
      modify (upd_proc p (fun x =>
        set_p_handlers (<[Z.to_nat signum := handler]> (p_handlers x)) x)) ;;;
      ret 0
    end
  end.

Definition sys_clear_console : K Z := consoleclear ;;; ret 0.

Definition sys_ps : K Z := procdump ;;; ret 0.
End Sysproc.

(** ** Properties *)

Lemma shmget_map_remap p l s :
  k_cur s = Some p -> vm_ok s (p_pgdir (procs s p)) l ->
  is_Some (mmu (k_mem s) (p_pgdir (procs s p)) KERNBASE) ->
  sys_shmget_map s = Panic "remap" s.
Proof.
  intros Hc Hvm Hm. unfold sys_shmget_map, curproc, myproc. mrun. rewrite Hc. mrun.
  by mstep (mappages_remap _ SHMEM PGSIZE (V2P (k_shm s)) (Z.lor PTE_W PTE_U) l s Hvm ltac:(done) Hm).
Qed.

(** [shmget] panics the kernel.  The address it maps the shared page at is
    [KERNBASE], where [setupkvm] has mapped the kernel in every page
    directory, so that [mappages] always reports a remap; only a failing
    first [kalloc] returns. *)
Theorem shmget_panics p l s :
  k_cur s = Some p -> vm_ok s (p_pgdir (procs s p)) l ->
  is_Some (mmu (k_mem s) (p_pgdir (procs s p)) KERNBASE) ->
  (k_shm s = 0 -> l <> []) ->
  exists s', sys_shmget s = Panic "remap" s'.
Proof.
  intros Hc Hvm Hm Hl. unfold sys_shmget. mrun.
  destruct (Z.eqb_spec (k_shm s) 0) as [E|_]; [|eexists; by eapply shmget_map_remap].
  destruct l as [|q l]; [by destruct (Hl E)|].
  destruct (vm_ok_alloc _ q l s 0 Hvm) as (Ea & Hq & Hvm' & He). mstep Ea. mrun.
  rewrite (proj2 (Z.eqb_neq _ _) Hq). mrun.
  set (s' := kmemset q 0 PGSIZE _). exists s'.
  eapply (shmget_map_remap p l); [done| |].
  - destruct Hvm' as [H1 H2 H3]. split; done.
  - rewrite mmu_entry in Hm |- *. change (entry (k_mem s') _ KERNBASE) with
      (entry (k_mem (kmemset q 0 PGSIZE (set_freelist (load32 q s) s))) (p_pgdir (procs s p)) KERNBASE).
    by rewrite He.
Qed.

(** A process whose directory maps the kernel's first page. *)
Definition demo_shm : kstate :=
  set_k_shm 0x80404000 (set_k_mem
    (write32 (add_table (k_mem demo_boot) 0x80400000 0x80402000 KERNBASE)
      (V2P 0x80402000 + 4 * PTX KERNBASE) (mk_pte 0 PTE_W))
    (upd_proc 0 (set_p_pgdir 0x80400000) demo_boot)).

Lemma demo_shm_ok :
  vm_ok demo_shm 0x80400000 [] /\ is_Some (mmu (k_mem demo_shm) 0x80400000 KERNBASE).
Proof.
  destruct (zero_dir (k_mem demo_boot) (k_end demo_boot) 0x80400000 [0x80402000]) as (Hwf & Hn & _);
    [by_eval..| |].
  { intros x Hx. change (V2P 0x80400000) with 0x400000 in Hx.
    change (k_mem demo_boot) with (demo_mem [] []). unfold demo_mem, write32.
    rewrite !upd_list_out; [done|simpl; lia..]. }
  assert (has (pde_of (k_mem demo_boot) 0x80400000 KERNBASE) PTE_P = false) as Hnp by by_eval.
  destruct (add_table_pt _ _ _ 0x80402000 [] KERNBASE Hwf) as (Hwf' & Ht & Hp & _);
    [apply NoDup_singleton|by_eval|done..|].
  destruct (store_pte _ _ _ [] KERNBASE (mk_pte 0 PTE_W) Hwf') as (Hwf2 & He & _); [done..|].
  rewrite Ht in Hwf2, He. split.
  - split; [by_eval|split; [constructor|reflexivity]|exact Hwf2].
  - rewrite mmu_entry. change (k_mem demo_shm) with
      (write32 (add_table (k_mem demo_boot) 0x80400000 0x80402000 KERNBASE)
      (V2P 0x80402000 + 4 * PTX KERNBASE) (mk_pte 0 PTE_W)).
    rewrite He, decide_True by done. by eexists.
Qed.

Lemma shmget_panics_witness : exists s', sys_shmget demo_shm = Panic "remap" s'.
Proof.
  apply (shmget_panics 0 [] demo_shm); [reflexivity|apply demo_shm_ok..|discriminate].
Defined.
