(* ===== verification/Trap.v ===== *)
(** System call dispatch, syscall.c, and traps, trap.c. *)

From stdpp Require Import base list sets strings.
From Stdlib Require Import ZArith Lia.
From S2P Require Import Prelude State CString Sched Cons Kalloc Vm SysArgs MsgQueue.
From S2P Require Import Pipe Sleeplock Disk Bio Log Fs File Exec Sysfile.
From S2P Require Import Proc Kbd Console Sysproc Demo.

Open Scope kernel_scope.

Definition T_DIVIDE : Z := 0.
Definition T_SYSCALL : Z := 64.
Definition T_IRQ0 : Z := 32.
Definition IRQ_TIMER : Z := 0.
Definition IRQ_KBD : Z := 1.
Definition IRQ_COM1 : Z := 4.
Definition IRQ_IDE : Z := 14.
Definition IRQ_SPURIOUS : Z := 31.

Section Trap.
(** [run_handler] stands for the call of a user's signal handler; [buffer] is
    the address of [sys_copy]'s local array. *)
Context {D : DiskDriver} {V : DevSw} (forkret_addr : Z).
Context (run_handler : Z -> K unit) (buffer : Z).

(** ** [syscall] *)

Definition syscalls (num : Z) : option (K Z) :=
  match num with
  | 1 => Some (sys_fork forkret_addr)
  | 2 => Some sys_exit
  | 3 => Some sys_wait
  | 4 => Some sys_pipe
  | 5 => Some sys_read
  | 6 => Some sys_kill
  | 7 => Some sys_exec
  | 8 => Some sys_fstat
  | 9 => Some sys_chdir
  | 10 => Some sys_dup
  | 11 => Some sys_getpid
  | 12 => Some sys_sbrk
  | 13 => Some sys_sleep
  | 14 => Some sys_uptime
  | 15 => Some sys_open
  | 16 => Some sys_write
  | 17 => Some sys_mknod
  | 18 => Some sys_unlink
  | 19 => Some sys_link
  | 20 => Some sys_mkdir
  | 21 => Some sys_close
  | 22 => Some sys_getppid
  | 23 => Some sys_shmget
  | 24 => Some sys_shmrem
  | 25 => Some sys_signal
  | 26 => Some sys_send
  | 27 => Some sys_recv
  | 28 => Some sys_clear_console
  | 29 => Some sys_ps
  | 30 => Some (sys_copy buffer)
  | _ => None
  end.

Definition set_eax (p : nat) (v : Z) : K unit :=
  modify (upd_proc p (fun x => set_p_tf (set_tf_eax (u32 v) (p_tf x)) x)).

Definition syscall : K unit :=
  p <- curproc ;;
  num <- gets (fun s => s32 (tf_eax (p_tf (procs s p)))) ;;
  match syscalls num with
  | Some f => r <- f ;; set_eax p r
  | None =>
    x <- gets (fun s => procs s p) ;;
    cprintf (bytes_of "%d %s: unknown sys call %d" ++ [10])
      [PInt (p_pid x); PStr (Some (cstr 16 (arr (p_name x)))); PInt num] ;;;
    set_eax p (-1)
  end.

(** ** [trap] *)

(** [myproc() && myproc()->killed] *)
Definition killed_now (s : kstate) : bool :=
  match k_cur s with Some p => p_killed (procs s p) | None => false end.

Definition raise (p : nat) (sig : Z) : K unit :=
  modify (upd_proc p (fun x => set_p_pending (Z.lor (p_pending x) (Z.shiftl 1 sig)) x)).

Definition print_pid (fmt : string) (p : nat) : K unit :=
  pid <- gets (fun s => p_pid (procs s p)) ;;
  cprintf (bytes_of fmt ++ [10]) [PInt pid].

(** The switch on the trap number.  [cpu] is [cpuid()], [cr2] the faulting
    address, [chars] what the keyboard or the serial port has. *)
Definition trap_switch (tf : trapframe) (cpu cr2 : Z) (chars : list Z) : K unit :=
  let n := tf_trapno tf in
  if n =? T_IRQ0 + IRQ_TIMER then
    if cpu =? 0 then
      acquire L_tickslock ;;;
      modify (fun s => set_k_ticks (u32 (k_ticks s + 1)) s) ;;;
      wakeup ChanTicks ;;;
      release L_tickslock
    else ret tt
  else if n =? T_IRQ0 + IRQ_IDE then ideintr
  else if n =? T_IRQ0 + IRQ_IDE + 1 then ret tt
  else if n =? T_IRQ0 + IRQ_KBD then
    consoleintr chars ;;;
    p <- myproc ;;
    match p with
    | Some p => raise p 2 ;;; print_pid "SIGINT triggered by Shift+C for process %d" p
    | None => ret tt
    end
  else if n =? T_IRQ0 + IRQ_COM1 then consoleintr chars
  else if n =? T_DIVIDE then
    p <- myproc ;;
    match p with
    | Some p => raise p 8 ;;; print_pid "SIGFPE triggered for process %d" p
    | None => ret tt
    end
  else if (n =? T_IRQ0 + 7) || (n =? T_IRQ0 + IRQ_SPURIOUS) then
    cprintf (bytes_of "cpu%d: spurious interrupt at %x:%x" ++ [10])
      [PInt cpu; PInt (tf_cs tf); PInt (tf_eip tf)]
  else
    p <- myproc ;;
    match p with
    | Some p =>
      if Z.land (tf_cs tf) 3 =? 0 then
        cprintf (bytes_of "unexpected trap %d from cpu %d eip %x (cr2=0x%x)" ++ [10])
          [PInt n; PInt cpu; PInt (tf_eip tf); PInt cr2] ;;;
        panic "trap"
      else
        x <- gets (fun s => procs s p) ;;
        cprintf (bytes_of "pid %d %s: trap %d err %d on cpu %d eip 0x%x addr 0x%x--kill proc" ++ [10])
          [PInt (p_pid x); PStr (Some (cstr 16 (arr (p_name x)))); PInt n; PInt (tf_err tf);
           PInt cpu; PInt (tf_eip tf); PInt cr2] ;;;
        modify (upd_proc p (set_p_killed true))
    | None =>
      cprintf (bytes_of "unexpected trap %d from cpu %d eip %x (cr2=0x%x)" ++ [10])
        [PInt n; PInt cpu; PInt (tf_eip tf); PInt cr2] ;;;
      panic "trap"
    end.

(** One round of the signal loop; [myproc()] is read again each time. *)
Definition trap_signal (i : nat) : K unit :=
  p <- curproc ;;
  x <- gets (fun s => procs s p) ;;
  if Z.testbit (p_pending x) (Z.of_nat i) then
    modify (upd_proc p (fun x => set_p_pending (Z.clearbit (p_pending x) (Z.of_nat i)) x)) ;;;
    let h := p_handlers x !!! i in
    if negb (h =? 0) then
      modify (upd_proc p (fun x => set_p_handlers (<[i := 0]> (p_handlers x)) x)) ;;;
      run_handler h
    else if (i =? 2)%nat then
      print_pid "SIGINT received (Shift+C): terminating process %d" p ;;;
      modify (upd_proc p (set_p_killed true))
    else if (i =? 8)%nat then
      print_pid "SIGFPE received: terminating process %d" p ;;;
      modify (upd_proc p (set_p_killed true))
    else ret tt
  else ret tt.

Definition pending_now (s : kstate) : bool :=
  match k_cur s with Some p => negb (p_pending (procs s p) =? 0) | None => false end.

Definition exit_if_killed (user : bool) : K unit :=
  k <- gets killed_now ;; if k && user then exit else ret tt.

(** After a yield the process continues with the last check. *)
Definition trap (tf : trapframe) (cpu cr2 : Z) (chars : list Z) : K unit :=
  if tf_trapno tf =? T_SYSCALL then
    k <- gets killed_now ;;
    (if (k : bool) then exit else ret tt) ;;;
    p <- curproc ;;
    modify (upd_proc p (set_p_tf tf)) ;;;
    syscall ;;;
    k <- gets killed_now ;;
    if (k : bool) then exit else ret tt
  else
    trap_switch tf cpu cr2 chars ;;;
    pend <- gets pending_now ;;
    (if (pend : bool) then mfor trap_signal (seq 0 NUMSIGNALS) else ret tt) ;;;
    let user := Z.land (tf_cs tf) 3 =? DPL_USER in
    exit_if_killed user ;;;
    p <- myproc ;;
    (match p with
     | Some p =>
       st <- gets (fun s => p_state (procs s p)) ;;
       if decide (st = RUNNING /\ tf_trapno tf = T_IRQ0 + IRQ_TIMER) then yield else ret tt
     | None => ret tt
     end) ;;;
    exit_if_killed user.
End Trap.
