(* ===== verification/Segments.v ===== *)
(** Segment and gate descriptors: mmu.h, [seginit] and [switchuvm] of vm.c,
    [tvinit] and [idtinit] of trap.c, and [lgdt] and [lidt] of x86.h.

    A C bit-field is a number cut to its width, and a descriptor the 64-bit
    number [pack] makes of its fields, the first in the lowest bits.  [field]
    reads bits the way the processor does (Intel SDM, volume 3, 3.4.5, 6.11 and
    7.2.2); the theorems say what it finds in the tables the kernel sets up. *)

From stdpp Require Import base list sets strings.
From Stdlib Require Import ZArith Lia.
From S2P Require Import Prelude State Trap.

Open Scope Z_scope.

(** ** Bit fields *)

Fixpoint pack (fs : list (Z * Z)) : Z :=
  match fs with
  | [] => 0
  | (n, v) :: fs => v mod 2 ^ n + 2 ^ n * pack fs
  end.

(** Bits [k] to [k + n - 1] of [w]. *)
Definition field (w k n : Z) : Z := (w / 2 ^ k) mod 2 ^ n.

(** ** mmu.h *)

Definition SEG_TSS : Z := 5.
Definition NSEGS : Z := 6.
Definition STA_X : Z := 8.
Definition STA_W : Z := 2.
Definition STA_R : Z := 2.
Definition STS_T32A : Z := 9.
Definition STS_IG32 : Z := 0xE.
Definition STS_TG32 : Z := 0xF.

(** A selector: the index in the table, shifted. *)
Definition selector (i : Z) : Z := Z.shiftl i 3.

Record segdesc : Type := mk_segdesc {
  lim_15_0 : Z; base_15_0 : Z; base_23_16 : Z; sd_type : Z; sd_s : Z; sd_dpl : Z; sd_p : Z;
  lim_19_16 : Z; avl : Z; rsv1 : Z; db : Z; sd_g : Z; base_31_24 : Z }.

Definition segdesc_word (d : segdesc) : Z :=
  pack [(16, lim_15_0 d); (16, base_15_0 d); (8, base_23_16 d); (4, sd_type d); (1, sd_s d); (2, sd_dpl d); (1, sd_p d);
        (4, lim_19_16 d); (1, avl d); (1, rsv1 d); (1, db d); (1, sd_g d); (8, base_31_24 d)].

Definition SEG (type base lim dpl : Z) : segdesc :=
  mk_segdesc (Z.land (Z.shiftr lim 12) 0xffff) (Z.land base 0xffff) (Z.land (Z.shiftr base 16) 0xff) type 1 dpl 1
    (Z.shiftr lim 28) 0 0 1 1 (Z.shiftr base 24).
Definition SEG16 (type base lim dpl : Z) : segdesc :=
  mk_segdesc (Z.land lim 0xffff) (Z.land base 0xffff) (Z.land (Z.shiftr base 16) 0xff) type 1 dpl 1
    (Z.shiftr lim 16) 0 0 1 0 (Z.shiftr base 24).
Definition set_sd_s (v : Z) (d : segdesc) : segdesc :=
  mk_segdesc (lim_15_0 d) (base_15_0 d) (base_23_16 d) (sd_type d) v (sd_dpl d) (sd_p d)
    (lim_19_16 d) (avl d) (rsv1 d) (db d) (sd_g d) (base_31_24 d).

Record gatedesc : Type := mk_gatedesc {
  off_15_0 : Z; gd_cs : Z; gd_args : Z; gd_rsv1 : Z; gd_type : Z; gd_s : Z; gd_dpl : Z; gd_p : Z; off_31_16 : Z }.

Definition gatedesc_word (d : gatedesc) : Z :=
  pack [(16, off_15_0 d); (16, gd_cs d); (5, gd_args d); (3, gd_rsv1 d); (4, gd_type d); (1, gd_s d); (2, gd_dpl d);
        (1, gd_p d); (16, off_31_16 d)].

Definition SETGATE (istrap : bool) (sel off d : Z) : gatedesc :=
  mk_gatedesc (Z.land off 0xffff) sel 0 0 (if istrap then STS_TG32 else STS_IG32) 0 d 1 (Z.shiftr off 16).

#[export] Instance inhabited_segdesc : Inhabited segdesc := populate (SEG 0 0 0 0).
#[export] Instance inhabited_gatedesc : Inhabited gatedesc := populate (SETGATE false 0 0 0).

(** ** The tables of a CPU *)

(** The fields of [struct taskstate] that the kernel sets. *)
Record taskstate : Type := mk_taskstate { ts_esp0 : Z; ts_ss0 : Z; ts_iomb : Z }.

(** [c->gdt] and [c->ts], and the registers of the processor that name tables:
    the operands of [lgdt], [lidt] and [ltr], and [cr3]. *)
Record segcpu : Type := mk_segcpu {
  gdt : list segdesc;
  ts : taskstate;
  gdtr : list Z;
  idtr : list Z;
  tr : Z;
  cr3 : Z }.

(** The operand of [lgdt] and [lidt]: three half words. *)
Definition table_operand (p size : Z) : list Z := [u16 (size - 1); u16 p; u16 (Z.shiftr p 16)].

(** [seginit] with the table at address [gdt_addr]. *)
Definition seginit (gdt_addr : Z) (c : segcpu) : segcpu :=
  let g := gdt c in
  let g := <[Z.to_nat SEG_KCODE := SEG (Z.lor STA_X STA_R) 0 0xffffffff 0]> g in
  let g := <[Z.to_nat SEG_KDATA := SEG STA_W 0 0xffffffff 0]> g in
  let g := <[Z.to_nat SEG_UCODE := SEG (Z.lor STA_X STA_R) 0 0xffffffff DPL_USER]> g in
  let g := <[Z.to_nat SEG_UDATA := SEG STA_W 0 0xffffffff DPL_USER]> g in
  mk_segcpu g (ts c) (table_operand gdt_addr (8 * NSEGS)) (idtr c) (tr c) (cr3 c).

Definition TASKSTATE_SIZE : Z := 104.

(** What [switchuvm] does after its checks: the task state at [ts_addr] has the
    kernel stack of the process. *)
Definition switch_tss (ts_addr kstack pgdir : Z) (c : segcpu) : segcpu :=
  let g := <[Z.to_nat SEG_TSS := SEG16 STS_T32A ts_addr (TASKSTATE_SIZE - 1) 0]> (gdt c) in
  let g := alter (set_sd_s 0) (Z.to_nat SEG_TSS) g in
  mk_segcpu g (mk_taskstate (u32 (kstack + KSTACKSIZE)) (selector SEG_KDATA) (u16 0xFFFF)) (gdtr c) (idtr c)
    (u16 (selector SEG_TSS)) (V2P pgdir).

(** [tvinit], with the 256 addresses of vectors.S, and [idtinit]. *)
Definition tvinit (vectors : list Z) : list gatedesc :=
  let idt := map (fun v => SETGATE false (selector SEG_KCODE) v 0) vectors in
  <[Z.to_nat T_SYSCALL := SETGATE true (selector SEG_KCODE) (vectors !!! Z.to_nat T_SYSCALL) DPL_USER]> idt.

Definition idtinit (idt_addr : Z) (c : segcpu) : segcpu :=
  mk_segcpu (gdt c) (ts c) (gdtr c) (table_operand idt_addr (8 * 256)) (tr c) (cr3 c).

(** ** What the processor makes of them *)

(** A segment: base, limit in bytes, type, whether it is an application segment,
    privilege level, present, 32-bit. *)
Record segment : Type := mk_segment {
  s_base : Z; s_limit : Z; s_type : Z; s_app : bool; s_dpl : Z; s_present : bool; s_32 : bool }.

Definition seg_decode (w : Z) : segment :=
  let l := field w 0 16 + 2 ^ 16 * field w 48 4 in
  mk_segment (field w 16 16 + 2 ^ 16 * field w 32 8 + 2 ^ 24 * field w 56 8)
    (if field w 55 1 =? 1 then 4096 * l + 4095 else l)
    (field w 40 4) (field w 44 1 =? 1) (field w 45 2) (field w 47 1 =? 1) (field w 54 1 =? 1).

(** A gate: selector, offset, privilege level an [int] instruction needs, and
    whether it turns interrupts off. *)
Record gate : Type := mk_gate { g_sel : Z; g_off : Z; g_dpl : Z; g_cli : bool }.

(** [None] if it is not a 32-bit interrupt or trap gate that is present. *)
Definition gate_decode (w : Z) : option gate :=
  if (field w 47 1 =? 1) && (field w 44 1 =? 0) && (field w 41 3 =? 7) then
    Some (mk_gate (field w 16 16) (field w 0 16 + 2 ^ 16 * field w 48 16) (field w 45 2) (field w 40 1 =? 0))
  else None.

(** The limit and the base of a table register. *)
Definition table_decode (pd : list Z) : option (Z * Z) :=
  match pd with [l; lo; hi] => Some (l, lo + 2 ^ 16 * hi) | _ => None end.

(** ** Reading fields back *)

Lemma field_spec w k n i : 0 <= k -> 0 <= n -> 0 <= i ->
  Z.testbit (field w k n) i = (i <? n) && Z.testbit w (i + k).
Proof.
  intros Hk Hn Hi. unfold field. destruct (Z.ltb_spec i n).
  - rewrite Z.mod_pow2_bits_low, Z.div_pow2_bits by lia. done.
  - by rewrite Z.mod_pow2_bits_high by lia.
Qed.

Lemma pack_bits n v fs i : 0 <= n -> 0 <= i ->
  Z.testbit (pack ((n, v) :: fs)) i = if i <? n then Z.testbit v i else Z.testbit (pack fs) (i - n).
Proof.
  intros Hn Hi. cbn [pack]. rewrite (Z.mul_comm (2 ^ n)). pose proof (Z.pow_pos_nonneg 2 n ltac:(lia) Hn) as Hp.
  destruct (Z.ltb_spec i n) as [H|H].
  - rewrite <- (Z.mod_pow2_bits_low _ n i) by lia. rewrite Z_mod_plus_full, Z.mod_mod by lia. by apply Z.mod_pow2_bits_low.
  - replace i with (i - n + n) at 1 by lia. rewrite <- Z.div_pow2_bits by lia.
    rewrite Z.div_add, (Z.div_small (v mod 2 ^ n)) by (try apply Z.mod_pos_bound; lia). done.
Qed.

(** Bits inside the first field, and bits after it. *)
Lemma field_in n v fs k m : 0 <= k -> 0 <= m -> k + m <= n -> field (pack ((n, v) :: fs)) k m = field v k m.
Proof.
  intros Hk Hm Hn. apply Z.bits_inj'. intros i Hi. rewrite !field_spec, pack_bits by lia.
  destruct (Z.ltb_spec i m); [|done]. by rewrite (proj2 (Z.ltb_lt _ _)) by lia.
Qed.

Lemma field_skip n v fs k m : 0 <= n -> n <= k -> 0 <= m -> field (pack ((n, v) :: fs)) k m = field (pack fs) (k - n) m.
Proof.
  intros Hn Hk Hm. apply Z.bits_inj'. intros i Hi. rewrite !field_spec, pack_bits by lia.
  rewrite (proj2 (Z.ltb_ge (i + k) n)) by lia. by replace (i + k - n) with (i + (k - n)) by lia.
Qed.

Lemma field_all v n : 0 <= v < 2 ^ n -> field v 0 n = v.
Proof. intros H. unfold field. rewrite Z.pow_0_r, Z.div_1_r. by apply Z.mod_small. Qed.

(** A part of a field that was cut out of [x] with a shift and a mask. *)
Lemma field_shift x k n : 0 <= k -> 0 <= n -> field (Z.shiftr x k) 0 n = field x k n.
Proof. intros Hk Hn. unfold field. by rewrite Z.pow_0_r, Z.div_1_r, Z.shiftr_div_pow2. Qed.

Lemma field_mask x n : 0 <= n -> field (Z.land x (Z.ones n)) 0 n = field x 0 n.
Proof.
  intros Hn. unfold field. rewrite Z.pow_0_r, !Z.div_1_r, Z.land_ones by done. apply Z.mod_mod. lia.
Qed.

(** Two neighbouring fields make one. *)
Lemma field_join x k n m k' n' : 0 <= k -> 0 <= n -> 0 <= m -> k' = k + n -> n' = n + m ->
  field x k n + 2 ^ n * field x k' m = field x k n'.
Proof.
  intros Hk Hn Hm -> ->. apply Z.bits_inj'. intros i Hi.
  replace (field x k n + 2 ^ n * field x (k + n) m) with (pack [(n, field x k n); (m, field x (k + n) m)]); cycle 1.
  { cbn [pack]. unfold field at 1 2. rewrite !Z.mod_mod by lia. rewrite Z.mul_0_r, Z.add_0_r. done. }
  rewrite pack_bits by lia. rewrite (field_spec x k (n + m)) by lia. destruct (Z.ltb_spec i n) as [H|H].
  - rewrite field_spec, (proj2 (Z.ltb_lt i n)), (proj2 (Z.ltb_lt i (n + m))) by lia. done.
  - rewrite pack_bits by lia. destruct (Z.ltb_spec (i - n) m).
    + rewrite field_spec, (proj2 (Z.ltb_lt (i - n) m)), (proj2 (Z.ltb_lt i (n + m))) by lia. by replace (i - n + (k + n)) with (i + k) by lia.
    + rewrite (proj2 (Z.ltb_ge i (n + m))) by lia. cbn [pack]. by rewrite Z.bits_0.
Qed.

(** Find the field of a descriptor that a position of the word is in. *)
Ltac fields :=
  repeat first [rewrite field_in by lia | rewrite field_skip by lia];
  repeat match goal with
  | |- context [field ?v ?k ?n] => let k' := eval vm_compute in k in progress change (field v k n) with (field v k' n)
  end.

Lemma seg_SEG type base lim dpl : 0 <= type < 16 -> 0 <= base < 2 ^ 32 -> 0 <= lim < 2 ^ 32 -> 0 <= dpl < 4 ->
  seg_decode (segdesc_word (SEG type base lim dpl)) = mk_segment base (4096 * (lim / 4096) + 4095) type true dpl true true.
Proof.
  intros Ht Hb Hl Hd. unfold seg_decode, segdesc_word, SEG. cbn [lim_15_0 base_15_0 base_23_16 sd_type sd_s sd_dpl sd_p lim_19_16 avl rsv1 db sd_g base_31_24].
  fields. change 0xffff with (Z.ones 16). change 0xff with (Z.ones 8). rewrite !field_mask, !field_shift by lia.
  rewrite (field_all type), (field_all dpl) by lia. change (field 1 0 1 =? 1) with true. cbn match.
  rewrite (field_join base 0 16 8 16 24), (field_join base 0 24 8 24 32), (field_join lim 12 16 4 28 20) by lia. f_equal.
  - by apply field_all.
  - f_equal. f_equal. unfold field. change (2 ^ 12) with 4096. apply Z.mod_small.
    split; [apply Z.div_pos; lia|apply Z.div_lt_upper_bound; lia].
Qed.

Lemma seg_TSS base lim : 0 <= base < 2 ^ 32 -> 0 <= lim < 2 ^ 20 ->
  seg_decode (segdesc_word (set_sd_s 0 (SEG16 STS_T32A base lim 0))) = mk_segment base lim STS_T32A false 0 true true.
Proof.
  intros Hb Hl. unfold seg_decode, segdesc_word, SEG16. cbn [set_sd_s lim_15_0 base_15_0 base_23_16 sd_type sd_s sd_dpl sd_p lim_19_16 avl rsv1 db sd_g base_31_24].
  fields. change 0xffff with (Z.ones 16). change 0xff with (Z.ones 8). rewrite !field_mask, !field_shift by lia.
  change (field 0 0 1 =? 1) with false. change (field 1 0 1 =? 1) with true. cbn match.
  rewrite (field_join base 0 16 8 16 24), (field_join base 0 24 8 24 32), (field_join lim 0 16 4 16 20) by lia.
  by rewrite (field_all base), (field_all lim) by lia.
Qed.

Lemma gate_SETGATE istrap sel off d : 0 <= sel < 2 ^ 16 -> 0 <= off < 2 ^ 32 -> 0 <= d < 4 ->
  gate_decode (gatedesc_word (SETGATE istrap sel off d)) = Some (mk_gate sel off d (negb istrap)).
Proof.
  intros Hs Ho Hd. unfold gate_decode, gatedesc_word, SETGATE. cbn [off_15_0 gd_cs gd_args gd_rsv1 gd_type gd_s gd_dpl gd_p off_31_16].
  fields. change 0xffff with (Z.ones 16). rewrite !field_mask, !field_shift by lia.
  rewrite (field_join off 0 16 16 16 32), (field_all sel), (field_all off), (field_all d) by lia. by destruct istrap.
Qed.

Lemma table_operand_decode p size : 0 <= p < 2 ^ 32 -> 1 <= size <= 2 ^ 16 ->
  table_decode (table_operand p size) = Some (size - 1, p).
Proof.
  intros Hp Hs. unfold table_decode, table_operand, u16. rewrite (Z.mod_small (size - 1)) by lia.
  do 2 f_equal. replace (p mod 2 ^ 16) with (field p 0 16) by (unfold field; by rewrite Z.pow_0_r, Z.div_1_r). rewrite Z.shiftr_div_pow2 by lia.
  change ((p / 2 ^ 16) mod 2 ^ 16) with (field p 16 16).
  rewrite (field_join p 0 16 16 16 32) by lia. by apply field_all.
Qed.

(** C40: the descriptor tables mean what the kernel needs.  After [seginit], [idtinit] and
    [switchuvm] the processor finds: the tables where they are; flat code and data
    segments of 4 GB, those of the user at level 3 and the others at level 0; a
    task state segment of the CPU's own, whose level 0 stack is the top of the
    process's kernel stack; the page directory of the process; and in each of the
    256 gates that [tvinit] fills its own vector with the kernel's code segment.
    Only the system call's gate can be used by an [int] of a user program, and
    only it leaves interrupts as they are. *)
Theorem descriptor_tables c vectors gdt_addr idt_addr ts_addr kstack pgdir :
  length (gdt c) = Z.to_nat NSEGS -> length vectors = 256%nat -> Forall (fun v => 0 <= v < 2 ^ 32) vectors ->
  0 <= gdt_addr < 2 ^ 32 -> 0 <= idt_addr < 2 ^ 32 -> 0 <= ts_addr < 2 ^ 32 -> 0 <= kstack < 2 ^ 32 - KSTACKSIZE ->
  let c' := switch_tss ts_addr kstack pgdir (idtinit idt_addr (seginit gdt_addr c)) in
  let seg i := seg_decode (segdesc_word (gdt c' !!! Z.to_nat i)) in
  table_decode (gdtr c') = Some (8 * NSEGS - 1, gdt_addr) /\ table_decode (idtr c') = Some (8 * 256 - 1, idt_addr) /\
  seg SEG_KCODE = mk_segment 0 0xffffffff (STA_X + STA_R) true 0 true true /\
  seg SEG_KDATA = mk_segment 0 0xffffffff STA_W true 0 true true /\
  seg SEG_UCODE = mk_segment 0 0xffffffff (STA_X + STA_R) true 3 true true /\
  seg SEG_UDATA = mk_segment 0 0xffffffff STA_W true 3 true true /\
  seg SEG_TSS = mk_segment ts_addr 103 STS_T32A false 0 true true /\
  tr c' = selector SEG_TSS /\ ts_ss0 (ts c') = selector SEG_KDATA /\ ts_esp0 (ts c') = kstack + KSTACKSIZE /\ cr3 c' = V2P pgdir /\
  forall i, (i < 256)%nat -> gate_decode (gatedesc_word (tvinit vectors !!! i)) =
    Some (mk_gate (selector SEG_KCODE) (vectors !!! i) (if decide (Z.of_nat i = T_SYSCALL) then 3 else 0)
      (bool_decide (Z.of_nat i <> T_SYSCALL))).
Proof.
  intros Hg Hv Hf H1 H2 H3 H4 c' seg.
  destruct (gdt c) as [|d0 [|d1 [|d2 [|d3 [|d4 [|d5 [|]]]]]]] eqn:Eg; try done.
  assert (gdt c' = [d0; SEG (Z.lor STA_X STA_R) 0 0xffffffff 0; SEG STA_W 0 0xffffffff 0; SEG (Z.lor STA_X STA_R) 0 0xffffffff 3;
    SEG STA_W 0 0xffffffff 3; set_sd_s 0 (SEG16 STS_T32A ts_addr 103 0)]) as Eg' by (unfold c', switch_tss, idtinit, seginit; cbn [gdt]; by rewrite Eg).
  unfold seg. rewrite Eg'. clear Eg' Eg.
  split_and!; try (by apply table_operand_decode); try (by apply (seg_SEG _ 0 0xffffffff)).
  - by apply (seg_TSS ts_addr 103).
  - done.
  - done.
  - change (u32 (kstack + KSTACKSIZE) = kstack + KSTACKSIZE). unfold KSTACKSIZE in *. by rewrite u32_small by lia.
  - done.
  - intros i Hi. unfold tvinit. assert (0 <= vectors !!! i < 2 ^ 32) as Hr by (apply (Forall_lookup_total_1 _ _ _ Hf); lia).
    destruct (decide (i = Z.to_nat T_SYSCALL)) as [->|Hne].
    + rewrite list_lookup_total_insert_eq by (rewrite length_map, Hv; change (Z.to_nat T_SYSCALL) with 64%nat; lia). by rewrite gate_SETGATE.
    + rewrite list_lookup_total_insert_ne by done. unfold T_SYSCALL in *.
      rewrite (list_lookup_total_correct _ _ (SETGATE false (selector SEG_KCODE) (vectors !!! i) 0)).
      * rewrite gate_SETGATE by done. rewrite decide_False, bool_decide_eq_true_2 by lia. done.
      * apply list_lookup_fmap_Some. exists (vectors !!! i). split; [done|]. apply list_lookup_lookup_total_lt. lia.
Qed.

Definition demo_cpu : segcpu := mk_segcpu (replicate (Z.to_nat NSEGS) (SEG 0 0 0 0)) (mk_taskstate 0 0 0) [] [] 0 0.

Lemma descriptor_tables_witness :
  let c' := switch_tss 0x80112000 0x8dfff000 0x8dffe000 (idtinit 0x80114000 (seginit 0x80112100 demo_cpu)) in
  table_decode (gdtr c') = Some (47, 0x80112100) /\ ts_esp0 (ts c') = 0x8e000000 /\
  gate_decode (gatedesc_word (tvinit (replicate 256 0x80105000) !!! 64%nat)) = Some (mk_gate 8 0x80105000 3 false).
Proof.
  destruct (descriptor_tables demo_cpu (replicate 256 0x80105000) 0x80112100 0x80114000 0x80112000 0x8dfff000 0x8dffe000)
    as (E1 & _ & _ & _ & _ & _ & _ & _ & _ & E2 & _ & E3);
    [done|done|by apply Forall_replicate|done..|].
  split; [exact E1|]. split; [exact E2|]. exact (E3 64%nat ltac:(lia)).
Defined.
