(* ===== verification/Platform.v ===== *)
(** The platform: the interrupt controllers, the serial port and the clock.

    picirq.c, ioapic.c, lapic.c and uart.c talk to devices through I/O ports
    and memory-mapped registers.  The devices are an environment [pf_env]: what
    a read returns may depend on everything that was read and written before,
    which [pf_trace] records.  So a theorem without a hypothesis on the
    environment holds for every device; [ioapic_regs] and [rtc] are what the
    data sheets say of the I/O APIC and of the CMOS clock. *)

From stdpp Require Import base list sets strings.
From Stdlib Require Import ZArith Lia.
From S2P Require Import Prelude State Trap.

Open Scope Z_scope.
Open Scope kernel_scope.

(** ** Devices *)

Inductive target : Type :=
| Port (p : Z)         (* [inb], [outb] *)
| Lapic (index : Z)    (* [lapic[index]] *)
| IoReg | IoData.      (* [ioapic->reg], [ioapic->data] *)

#[export] Instance target_eq_dec : EqDecision target.
Proof. solve_decision. Defined.

Inductive event : Type :=
| Rd (t : target) (v : Z)
| Wr (t : target) (v : Z)
| Printed (msg : string).

Record platform : Type := mk_platform {
  pf_env : list event -> target -> Z;
  pf_trace : list event;
  (** the memory below 4 GB as the kernel sees it, by virtual address *)
  pf_mem : Z -> Z;
  pf_lapic : Z;
  pf_ioapicid : Z;
  (** [cpus[i].apicid] of the [ncpu] processors found *)
  pf_cpus : list Z;
  pf_uart : bool }.

Definition set_pf_trace v s := mk_platform (pf_env s) v (pf_mem s) (pf_lapic s) (pf_ioapicid s) (pf_cpus s) (pf_uart s).
Definition set_pf_mem v s := mk_platform (pf_env s) (pf_trace s) v (pf_lapic s) (pf_ioapicid s) (pf_cpus s) (pf_uart s).
Definition set_pf_lapic v s := mk_platform (pf_env s) (pf_trace s) (pf_mem s) v (pf_ioapicid s) (pf_cpus s) (pf_uart s).
Definition set_pf_ioapicid v s := mk_platform (pf_env s) (pf_trace s) (pf_mem s) (pf_lapic s) v (pf_cpus s) (pf_uart s).
Definition set_pf_cpus v s := mk_platform (pf_env s) (pf_trace s) (pf_mem s) (pf_lapic s) (pf_ioapicid s) v (pf_uart s).
Definition set_pf_uart v s := mk_platform (pf_env s) (pf_trace s) (pf_mem s) (pf_lapic s) (pf_ioapicid s) (pf_cpus s) v.

Abbreviation P A := (M platform A).

Definition emit (e : event) : P unit := modify (fun s => set_pf_trace (pf_trace s ++ [e]) s).
Definition dev_rd (t : target) : P Z :=
  v <- gets (fun s => pf_env s (pf_trace s) t) ;; emit (Rd t v) ;;; ret v.
Definition dev_wr (t : target) (v : Z) : P unit := emit (Wr t v).

Definition inb (p : Z) : P Z := v <- dev_rd (Port p) ;; ret (u8 v).
Definition outb (p v : Z) : P unit := dev_wr (Port p) (u8 v).

(** ** picirq.c *)

Definition IO_PIC1 : Z := 0x20.
Definition IO_PIC2 : Z := 0xA0.

Definition picinit : P unit := outb (IO_PIC1 + 1) 0xFF ;;; outb (IO_PIC2 + 1) 0xFF.

(** ** ioapic.c *)

Definition REG_ID : Z := 0x00.
Definition REG_VER : Z := 0x01.
Definition REG_TABLE : Z := 0x10.
Definition INT_DISABLED : Z := 0x00010000.

Definition ioapicread (reg : Z) : P Z := dev_wr IoReg reg ;;; v <- dev_rd IoData ;; ret (u32 v).
Definition ioapicwrite (reg data : Z) : P unit := dev_wr IoReg reg ;;; dev_wr IoData (u32 data).

Definition ioapic_disable (i : Z) : P unit :=
  ioapicwrite (REG_TABLE + 2 * i) (Z.lor INT_DISABLED (T_IRQ0 + i)) ;;;
  ioapicwrite (REG_TABLE + 2 * i + 1) 0.

Definition ioapicinit : P unit :=
  v <- ioapicread REG_VER ;;
  let maxintr := Z.land (Z.shiftr v 16) 0xFF in
  w <- ioapicread REG_ID ;;
  ioapicid <- gets pf_ioapicid ;;
  (if negb (Z.shiftr w 24 =? ioapicid)
   then emit (Printed "ioapicinit: id isn't equal to ioapicid; not a MP") else ret tt) ;;;
  mfor ioapic_disable (seqZ 0 (maxintr + 1)).

Definition ioapicenable (irq cpunum : Z) : P unit :=
  ioapicwrite (REG_TABLE + 2 * irq) (T_IRQ0 + irq) ;;;
  ioapicwrite (REG_TABLE + 2 * irq + 1) (Z.shiftl cpunum 24).

(** ** lapic.c *)

Definition ID : Z := 8.
Definition VER : Z := 12.
Definition TPR : Z := 32.
Definition EOI : Z := 44.
Definition SVR : Z := 60.
Definition ESR : Z := 160.
Definition ICRLO : Z := 192.
Definition ICRHI : Z := 196.
Definition TIMER : Z := 200.
Definition PCINT : Z := 208.
Definition LINT0 : Z := 212.
Definition LINT1 : Z := 216.
Definition ERROR : Z := 220.
Definition TICR : Z := 224.
Definition TDCR : Z := 248.
Definition ENABLE : Z := 0x100.
Definition INIT : Z := 0x500.
Definition STARTUP : Z := 0x600.
Definition DELIVS : Z := 0x1000.
Definition ASSERT : Z := 0x4000.
Definition LEVEL : Z := 0x8000.
Definition BCAST : Z := 0x80000.
Definition X1 : Z := 0xB.
Definition PERIODIC : Z := 0x20000.
Definition MASKED : Z := 0x10000.
Definition IRQ_ERROR : Z := 19.

(** The read makes the write finish. *)
Definition lapicw (index value : Z) : P unit :=
  dev_wr (Lapic index) (u32 value) ;;; dev_rd (Lapic ID) ;;; ret tt.

(** [while(lapic[ICRLO] & DELIVS)] *)
Fixpoint lapic_delivered (k : nat) : P unit :=
  match k with
  | O => spin
  | S k => v <- dev_rd (Lapic ICRLO) ;; if Z.land v DELIVS =? 0 then ret tt else lapic_delivered k
  end.

(** [k] bounds the wait for the delivery of the message. *)
Definition lapicinit (k : nat) : P unit :=
  lapic <- gets pf_lapic ;;
  if lapic =? 0 then ret tt else
  lapicw SVR (Z.lor ENABLE (T_IRQ0 + IRQ_SPURIOUS)) ;;;
  lapicw TDCR X1 ;;;
  lapicw TIMER (Z.lor PERIODIC (T_IRQ0 + IRQ_TIMER)) ;;;
  lapicw TICR 10000000 ;;;
  lapicw LINT0 MASKED ;;;
  lapicw LINT1 MASKED ;;;
  v <- dev_rd (Lapic VER) ;;
  (if 4 <=? Z.land (Z.shiftr v 16) 0xFF then lapicw PCINT MASKED else ret tt) ;;;
  lapicw ERROR (T_IRQ0 + IRQ_ERROR) ;;;
  lapicw ESR 0 ;;;
  lapicw ESR 0 ;;;
  lapicw EOI 0 ;;;
  lapicw ICRHI 0 ;;;
  lapicw ICRLO (Z.lor (Z.lor BCAST INIT) LEVEL) ;;;
  lapic_delivered k ;;;
  lapicw TPR 0.

Definition lapicid : P Z :=
  lapic <- gets pf_lapic ;;
  if lapic =? 0 then ret 0 else v <- dev_rd (Lapic ID) ;; ret (Z.shiftr (u32 v) 24).

Definition lapiceoi : P unit :=
  lapic <- gets pf_lapic ;;
  if lapic =? 0 then ret tt else lapicw EOI 0.

Definition CMOS_PORT : Z := 0x70.
Definition CMOS_RETURN : Z := 0x71.

(** [wrv[i] = v] for a [ushort *wrv]. *)
Definition store16 (a v : Z) : P unit := modify (fun s => set_pf_mem (upd_list (pf_mem s) a (le16 v)) s).

Definition startup_ipi (apicid addr : Z) : P unit :=
  lapicw ICRHI (Z.shiftl apicid 24) ;;;
  lapicw ICRLO (Z.lor STARTUP (Z.shiftr addr 12)).

Definition lapicstartap (apicid addr : Z) : P unit :=
  outb CMOS_PORT 0xF ;;;
  outb (CMOS_PORT + 1) 0x0A ;;;
  let wrv := P2V (Z.lor (Z.shiftl 0x40 4) 0x67) in
  store16 wrv 0 ;;;
  store16 (wrv + 2) (Z.shiftr addr 4) ;;;
  lapicw ICRHI (Z.shiftl apicid 24) ;;;
  lapicw ICRLO (Z.lor (Z.lor INIT LEVEL) ASSERT) ;;;
  lapicw ICRLO (Z.lor INIT LEVEL) ;;;
  startup_ipi apicid addr ;;;
  startup_ipi apicid addr.

(** The real-time clock. *)
Record rtcdate : Type := mk_rtcdate {
  second : Z; minute : Z; hour : Z; day : Z; month : Z; year : Z }.

#[export] Instance rtcdate_eq_dec : EqDecision rtcdate.
Proof. solve_decision. Defined.

Definition CMOS_STATA : Z := 0x0a.
Definition CMOS_STATB : Z := 0x0b.
Definition CMOS_UIP : Z := 128.
Definition SECS : Z := 0x00.
Definition MINS : Z := 0x02.
Definition HOURS : Z := 0x04.
Definition DAY : Z := 0x07.
Definition MONTH : Z := 0x08.
Definition YEAR : Z := 0x09.

Definition cmos_read (reg : Z) : P Z := outb CMOS_PORT reg ;;; inb CMOS_RETURN.

Definition fill_rtcdate : P rtcdate :=
  s <- cmos_read SECS ;; m <- cmos_read MINS ;; h <- cmos_read HOURS ;;
  d <- cmos_read DAY ;; mo <- cmos_read MONTH ;; y <- cmos_read YEAR ;;
  ret (mk_rtcdate s m h d mo y).

(** Read the date until it is the same twice and no update is going on. *)
Fixpoint cmos_stable (k : nat) : P rtcdate :=
  match k with
  | O => spin
  | S k =>
    t1 <- fill_rtcdate ;;
    a <- cmos_read CMOS_STATA ;;
    if negb (Z.land a CMOS_UIP =? 0) then cmos_stable k else
    t2 <- fill_rtcdate ;;
    if decide (t1 = t2) then ret t1 else cmos_stable k
  end.

Definition CONV (x : Z) : Z := Z.shiftr x 4 * 10 + Z.land x 0xf.

Definition cmostime (k : nat) : P rtcdate :=
  sb <- cmos_read CMOS_STATB ;;
  let bcd := Z.land sb 4 =? 0 in
  t1 <- cmos_stable k ;;
  let t1 := if bcd then mk_rtcdate (CONV (second t1)) (CONV (minute t1)) (CONV (hour t1))
                         (CONV (day t1)) (CONV (month t1)) (CONV (year t1)) else t1 in
  ret (mk_rtcdate (second t1) (minute t1) (hour t1) (day t1) (month t1) (year t1 + 2000)).

(** ** uart.c *)

Definition COM1 : Z := 0x3f8.

(** [for(i = 0; i < 128 && !(inb(COM1+5) & 0x20); i++)] *)
Fixpoint uart_wait (k : nat) : P unit :=
  match k with
  | O => ret tt
  | S k => v <- inb (COM1 + 5) ;; if Z.land v 0x20 =? 0 then uart_wait k else ret tt
  end.

Definition uartputc (c : Z) : P unit :=
  uart <- gets pf_uart ;;
  if negb uart then ret tt else
  uart_wait 128 ;;;
  outb (COM1 + 0) c.

Definition uartinit : P unit :=
  outb (COM1 + 2) 0 ;;;
  outb (COM1 + 3) 0x80 ;;;
  outb (COM1 + 0) (115200 / 9600) ;;;
  outb (COM1 + 1) 0 ;;;
  outb (COM1 + 3) 0x03 ;;;
  outb (COM1 + 4) 0 ;;;
  outb (COM1 + 1) 0x01 ;;;
  st <- inb (COM1 + 5) ;;
  if st =? 0xFF then ret tt else
  modify (set_pf_uart true) ;;;
  inb (COM1 + 2) ;;;
  inb (COM1 + 0) ;;;
  ioapicenable IRQ_COM1 0 ;;;
  mfor uartputc [120; 118; 54; 46; 46; 46; 10].

Definition uartgetc : P Z :=
  uart <- gets pf_uart ;;
  if negb uart then ret (-1) else
  st <- inb (COM1 + 5) ;;
  if Z.land st 0x01 =? 0 then ret (-1) else inb (COM1 + 0).

(** The characters [consoleintr] gets from [uartgetc]: until it returns -1. *)
Fixpoint uart_chars (k : nat) : P (list Z) :=
  match k with
  | O => spin
  | S k => c <- uartgetc ;; if c <? 0 then ret [] else cs <- uart_chars k ;; ret (c :: cs)
  end.

(** ** Traces *)

(** The same machine after more events. *)
Definition ext (s : platform) (es : list event) : platform := set_pf_trace (pf_trace s ++ es) s.

Lemma ext_nil s : ext s [] = s.
Proof. unfold ext, set_pf_trace. rewrite app_nil_r. by destruct s. Qed.

Lemma ext_ext s es es' : ext (ext s es) es' = ext s (es ++ es').
Proof. unfold ext, set_pf_trace. cbn. by rewrite app_assoc. Qed.

Lemma emit_ext e s : emit e s = Ret tt (ext s [e]).
Proof. done. Qed.

Lemma dev_rd_ext t s : dev_rd t s = Ret (pf_env s (pf_trace s) t) (ext s [Rd t (pf_env s (pf_trace s) t)]).
Proof. done. Qed.

Lemma inb_ext p s : inb p s =
  Ret (u8 (pf_env s (pf_trace s) (Port p))) (ext s [Rd (Port p) (pf_env s (pf_trace s) (Port p))]).
Proof. done. Qed.

Lemma outb_ext p v s : outb p v s = Ret tt (ext s [Wr (Port p) (u8 v)]).
Proof. done. Qed.

(** ** The I/O APIC as its data sheet describes it *)

(** A write to the select register and a write to the selected register. *)
Definition ioapic_step (st : Z * (Z -> Z)) (e : event) : Z * (Z -> Z) :=
  match e with
  | Wr IoReg r => (r, snd st)
  | Wr IoData v => (fst st, upd (snd st) (fst st) v)
  | _ => st
  end.

Definition ioapic_run (st : Z * (Z -> Z)) (tr : list event) : Z * (Z -> Z) := foldl ioapic_step st tr.

(** The registers after the events [tr]. *)
Definition ioapic_regs (tr : list event) : Z -> Z := snd (ioapic_run (0, fun _ => 0) tr).

(** Entry [i] of the redirection table is its two registers. *)
Definition redirection (regs : Z -> Z) (i : Z) : Z * Z := (regs (REG_TABLE + 2 * i), regs (REG_TABLE + 2 * i + 1)).

Definition route_events (r : Z * (Z * Z)) : list event :=
  [Wr IoReg (REG_TABLE + 2 * r.1); Wr IoData r.2.1; Wr IoReg (REG_TABLE + 2 * r.1 + 1); Wr IoData r.2.2].

(** The last setting of entry [i] among [rs]. *)
Definition routed (i : Z) (d : Z * Z) (rs : list (Z * (Z * Z))) : Z * Z :=
  foldl (fun d r => if decide (r.1 = i) then r.2 else d) d rs.

Lemma run_routes rs : forall st i,
  redirection (snd (ioapic_run st (concat (map route_events rs)))) i = routed i (redirection (snd st) i) rs.
Proof.
  induction rs as [|[j [lo hi]] rs IH]; intros [sel tab] i; [done|].
  cbn [map concat]. unfold ioapic_run. rewrite foldl_app. cbn [routed foldl].
  etransitivity; [apply (IH (REG_TABLE + 2 * j + 1,
    upd (upd tab (REG_TABLE + 2 * j) lo) (REG_TABLE + 2 * j + 1) hi))|].
  unfold routed. f_equal. unfold redirection. cbn [snd fst]. case_decide as E.
  - subst i. rewrite upd_eq, upd_ne, upd_eq by lia. done.
  - rewrite !upd_ne by lia. done.
Qed.

Lemma routed_app i d rs rs' : routed i d (rs ++ rs') = routed i (routed i d rs) rs'.
Proof. apply foldl_app. Qed.

Lemma routed_out i d rs : i ∉ rs.*1 -> routed i d rs = d.
Proof.
  revert d. induction rs as [|r rs IH]; intros d Hi; [done|]. apply not_elem_of_cons in Hi as [H1 H2].
  cbn. rewrite decide_False by done. by apply IH.
Qed.

Lemma routed_in i d rs v : NoDup rs.*1 -> (i, v) ∈ rs -> routed i d rs = v.
Proof.
  revert d. induction rs as [|r rs IH]; intros d Hn Hi; [by apply elem_of_nil in Hi|].
  apply NoDup_cons in Hn as [Hr Hn]. cbn. apply elem_of_cons in Hi as [<-|Hi].
  - rewrite decide_True by done. by apply routed_out.
  - by apply IH.
Qed.

Definition mask_route (i : Z) : Z * (Z * Z) := (i, (u32 (Z.lor INT_DISABLED (T_IRQ0 + i)), u32 0)).
Definition irq_route (x : Z * Z) : Z * (Z * Z) := (x.1, (u32 (T_IRQ0 + x.1), u32 (Z.shiftl x.2 24))).

Lemma mfor_routes {A} (body : A -> P unit) (f : A -> Z * (Z * Z)) l :
  (forall a s, body a s = Ret tt (ext s (route_events (f a)))) ->
  forall s, mfor body l s = Ret tt (ext s (concat (map route_events (map f l)))).
Proof.
  intros Hb. induction l as [|a l IH]; intros s; cbn [mfor map concat]; [by rewrite ext_nil|].
  mstep (Hb a s). by rewrite IH, ext_ext.
Qed.

Lemma ioapic_disable_ext i s : ioapic_disable i s = Ret tt (ext s (route_events (mask_route i))).
Proof. cbv [ioapic_disable ioapicwrite dev_wr emit modify bind ext set_pf_trace pf_trace]. cbn. by rewrite <- !app_assoc. Qed.

Lemma ioapicenable_ext irq cpu s : ioapicenable irq cpu s = Ret tt (ext s (route_events (irq_route (irq, cpu)))).
Proof. cbv [ioapicenable ioapicwrite dev_wr emit modify bind ext set_pf_trace pf_trace]. cbn. by rewrite <- !app_assoc. Qed.

(** The number of the last entry, as the version register has it. *)
Definition maxintr_of (s : platform) : Z :=
  Z.land (Z.shiftr (u32 (pf_env s (pf_trace s ++ [Wr IoReg REG_VER]) IoData)) 16) 0xFF.

(** Steps that only add events. *)
Lemma bind_ext {A B} (m : P A) (k : A -> P B) s a es : m s = Ret a (ext s es) -> bind m k s = k a (ext s es).
Proof. intros E. by rewrite (bind_Ret _ _ _ _ _ E). Qed.

Lemma ioapicread_ext reg s : exists v, ioapicread reg s =
  Ret (u32 (pf_env s (pf_trace s ++ [Wr IoReg reg]) IoData)) (ext s [Wr IoReg reg; Rd IoData v]).
Proof. eexists. cbv [ioapicread dev_wr dev_rd emit modify gets bind ret ext set_pf_trace pf_trace]. cbn. by rewrite <- !app_assoc. Qed.

(** The reads of [ioapicinit] change no register. *)
Lemma ioapicinit_ext s : exists hdr, (forall st, snd (ioapic_run st hdr) = snd st) /\
  ioapicinit s = Ret tt (ext s (hdr ++ concat (map route_events (map mask_route (seqZ 0 (maxintr_of s + 1)))))).
Proof.
  unfold ioapicinit. destruct (ioapicread_ext REG_VER s) as [v Ev]. rewrite (bind_ext _ _ _ _ _ Ev).
  set (s1 := ext s _). destruct (ioapicread_ext REG_ID s1) as [w Ew]. rewrite (bind_ext _ _ _ _ _ Ew).
  mrun. fold (maxintr_of s). subst s1. rewrite ext_ext. cbn [app].
  set (es := [Wr IoReg REG_VER; Rd IoData v; Wr IoReg REG_ID; Rd IoData w]).
  destruct (negb _).
  - rewrite (bind_ext _ _ _ _ _ (emit_ext _ _)), ext_ext.
    rewrite (mfor_routes ioapic_disable mask_route _ ioapic_disable_ext), ext_ext.
    eexists. split; [|reflexivity]. by intros [].
  - mrun. rewrite (mfor_routes ioapic_disable mask_route _ ioapic_disable_ext), ext_ext.
    eexists. split; [|reflexivity]. by intros [].
Qed.

(** After [ioapicinit] and any [ioapicenable]s, whatever the machine, the I/O
    APIC delivers exactly the enabled interrupts: entry [i] of its table has
    the vector [T_IRQ0 + i] and the given CPU if interrupt [i] was enabled,
    and is masked otherwise. *)
Theorem ioapic_routes s l : NoDup l.*1 -> (forall x, x ∈ l -> 0 <= x.1 < 240 /\ 0 <= x.2 < 256) ->
  exists s', (ioapicinit ;;; mfor (fun x => ioapicenable x.1 x.2) l) s = Ret tt s' /\
    forall i, 0 <= i <= maxintr_of s ->
      let e := redirection (ioapic_regs (pf_trace s')) i in
      (forall cpu, (i, cpu) ∈ l -> e = (T_IRQ0 + i, cpu * 2 ^ 24)) /\
      (i ∉ l.*1 -> Z.testbit e.1 16 = true).
Proof.
  intros Hn Hl. destruct (ioapicinit_ext s) as (hdr & Hhdr & E). rewrite (bind_ext _ _ _ _ _ E).
  assert (forall x s, ioapicenable x.1 x.2 s = Ret tt (ext s (route_events (irq_route x)))) as He
    by (intros [a b] s0; apply ioapicenable_ext).
  rewrite (mfor_routes _ irq_route _ He), ext_ext. eexists. split; [reflexivity|].
  intros i Hi. cbn [ext set_pf_trace pf_trace]. unfold ioapic_regs, ioapic_run.
  rewrite <- app_assoc, <- concat_app, <- map_app, !foldl_app. fold (ioapic_run (0, fun _ => 0) (pf_trace s)).
  set (st := ioapic_run _ (pf_trace s)).
  change (foldl ioapic_step ?a ?b) with (ioapic_run a b). rewrite run_routes, Hhdr, routed_app.
  assert ((map irq_route l).*1 = l.*1) as Hfst by (rewrite <- list_fmap_compose; done).
  split.
  - intros cpu Hin. destruct (Hl _ Hin) as [Hi1 Hi2]. cbn [fst snd] in *.
    rewrite (routed_in i _ _ (u32 (T_IRQ0 + i), u32 (Z.shiftl cpu 24))).
    + rewrite Z.shiftl_mul_pow2, !u32_small by (unfold T_IRQ0; lia). done.
    + by rewrite Hfst.
    + apply list_elem_of_fmap. by exists (i, cpu).
  - intros Hno. rewrite (routed_out i _ (map irq_route l)) by by rewrite Hfst.
    rewrite (routed_in i _ _ (u32 (Z.lor INT_DISABLED (T_IRQ0 + i)), u32 0)).
    + cbn [fst]. unfold u32. rewrite Z.mod_pow2_bits_low, Z.lor_spec by lia. done.
    + rewrite <- list_fmap_compose. cbn. rewrite list_fmap_id. apply NoDup_seqZ.
    + apply list_elem_of_fmap. exists i. split; [done|]. apply elem_of_seqZ. lia.
Qed.

(** ** The clock *)

(** After the events [tr0] the clock answers from [regs]: the data port has the
    register that was selected last. *)
Definition rtc (env : list event -> target -> Z) (tr0 : list event) (regs : Z -> Z) : Prop :=
  forall es r, env (tr0 ++ es ++ [Wr (Port CMOS_PORT) r]) (Port CMOS_RETURN) = regs r.

Definition bcd_of (x : Z) : Z := 16 * (x / 10) + x mod 10.

(** The registers show the date [d], in BCD or, if bit 2 of status register B is
    set, in binary; no update is going on. *)
Record shows (regs : Z -> Z) (d : rtcdate) : Prop := {
  sh_fields f : f ∈ [second d; minute d; hour d; day d; month d; year d - 2000] -> 0 <= f < 100;
  sh_uip : Z.land (u8 (regs CMOS_STATA)) CMOS_UIP = 0;
  sh_regs : let enc x := if Z.land (u8 (regs CMOS_STATB)) 4 =? 0 then bcd_of x else x in
    map regs [SECS; MINS; HOURS; DAY; MONTH; YEAR] =
    map enc [second d; minute d; hour d; day d; month d; year d - 2000] }.

Lemma bcd_range x : 0 <= x < 100 -> 0 <= bcd_of x < 256.
Proof. intros H. unfold bcd_of. pose proof (Z.div_mod x 10 ltac:(lia)). pose proof (Z.mod_pos_bound x 10 ltac:(lia)). lia. Qed.

Lemma CONV_bcd x : 0 <= x < 100 -> CONV (bcd_of x) = x.
Proof.
  intros H. unfold CONV, bcd_of. pose proof (Z.div_mod x 10 ltac:(lia)).
  pose proof (Z.mod_pos_bound x 10 ltac:(lia)). change 0xf with (Z.ones 4).
  rewrite Z.land_ones, Z.shiftr_div_pow2 by lia. change (2 ^ 4) with 16.
  rewrite (Z.add_comm (16 * _)), (Z.mul_comm 16), Z.div_add, Z_mod_plus_full, (Z.div_small (x mod 10)) by lia.
  rewrite (Z.mod_small (x mod 10)) by lia. lia.
Qed.

Lemma rtc_ext env tr0 es regs : rtc env tr0 regs -> rtc env (tr0 ++ es) regs.
Proof. intros H es' r. rewrite <- app_assoc, (app_assoc es). apply H. Qed.

Lemma cmos_read_ok s regs r : rtc (pf_env s) (pf_trace s) regs -> 0 <= r < 256 ->
  exists es, cmos_read r s = Ret (u8 (regs r)) (ext s es).
Proof.
  intros H Hr. unfold cmos_read. rewrite (bind_ext _ _ _ _ _ (outb_ext _ _ _)), inb_ext, ext_ext.
  cbn [ext set_pf_trace pf_env pf_trace]. rewrite (u8_small r Hr).
  pose proof (H [] r) as E. cbn [app] in E. rewrite E. by eexists.
Qed.

(** One read of a register of the clock. *)
Ltac clock_read H :=
  lazymatch goal with
  | |- context [bind (cmos_read ?r) _ ?s] =>
      let es := fresh "es" in let E := fresh "E" in
      destruct (cmos_read_ok s _ r ltac:(first [exact H | exact (rtc_ext _ _ _ _ H)]) ltac:(by_eval)) as [es E];
      rewrite (bind_ext _ _ _ _ _ E), ?ext_ext; clear E
  end.

Lemma fill_rtcdate_ok s regs : rtc (pf_env s) (pf_trace s) regs ->
  exists es, fill_rtcdate s = Ret (mk_rtcdate (u8 (regs SECS)) (u8 (regs MINS)) (u8 (regs HOURS))
    (u8 (regs DAY)) (u8 (regs MONTH)) (u8 (regs YEAR))) (ext s es).
Proof.
  intros H. unfold fill_rtcdate. do 6 clock_read H. by eexists.
Qed.

(** [cmostime] reads the clock: it returns the date the registers show, in
    whichever of the two encodings the clock uses. *)
Theorem cmostime_reads s regs d k : rtc (pf_env s) (pf_trace s) regs -> shows regs d ->
  exists es, cmostime (S k) s = Ret d (ext s es).
Proof.
  intros H [Hf Hu Hr]. unfold cmostime. clock_read H. cbn [cmos_stable].
  destruct (fill_rtcdate_ok _ regs (rtc_ext _ _ es _ H : rtc (pf_env (ext s es)) _ _)) as [es1 E1].
  rewrite !bind_assoc, (bind_ext _ _ _ _ _ E1), ext_ext, !bind_assoc. clock_read H. rewrite Hu. cbn [negb Z.eqb].
  set (es2 := (es ++ es1) ++ es0).
  destruct (fill_rtcdate_ok _ regs (rtc_ext _ _ es2 _ H : rtc (pf_env (ext s es2)) _ _)) as [es3 E3].
  rewrite !bind_assoc, (bind_ext _ _ _ _ _ E3), decide_True by done. mrun. rewrite ext_ext.
  exists (es2 ++ es3). unfold ret. f_equal. cbn [map] in Hr. injection Hr as R1 R2 R3 R4 R5 R6.
  rewrite R1, R2, R3, R4, R5, R6. cbn [second minute hour day month year].
  assert (forall f, f ∈ [second d; minute d; hour d; day d; month d; year d - 2000] ->
    0 <= f < 100) as Hf' by done.
  destruct (Z.land (u8 (regs CMOS_STATB)) 4 =? 0); cbn [second minute hour day month year].
  - rewrite !u8_small, !CONV_bcd by (apply bcd_range || idtac; apply Hf'; set_solver). destruct d. cbn. f_equal. lia.
  - rewrite !u8_small by (assert (forall f, 0 <= f < 100 -> 0 <= f < 256) as Hw by lia; apply Hw, Hf'; set_solver).
    destruct d. cbn. f_equal. lia.
Qed.

(** ** Examples *)

(** A machine whose reads do not depend on what happened before. *)
Definition demo_platform (env : list event -> target -> Z) : platform :=
  mk_platform env [] (fun _ => 0) 0xFEE00000 2 [] false.

(** An I/O APIC of 24 entries. *)
Definition demo_ioapic : platform := demo_platform (fun _ _ => 0x170011).

Lemma ioapic_routes_witness : exists s',
  (ioapicinit ;;; mfor (fun x => ioapicenable x.1 x.2) [(1, 0); (14, 3)]) demo_ioapic = Ret tt s' /\
  redirection (ioapic_regs (pf_trace s')) 14 = (46, 3 * 2 ^ 24) /\
  Z.testbit (redirection (ioapic_regs (pf_trace s')) 5).1 16 = true.
Proof.
  destruct (ioapic_routes demo_ioapic [(1, 0); (14, 3)]) as (s' & E & H).
  - repeat constructor; set_solver.
  - intros x [->|[->|[]%elem_of_nil]%elem_of_cons]%elem_of_cons; cbn; lia.
  - exists s'. split; [exact E|]. split.
    + apply (H 14); [split; by_eval|set_solver].
    + apply (H 5); [split; by_eval|set_solver].
Defined.

(** A clock at 23:59:58 on 31 December 2024, in BCD. *)
Definition demo_regs (r : Z) : Z :=
  if r =? SECS then 0x58 else if r =? MINS then 0x59 else if r =? HOURS then 0x23 else
  if r =? DAY then 0x31 else if r =? MONTH then 0x12 else if r =? YEAR then 0x24 else 0.
Definition demo_clock : platform := demo_platform (fun tr _ =>
  match last tr with Some (Wr (Port _) r) => demo_regs r | _ => 0 end).

Lemma cmostime_reads_witness : exists es,
  cmostime 1 demo_clock = Ret (mk_rtcdate 58 59 23 31 12 2024) (ext demo_clock es).
Proof.
  apply (cmostime_reads demo_clock demo_regs).
  - intros es r. cbn. by rewrite last_snoc.
  - split; [|reflexivity|reflexivity]. intros f Hf. cbn in Hf.
    repeat (apply elem_of_cons in Hf as [->|Hf]; [lia|]). by apply elem_of_nil in Hf.
Defined.
