(* ===== verification/Mp.v ===== *)
(** Finding the processors: mp.c.

    The BIOS describes the machine in a table in memory.  [mpsearch] looks for
    the floating pointer structure, [mpconfig] checks the table it points to
    and [mpinit] walks over its entries.  The theorems say that the search
    returns the first structure with a valid checksum and that the walk reads
    back a table made of entries of the known types; and that on an entry of
    another type the walk never ends, since the [break] of its [default] case
    leaves only the [switch]. *)

From stdpp Require Import base list sets strings.
From Stdlib Require Import ZArith Lia.
From S2P Require Import Prelude State Platform.

Open Scope Z_scope.
Open Scope kernel_scope.

Definition NCPU : Z := 8.

(** Bytes and words of memory. *)
Definition word16 (m : Z -> Z) (a : Z) : Z := of_le (read_list m a 2).
Definition word32 (m : Z -> Z) (a : Z) : Z := of_le (read_list m a 4).

Definition sum (m : Z -> Z) (addr : Z) (len : nat) : Z := u8 (foldr Z.add 0 (read_list m addr len)).

(** [sizeof(struct mp)] and [sizeof(struct mpconf)] *)
Definition MP_SIZE : Z := 16.
Definition MPCONF_SIZE : Z := 44.

Definition is_mp (m : Z -> Z) (p : Z) : bool :=
  bool_decide (read_list m p 4 = [95; 77; 80; 95]) && (sum m p (Z.to_nat MP_SIZE) =? 0).

(** The loop over [p < e]. *)
Fixpoint mpsearch_loop (m : Z -> Z) (p e : Z) (k : nat) : Z :=
  match k with
  | O => 0
  | S k => if p <? e then if is_mp m p then p else mpsearch_loop m (p + MP_SIZE) e k else 0
  end.

Definition mpsearch1 (m : Z -> Z) (a len : Z) : Z :=
  mpsearch_loop m (P2V a) (P2V a + len) (Z.to_nat (len / MP_SIZE + 2)).

Definition mpsearch (m : Z -> Z) : Z :=
  let bda := P2V 0x400 in
  let p := Z.shiftl (Z.lor (Z.shiftl (m (bda + 0x0F)) 8) (m (bda + 0x0E))) 4 in
  let r := if negb (p =? 0) then mpsearch1 m p 1024
           else mpsearch1 m (u32 (Z.lor (Z.shiftl (m (bda + 0x14)) 8) (m (bda + 0x13)) * 1024 - 1024)) 1024 in
  if negb (r =? 0) then r else mpsearch1 m 0xF0000 0x10000.

(** The addresses of the table and of the structure that points to it. *)
Definition mpconfig (m : Z -> Z) : option (Z * Z) :=
  let mp := mpsearch m in
  if (mp =? 0) || (word32 m (mp + 4) =? 0) then None else
  let conf := P2V (word32 m (mp + 4)) in
  if negb (bool_decide (read_list m conf 4 = [80; 67; 77; 80])) then None else
  let version := m (conf + 6) in
  if negb (version =? 1) && negb (version =? 4) then None else
  if negb (sum m conf (Z.to_nat (word16 m (conf + 4))) =? 0) then None else
  Some (conf, mp).

Definition MPPROC : Z := 0.
Definition MPBUS : Z := 1.
Definition MPIOAPIC : Z := 2.
Definition MPIOINTR : Z := 3.
Definition MPLINTR : Z := 4.

(** The walk over the entries; returns [ismp]. *)
Fixpoint mpinit_loop (p e : Z) (ismp : bool) (k : nat) : P bool :=
  match k with
  | O => spin
  | S k =>
    if p <? e then
      m <- gets pf_mem ;;
      if m p =? MPPROC then
        cpus <- gets pf_cpus ;;
        (if Z.of_nat (length cpus) <? NCPU then modify (set_pf_cpus (cpus ++ [m (p + 1)])) else ret tt) ;;;
        mpinit_loop (p + 20) e ismp k
      else if m p =? MPIOAPIC then
        modify (set_pf_ioapicid (m (p + 1))) ;;;
        mpinit_loop (p + 8) e ismp k
      else if (m p =? MPBUS) || (m p =? MPIOINTR) || (m p =? MPLINTR) then mpinit_loop (p + 8) e ismp k
      else mpinit_loop p e false k
    else ret ismp
  end.

(** [k] bounds the walk. *)
Definition mpinit (k : nat) : P unit :=
  m <- gets pf_mem ;;
  match mpconfig m with
  | None => panic "Expect to run on an SMP"
  | Some (conf, mp) =>
    modify (set_pf_lapic (word32 m (conf + 36))) ;;;
    ismp <- mpinit_loop (conf + MPCONF_SIZE) (conf + word16 m (conf + 4)) true k ;;
    if negb ismp then panic "Didn't find a suitable machine" else
    if negb (m (mp + 12) =? 0) then
      outb 0x22 0x70 ;;;
      v <- inb 0x23 ;;
      outb 0x23 (Z.lor v 1)
    else ret tt
  end.

(** ** The search *)

(** [mpsearch1] returns the first of the 16-byte slots of its range that holds
    the signature and has checksum 0, and 0 when there is none. *)
Theorem mpsearch1_first m a len : 0 <= len ->
  let slot i := P2V a + MP_SIZE * i in
  (exists i, 0 <= i /\ MP_SIZE * i < len /\ mpsearch1 m a len = slot i /\ is_mp m (slot i) = true /\
     forall j, 0 <= j < i -> is_mp m (slot j) = false) \/
  (mpsearch1 m a len = 0 /\ forall j, 0 <= j -> MP_SIZE * j < len -> is_mp m (slot j) = false).
Proof.
  intros Hlen slot. unfold mpsearch1.
  assert (forall k i, 0 <= i -> len - MP_SIZE * i < MP_SIZE * Z.of_nat k ->
    (forall j, 0 <= j < i -> is_mp m (slot j) = false) ->
    (exists i', 0 <= i' /\ MP_SIZE * i' < len /\ mpsearch_loop m (slot i) (P2V a + len) k = slot i' /\
       is_mp m (slot i') = true /\ forall j, 0 <= j < i' -> is_mp m (slot j) = false) \/
    (mpsearch_loop m (slot i) (P2V a + len) k = 0 /\
       forall j, 0 <= j -> MP_SIZE * j < len -> is_mp m (slot j) = false)) as Hloop.
  { induction k as [|k IH]; intros i Hi Hk Hj; cbn [mpsearch_loop].
    - right. split; [done|]. intros j H1 H2. apply Hj. unfold MP_SIZE in *. lia.
    - destruct (Z.ltb_spec (slot i) (P2V a + len)) as [Hlt|Hge].
      + destruct (is_mp m (slot i)) eqn:E.
        * left. exists i. unfold slot in *. split_and!; try done. lia.
        * replace (slot i + MP_SIZE) with (slot (i + 1)) by (unfold slot; lia).
          apply IH; [lia|unfold MP_SIZE in *; lia|]. intros j Hj'.
          destruct (decide (j = i)) as [->|]; [done|]. apply Hj. lia.
      + right. split; [done|]. intros j H1 H2. apply Hj. unfold slot, MP_SIZE in *. lia. }
  specialize (Hloop (Z.to_nat (len / MP_SIZE + 2)) 0 ltac:(lia)).
  replace (slot 0) with (P2V a) in Hloop by (unfold slot; lia). apply Hloop; [|lia].
  pose proof (Z.div_pos len MP_SIZE Hlen eq_refl).
  pose proof (Z.mul_succ_div_gt len MP_SIZE eq_refl). unfold MP_SIZE in *. lia.
Qed.

(** ** The entries of the table *)

Inductive mp_entry : Type :=
| Eproc (apicid : Z) (rest : list Z)
| Eioapic (apicno : Z) (rest : list Z)
| Eother (type : Z) (rest : list Z).

Definition entry_bytes (e : mp_entry) : list Z :=
  match e with
  | Eproc id rest => MPPROC :: id :: rest
  | Eioapic id rest => MPIOAPIC :: id :: rest
  | Eother t rest => t :: rest
  end.

Definition entry_ok (e : mp_entry) : Prop :=
  match e with
  | Eproc _ rest => length rest = 18%nat
  | Eioapic _ rest => length rest = 6%nat
  | Eother t rest => t ∈ [MPBUS; MPIOINTR; MPLINTR] /\ length rest = 7%nat
  end.

(** What an entry tells the kernel. *)
Definition learn (s : platform) (e : mp_entry) : platform :=
  match e with
  | Eproc id _ => if Z.of_nat (length (pf_cpus s)) <? NCPU then set_pf_cpus (pf_cpus s ++ [id]) s else s
  | Eioapic id _ => set_pf_ioapicid id s
  | Eother _ _ => s
  end.

Definition table_bytes (es : list mp_entry) : list Z := concat (map entry_bytes es).

Lemma read_list_app {A} (m : Z -> A) a n1 n2 :
  read_list m a (n1 + n2) = read_list m a n1 ++ read_list m (a + Z.of_nat n1) n2.
Proof.
  revert a. induction n1 as [|n1 IH]; intros a; [simpl; by rewrite Z.add_0_r|].
  cbn [Nat.add]. rewrite !read_list_S, IH. cbn [app]. do 2 f_equal. f_equal. lia.
Qed.

(** [bs] is what memory holds at [a]. *)
Definition holds (m : Z -> Z) (a : Z) (bs : list Z) : Prop := read_list m a (length bs) = bs.

Lemma holds_app m a bs bs' : holds m a (bs ++ bs') -> holds m a bs /\ holds m (a + Z.of_nat (length bs)) bs'.
Proof. unfold holds. rewrite length_app, read_list_app. apply app_inj_1. apply length_read_list. Qed.

Lemma holds_cons m a b bs : holds m a (b :: bs) -> m a = b /\ holds m (a + 1) bs.
Proof. unfold holds. cbn [length]. rewrite read_list_S. by intros [= -> H]. Qed.

Lemma learn_mem s e : pf_mem (learn s e) = pf_mem s.
Proof. destruct e; simpl; [|done..]. by case_match. Qed.

Lemma mpinit_loop_entry p e ismp k s x : entry_ok x -> holds (pf_mem s) p (entry_bytes x) -> p < e ->
  mpinit_loop p e ismp (S k) s = mpinit_loop (p + Z.of_nat (length (entry_bytes x))) e ismp k (learn s x).
Proof.
  intros Hok Hh Hlt. cbn [mpinit_loop]. rewrite (proj2 (Z.ltb_lt _ _) Hlt). mrun.
  destruct x as [id rest|id rest|t rest]; cbn [entry_bytes entry_ok learn length] in *.
  - apply holds_cons in Hh as [E1 [E2 _]%holds_cons]. rewrite E1, E2, Hok. cbn [Z.eqb MPPROC]. mrun.
    by destruct (_ <? _); mrun.
  - apply holds_cons in Hh as [E1 [E2 _]%holds_cons]. rewrite E1, E2, Hok. by mrun.
  - destruct Hok as [Ht Hl]. apply holds_cons in Hh as [E1 _]. rewrite E1, Hl.
    apply elem_of_cons in Ht as [->|[->|[->|[]%elem_of_nil]%elem_of_cons]%elem_of_cons]; done.
Qed.

Lemma mpinit_loop_entries es : forall p e ismp k s, Forall entry_ok es ->
  holds (pf_mem s) p (table_bytes es) -> p + Z.of_nat (length (table_bytes es)) <= e ->
  mpinit_loop p e ismp (length es + k) s =
  mpinit_loop (p + Z.of_nat (length (table_bytes es))) e ismp k (foldl learn s es).
Proof.
  induction es as [|x es IH]; intros p e ismp k s Hok Hh He; [simpl; by rewrite Z.add_0_r|].
  apply Forall_cons in Hok as [Hx Hok]. unfold table_bytes in *. cbn [map concat length] in *.
  rewrite length_app in *. apply holds_app in Hh as [Hh1 Hh2].
  assert (0 < length (entry_bytes x))%nat by (destruct x; simpl; lia).
  cbn [Nat.add]. rewrite (mpinit_loop_entry p e ismp _ s x) by (done || lia).
  rewrite IH; [|done|by rewrite learn_mem|lia]. cbn [foldl]. f_equal. lia.
Qed.

(** ** The walk *)

Definition apicids (es : list mp_entry) : list Z :=
  omap (fun e => match e with Eproc id _ => Some id | _ => None end) es.
Definition ioapics (es : list mp_entry) : list Z :=
  omap (fun e => match e with Eioapic id _ => Some id | _ => None end) es.

Lemma learn_all es : forall s, (length (pf_cpus s) <= Z.to_nat NCPU)%nat ->
  foldl learn s es = set_pf_ioapicid (List.last (ioapics es) (pf_ioapicid s))
    (set_pf_cpus (take (Z.to_nat NCPU) (pf_cpus s ++ apicids es)) s).
Proof.
  assert (forall (l : list Z) x d, List.last (x :: l) d = List.last l x) as Hlast.
  { induction l as [|y l IH]; intros x d; [done|]. cbn [List.last] in *. destruct l; [done|]. apply (IH x). }
  induction es as [|e es IH]; intros s Hl.
  - cbn. rewrite app_nil_r, take_ge by done. by destruct s.
  - cbn [foldl]. destruct e as [id rest|id rest|t rest]; cbn [learn].
    + destruct (Z.ltb_spec (Z.of_nat (length (pf_cpus s))) NCPU) as [Hlt|Hge].
      * rewrite IH by (cbn; rewrite length_app; simpl; unfold NCPU in *; lia). cbn. by rewrite <- app_assoc.
      * rewrite IH by done. cbn [apicids ioapics omap list_omap]. f_equal. f_equal.
        rewrite !take_app_le by (unfold NCPU in *; lia). done.
    + rewrite IH by done. cbn [apicids ioapics omap list_omap]. by rewrite Hlast.
    + rewrite IH by done. done.
Qed.

(** [mpinit] on a table of known entries. *)
Lemma mpinit_ok s conf mp es k :
  mpconfig (pf_mem s) = Some (conf, mp) -> Forall entry_ok es ->
  holds (pf_mem s) (conf + MPCONF_SIZE) (table_bytes es) ->
  word16 (pf_mem s) (conf + 4) = MPCONF_SIZE + Z.of_nat (length (table_bytes es)) ->
  pf_cpus s = [] -> (length es < k)%nat ->
  exists io, mpinit k s = Ret tt (ext (set_pf_ioapicid (List.last (ioapics es) (pf_ioapicid s))
    (set_pf_cpus (take (Z.to_nat NCPU) (apicids es))
      (set_pf_lapic (word32 (pf_mem s) (conf + 36)) s))) io).
Proof.
  intros Hc Hes Hh Hlen Hcpus Hk. unfold mpinit. mrun. rewrite Hc. mrun.
  replace k with (length es + S (k - length es - 1))%nat by lia. set (s1 := set_pf_lapic _ s).
  rewrite (bind_Ret _ _ _ true (foldl learn s1 es)).
  2: { rewrite mpinit_loop_entries; [|done|done|rewrite Hlen; lia]. cbn [mpinit_loop].
       rewrite (proj2 (Z.ltb_ge _ _)) by lia. done. }
  cbn [negb]. rewrite learn_all by (unfold s1; cbn; rewrite Hcpus; simpl; lia).
  unfold s1. cbn [pf_cpus pf_ioapicid set_pf_lapic]. rewrite Hcpus. cbn [app].
  destruct (negb _); [|exists []; by rewrite ext_nil].
  rewrite (bind_ext _ _ _ _ _ (outb_ext _ _ _)), (bind_ext _ _ _ _ _ (inb_ext _ _)), outb_ext, !ext_ext.
  by eexists.
Qed.

(** [mpinit] reads the table back.  On a table that is made of entries of the
    known types it returns, having recorded the local APIC, the first [NCPU]
    processors in order and the last I/O APIC. *)
Theorem mpinit_reads s conf mp es k :
  mpconfig (pf_mem s) = Some (conf, mp) -> Forall entry_ok es ->
  holds (pf_mem s) (conf + MPCONF_SIZE) (table_bytes es) ->
  word16 (pf_mem s) (conf + 4) = MPCONF_SIZE + Z.of_nat (length (table_bytes es)) ->
  pf_cpus s = [] -> (length es < k)%nat ->
  exists io, mpinit k s = Ret tt (ext (set_pf_ioapicid (List.last (ioapics es) (pf_ioapicid s))
    (set_pf_cpus (take (Z.to_nat NCPU) (apicids es))
      (set_pf_lapic (word32 (pf_mem s) (conf + 36)) s))) io).
Proof. apply mpinit_ok. Qed.

(** C38: On a table with an entry of an unknown type [mpinit] never returns and never
    reaches its panic: the walk stays at that entry. *)
Theorem mpinit_unknown_spins s conf mp es t k :
  mpconfig (pf_mem s) = Some (conf, mp) -> Forall entry_ok es ->
  holds (pf_mem s) (conf + MPCONF_SIZE) (table_bytes es ++ [t]) ->
  MPCONF_SIZE + Z.of_nat (length (table_bytes es)) < word16 (pf_mem s) (conf + 4) ->
  t ∉ [MPPROC; MPBUS; MPIOAPIC; MPIOINTR; MPLINTR] -> (length es <= k)%nat ->
  exists s', mpinit k s = Spin s'.
Proof.
  intros Hc Hes Hh Hlen Ht Hk. apply holds_app in Hh as [Hh [Et _]%holds_cons].
  unfold mpinit. mrun. rewrite Hc. mrun.
  replace k with (length es + (k - length es))%nat by lia. set (s1 := set_pf_lapic _ s).
  assert (forall j ismp s, pf_mem s (conf + MPCONF_SIZE + Z.of_nat (length (table_bytes es))) = t ->
    mpinit_loop (conf + MPCONF_SIZE + Z.of_nat (length (table_bytes es)))
      (conf + word16 (pf_mem s1) (conf + 4)) ismp j s = Spin s) as Hspin.
  { induction j as [|j IH]; intros ismp s' E; [done|]. cbn [mpinit_loop].
    rewrite (proj2 (Z.ltb_lt _ _)) by (change (pf_mem s1) with (pf_mem s); lia). mrun. rewrite E.
    rewrite !not_elem_of_cons in Ht. destruct Ht as (H0 & H1 & H2 & H3 & H4 & _).
    rewrite !(proj2 (Z.eqb_neq _ _)) by done. by apply IH. }
  exists (foldl learn s1 es).
  assert (pf_mem (foldl learn s1 es) = pf_mem s) as Hm.
  { assert (forall es s, pf_mem (foldl learn s es) = pf_mem s) as H; [|by rewrite H].
    clear. induction es as [|e es IH]; intros s; [done|]. cbn [foldl]. by rewrite IH, learn_mem. }
  unfold bind. rewrite mpinit_loop_entries; [|done|done|lia].
  change (word16 (pf_mem s)) with (word16 (pf_mem s1)). rewrite Hspin; [done|]. by rewrite Hm.
Qed.

(** ** Examples *)

(** The structure at 0xF0000 and a table at 0x2000 with a processor and one more
    entry, of type [t]. *)
Definition demo_table (t chk : Z) : list Z :=
  [80; 67; 77; 80; 72; 0; 4; chk] ++ replicate 28 0 ++ [0; 0; 0xE0; 0xFE] ++ replicate 4 0 ++
  (0 :: 3 :: replicate 18 0) ++ (t :: 5 :: replicate 6 0).
Definition demo_mp (t chk : Z) : platform :=
  set_pf_mem (upd_list (upd_list (fun _ => 0) (P2V 0x2000) (demo_table t chk)) (P2V 0xF0000)
    [95; 77; 80; 95; 0; 0x20; 0; 0; 1; 4; 128; 0; 0; 0; 0; 0]) (demo_platform (fun _ _ => 0)).

Lemma demo_config : mpconfig (pf_mem (demo_mp 2 156)) = Some (P2V 0x2000, P2V 0xF0000) /\
  mpconfig (pf_mem (demo_mp 9 149)) = Some (P2V 0x2000, P2V 0xF0000).
Proof. split; vm_compute; reflexivity. Qed.

Lemma mpsearch1_first_witness :
  mpsearch1 (pf_mem (demo_mp 2 156)) 0xEFFF0 64 = P2V 0xF0000.
Proof.
  destruct (mpsearch1_first (pf_mem (demo_mp 2 156)) 0xEFFF0 64 ltac:(lia)) as [(i & Hi & Hl & E & H & Hj)|[_ Hn]].
  - rewrite E. assert (i = 1) as ->; [|reflexivity].
    destruct (Z.lt_trichotomy i 1) as [H1|[H1|H1]]; [|done|exfalso].
    + assert (i = 0) as -> by lia. vm_compute in H. discriminate.
    + specialize (Hj 1 ltac:(lia)). vm_compute in Hj. discriminate.
  - specialize (Hn 1 ltac:(lia) ltac:(by_eval)). vm_compute in Hn. discriminate.
Defined.

Lemma mpinit_reads_witness : exists s', mpinit 5 (demo_mp 2 156) = Ret tt s' /\
  pf_cpus s' = [3] /\ pf_ioapicid s' = 5 /\ pf_lapic s' = 0xFEE00000.
Proof.
  destruct (mpinit_reads (demo_mp 2 156) (P2V 0x2000) (P2V 0xF0000)
    [Eproc 3 (replicate 18 0); Eioapic 5 (replicate 6 0)] 5 (proj1 demo_config)) as (io & E).
  - repeat constructor.
  - vm_compute. reflexivity.
  - vm_compute. reflexivity.
  - reflexivity.
  - simpl. lia.
  - eexists. split; [exact E|]. split_and!; vm_compute; reflexivity.
Defined.

Lemma mpinit_unknown_spins_witness : exists s', mpinit 1000 (demo_mp 9 149) = Spin s'.
Proof.
  apply (mpinit_unknown_spins (demo_mp 9 149) (P2V 0x2000) (P2V 0xF0000) [Eproc 3 (replicate 18 0)] 9 1000
    (proj2 demo_config)).
  - repeat constructor.
  - vm_compute. reflexivity.
  - vm_compute. reflexivity.
  - rewrite !not_elem_of_cons. split_and!; try discriminate. apply not_elem_of_nil.
  - simpl. lia.
Defined.
