(* ===== verification/Start.v ===== *)
(** Kernel start-up: main.c, with [kvmalloc] and [switchkvm] of vm.c and
    [mycpu], [cpuid] and [pinit] of proc.c.

    The machine is the product of the parts that the other files model: the
    kernel's variables, the platform's devices, the disk controller and the
    descriptor tables and registers of each processor.  The first megabyte,
    where the firmware leaves its tables and the code of the other processors
    is put, is the memory of the platform; the pages above it, which the
    allocator hands out, are the kernel's.  The other processors run on their
    own: [ap_ready c k] says that processor [c] has come as far as [mpenter]
    when the boot processor looks with [k] looks left, and it runs [mpenter] up
    to the scheduler then. *)

From stdpp Require Import base list sets strings.
From Stdlib Require Import ZArith Lia.
From S2P Require Import Prelude State Demo CString Sched Cons Kalloc Vm PageTable Freevm Kvm Uvm Allocuvm.
From S2P Require Import MsgQueue Pipe Sleeplock Disk Bio Log Fs Inode File Proc Userinit Console Trap Segments Platform Mp.
From S2P Require Ide.

Open Scope Z_scope.
Open Scope kernel_scope.

(** ** The machine *)

Record sys : Type := mk_sys {
  y_k : kstate;
  y_pf : platform;
  y_ide : Ide.ide;
  (** of each processor: its tables and registers, and [started] *)
  y_cpus : list segcpu;
  y_started : list bool;
  y_idt : list gatedesc;
  y_kpgdir : Z;
  (** the processor that runs, and whether it takes interrupts *)
  y_self : nat;
  y_intr : bool }.

Definition set_y_k v s := mk_sys v (y_pf s) (y_ide s) (y_cpus s) (y_started s) (y_idt s) (y_kpgdir s) (y_self s) (y_intr s).
Definition set_y_pf v s := mk_sys (y_k s) v (y_ide s) (y_cpus s) (y_started s) (y_idt s) (y_kpgdir s) (y_self s) (y_intr s).
Definition set_y_ide v s := mk_sys (y_k s) (y_pf s) v (y_cpus s) (y_started s) (y_idt s) (y_kpgdir s) (y_self s) (y_intr s).
Definition set_y_cpus v s := mk_sys (y_k s) (y_pf s) (y_ide s) v (y_started s) (y_idt s) (y_kpgdir s) (y_self s) (y_intr s).
Definition set_y_started v s := mk_sys (y_k s) (y_pf s) (y_ide s) (y_cpus s) v (y_idt s) (y_kpgdir s) (y_self s) (y_intr s).
Definition set_y_idt v s := mk_sys (y_k s) (y_pf s) (y_ide s) (y_cpus s) (y_started s) v (y_kpgdir s) (y_self s) (y_intr s).
Definition set_y_kpgdir v s := mk_sys (y_k s) (y_pf s) (y_ide s) (y_cpus s) (y_started s) (y_idt s) v (y_self s) (y_intr s).
Definition set_y_self v s := mk_sys (y_k s) (y_pf s) (y_ide s) (y_cpus s) (y_started s) (y_idt s) (y_kpgdir s) v (y_intr s).

Abbreviation Y A := (M sys A).

(** A computation on a part of the machine. *)
Definition lift {T A} (get : sys -> T) (set : T -> sys -> sys) (m : M T A) : Y A :=
  fun s => match m (get s) with
           | Ret a t => Ret a (set t s)
           | Panic msg t => Panic msg (set t s)
           | Switch t => Switch (set t s)
           | Spin t => Spin (set t s)
           end.

Definition kern {A} (m : K A) : Y A := lift y_k set_y_k m.
Definition plat {A} (m : P A) : Y A := lift y_pf set_y_pf m.
Definition disk {A} (m : M Ide.ide A) : Y A := lift y_ide set_y_ide m.

(** ** Processors *)

Definition mycpu : Y nat :=
  intr <- gets y_intr ;;
  if (intr : bool) then panic "mycpu called with interrupts enabled" else
  apicid <- plat lapicid ;;
  cpus <- gets (fun s => pf_cpus (y_pf s)) ;;
  match list_find (fun id => id = apicid) cpus with
  | Some (i, _) => ret i
  | None => panic "unknown apicid"
  end.

Definition cpuid : Y nat := mycpu.

(** [initlock]: nobody holds the lock. *)
Definition klock_init (l : lockid) : K unit := modify (fun s => set_k_held (filter (fun l' => l' <> l) (k_held s)) s).

Definition pinit : K unit := klock_init L_ptable.
Definition fileinit : K unit := klock_init L_ftable.

(** ** The boot page table *)

(** [entrypgdir]: the first 4 megabytes at 0 and at [KERNBASE]. *)
Definition entrypgdir : list Z :=
  <[0%nat := Z.lor (Z.lor (Z.lor 0 PTE_P) PTE_W) PTE_PS]>
    (<[Z.to_nat (Z.shiftr KERNBASE PDXSHIFT) := Z.lor (Z.lor (Z.lor 0 PTE_P) PTE_W) PTE_PS]> (replicate NPDENTRIES 0)).

(** ** Start-up *)

Section Start.
Context {D : DiskDriver} {V : DevSw}.
(** Addresses of the linked kernel: [forkret], [mpenter], [entrypgdir], [idt]
    and [cpus[i].gdt]; the entries of vectors.S; the images of entryother.S and
    initcode.S. *)
Context (forkret_addr mpenter_addr entrypgdir_addr idt_addr : Z) (gdt_addr : nat -> Z).
Context (vectors entryother initcode : list Z).
(** What the devices answer to another processor, when it is ready, whether
    disk 1 answers, and a bound on the waits. *)
Context (ap_env : nat -> list event -> target -> Z) (ap_ready : nat -> nat -> bool) (disk1 : bool) (k : nat).

Definition set_cr3 (v : Z) (c : segcpu) : segcpu := mk_segcpu (gdt c) (ts c) (gdtr c) (idtr c) (tr c) v.

Definition upd_cpu (i : nat) (f : segcpu -> segcpu) (s : sys) : sys := set_y_cpus (alter f i (y_cpus s)) s.

Definition switchkvm : Y unit := modify (fun s => upd_cpu (y_self s) (set_cr3 (V2P (y_kpgdir s))) s).

Definition kvmalloc : Y unit :=
  pgdir <- kern setupkvm ;;
  modify (set_y_kpgdir pgdir) ;;;
  switchkvm.

Definition seginit_cpu : Y unit :=
  i <- cpuid ;;
  modify (upd_cpu i (seginit (gdt_addr i))).

Definition idtinit_cpu : Y unit := modify (fun s => upd_cpu (y_self s) (idtinit idt_addr) s).

(** "cpu%d: starting %d\n" *)
Definition starting_fmt : list Z := bytes_of "cpu%d: starting %d" ++ [10].

(** [mpmain] up to [scheduler]. *)
Definition mpmain : Y unit :=
  i <- cpuid ;;
  j <- cpuid ;;
  kern (cprintf starting_fmt [PInt (Z.of_nat i); PInt (Z.of_nat j)]) ;;;
  idtinit_cpu ;;;
  c <- mycpu ;;
  modify (fun s => set_y_started (<[c := true]> (y_started s)) s).

Definition mpenter : Y unit :=
  switchkvm ;;;
  seginit_cpu ;;;
  plat (lapicinit k) ;;;
  mpmain.

(** Another processor runs [m]. *)
Definition on_cpu (c : nat) (m : Y unit) : Y unit :=
  self <- gets y_self ;;
  env <- gets (fun s => pf_env (y_pf s)) ;;
  let set_env e s := set_y_pf (mk_platform e (pf_trace (y_pf s)) (pf_mem (y_pf s)) (pf_lapic (y_pf s))
    (pf_ioapicid (y_pf s)) (pf_cpus (y_pf s)) (pf_uart (y_pf s))) s in
  modify (fun s => set_y_self c (set_env (ap_env c) s)) ;;;
  m ;;;
  modify (fun s => set_y_self self (set_env env s)).

(** [while(c->started == 0) ;] *)
Fixpoint wait_started (n c : nat) : Y unit :=
  match n with
  | O => spin
  | S n =>
    (if ap_ready c n then on_cpu c mpenter else ret tt) ;;;
    started <- gets (fun s => default false (y_started s !! c)) ;;
    if (started : bool) then ret tt else wait_started n c
  end.

Definition code : Z := P2V 0x7000.

(** A store of a word in the first megabyte. *)
Definition store_low (a v : Z) : P unit := modify (fun s => set_pf_mem (upd_list (pf_mem s) a (le32 v)) s).

Definition startother (c : nat) : Y unit :=
  me <- mycpu ;;
  if decide (c = me) then ret tt else
  stack <- kern kalloc ;;
  plat (store_low (code - 4) (u32 (stack + KSTACKSIZE))) ;;;
  plat (store_low (code - 8) mpenter_addr) ;;;
  plat (store_low (code - 12) (V2P entrypgdir_addr)) ;;;
  apicid <- gets (fun s => pf_cpus (y_pf s) !!! c) ;;
  plat (lapicstartap apicid (V2P code)) ;;;
  wait_started k c.

Definition startothers : Y unit :=
  plat (modify (fun s => set_pf_mem (upd_list (pf_mem s) code entryother) s)) ;;;
  ncpu <- gets (fun s => length (pf_cpus (y_pf s))) ;;
  mfor startother (seq 0 ncpu).

Definition consoleinit_all : Y unit :=
  kern (klock_init L_cons ;;; consoleinit) ;;;
  plat (ioapicenable IRQ_KBD 0).

Definition tvinit_all : Y unit :=
  modify (set_y_idt (tvinit vectors)) ;;;
  kern (klock_init L_tickslock).

Definition ideinit_all : Y unit :=
  kern (klock_init L_ide) ;;;
  ncpu <- gets (fun s => Z.of_nat (length (pf_cpus (y_pf s)))) ;;
  plat (ioapicenable IRQ_IDE (ncpu - 1)) ;;;
  disk (Ide.ideinit disk1).

(** [main] up to [scheduler]. *)
Definition main : Y unit :=
  e <- gets (fun s => k_end (y_k s)) ;;
  kern (kinit1 e (P2V (4 * 1024 * 1024))) ;;;
  kvmalloc ;;;
  plat (mpinit k) ;;;
  plat (lapicinit k) ;;;
  seginit_cpu ;;;
  plat picinit ;;;
  plat ioapicinit ;;;
  consoleinit_all ;;;
  plat uartinit ;;;
  kern msgqueue_init ;;;
  kern pinit ;;;
  tvinit_all ;;;
  kern binit ;;;
  kern fileinit ;;;
  ideinit_all ;;;
  startothers ;;;
  kern (kinit2 (P2V (4 * 1024 * 1024)) (P2V PHYSTOP)) ;;;
  kern (userinit forkret_addr initcode) ;;;
  mpmain.
End Start.

(** ** The devices answer *)

(** The fields of the platform that only [mpinit] sets. *)
Record pf_same (s s' : platform) : Prop := {
  ps_env : pf_env s' = pf_env s;
  ps_lapic : pf_lapic s' = pf_lapic s;
  ps_cpus : pf_cpus s' = pf_cpus s }.

#[export] Instance pf_same_preorder : PreOrder pf_same.
Proof. split; [done|]. intros s1 s2 s3 [A1 B1 C1] [A2 B2 C2]. split; congruence. Qed.

(** The local APIC delivers its messages at once. *)
Definition lapic_idle (env : list event -> target -> Z) : Prop := forall t, Z.land (env t (Lapic ICRLO)) DELIVS = 0.

(** [m] returns, whatever the devices answer, and leaves these fields alone. *)
Definition steady {A} (m : P A) : Prop :=
  forall s, lapic_idle (pf_env s) -> exists a s', m s = Ret a s' /\ pf_same s s'.

Lemma steady_ret {A} (a : A) : steady (ret a).
Proof. intros s _. by exists a, s. Qed.

Lemma steady_gets {A} (f : platform -> A) : steady (gets f).
Proof. intros s _. by exists (f s), s. Qed.

Lemma steady_modify f : (forall s, pf_same s (f s)) -> steady (modify f).
Proof. intros H s _. exists tt, (f s). split; [done|apply H]. Qed.

Lemma steady_bind {A B} (m : P A) (f : A -> P B) : steady m -> (forall a, steady (f a)) -> steady (bind m f).
Proof.
  intros Hm Hf s Hs. destruct (Hm s Hs) as (a & s1 & E1 & H1). rewrite <- (ps_env _ _ H1) in Hs.
  destruct (Hf a s1 Hs) as (b & s2 & E2 & H2). exists b, s2. split; [by mstep E1|by etransitivity].
Qed.

Lemma steady_mfor {A} (f : A -> P unit) l : (forall a, steady (f a)) -> steady (mfor f l).
Proof. intros H. induction l as [|a l IH]; [apply steady_ret|]. by apply steady_bind. Qed.

Lemma steady_emit e : steady (emit e).
Proof. by apply steady_modify. Qed.

Create HintDb steady discriminated.
#[export] Hint Resolve steady_ret steady_gets steady_emit : steady.

Ltac steady :=
  repeat first
    [ progress intros
    | solve [auto with steady nocore]
    | lazymatch goal with
      | |- steady (bind _ _) => apply steady_bind
      | |- steady (mfor _ _) => apply steady_mfor
      | |- steady (modify _) => apply steady_modify; intros; done
      | |- steady (match ?x with _ => _ end) => destruct x
      end ].

Lemma steady_dev t v : steady (dev_wr t v) /\ steady (dev_rd t).
Proof. split; unfold dev_wr, dev_rd; steady. Qed.

Lemma steady_port p v : steady (outb p v) /\ steady (inb p).
Proof. split; unfold outb, inb; steady; apply (steady_dev _ 0) || apply steady_dev. Qed.

Lemma steady_lapicw i v : steady (lapicw i v).
Proof. unfold lapicw. steady; [apply (steady_dev _ _)|apply (steady_dev _ 0)]. Qed.

Lemma steady_io r v : steady (ioapicread r) /\ steady (ioapicwrite r v).
Proof. split; unfold ioapicread, ioapicwrite; steady; apply (steady_dev _ 0) || apply steady_dev. Qed.

Lemma steady_delivered k : steady (lapic_delivered (S k)).
Proof.
  intros s Hs. cbn [lapic_delivered]. rewrite (bind_Ret _ _ _ _ _ (dev_rd_ext _ _)). rewrite Hs. cbn [Z.eqb].
  by eexists _, _.
Qed.

Lemma steady_wait n : steady (uart_wait n).
Proof. induction n as [|n IH]; cbn [uart_wait]; steady. apply (steady_port _ 0). Qed.

Lemma steady_uartputc c : steady (Platform.uartputc c).
Proof. unfold Platform.uartputc. steady; [apply steady_wait|apply steady_port]. Qed.

Lemma steady_lapicinit k : steady (lapicinit (S k)).
Proof. unfold lapicinit. steady; apply steady_lapicw || apply (steady_dev _ 0) || apply steady_delivered. Qed.

Lemma steady_lapicid : steady lapicid.
Proof. unfold lapicid. steady. apply (steady_dev _ 0). Qed.

Lemma steady_ioapic irq c : steady ioapicinit /\ steady (ioapicenable irq c).
Proof.
  split; unfold ioapicinit, ioapicenable, ioapic_disable; steady;
    first [apply (steady_io _ 0)|apply steady_io].
Qed.

Lemma steady_picinit : steady picinit.
Proof. unfold picinit. steady; apply steady_port. Qed.

Lemma steady_uartinit : steady uartinit.
Proof. unfold uartinit. steady; first [apply (steady_port _ 0)|apply steady_port|apply steady_ioapic|apply steady_uartputc]. Qed.

Lemma steady_store a v bs : steady (store_low a v) /\ steady (store16 a v) /\
  steady (modify (fun s => set_pf_mem (upd_list (pf_mem s) a bs) s)).
Proof. split_and!; unfold store_low, store16; steady. Qed.

Lemma steady_startap id a : steady (lapicstartap id a).
Proof. unfold lapicstartap, startup_ipi. steady; first [apply steady_port|apply (steady_store _ _ [])|apply steady_lapicw]. Qed.

(** ** The parts of the machine *)

Lemma kern_Ret {A} (m : K A) s a t : m (y_k s) = Ret a t -> kern m s = Ret a (set_y_k t s).
Proof. intros E. unfold kern, lift. by rewrite E. Qed.

Lemma disk_Ret {A} (m : M Ide.ide A) s a t : m (y_ide s) = Ret a t -> disk m s = Ret a (set_y_ide t s).
Proof. intros E. unfold disk, lift. by rewrite E. Qed.

Lemma plat_Ret {A} (m : P A) s a t : m (y_pf s) = Ret a t -> plat m s = Ret a (set_y_pf t s).
Proof. intros E. unfold plat, lift. by rewrite E. Qed.

(** The platform after [mpinit], as processor [self] of [ids] sees it. *)
Record pf_up (ids : list Z) (self : nat) (pf : platform) : Prop := {
  pu_idle : lapic_idle (pf_env pf);
  pu_id : forall t, ids !! self = Some (Z.shiftr (u32 (pf_env pf t (Lapic ID))) 24);
  pu_lapic : pf_lapic pf <> 0;
  pu_cpus : pf_cpus pf = ids }.

Lemma pf_up_same ids self pf pf' : pf_up ids self pf -> pf_same pf pf' -> pf_up ids self pf'.
Proof. intros [A B C E] [F G H]. split; by rewrite ?F, ?G, ?H. Qed.

Lemma plat_steady {A} (m : P A) ids self s : steady m -> pf_up ids self (y_pf s) ->
  exists a pf, plat m s = Ret a (set_y_pf pf s) /\ pf_up ids self pf.
Proof.
  intros Hm Hu. destruct (Hm _ (pu_idle _ _ _ Hu)) as (a & pf & E & H). exists a, pf.
  split; [by apply plat_Ret|by eapply pf_up_same].
Qed.

Lemma mycpu_ok ids self s : NoDup ids -> pf_up ids self (y_pf s) -> y_intr s = false ->
  exists pf, mycpu s = Ret self (set_y_pf pf s) /\ pf_up ids self pf.
Proof.
  intros Hnd Hu Hi. unfold mycpu. mrun. rewrite Hi.
  set (v := pf_env (y_pf s) (pf_trace (y_pf s)) (Lapic ID)).
  assert (lapicid (y_pf s) = Ret (Z.shiftr (u32 v) 24) (ext (y_pf s) [Rd (Lapic ID) v])) as E.
  { unfold lapicid. mrun. rewrite (proj2 (Z.eqb_neq _ _) (pu_lapic _ _ _ Hu)). done. }
  rewrite (bind_Ret _ _ _ _ _ (plat_Ret _ _ _ _ E)). mrun. cbn [pf_cpus y_pf set_y_pf ext set_pf_trace].
  rewrite (pu_cpus _ _ _ Hu). pose proof (pu_id _ _ _ Hu (pf_trace (y_pf s))) as Hid. fold v in Hid.
  assert (list_find (fun id => id = Z.shiftr (u32 v) 24) ids = Some (self, Z.shiftr (u32 v) 24)) as ->.
  { apply list_find_Some. split_and!; [done|done|]. intros j y Hj Hlt ->.
    apply (NoDup_lookup _ _ _ _ Hnd Hj) in Hid. lia. }
  eexists. split; [reflexivity|]. by eapply pf_up_same.
Qed.

(** Work out the fields of a machine. *)
Ltac yred :=
  unfold upd_cpu, set_y_k, set_y_pf, set_y_ide, set_y_cpus, set_y_started, set_y_idt, set_y_kpgdir, set_y_self;
  cbn [y_k y_pf y_ide y_cpus y_started y_idt y_kpgdir y_self y_intr].

(** A machine is its fields. *)
Lemma sys_eq s k pf ide cpus started idt pgdir self intr :
  y_k s = k -> y_pf s = pf -> y_ide s = ide -> y_cpus s = cpus -> y_started s = started -> y_idt s = idt ->
  y_kpgdir s = pgdir -> y_self s = self -> y_intr s = intr ->
  Ret tt s = Ret tt (mk_sys k pf ide cpus started idt pgdir self intr).
Proof. intros <- <- <- <- <- <- <- <- <-. by destruct s. Qed.

Lemma bind_cong {T A B} (m : M T A) (f g : A -> M T B) s : (forall a s, f a s = g a s) -> bind m f s = bind m g s.
Proof. intros H. unfold bind. destruct (m s); [apply H|done..]. Qed.

(** [klock_init] with no lock held. *)
Lemma klock_init_ok l s : k_held s = [] -> klock_init l s = Ret tt s.
Proof. intros H. unfold klock_init, modify. rewrite H. cbn. rewrite <- H. by rewrite set_k_held_id. Qed.

(** ** The kernel's variables during start-up *)

Definition P2V_4M : Z := P2V (4 * 1024 * 1024).

(** The variables that a step of start-up leaves alone or sets on purpose. *)
Definition rest (k : kstate) :=
  (k_end k, k_data k, k_proc k, k_nextpid k, k_icache k, k_locking k, k_bcache k, k_msgq k).

(** The kernel runs in [pgdir], the pages of [l] are free, all of them below
    [hi], no lock is held,
    the console works, and the other variables are those of [k0]. *)
Record kinv (hi : Z) (k0 : kstate) (pgdir : Z) (l : list Z) (k : kstate) : Prop := {
  ki_vm : vm_ok k pgdir l;
  ki_map va : 0 <= va < 2 ^ 32 -> mmu (k_mem k) pgdir va = kernel_map va;
  ki_low q : q ∈ l \/ owned (k_mem k) pgdir q -> q < hi;
  ki_held : k_held k = [];
  ki_cga : cga_ok (k_cga k);
  ki_panicked : k_panicked k = false;
  ki_rest : rest k = rest k0 }.

(** A step that leaves the memory alone. *)
Lemma kinv_step hi k0 k0' pgdir l k k' : kinv hi k0 pgdir l k ->
  k_mem k' = k_mem k -> k_kmem k' = k_kmem k -> k_end k' = k_end k -> k_held k' = k_held k ->
  cga_ok (k_cga k') -> k_panicked k' = k_panicked k -> rest k' = rest k0' -> kinv hi k0' pgdir l k'.
Proof.
  intros [Hv Hm Hl Hh Hc Hp _] E1 E2 E3 E4 Hc' E5 Hr'.
  split; [by eapply vm_ok_proj|by rewrite E1|by rewrite E1|congruence|done|congruence|done].
Qed.

(** Only the console differs. *)
Definition printed_on (k k' : kstate) : Prop := exists o g, k' = set_k_out o (set_k_cga g k).

Lemma kinv_print hi k0 pgdir l k fmt args : kinv hi k0 pgdir l k ->
  exists k', cprintf fmt args k = Ret tt k' /\ kinv hi k0 pgdir l k' /\ printed_on k k'.
Proof.
  intros Hk. destruct (cprintf_ok fmt args k) as (g & E & Hg); [apply Hk|apply Hk|rewrite (ki_held _ _ _ _ _ Hk); set_solver|].
  eexists. split; [exact E|]. split; [|by eexists _, _]. eapply kinv_step; [done..|]. apply Hk.
Qed.

Lemma kinv_kalloc hi k0 pgdir p l k : kinv hi k0 pgdir (p :: l) k ->
  exists k', kalloc k = Ret p k' /\ kinv hi k0 pgdir l k'.
Proof.
  intros [Hv Hm Hl Hh Hc Hp Hr]. destruct (vm_ok_take pgdir p l k (k_mem k) Hv) as (E & _ & Hv' & He & Ho); [done|].
  eexists. split; [exact E|]. split; [exact Hv'|done| |done..]. intros q Hq. apply Hl. set_solver.
Qed.

Lemma kinv_lock hi k0 pgdir l k i : kinv hi k0 pgdir l k -> klock_init i k = Ret tt k.
Proof. intros Hk. apply klock_init_ok, Hk. Qed.

(** [kinit1] and [kvmalloc]'s page table. *)
Lemma kinv_boot k : KERNBASE + EXTMEM <= k_end k -> k_end k <= KERNBASE + 0x300000 -> k_held k = [] ->
  km_freelist (k_kmem k) = 0 -> k_data k mod PGSIZE = 0 -> KERNLINK < k_data k < KERNBASE + PHYSTOP ->
  cga_ok (k_cga k) -> k_panicked k = false ->
  exists k1 k2 p l, kinit1 (k_end k) P2V_4M k = Ret tt k1 /\ setupkvm k1 = Ret p k2 /\ kinv P2V_4M k p l k2 /\ (100 <= length l)%nat.
Proof.
  intros Hend Hend2 Hh Hf Hal Hd Hc Hp.
  assert (P2V_4M = KERNBASE + 0x400000) as E4 by reflexivity.
  set (k' := set_k_kmem (set_km_use_lock false (k_kmem k)) k).
  destruct (freerange_ok (k_end k) P2V_4M k' []) as (k1 & new & E & Hfp & Hq & Hlen & Hk1 & _);
    [unfold kmem_ready; change (k_held k') with (k_held k); rewrite Hh; set_solver|split; [constructor|exact Hf]
    |change (k_end k') with (k_end k); unfold KERNBASE, EXTMEM, PGSIZE, PHYSTOP in *; lia..|set_solver|].
  rewrite app_nil_r in Hfp.
  assert (255 <= Z.of_nat (length new)) as Hlen'.
  { etransitivity; [|exact Hlen]. apply (Z.add_le_mono_r 256 _ (-1)), Z.div_le_lower_bound; [done|]. unfold PGSIZE, KERNBASE in *. lia. }
  destruct new as [|p l]; [simpl in Hlen'; lia|].
  assert (k_end k1 = k_end k) as Ee by exact (f_equal k_end Hk1).
  assert (k_data k1 = k_data k) as Ed by exact (f_equal k_data Hk1).
  assert (k_held k1 = []) as Eh by exact (eq_trans (f_equal k_held Hk1) Hh).
  destruct (setupkvm_ok k1 p l) as [(k2 & l2 & E2 & _ & Hkm)|(k2 & _ & _ & Hbad)];
    [rewrite Ee; unfold KERNBASE, EXTMEM in *; lia|unfold kmem_ready; rewrite Eh; set_solver|done|by rewrite Ed|by rewrite Ed
    | |unfold KVM_PAGES in Hbad; lia].
  pose proof (km_only _ _ _ _ _ Hkm) as Hk2.
  exists k1, k2, p, l2. split; [exact E|]. split; [done|]. split.
  - split; try by apply Hkm.
    + intros q Ho. assert (q ∈ p :: l) as Hin by (apply (km_pages _ _ _ _ _ Hkm); done). apply Hq in Hin. unfold PGSIZE in *. lia.
    + exact (eq_trans (f_equal k_held Hk2) Eh).
    + rewrite (f_equal k_cga Hk2 : k_cga k2 = k_cga k1). by rewrite (f_equal k_cga Hk1 : k_cga k1 = k_cga k).
    + exact (eq_trans (f_equal k_panicked Hk2) (eq_trans (f_equal k_panicked Hk1) Hp)).
    + exact (eq_trans (f_equal rest Hk2) (f_equal rest Hk1)).
  - pose proof (km_used _ _ _ _ _ Hkm) as Hu. cbn [length] in *. unfold KVM_PAGES in *. lia.
Qed.

(** [kinit2]: the rest of memory is free too, and the allocator takes its lock
    from now on. *)
Lemma kinv_kinit2 k0 pgdir l k : kinv P2V_4M k0 pgdir l k -> k_end k <= P2V_4M ->
  exists k' new, kinit2 P2V_4M (P2V PHYSTOP) k = Ret tt k' /\ kinv (P2V PHYSTOP) k0 pgdir (new ++ l) k' /\
    (100 <= length new)%nat /\ km_use_lock (k_kmem k') = true.
Proof.
  intros [Hv Hm Hl Hh Hc Hp Hr] Hend. pose proof Hv as [Hready Hf Hwf].
  assert (P2V_4M = KERNBASE + 0x400000 /\ P2V PHYSTOP = KERNBASE + PHYSTOP) as [E4 Ep] by (split; reflexivity).
  destruct (freerange_ok P2V_4M (P2V PHYSTOP) k l Hready Hf Hend) as (k1 & new & E & Hfp & Hq & Hlen & Hk1 & Hx);
    [rewrite ?E4, ?Ep; unfold PHYSTOP, PGSIZE; lia..|intros q H; left; apply Hl; by left|].
  assert (forall q, owned (k_mem k) pgdir q -> agree (k_mem k) (k_mem k1) q) as Hag.
  { intros q Hq' x Hx'. apply Hx. left. specialize (Hl q (or_intror Hq')). destruct (owned_used _ _ _ _ _ Hwf Hq') as [Hpg _].
    rewrite (V2P_page _ _ Hpg) in Hx'. destruct Hpg as (Ha & _ & Hb). rewrite E4 in *.
    pose proof (Z.div_mod q PGSIZE ltac:(done)). unfold KERNBASE, PGSIZE in *. lia. }
  destruct (pt_agree _ _ _ _ _ Hwf Hag) as (Hwf1 & He1 & Ho1).
  assert (forall q, q ∈ new -> ~ owned (k_mem k) pgdir q) as Hnew.
  { intros q Hn%Hq Ho. specialize (Hl q (or_intror Ho)). lia. }
  assert (pt_wf (k_mem k1) (k_end k) pgdir (new ++ l)) as Hwf2.
  { destruct Hwf1 as [W1 W2 W3 W4]. split; [done| | |done].
    - intros [Hn|Hn]%elem_of_app; [apply (Hnew _ Hn); by left|done].
    - intros i Hi. destruct (W3 i Hi) as (? & ? & ? & ?). split_and!; [done..| |done]. intros [Hn|Hn]%elem_of_app; [|done].
      apply (Hnew _ Hn), Ho1. right. by exists i. }
  set (k' := set_k_kmem (set_km_use_lock true (k_kmem k1)) k1).
  assert (forall B (f : kstate -> B), (forall k m c, f (set_k_mem m (set_k_kmem c k)) = f k) -> (forall k c, f (set_k_kmem c k) = f k) -> f k' = f k) as Hsame.
  { intros B f H1 H2. unfold k'. rewrite H2, Hk1. apply H1. }
  exists k', new. split_and!; [unfold kinit2; by mstep E| | |done].
  - split.
    + split; [unfold kmem_ready; rewrite (Hsame _ k_held), Hh by done; set_solver|exact Hfp|by rewrite (Hsame _ k_end)].
    + intros va Hva. rewrite <- (Hm va Hva). apply mmu_same, He1. lia.
    + intros q [Hn|Ho]; rewrite Ep.
      * destruct Hfp as [_ Hch%chain_pages]. rewrite Forall_forall in Hch. by destruct (Hch q Hn) as (_ & _ & _ & ?).
      * destruct (owned_used _ _ _ _ _ Hwf2 Ho) as [(_ & _ & ?) _]. lia.
    + by rewrite (Hsame _ k_held).
    + by rewrite (Hsame _ k_cga).
    + by rewrite (Hsame _ k_panicked).
    + by rewrite (Hsame _ rest).
  - apply Nat2Z.inj_le. etransitivity; [|exact Hlen]. vm_compute. discriminate.
Qed.

(** The initialisers that set a variable. *)
Lemma kinv_consoleinit hi k0 pgdir l k : kinv hi k0 pgdir l k ->
  exists k', (klock_init L_cons ;;; consoleinit) k = Ret tt k' /\ kinv hi (set_k_locking true k0) pgdir l k'.
Proof.
  intros Hk. mstep (kinv_lock _ _ _ _ _ L_cons Hk). eexists. split; [reflexivity|].
  eapply kinv_step; [exact Hk|done..|apply Hk|done|]. pose proof (ki_rest _ _ _ _ _ Hk) as Hr. unfold rest in *. kred. congruence.
Qed.

Lemma kinv_msgqueue hi k0 pgdir l k : kinv hi k0 pgdir l k ->
  exists k', msgqueue_init k = Ret tt k' /\
    kinv hi (upd_msgq (fun q => set_q_count 0 (set_q_tail 0 (set_q_head 0 q))) k0) pgdir l k'.
Proof.
  intros Hk. unfold msgqueue_init. mrun. edestruct kinv_print as (k' & E & Hk' & _); [|by exists k'].
  eapply kinv_step; [exact Hk|done..|apply Hk|done|]. pose proof (ki_rest _ _ _ _ _ Hk) as Hr. unfold rest, upd_msgq in *. kred. congruence.
Qed.

Lemma kinv_binit hi k0 pgdir l k : kinv hi k0 pgdir l k -> length (bc_buf (k_bcache k0)) = NBUF ->
  (forall b, (b < NBUF)%nat -> bid (bc_buf (k_bcache k0) !!! b) = (0, 0)) ->
  exists k' c, binit k = Ret tt k' /\ bcache_wf c (reverse (seq 0 NBUF)) /\ kinv hi (set_k_bcache c k0) pgdir l k'.
Proof.
  intros Hk Hlen Hz. pose proof (ki_rest _ _ _ _ _ Hk) as Hr. assert (k_bcache k = k_bcache k0) as Eb by (unfold rest in Hr; congruence).
  destruct (binit_wf k) as (c & E & Hc); [by rewrite Eb|by rewrite Eb|]. exists (set_k_bcache c k), c. split_and!; [done|done|].
  eapply kinv_step; [exact Hk|done..|apply Hk|done|]. unfold rest in *. kred. congruence.
Qed.

(** ** The processors come up *)

Section Booting.
Context {D : DiskDriver} {V : DevSw}.
Context (forkret_addr mpenter_addr entrypgdir_addr idt_addr : Z) (gdt_addr : nat -> Z).
Context (vectors entryother initcode : list Z).
Context (ap_env : nat -> list event -> target -> Z) (ap_ready : nat -> nat -> bool) (disk1 : bool) (k : nat).
Context (ids : list Z) (Hids : NoDup ids).

(** The tables and registers of a processor in the scheduler. *)
Definition ready_cpu (pgdir : Z) (c : nat) (x : segcpu) : segcpu :=
  idtinit idt_addr (seginit (gdt_addr c) (set_cr3 (V2P pgdir) x)).

Lemma mpmain_ok hi k0 l c s : kinv hi k0 (y_kpgdir s) l (y_k s) -> pf_up ids c (y_pf s) -> y_self s = c -> y_intr s = false ->
  exists k' pf', mpmain idt_addr s =
      Ret tt (mk_sys k' pf' (y_ide s) (alter (idtinit idt_addr) c (y_cpus s)) (<[c := true]> (y_started s))
        (y_idt s) (y_kpgdir s) c false) /\
    kinv hi k0 (y_kpgdir s) l k' /\ pf_up ids c pf' /\ printed_on (y_k s) k'.
Proof using Hids.
  intros Hk Hu Hs Hi. unfold mpmain, cpuid.
  destruct (mycpu_ok ids c s Hids Hu Hi) as (pf1 & E1 & H1). mstep E1.
  destruct (mycpu_ok ids c (set_y_pf pf1 s) Hids H1 Hi) as (pf2 & E2 & H2). mstep E2.
  destruct (kinv_print hi k0 _ l (y_k s) starting_fmt [PInt (Z.of_nat c); PInt (Z.of_nat c)] Hk) as (k' & E3 & Hk' & Hpr).
  rewrite (bind_Ret _ _ _ _ _ (kern_Ret _ (set_y_pf pf2 (set_y_pf pf1 s)) _ _ E3)). unfold idtinit_cpu. mrun.
  set (s3 := upd_cpu _ _ _). destruct (mycpu_ok ids c s3 Hids H2 Hi) as (pf3 & E4 & H4). mstep E4.
  exists k', pf3. split; [|done]. unfold modify, s3. yred. by rewrite Hs, Hi.
Qed.

Lemma seginit_ok c s : pf_up ids c (y_pf s) -> y_intr s = false ->
  exists pf', seginit_cpu gdt_addr s = Ret tt (upd_cpu c (seginit (gdt_addr c)) (set_y_pf pf' s)) /\ pf_up ids c pf'.
Proof using Hids.
  intros Hu Hi. unfold seginit_cpu, cpuid. destruct (mycpu_ok ids c s Hids Hu Hi) as (pf1 & E1 & H1). mstep E1.
  by exists pf1.
Qed.

(** [mpenter] on another processor. *)
Lemma mpenter_ok hi k0 l c s : kinv hi k0 (y_kpgdir s) l (y_k s) -> pf_up ids c (y_pf s) -> y_self s = c -> y_intr s = false ->
  exists k' pf', mpenter idt_addr gdt_addr (S k) s =
      Ret tt (mk_sys k' pf' (y_ide s) (alter (ready_cpu (y_kpgdir s) c) c (y_cpus s)) (<[c := true]> (y_started s))
        (y_idt s) (y_kpgdir s) c false) /\
    kinv hi k0 (y_kpgdir s) l k' /\ pf_up ids c pf'.
Proof using Hids.
  intros Hk Hu Hs Hi. unfold mpenter, switchkvm. mrun. set (s1 := upd_cpu _ _ _).
  destruct (seginit_ok c s1 Hu Hi) as (pf1 & E1 & H1). mstep E1. set (s2 := upd_cpu _ _ _).
  destruct (plat_steady (lapicinit (S k)) ids c s2 (steady_lapicinit k) H1) as ([] & pf2 & E2 & H2). mstep E2.
  destruct (mpmain_ok hi k0 l c (set_y_pf pf2 s2) Hk H2 Hs Hi) as (k' & pf' & E3 & Hk' & Hu' & _).
  rewrite E3. exists k', pf'. split; [|done]. unfold s2, s1. yred. by rewrite Hs, !alter_alter.
Qed.

(** What the devices answer to the other processors: each sees its own number. *)
Definition aps_ok : Prop := forall c, (c < length ids)%nat -> lapic_idle (ap_env c) /\
  forall t, ids !! c = Some (Z.shiftr (u32 (ap_env c t (Lapic ID))) 24).

Lemma wait_started_ok hi k0 l self c s : aps_ok -> (c < length ids)%nat ->
  kinv hi k0 (y_kpgdir s) l (y_k s) -> pf_up ids self (y_pf s) -> y_self s = self -> y_intr s = false ->
  y_started s !! c = Some false -> forall n, (exists j, (j < n)%nat /\ ap_ready c j = true) ->
  exists k' pf', wait_started idt_addr gdt_addr ap_env ap_ready (S k) n c s =
      Ret tt (mk_sys k' pf' (y_ide s) (alter (ready_cpu (y_kpgdir s) c) c (y_cpus s)) (<[c := true]> (y_started s))
        (y_idt s) (y_kpgdir s) self false) /\
    kinv hi k0 (y_kpgdir s) l k' /\ pf_up ids self pf'.
Proof using Hids.
  intros Hap Hc Hk Hu Hs Hi Hst. induction n as [|n IH]; intros (j & Hj & Hr); [lia|]. cbn [wait_started].
  destruct (ap_ready c n) eqn:En.
  - destruct (Hap c Hc) as [Hidle Hid]. unfold on_cpu. mrun.
    set (s1 := set_y_self c _).
    destruct (mpenter_ok hi k0 l c s1 Hk) as (k' & pf' & E & Hk' & Hu'); [|done|done|].
    { split; [done|done|exact (pu_lapic _ _ _ Hu)|exact (pu_cpus _ _ _ Hu)]. }
    mstep E. mrun. yred.
    rewrite list_lookup_insert_eq by by eapply lookup_lt_Some. cbn [default from_option id].
    eexists k', _. split; [unfold ret, s1; yred; by rewrite Hs|]. split; [done|].
    destruct Hu as [A1 A2 A3 A4], Hu' as [_ _ B3 B4]. split; cbn; [done..| |]; [exact B3|exact B4].
  - mrun. rewrite Hst. cbn [default from_option id]. apply IH. exists j. split; [|done].
    destruct (decide (j = n)) as [->|]; [congruence|lia].
Qed.

(** Every other processor comes up while the boot processor waits. *)
Definition aps_come : Prop := forall c, (c < length ids)%nat -> exists j, (j < S k)%nat /\ ap_ready c j = true.

Lemma startother_ok hi k0 p l self c s : aps_ok -> aps_come -> (c < length ids)%nat -> c <> self ->
  kinv hi k0 (y_kpgdir s) (p :: l) (y_k s) -> pf_up ids self (y_pf s) -> y_self s = self -> y_intr s = false ->
  y_started s !! c = Some false ->
  exists k' pf', startother mpenter_addr entrypgdir_addr idt_addr gdt_addr ap_env ap_ready (S k) c s =
      Ret tt (mk_sys k' pf' (y_ide s) (alter (ready_cpu (y_kpgdir s) c) c (y_cpus s)) (<[c := true]> (y_started s))
        (y_idt s) (y_kpgdir s) self false) /\
    kinv hi k0 (y_kpgdir s) l k' /\ pf_up ids self pf'.
Proof using Hids.
  intros Hap Hcome Hc Hne Hk Hu Hs Hi Hst. unfold startother.
  destruct (mycpu_ok ids self s Hids Hu Hi) as (pf1 & E1 & H1). mstep E1. rewrite decide_False by done.
  destruct (kinv_kalloc _ _ _ _ _ _ Hk) as (k2 & E2 & Hk2).
  rewrite (bind_Ret _ _ _ _ _ (kern_Ret _ (set_y_pf pf1 s) _ _ E2)). set (s2 := set_y_k k2 _).
  destruct (plat_steady _ ids self s2 (proj1 (steady_store (code - 4) (u32 (p + KSTACKSIZE)) [])) H1) as ([] & pf3 & E3 & H3). mstep E3.
  destruct (plat_steady _ ids self (set_y_pf pf3 s2) (proj1 (steady_store (code - 8) mpenter_addr [])) H3) as ([] & pf4 & E4 & H4). mstep E4.
  destruct (plat_steady _ ids self (set_y_pf pf4 (set_y_pf pf3 s2)) (proj1 (steady_store (code - 12) (V2P entrypgdir_addr) [])) H4)
    as ([] & pf5 & E5 & H5). mstep E5. mrun. set (s5 := set_y_pf pf5 _).
  destruct (plat_steady _ ids self s5 (steady_startap (pf_cpus (y_pf s5) !!! c) (V2P code)) H5) as ([] & pf6 & E6 & H6). mstep E6.
  apply (wait_started_ok hi k0 l self c (set_y_pf pf6 s5)); try done. by apply Hcome.
Qed.

Lemma startother_self self s : pf_up ids self (y_pf s) -> y_intr s = false ->
  exists pf', startother mpenter_addr entrypgdir_addr idt_addr gdt_addr ap_env ap_ready (S k) self s = Ret tt (set_y_pf pf' s) /\
    pf_up ids self pf'.
Proof using Hids.
  intros Hu Hi. unfold startother. destruct (mycpu_ok ids self s Hids Hu Hi) as (pf1 & E1 & H1). mstep E1.
  rewrite decide_True by done. by exists pf1.
Qed.

(** The machine with the processors [cs] up. *)
Record others_up (s s' : sys) (self : nat) (cs : list nat) : Prop := {
  ou_cpus c : y_cpus s' !! c = if decide (c ∈ cs /\ c <> self) then ready_cpu (y_kpgdir s) c <$> y_cpus s !! c else y_cpus s !! c;
  ou_started c : y_started s' !! c = if decide (c ∈ cs /\ c <> self) then (fun _ => true) <$> y_started s !! c else y_started s !! c;
  ou_ide : y_ide s' = y_ide s;
  ou_idt : y_idt s' = y_idt s;
  ou_kpgdir : y_kpgdir s' = y_kpgdir s;
  ou_self : y_self s' = self;
  ou_intr : y_intr s' = false }.

Lemma startothers_loop hi k0 self : aps_ok -> aps_come -> forall cs s l, NoDup cs -> Forall (fun c => (c < length ids)%nat) cs ->
  kinv hi k0 (y_kpgdir s) l (y_k s) -> (length cs <= length l)%nat -> pf_up ids self (y_pf s) -> y_self s = self -> y_intr s = false ->
  (forall c, c ∈ cs -> y_started s !! c = Some false) ->
  exists s' l', mfor (startother mpenter_addr entrypgdir_addr idt_addr gdt_addr ap_env ap_ready (S k)) cs s = Ret tt s' /\
    kinv hi k0 (y_kpgdir s) l' (y_k s') /\ (length l <= length cs + length l')%nat /\ pf_up ids self (y_pf s') /\ others_up s s' self cs.
Proof using Hids.
  intros Hap Hcome. induction cs as [|c cs IH]; intros s l Hnd Hlt Hk Hl Hu Hs Hi Hst.
  { exists s, l. split_and!; [done|done|simpl; lia|done|]. split; try done; intros c; rewrite decide_False; set_solver. }
  apply NoDup_cons in Hnd as [Hc Hnd]. apply Forall_cons in Hlt as [Hlc Hlt]. cbn [mfor length] in *.
  destruct (decide (c = self)) as [->|Hne].
  - destruct (startother_self self s Hu Hi) as (pf1 & E1 & H1). mstep E1.
    destruct (IH (set_y_pf pf1 s) l) as (s' & l' & E & Hk' & Hl' & Hu' & [O1 O2 O3 O4 O5 O6 O7]); try done; [lia|set_solver|].
    exists s', l'. split_and!; [done|done|lia|done|]. split; try done; intros c; [rewrite O1|rewrite O2]; yred;
      repeat case_decide; set_solver.
  - destruct l as [|p l]; [simpl in Hl; lia|].
    destruct (startother_ok hi k0 p l self c s Hap Hcome Hlc Hne Hk Hu Hs Hi (Hst c ltac:(set_solver))) as (k1 & pf1 & E1 & Hk1 & H1). mstep E1.
    set (s1 := mk_sys _ _ _ _ _ _ _ _ _).
    destruct (IH s1 l) as (s' & l' & E & Hk' & Hl' & Hu' & [O1 O2 O3 O4 O5 O6 O7]); try done; [simpl in Hl; lia| |].
    { intros c' Hc'. unfold s1. yred. rewrite list_lookup_insert_ne; [apply Hst; set_solver|]. intros ->. done. }
    exists s', l'. split_and!; [done|done|simpl; lia|done|]. split; try done; intros c'; [rewrite O1|rewrite O2]; unfold s1; yred.
    + destruct (decide (c' = c)) as [->|Hn].
      * rewrite decide_False, decide_True by set_solver. by rewrite list_lookup_alter_eq.
      * rewrite list_lookup_alter_ne by done. repeat case_decide; set_solver.
    + destruct (decide (c' = c)) as [->|Hn].
      * rewrite decide_False, decide_True by set_solver. rewrite (Hst c) by set_solver.
        rewrite list_lookup_insert_eq; [done|]. eapply lookup_lt_Some, Hst. set_solver.
      * rewrite list_lookup_insert_ne by done. repeat case_decide; set_solver.
Qed.

(** ** [main], in three parts *)

Definition boot_devices : Y unit :=
  e <- gets (fun s => k_end (y_k s)) ;;
  kern (kinit1 e P2V_4M) ;;;
  kvmalloc ;;;
  plat (mpinit (S k)) ;;;
  plat (lapicinit (S k)) ;;;
  seginit_cpu gdt_addr ;;;
  plat picinit ;;;
  plat ioapicinit.

Definition boot_kernel : Y unit :=
  consoleinit_all ;;;
  plat uartinit ;;;
  kern msgqueue_init ;;;
  kern pinit ;;;
  tvinit_all vectors ;;;
  kern binit ;;;
  kern fileinit ;;;
  ideinit_all disk1.

Definition boot_processes : Y unit :=
  startothers mpenter_addr entrypgdir_addr idt_addr gdt_addr entryother ap_env ap_ready (S k) ;;;
  kern (kinit2 P2V_4M (P2V PHYSTOP)) ;;;
  kern (userinit forkret_addr initcode) ;;;
  mpmain idt_addr.

Lemma main_parts s :
  main forkret_addr mpenter_addr entrypgdir_addr idt_addr gdt_addr vectors entryother initcode ap_env ap_ready disk1 (S k) s =
  (boot_devices ;;; boot_kernel ;;; boot_processes) s.
Proof using.
  unfold main, boot_devices, boot_kernel, boot_processes, P2V_4M.
  repeat (rewrite ?bind_assoc; apply bind_cong; intros ? ?). reflexivity.
Qed.

(** The kernel's variables as the loader leaves them. *)
Record image_ok (x : kstate) : Prop := {
  im_end : KERNBASE + EXTMEM <= k_end x <= KERNBASE + 0x300000;
  im_data : k_data x mod PGSIZE = 0 /\ KERNLINK < k_data x < KERNBASE + PHYSTOP;
  im_held : k_held x = [];
  im_free : km_freelist (k_kmem x) = 0;
  im_console : cga_ok (k_cga x) /\ k_panicked x = false;
  im_bcache : length (bc_buf (k_bcache x)) = NBUF /\ forall b, (b < NBUF)%nat -> bid (bc_buf (k_bcache x) !!! b) = (0, 0);
  im_icache : icache_ok (k_icache x) /\ exists ip i, k_icache x !! ip = Some i /\ i_ref i = 0;
  im_proc : is_Some (unused_slot (k_proc x)) }.

(** The firmware's table lists the processors [ids], and the devices answer. *)
Record firmware_ok (pf : platform) (self : nat) : Prop := {
  fw_table : exists conf mp es, mpconfig (pf_mem pf) = Some (conf, mp) /\ Forall entry_ok es /\
    holds (pf_mem pf) (conf + MPCONF_SIZE) (table_bytes es) /\
    word16 (pf_mem pf) (conf + 4) = MPCONF_SIZE + Z.of_nat (length (table_bytes es)) /\
    (length es < S k)%nat /\ word32 (pf_mem pf) (conf + 36) <> 0 /\ ids = take (Z.to_nat NCPU) (apicids es);
  fw_none : pf_cpus pf = [];
  fw_idle : lapic_idle (pf_env pf);
  fw_self : forall t, ids !! self = Some (Z.shiftr (u32 (pf_env pf t (Lapic ID))) 24) }.

Lemma boot_devices_ok s self : image_ok (y_k s) -> firmware_ok (y_pf s) self -> y_self s = self -> y_intr s = false ->
  exists k1 pf1 pgdir l, boot_devices s = Ret tt (mk_sys k1 pf1 (y_ide s)
      (alter (fun x => seginit (gdt_addr self) (set_cr3 (V2P pgdir) x)) self (y_cpus s)) (y_started s) (y_idt s) pgdir self false) /\
    kinv P2V_4M (y_k s) pgdir l k1 /\ (100 <= length l)%nat /\ pf_up ids self pf1.
Proof using Hids.
  intros [Hend Hd Hh Hf Hc _ _ _] [(conf & mp & es & F1 & F2 & F3 & F4 & F5 & F6 & F7) Fn Fi Fs] Hs Hi. unfold boot_devices. mrun.
  destruct (kinv_boot (y_k s)) as (k1 & k2 & p & l & E1 & E2 & Hk & Hl); [apply Hend|apply Hend|done|done|apply Hd|apply Hd|apply Hc|apply Hc|].
  rewrite (bind_Ret _ _ _ _ _ (kern_Ret _ _ _ _ E1)). unfold kvmalloc, switchkvm. mrun.
  rewrite (bind_Ret _ _ _ _ _ (kern_Ret setupkvm (set_y_k k1 s) _ _ E2)). mrun. set (s2 := upd_cpu _ _ _).
  destruct (mpinit_ok (y_pf s) conf mp es (S k) F1 F2 F3 F4 Fn F5) as (io & E3).
  rewrite (bind_Ret _ _ _ _ _ (plat_Ret _ s2 _ _ E3)). set (s3 := set_y_pf _ s2).
  assert (pf_up ids self (y_pf s3)) as Hu by (split; [done|done|done|by rewrite F7]).
  destruct (plat_steady _ ids self s3 (steady_lapicinit k) Hu) as ([] & pf4 & E4 & H4). mstep E4.
  destruct (seginit_ok self (set_y_pf pf4 s3) H4 Hi) as (pf5 & E5 & H5). mstep E5. set (s5 := upd_cpu _ _ _).
  destruct (plat_steady _ ids self s5 steady_picinit H5) as ([] & pf6 & E6 & H6). mstep E6.
  destruct (plat_steady _ ids self (set_y_pf pf6 s5) (proj1 (steady_ioapic 0 0)) H6) as ([] & pf7 & E7 & H7). rewrite E7.
  exists k2, pf7, p, l. split; [|done]. apply sys_eq; try reflexivity; [|exact Hs|exact Hi].
  change (alter (seginit (gdt_addr self)) self (alter (set_cr3 (V2P p)) (y_self s) (y_cpus s)) =
    alter (fun x => seginit (gdt_addr self) (set_cr3 (V2P p) x)) self (y_cpus s)). by rewrite Hs, alter_alter.
Qed.

Lemma ideinit_ret x : exists x', Ide.ideinit disk1 x = Ret tt x'.
Proof using. destruct disk1; by eexists. Qed.

Lemma boot_kernel_ok s hi k0 l self : kinv hi k0 (y_kpgdir s) l (y_k s) -> pf_up ids self (y_pf s) ->
  length (bc_buf (k_bcache k0)) = NBUF -> (forall b, (b < NBUF)%nat -> bid (bc_buf (k_bcache k0) !!! b) = (0, 0)) ->
  exists k1 pf1 ide1 c, boot_kernel s = Ret tt (mk_sys k1 pf1 ide1 (y_cpus s) (y_started s) (tvinit vectors) (y_kpgdir s) (y_self s) (y_intr s)) /\
    kinv hi (set_k_bcache c (upd_msgq (fun q => set_q_count 0 (set_q_tail 0 (set_q_head 0 q))) (set_k_locking true k0))) (y_kpgdir s) l k1 /\
    bcache_wf c (reverse (seq 0 NBUF)) /\ pf_up ids self pf1.
Proof using.
  intros Hk Hu Hb1 Hb2. unfold boot_kernel, consoleinit_all, tvinit_all, ideinit_all. rewrite !bind_assoc.
  destruct (kinv_consoleinit _ _ _ _ _ Hk) as (k1 & E1 & Hk1). rewrite (bind_Ret _ _ _ _ _ (kern_Ret _ s _ _ E1)). set (s1 := set_y_k k1 s).
  destruct (plat_steady _ ids self s1 (proj2 (steady_ioapic IRQ_KBD 0)) Hu) as ([] & pf2 & E2 & H2). mstep E2.
  destruct (plat_steady _ ids self (set_y_pf pf2 s1) steady_uartinit H2) as ([] & pf3 & E3 & H3). mstep E3. set (s3 := set_y_pf pf3 _).
  destruct (kinv_msgqueue _ _ _ _ _ Hk1) as (k4 & E4 & Hk4). rewrite (bind_Ret _ _ _ _ _ (kern_Ret _ s3 _ _ E4)). set (s4 := set_y_k k4 s3).
  rewrite (bind_Ret _ _ _ _ _ (kern_Ret pinit s4 _ _ (kinv_lock _ _ _ _ _ _ Hk4))).
  rewrite bind_assoc, (bind_Ret _ _ _ _ _ (modify_eq _ _)). set (s5 := set_y_idt _ _).
  rewrite (bind_Ret _ _ _ _ _ (kern_Ret _ s5 _ _ (kinv_lock _ _ _ _ _ _ Hk4))). set (s6 := set_y_k _ s5).
  destruct (kinv_binit _ _ _ _ _ Hk4 Hb1 Hb2) as (k7 & c & E7 & Hc & Hk7). rewrite (bind_Ret _ _ _ _ _ (kern_Ret _ s6 _ _ E7)).
  set (s7 := set_y_k k7 s6). rewrite (bind_Ret _ _ _ _ _ (kern_Ret fileinit s7 _ _ (kinv_lock _ _ _ _ _ _ Hk7))).
  set (s8 := set_y_k _ s7). rewrite (bind_Ret _ _ _ _ _ (kern_Ret _ s8 _ _ (kinv_lock _ _ _ _ _ L_ide Hk7))).
  set (s9 := set_y_k _ s8). rewrite (bind_Ret _ _ _ _ _ (gets_eq _ _)).
  destruct (plat_steady _ ids self s9 (proj2 (steady_ioapic IRQ_IDE (Z.of_nat (length (pf_cpus (y_pf s9))) - 1))) H3) as ([] & pf10 & E10 & H10).
  mstep E10. destruct (ideinit_ret (y_ide s)) as (ide1 & E11). rewrite (disk_Ret _ (set_y_pf pf10 s9) _ _ E11).
  exists k7, pf10, ide1, c. split; [|done]. apply sys_eq; reflexivity.
Qed.

(** The first process does not touch the kernel's page table. *)
Lemma first_process_kinv k0 pgdir l0 k1 k2 i kstack p l l' :
  kinv (P2V PHYSTOP) k0 pgdir l0 k1 -> p :: l ⊆ l0 -> first_process forkret_addr k1 k2 initcode i kstack p (p :: l) l' ->
  kinv (P2V PHYSTOP) k2 pgdir l' k2.
Proof using.
  intros [Hv Hm Hl Hh Hc Hp Hr] Hsub [Fu Fp Fq Ff Fr Fo]. pose proof Hv as [_ _ Hwf].
  assert (k_end k2 = k_end k1) as Ee by exact (f_equal k_end Fo).
  destruct (pt_agree (k_mem k1) (k_mem k2) (k_end k1) pgdir l0 Hwf) as (Hwf2 & He2 & Ho2).
  { intros q Hq. destruct (owned_used _ _ _ _ _ Hwf Hq) as [Hpg Hql]. apply Ff; [done|]. by intros ?%Hsub. }
  assert (l' ⊆ l0) as Hsub' by (intros q Hq; apply Hsub, Fq; by left).
  destruct (uvm_vm _ _ _ Fu) as [Hr2 Hf2 _]. split.
  - split; [done|done|]. rewrite Ee. by eapply pt_wf_sub.
  - intros va Hva. rewrite <- (Hm va Hva). apply mmu_same, He2. lia.
  - intros q [Hq|Hq]; apply Hl; [left; by apply Hsub'|right; by apply Ho2].
  - exact (eq_trans (f_equal k_held Fo) Hh).
  - rewrite (f_equal k_cga Fo : k_cga k2 = k_cga k1). done.
  - exact (eq_trans (f_equal k_panicked Fo) Hp).
  - done.
Qed.

(** The kernel when it enters the scheduler: [k0] are its variables before. *)
Record kernel_up (k0 x : kstate) (kpgdir : Z) : Prop := {
  up_kernel : exists l pgdir kstack i ip inode,
    (* its page table, and the pages that are free *)
    vm_ok x kpgdir l /\ (forall va, 0 <= va < 2 ^ 32 -> mmu (k_mem x) kpgdir va = kernel_map va) /\
    (* the first process *)
    unused_slot (k_proc k0) = Some i /\ k_initproc x = Some i /\
    k_proc x = alter (init_proc forkret_addr (k_nextpid k0) kstack pgdir (Some ip)) i (k_proc k0) /\
    uvm_ok x pgdir l /\ first_page (k_mem x) pgdir initcode /\
    (forall q, owned (k_mem x) kpgdir q -> ~ pages (k_mem x) pgdir l q) /\
    k_icache x !! ip = Some inode /\ i_dev inode = ROOTDEV /\ i_inum inode = ROOTINO /\ 0 < i_ref inode;
  up_lock : km_use_lock (k_kmem x) = true;
  up_held : k_held x = [];
  up_console : cga_ok (k_cga x) /\ k_locking x = true;
  up_bcache : exists order, bcache_wf (k_bcache x) order;
  up_msgq : q_head (k_msgq x) = 0 /\ q_tail (k_msgq x) = 0 /\ q_count (k_msgq x) = 0 }.

(** The machine when it enters the scheduler. *)
Record booted (s s' : sys) : Prop := {
  bo_kernel : kernel_up (y_k s) (y_k s') (y_kpgdir s');
  bo_cpus c : (c < length ids)%nat -> y_cpus s' !! c = ready_cpu (y_kpgdir s') c <$> y_cpus s !! c;
  bo_started c : (c < length ids)%nat -> y_started s' !! c = Some true;
  bo_idt : y_idt s' = tvinit vectors;
  bo_mp : pf_cpus (y_pf s') = ids }.

Lemma kernel_up_ok k0 kpgdir l x order : kinv P2V_4M k0 kpgdir l x ->
  KERNBASE < k_end k0 <= P2V_4M -> k_data k0 mod PGSIZE = 0 -> KERNLINK < k_data k0 < KERNBASE + PHYSTOP ->
  icache_ok (k_icache k0) -> (exists ip i, k_icache k0 !! ip = Some i /\ i_ref i = 0) -> is_Some (unused_slot (k_proc k0)) ->
  Z.of_nat (length initcode) < PGSIZE -> k_locking k0 = true -> bcache_wf (k_bcache k0) order ->
  q_head (k_msgq k0) = 0 /\ q_tail (k_msgq k0) = 0 /\ q_count (k_msgq k0) = 0 ->
  exists x1 x2 l2, kinit2 P2V_4M (P2V PHYSTOP) x = Ret tt x1 /\ userinit forkret_addr initcode x1 = Ret tt x2 /\
    kinv (P2V PHYSTOP) x2 kpgdir l2 x2 /\ kernel_up k0 x2 kpgdir.
Proof using.
  clear Hids ids gdt_addr ap_ready ap_env. intros Hk Hend Hd1 Hd2 Hi1 Hi2 [i Hslot] Hinit Hlk Hbc Hq.
  assert (k_end x = k_end k0) as Ee by (pose proof (ki_rest _ _ _ _ _ Hk) as Hr; unfold rest in Hr; congruence).
  destruct (kinv_kinit2 k0 kpgdir l x Hk ltac:(rewrite Ee; lia)) as (x1 & new & E1 & Hk1 & Hlen & Hlock).
  destruct new as [|kst [|p l1]]; [simpl in Hlen; lia..|]. cbn [app] in Hk1.
  pose proof (ki_rest _ _ _ _ _ Hk1) as Hr1. unfold rest in Hr1. injection Hr1 as R1 R2 R3 R4 R5 R6 R7 R8.
  pose proof (ki_held _ _ _ _ _ Hk1) as Hh. pose proof (ki_vm _ _ _ _ _ Hk1) as [Hready Hf Hwf].
  destruct (userinit_ok forkret_addr x1 initcode i kst p (l1 ++ l)) as (x2 & l2 & E2 & Hfp);
    [rewrite R1; lia|rewrite Hh; set_solver..|done|done| |by rewrite R2|by rewrite R2|by rewrite R3|by rewrite R5|by rewrite R5|done|].
  { rewrite length_app. cbn [length] in Hlen. unfold KVM_PAGES. lia. }
  assert (p :: l1 ++ l ⊆ kst :: p :: l1 ++ l) as Hsub by set_solver.
  pose proof (first_process_kinv k0 kpgdir _ x1 x2 i kst p _ l2 Hk1 Hsub Hfp) as Hk2.
  exists x1, x2, l2. split_and!; [done..|]. pose proof Hfp as [Fu Fp Fq Ff (ip & y & Hy & Y1 & Y2 & Y3 & Y4) Fo].
  assert (forall q, owned (k_mem x2) kpgdir q -> ~ pages (k_mem x2) p l2 q) as Hsep.
  { intros q Ho Hc%Fq. destruct (pt_agree (k_mem x1) (k_mem x2) (k_end x1) kpgdir _ Hwf) as (_ & _ & Ho2).
    - intros q' Hq'. destruct (owned_used _ _ _ _ _ Hwf Hq') as [Hpg Hql]. apply Ff; [done|]. by intros ?%Hsub.
    - apply Ho2 in Ho. destruct (owned_used _ _ _ _ _ Hwf Ho) as [_ Hql]. by apply Hql, Hsub. }
  split.
  - exists l2, p, kst, i, ip, y. split; [apply Hk2|]. split; [apply Hk2|]. split; [done|]. split; [exact (f_equal k_initproc Fo)|].
    split; [by rewrite Y4, R3, R4|]. by split_and!.
  - rewrite (f_equal (fun s => km_use_lock (k_kmem s)) Fo : km_use_lock (k_kmem x2) = km_use_lock (k_kmem x1)). done.
  - apply Hk2.
  - split; [apply Hk2|]. rewrite (f_equal k_locking Fo : k_locking x2 = k_locking x1). by rewrite R6.
  - exists order. rewrite (f_equal k_bcache Fo : k_bcache x2 = k_bcache x1). by rewrite R7.
  - rewrite (f_equal k_msgq Fo : k_msgq x2 = k_msgq x1). by rewrite R8.
Qed.

Lemma printed_up k0 x x' kpgdir : printed_on x x' -> cga_ok (k_cga x') -> kernel_up k0 x kpgdir -> kernel_up k0 x' kpgdir.
Proof using.
  clear Hids. intros (o & g & ->) Hg [(l & pgdir & kst & i & ip & y & U1 & U2 & U3 & U4 & U5 & U6 & U7) H2 H3 H4 H5 H6].
  split; [|done|done|split; [done|apply H4]|done|done]. exists l, pgdir, kst, i, ip, y.
  split; [exact (vm_ok_proj x (set_k_out o (set_k_cga g x)) kpgdir l eq_refl eq_refl eq_refl eq_refl U1)|].
  do 4 (split; [done|]). split; [exact (uvm_ok_proj x (set_k_out o (set_k_cga g x)) pgdir l eq_refl eq_refl eq_refl eq_refl U6)|exact U7].
Qed.

Lemma kernel_up_from k0 k0' x kpgdir : k_proc k0' = k_proc k0 -> k_nextpid k0' = k_nextpid k0 -> kernel_up k0 x kpgdir -> kernel_up k0' x kpgdir.
Proof using. intros E1 E2 [H1 H2 H3 H4 H5 H6]. split; [|done..]. by rewrite E1, E2. Qed.

(** [main] brings the machine up to the scheduler. *)
Lemma main_ok s self : image_ok (y_k s) -> firmware_ok (y_pf s) self -> aps_ok -> aps_come ->
  y_self s = self -> y_intr s = false -> (forall c, (c < length ids)%nat -> y_started s !! c = Some false) ->
  Z.of_nat (length initcode) < PGSIZE ->
  exists s', main forkret_addr mpenter_addr entrypgdir_addr idt_addr gdt_addr vectors entryother initcode ap_env ap_ready disk1 (S k) s =
    Ret tt s' /\ booted s s'.
Proof using Hids.
  intros Him Hfw Hap Hcome Hs Hi Hst Hinit. rewrite main_parts.
  assert (self < length ids)%nat as Hself by exact (lookup_lt_Some _ _ _ (fw_self _ _ Hfw [])).
  assert (length ids <= 8)%nat as Hn.
  { destruct (fw_table _ _ Hfw) as (? & ? & es & _ & _ & _ & _ & _ & _ & ->). rewrite length_take. change (Z.to_nat NCPU) with 8%nat. lia. }
  destruct (boot_devices_ok s self Him Hfw Hs Hi) as (k1 & pf1 & pgdir & l1 & E1 & Hk1 & Hl1 & Hu1). mstep E1. set (s1 := mk_sys _ _ _ _ _ _ _ _ _).
  destruct (boot_kernel_ok s1 P2V_4M (y_k s) l1 self Hk1 Hu1) as (k2 & pf2 & ide2 & c & E2 & Hk2 & Hc & Hu2); [apply Him..|].
  mstep E2. set (s2 := mk_sys _ _ _ _ _ _ _ _ _). set (k0 := set_k_bcache c _) in Hk2.
  unfold boot_processes, startothers. rewrite bind_assoc.
  destruct (plat_steady _ ids self s2 (proj2 (proj2 (steady_store code 0 entryother))) Hu2) as ([] & pf3 & E3 & H3).
  mstep E3. rewrite bind_assoc, (bind_Ret _ _ _ _ _ (gets_eq _ _)). set (s3 := set_y_pf pf3 s2).
  assert (length (pf_cpus (y_pf s3)) = length ids) as -> by (f_equal; apply H3).
  destruct (startothers_loop P2V_4M k0 self Hap Hcome (seq 0 (length ids)) s3 l1) as (s4 & l4 & E4 & Hk4 & Hl4 & Hu4 & O);
    [apply NoDup_ListNoDup, seq_NoDup|apply Forall_forall; intros x Hx%elem_of_seq; lia|exact Hk2|rewrite length_seq; lia|exact H3|done|done
    |intros x Hx%elem_of_seq; apply Hst; lia|].
  mstep E4.
  destruct (kernel_up_ok k0 pgdir l4 (y_k s4) (reverse (seq 0 NBUF)) Hk4) as (x5 & x6 & l6 & E5 & E6 & Hk6 & Hup); try done; try apply Him.
  { pose proof (im_end _ Him). change (k_end k0) with (k_end (y_k s)). change P2V_4M with (KERNBASE + 0x400000).
    unfold KERNBASE, EXTMEM in *. lia. }
  rewrite (bind_Ret _ _ _ _ _ (kern_Ret _ s4 _ _ E5)), (bind_Ret _ _ _ _ _ (kern_Ret _ (set_y_k x5 s4) _ _ E6)). set (s6 := set_y_k x6 _).
  assert (y_kpgdir s6 = pgdir) as Epg by exact (ou_kpgdir _ _ _ _ O).
  destruct (mpmain_ok (P2V PHYSTOP) x6 l6 self s6) as (k7 & pf7 & E7 & Hk7 & Hu7 & Hpr);
    [by rewrite Epg|exact Hu4|exact (ou_self _ _ _ _ O)|exact (ou_intr _ _ _ _ O)|].
  rewrite E7. eexists. split; [reflexivity|]. destruct O as [O1 O2 _ O4 _ _ _]. split; cbn [y_k y_cpus y_started y_idt y_kpgdir y_pf].
  - rewrite Epg. apply (kernel_up_from k0); [done..|]. apply (printed_up k0 x6); [done|apply Hk7|done].
  - intros x Hx. rewrite Epg. change (y_cpus s6) with (y_cpus s4). destruct (decide (x = self)) as [->|Hne].
    + rewrite list_lookup_alter_eq, O1, decide_False by tauto. change (y_cpus s3) with (y_cpus s1). unfold s1. cbn [y_cpus].
      rewrite list_lookup_alter_eq. by destruct (y_cpus s !! self).
    + assert (x ∈ seq 0 (length ids) /\ x <> self) as Hin by (split; [apply elem_of_seq; lia|done]).
      rewrite list_lookup_alter_ne, O1, decide_True by done.
      change (y_cpus s3) with (y_cpus s1). unfold s1. cbn [y_cpus]. by rewrite list_lookup_alter_ne.
  - intros x Hx. change (y_started s6) with (y_started s4). change (y_started s3) with (y_started s) in O2.
    destruct (decide (x = self)) as [->|Hne].
    + apply list_lookup_insert_eq. eapply lookup_lt_Some. rewrite O2, decide_False by tauto. by apply Hst.
    + assert (x ∈ seq 0 (length ids) /\ x <> self) as Hin by (split; [apply elem_of_seq; lia|done]).
      rewrite list_lookup_insert_ne, O2, decide_True by done. by rewrite (Hst x Hx).
  - exact O4.
  - apply Hu7.
Qed.

End Booting.

(** ** The boot page table *)

(** Translation by a directory of 4 megabyte pages, before [setupkvm]'s. *)
Definition mmu_large (dir : list Z) (va : Z) : option Z :=
  let e := dir !!! Z.to_nat (PDX va) in
  if has e PTE_P && has e PTE_PS then Some (e / 2 ^ 22 * 2 ^ 22 + va mod 2 ^ 22) else None.

(** [entrypgdir] maps the first 4 megabytes at 0 and at [KERNBASE], and nothing
    else: the code of entry.S runs before and after it jumps up. *)
Theorem entrypgdir_maps va : 0 <= va < 2 ^ 32 ->
  mmu_large entrypgdir va =
    if decide (va < 0x400000) then Some va
    else if decide (KERNBASE <= va < KERNBASE + 0x400000) then Some (va - KERNBASE) else None.
Proof.
  intros Hva. unfold mmu_large. rewrite PDX_eq by lia.
  assert (va / 2 ^ 22 mod 1024 = va / 2 ^ 22) as ->.
  { apply Z.mod_small. split; [apply Z.div_pos; lia|apply Z.div_lt_upper_bound; lia]. }
  pose proof (Z.div_mod va (2 ^ 22) ltac:(lia)) as Hdm. pose proof (Z.mod_pos_bound va (2 ^ 22) ltac:(lia)) as Hmb.
  assert (0 <= va / 2 ^ 22 < 1024) as Hr by (split; [apply Z.div_pos; lia|apply Z.div_lt_upper_bound; lia]).
  set (i := va / 2 ^ 22) in *. unfold KERNBASE.
  assert (forall j, (j < 1024)%nat -> entrypgdir !!! j = if decide (j = 0%nat \/ j = 512%nat) then 131 else 0) as He.
  { intros j Hj. unfold entrypgdir. change (Z.to_nat (Z.shiftr KERNBASE PDXSHIFT)) with 512%nat.
    change (Z.lor (Z.lor (Z.lor 0 PTE_P) PTE_W) PTE_PS) with 131.
    destruct (decide (j = 0%nat)) as [->|H0]; [by rewrite list_lookup_total_insert_eq by (rewrite length_insert, length_replicate; unfold NPDENTRIES; lia)|].
    rewrite list_lookup_total_insert_ne by done. destruct (decide (j = 512%nat)) as [->|H1].
    - rewrite list_lookup_total_insert_eq by (rewrite length_replicate; unfold NPDENTRIES; lia). by rewrite decide_True by tauto.
    - rewrite list_lookup_total_insert_ne, decide_False by (done || tauto). apply lookup_total_replicate_2. unfold NPDENTRIES. lia. }
  rewrite He by lia. destruct (decide (Z.to_nat i = 0%nat \/ Z.to_nat i = 512%nat)) as [Hc|Hc].
  - change (has 131 PTE_P && has 131 PTE_PS) with true. cbn match. change (131 / 2 ^ 22 * 2 ^ 22) with 0.
    repeat case_decide; first [f_equal; lia|lia].
  - change (has 0 PTE_P && has 0 PTE_PS) with false. cbn match. repeat case_decide; first [done|lia].
Qed.

(** ** An example *)

(** A machine with two processors, of numbers 3 and 4; the second comes up when
    the first has looked twice. *)
Definition demo_env (c : nat) (_ : list event) (t : target) : Z :=
  match t with Lapic i => if i =? ID then (3 + Z.of_nat c) * 2 ^ 24 else 0 | _ => 0 end.

Definition demo_entries : list mp_entry := [Eproc 3 (replicate 18 0); Eproc 4 (replicate 18 0); Eioapic 5 (replicate 6 0)].

Definition demo_low : Z -> Z :=
  upd_list (upd_list (fun _ => 0) (P2V 0x2000)
      ([80; 67; 77; 80; 92; 0; 4; 132] ++ replicate 28 0 ++ [0; 0; 0xE0; 0xFE] ++ replicate 4 0 ++
       (0 :: 3 :: replicate 18 0) ++ (0 :: 4 :: replicate 18 0) ++ (2 :: 5 :: replicate 6 0)))
    (P2V 0xF0000) [95; 77; 80; 95; 0; 0x20; 0; 0; 1; 4; 128; 0; 0; 0; 0; 0].

Definition demo_boot_k : kstate :=
  set_k_bcache (mk_bcache (replicate 30 inhabitant) 0 0) (set_k_data 0x80110000 (demo_kernel [] [])).

Definition demo_sys : sys :=
  mk_sys demo_boot_k (mk_platform (demo_env 0) [] demo_low 0 0 [] false)
    (Ide.mk_ide (fun _ => Ide.mk_ibuf 0 0 0 [] None false) None false (fun _ => 0) 0 (fun _ _ => []) (fun _ _ => false) [])
    [demo_cpu; demo_cpu] [false; false] [] 0 0 false.

Lemma demo_image_ok : image_ok demo_boot_k.
Proof.
  split.
  - split; vm_compute; discriminate.
  - split; [reflexivity|split; reflexivity].
  - reflexivity.
  - reflexivity.
  - split; [by_eval|reflexivity].
  - split; [reflexivity|]. apply each_buf. repeat (constructor; [reflexivity|]). constructor.
  - split; [|exists 0%nat, inhabitant; split; reflexivity].
    assert (forall ip x, k_icache demo_boot_k !! ip = Some x -> i_ref x = 0) as H.
    { intros ip x Hx. apply lookup_replicate in Hx as [-> _]. reflexivity. }
    split; [intros ip x Hx; by rewrite (H ip x Hx)|]. intros ip jp x y Hx _ Hp. rewrite (H ip x Hx) in Hp. lia.
  - exists 1%nat. reflexivity.
Qed.

