(* ===== verification/Boot.v ===== *)
(** The boot loader: bootmain.c.

    It runs before paging, so [pf_mem] is physical memory here.  The disk is the
    ATA drive behind the ports 0x1F0 to 0x1F7: [ata_run] is the state of its
    registers after a trace, as the ATA standard has them, and [ata] says of an
    environment that its drive reads sectors by them.  [file] is the kernel's
    ELF file, which starts at sector 1.  [bootmain_loads]: every segment ends up
    at its physical address, its rest zeroed, and the loader jumps to the entry
    point. *)

From stdpp Require Import base list sets strings.
From Stdlib Require Import ZArith Lia.
From S2P Require Import Prelude State Exec Trap Platform.

Open Scope Z_scope.
Open Scope kernel_scope.

Definition SECTSIZE : Z := 512.

(** [stosb(addr, data, cnt)] of x86.h *)
Definition stosb (addr data cnt : Z) : P unit :=
  modify (fun s => set_pf_mem (fill (pf_mem s) addr cnt (u8 data)) s).

(** [insl(port, addr, cnt)] of x86.h: [cnt] words from the port, one after the
    other. *)
Fixpoint insl (port addr : Z) (cnt : nat) : P unit :=
  match cnt with
  | O => ret tt
  | S cnt =>
    v <- dev_rd (Port port) ;;
    modify (fun s => set_pf_mem (upd_list (pf_mem s) addr (le32 v)) s) ;;;
    insl port (addr + 4) cnt
  end.

(** A half word of memory. *)
Definition mem16 (m : Z -> Z) (a : Z) : Z := of_le (read_list m a 2).

Section Boot.
(** How often [waitdisk] looks at the status at most. *)
Context (w : nat).

Fixpoint waitdisk (k : nat) : P unit :=
  match k with
  | O => spin
  | S k => v <- inb 0x1F7 ;; if Z.land v 0xC0 =? 0x40 then ret tt else waitdisk k
  end.

Definition readsect (dst offset : Z) : P unit :=
  waitdisk w ;;;
  outb 0x1F2 1 ;;;
  outb 0x1F3 offset ;;;
  outb 0x1F4 (Z.shiftr offset 8) ;;;
  outb 0x1F5 (Z.shiftr offset 16) ;;;
  outb 0x1F6 (Z.lor (Z.shiftr offset 24) 0xE0) ;;;
  outb 0x1F7 0x20 ;;;
  waitdisk w ;;;
  insl 0x1F0 dst (Z.to_nat (SECTSIZE / 4)).

Fixpoint readseg_loop (pa epa offset : Z) (k : nat) : P unit :=
  match k with
  | O => spin
  | S k =>
    if pa <? epa then
      readsect pa offset ;;;
      readseg_loop (u32 (pa + SECTSIZE)) epa (u32 (offset + 1)) k
    else ret tt
  end.

(** A segment of [count] bytes lies in at most [count / 512 + 2] sectors. *)
Definition readseg (pa count offset : Z) : P unit :=
  let epa := u32 (pa + count) in
  let pa := u32 (pa - offset mod SECTSIZE) in
  let offset := u32 (offset / SECTSIZE + 1) in
  readseg_loop pa epa offset (Z.to_nat (count / SECTSIZE + 3)).

(** [for(; ph < eph; ph++)] *)
Fixpoint bootmain_loop (ph eph : Z) (k : nat) : P unit :=
  match k with
  | O => spin
  | S k =>
    if ph <? eph then
      m <- gets pf_mem ;;
      let pa := read32 m (ph + 12) in
      let filesz := read32 m (ph + 16) in
      readseg pa filesz (read32 m (ph + 4)) ;;;
      m <- gets pf_mem ;;
      let memsz := read32 m (ph + 20) in
      let filesz := read32 m (ph + 16) in
      (if filesz <? memsz then stosb (u32 (pa + filesz)) 0 (memsz - filesz) else ret tt) ;;;
      bootmain_loop (u32 (ph + PROGHDR_SIZE)) eph k
    else ret tt
  end.

(** The address of the entry point that it calls, or [None] when it returns. *)
Definition bootmain : P (option Z) :=
  let elf := 0x10000 in
  readseg elf 4096 0 ;;;
  m <- gets pf_mem ;;
  if negb (read32 m elf =? ELF_MAGIC) then ret None else
  let ph := u32 (elf + read32 m (elf + 28)) in
  let phnum := mem16 m (elf + 44) in
  let eph := u32 (ph + PROGHDR_SIZE * phnum) in
  bootmain_loop ph eph (S (Z.to_nat phnum)) ;;;
  m <- gets pf_mem ;;
  ret (Some (read32 m (elf + 24))).
End Boot.

(** ** The drive *)

(** The registers of the drive: the address as it was written, the sector of the
    last read command and the words read since. *)
Record ata_regs : Type := mk_ata { a_lo : Z; a_mid : Z; a_hi : Z; a_dev : Z; a_lba : Z; a_words : nat }.

Definition ata_step (r : ata_regs) (e : event) : ata_regs :=
  match e with
  | Wr (Port p) v =>
    if p =? 0x1F3 then mk_ata v (a_mid r) (a_hi r) (a_dev r) (a_lba r) (a_words r)
    else if p =? 0x1F4 then mk_ata (a_lo r) v (a_hi r) (a_dev r) (a_lba r) (a_words r)
    else if p =? 0x1F5 then mk_ata (a_lo r) (a_mid r) v (a_dev r) (a_lba r) (a_words r)
    else if p =? 0x1F6 then mk_ata (a_lo r) (a_mid r) (a_hi r) v (a_lba r) (a_words r)
    else if (p =? 0x1F7) && (v =? 0x20) then
      mk_ata (a_lo r) (a_mid r) (a_hi r) (a_dev r)
        (a_lo r + 2 ^ 8 * a_mid r + 2 ^ 16 * a_hi r + 2 ^ 24 * Z.land (a_dev r) 0xF) 0
    else r
  | Rd (Port p) _ => if p =? 0x1F0 then mk_ata (a_lo r) (a_mid r) (a_hi r) (a_dev r) (a_lba r) (S (a_words r)) else r
  | _ => r
  end.

Definition ata_run (tr : list event) : ata_regs := foldl ata_step (mk_ata 0 0 0 0 0 0) tr.

(** The word the drive has at its data port. *)
Definition ata_word (img : Z -> list Z) (r : ata_regs) : Z := of_le (take 4 (drop (4 * a_words r) (img (a_lba r)))).

(** The trace after [j] more looks at the status. *)
Fixpoint polls (env : list event -> target -> Z) (tr : list event) (j : nat) : list event :=
  match j with
  | O => tr
  | S j => polls env (tr ++ [Rd (Port 0x1F7) (env tr (Port 0x1F7))]) j
  end.

(** From the trace [tr0] on the drive with the sectors [img] is ready after fewer
    than [w] looks, and has the words of the sector at its data port. *)
Record ata (w : nat) (env : list event -> target -> Z) (tr0 : list event) (img : Z -> list Z) : Prop := {
  ata_ready es : exists j, (j < w)%nat /\ Z.land (u8 (env (polls env (tr0 ++ es) j) (Port 0x1F7))) 0xC0 = 0x40;
  ata_data es : (a_words (ata_run (tr0 ++ es)) < 128)%nat ->
    env (tr0 ++ es) (Port 0x1F0) = ata_word img (ata_run (tr0 ++ es));
  ata_length n : length (img n) = 512%nat;
  ata_byte n : Forall (fun c => 0 <= c < 256) (img n) }.

Lemma ata_ext w env tr0 img es : ata w env tr0 img -> ata w env (tr0 ++ es) img.
Proof.
  intros [A1 A2 A3 A4]. split; try done; intros es'; rewrite <- app_assoc; [apply A1|apply A2].
Qed.

Lemma ata_run_app tr es : ata_run (tr ++ es) = foldl ata_step (ata_run tr) es.
Proof. apply foldl_app. Qed.

(** The four bytes of an address, put together again. *)
Lemma lba_bytes n : 0 <= n < 2 ^ 28 ->
  u8 n + 2 ^ 8 * u8 (Z.shiftr n 8) + 2 ^ 16 * u8 (Z.shiftr n 16) + 2 ^ 24 * Z.land (u8 (Z.lor (Z.shiftr n 24) 0xE0)) 0xF = n.
Proof.
  intros Hn. assert (Z.land (u8 (Z.lor (Z.shiftr n 24) 0xE0)) 0xF = byte_of n 3) as ->.
  { unfold byte_of, u8. change (8 * 3) with 24. set (x := Z.shiftr n 24).
    assert (0 <= x < 16) as Hx.
    { unfold x. rewrite Z.shiftr_div_pow2 by lia. split; [apply Z.div_pos; lia|apply Z.div_lt_upper_bound; lia]. }
    clearbody x. assert (x ∈ [0; 1; 2; 3; 4; 5; 6; 7; 8; 9; 10; 11; 12; 13; 14; 15]) as Hin by (rewrite !elem_of_cons; lia).
    rewrite !elem_of_cons, elem_of_nil in Hin. destruct_or! Hin; subst; done. }
  pose proof (of_le_le32 n) as H. rewrite u32_small in H by lia. unfold le32 in H. cbn [of_le] in H.
  unfold byte_of in *. change (8 * 0) with 0 in H. rewrite Z.shiftr_0_r in H. change (8 * 1) with 8 in H. change (8 * 2) with 16 in H.
  change (2 ^ 8) with 256. change (2 ^ 16) with (256 * 256). change (2 ^ 24) with (256 * 256 * 256). lia.
Qed.

Lemma le32_of_le l : length l = 4%nat -> Forall (fun c => 0 <= c < 256) l -> le32 (of_le l) = l.
Proof.
  intros Hl Hb. destruct l as [|a [|b [|c [|d [|? ?]]]]]; try done. apply Forall_cons in Hb as [H1 Hb].
  apply Forall_cons in Hb as [H2 Hb]. apply Forall_cons in Hb as [H3 Hb]. apply Forall_cons in Hb as [H4 _].
  unfold le32, byte_of, u8. cbn [of_le]. rewrite !Z.shiftr_div_pow2 by lia.
  change (2 ^ (8 * 0)) with 1. change (2 ^ (8 * 1)) with 256. change (2 ^ (8 * 2)) with (256 * 256).
  change (2 ^ (8 * 3)) with (256 * 256 * 256). change (2 ^ 8) with 256. rewrite Z.div_1_r, <- !Z.div_div by lia.
  assert (forall x y, 0 <= x < 256 -> (x + 256 * y) mod 256 = x /\ (x + 256 * y) / 256 = y) as H.
  { intros x y Hx. rewrite (Z.mul_comm 256), Z_mod_plus_full, Z.div_add, Z.mod_small, Z.div_small by lia. lia. }
  destruct (H a (b + 256 * (c + 256 * (d + 256 * 0))) H1) as [-> ->].
  destruct (H b (c + 256 * (d + 256 * 0)) H2) as [-> ->]. destruct (H c (d + 256 * 0) H3) as [-> ->].
  by destruct (H d 0 H4) as [-> _].
Qed.

(** The memory [m'] is [m] with [n] bytes from [a] on given by [g]. *)
Definition loaded (m m' : Z -> Z) (a n : Z) (g : Z -> Z) : Prop :=
  forall x, m' x = if decide (a <= x < a + n) then g (x - a) else m x.

Section Drive.
Context (w : nat) (img : Z -> list Z).

Abbreviation drive s := (ata w (pf_env s) (pf_trace s) img).

Lemma drive_ext m s es : drive s -> drive (set_pf_mem m (ext s es)).
Proof using. apply ata_ext. Qed.

Lemma waitdisk_from j : forall k s, (j < k)%nat ->
  Z.land (u8 (pf_env s (polls (pf_env s) (pf_trace s) j) (Port 0x1F7))) 0xC0 = 0x40 ->
  exists es, waitdisk k s = Ret tt (ext s es) /\ ata_run (pf_trace s ++ es) = ata_run (pf_trace s).
Proof using.
  induction j as [|j IH]; intros [|k] s Hk Hj; try lia; cbn [waitdisk]; rewrite (bind_ext _ _ _ _ _ (inb_ext _ _)).
  - cbn [polls] in Hj. rewrite Hj. cbn. eexists. split; [done|]. by rewrite ata_run_app.
  - destruct (_ =? _); [eexists; split; [done|]; by rewrite ata_run_app|].
    destruct (IH k (ext s [Rd (Port 0x1F7) (pf_env s (pf_trace s) (Port 0x1F7))])) as (es & E & Hr); [lia|done|].
    rewrite E, ext_ext. eexists. split; [done|]. rewrite app_assoc. cbn [ext set_pf_trace pf_trace] in Hr. by rewrite Hr, ata_run_app.
Qed.

Lemma waitdisk_ok s : drive s ->
  exists es, waitdisk w s = Ret tt (ext s es) /\ ata_run (pf_trace s ++ es) = ata_run (pf_trace s).
Proof using.
  intros H. destruct (ata_ready _ _ _ _ H []) as (j & Hj & Hr). rewrite app_nil_r in Hr. by apply (waitdisk_from j).
Qed.

(** The words of sector [n] from word [128 - cnt] on. *)
Lemma insl_ok n cnt : forall addr s, drive s -> (cnt <= 128)%nat ->
  a_lba (ata_run (pf_trace s)) = n -> a_words (ata_run (pf_trace s)) = (128 - cnt)%nat ->
  exists es m, insl 0x1F0 addr cnt s = Ret tt (set_pf_mem m (ext s es)) /\
    loaded (pf_mem s) m addr (4 * Z.of_nat cnt) (fun o => img n !!! (4 * (128 - cnt) + Z.to_nat o)%nat).
Proof using.
  induction cnt as [|cnt IH]; intros addr s Hd Hc Hn Hw; cbn [insl].
  { exists [], (pf_mem s). split; [rewrite ext_nil; by destruct s|]. intros x. rewrite decide_False by lia. done. }
  pose proof (ata_data _ _ _ _ Hd []) as Hv. rewrite app_nil_r in Hv. specialize (Hv ltac:(lia)).
  rewrite (bind_ext _ _ _ _ _ (dev_rd_ext _ _)). mrun. rewrite Hv. unfold ata_word. rewrite Hw, Hn.
  set (l := take 4 _). assert (length l = 4%nat) as Hl by (unfold l; rewrite length_take, length_drop, (ata_length _ _ _ _ Hd); lia).
  rewrite le32_of_le by (try done; unfold l; apply Forall_take, Forall_drop, (ata_byte _ _ _ _ Hd)).
  set (s1 := set_pf_mem _ _).
  assert (ata_run (pf_trace s1) = ata_step (ata_run (pf_trace s)) (Rd (Port 0x1F0) (of_le l))) as Hrun by apply ata_run_app.
  destruct (IH (addr + 4) s1) as (es & m & E & Hm).
  - by apply drive_ext.
  - lia.
  - by rewrite Hrun.
  - rewrite Hrun. cbn. lia.
  - rewrite E. eexists _, m. split; [unfold s1; cbn; unfold set_pf_mem, ext, set_pf_trace; cbn; by rewrite <- app_assoc|].
    intros x. rewrite (Hm x). cbn [pf_mem s1 set_pf_mem ext set_pf_trace].
    destruct (decide (addr <= x < addr + 4)) as [Hin|Hout].
    + rewrite decide_False, decide_True by lia. destruct (lookup_lt_is_Some_2 l (Z.to_nat (x - addr))) as [v Hlk]; [lia|].
      rewrite (upd_list_in _ _ _ _ v) by (try done; lia). unfold l in Hlk. rewrite lookup_take_lt, lookup_drop in Hlk by lia.
      symmetry. apply list_lookup_total_correct. done.
    + case_decide; [rewrite decide_True by lia; f_equal; lia|]. rewrite decide_False by lia. rewrite upd_list_out; [done|]. rewrite Hl. lia.
Qed.

Lemma readsect_ok dst n s : drive s -> 0 <= n < 2 ^ 28 ->
  exists es m, readsect w dst n s = Ret tt (set_pf_mem m (ext s es)) /\
    loaded (pf_mem s) m dst 512 (fun o => img n !!! Z.to_nat o).
Proof using.
  intros Hd Hn. unfold readsect. destruct (waitdisk_ok s Hd) as (es1 & E1 & R1). rewrite (bind_ext _ _ _ _ _ E1).
  do 6 (rewrite (bind_ext _ _ _ _ _ (outb_ext _ _ _)), ext_ext).
  set (es2 := _ ++ [Wr (Port 0x1F7) _]).
  assert (ata_run (pf_trace s ++ es2) = mk_ata (u8 n) (u8 (Z.shiftr n 8)) (u8 (Z.shiftr n 16)) (u8 (Z.lor (Z.shiftr n 24) 0xE0)) n 0) as R2.
  { unfold es2. rewrite <- !app_assoc, app_assoc, ata_run_app, R1. change (u8 0x20) with 0x20. generalize (ata_run (pf_trace s)). intros r.
    cbn [app foldl ata_step Z.eqb Pos.eqb andb a_lo a_mid a_hi a_dev]. by rewrite lba_bytes. }
  destruct (waitdisk_ok (ext s es2)) as (es3 & E3 & R3); [exact (ata_ext _ _ _ _ es2 Hd)|]. rewrite (bind_ext _ _ _ _ _ E3), ext_ext.
  cbn [ext set_pf_trace pf_trace] in R3. rewrite R2, <- app_assoc in R3.
  destruct (insl_ok n 128 dst (ext s (es2 ++ es3))) as (es4 & m & E4 & Hm); [exact (ata_ext _ _ _ _ _ Hd)|lia|cbn [ext set_pf_trace pf_trace]; by rewrite R3..|].
  change (Z.to_nat (SECTSIZE / 4)) with 128%nat. rewrite E4, ext_ext.
  eexists _, m. split; [reflexivity|exact Hm].
Qed.

(** The file from sector 1 on, by offset. *)
Definition file (o : Z) : Z := img (1 + o / SECTSIZE) !!! Z.to_nat (o mod SECTSIZE).

Lemma file_sector q o : 0 <= o < 512 -> file (512 * (q - 1) + o) = img q !!! Z.to_nat o.
Proof using.
  intros Ho. unfold file, SECTSIZE. rewrite (Z.mul_comm 512), Z.add_comm, Z.div_add, Z_mod_plus_full, Z.div_small, Z.mod_small by lia.
  f_equal. f_equal. lia.
Qed.

Lemma loaded_app m m1 m2 a n1 n2 g : 0 <= n1 -> 0 <= n2 -> loaded m m1 a n1 g -> loaded m1 m2 (a + n1) n2 (fun o => g (n1 + o)) ->
  loaded m m2 a (n1 + n2) g.
Proof using.
  intros H1 H2 L1 L2 x. rewrite (L2 x), (L1 x). repeat case_decide; try lia; try done. f_equal. lia.
Qed.

(** [r] sectors reach [epa], and no fewer do. *)
Definition reaches (pa epa : Z) (r : nat) : Prop :=
  epa <= pa + 512 * Z.of_nat r /\ ((0 < r)%nat -> pa + 512 * (Z.of_nat r - 1) < epa).

Lemma readseg_loop_ok r : forall k pa epa q s, drive s -> (r < k)%nat -> reaches pa epa r -> 0 <= pa -> 1 <= q ->
  pa + 512 * Z.of_nat r < 2 ^ 32 -> q + Z.of_nat r < 2 ^ 28 ->
  exists es m, readseg_loop w pa epa q k s = Ret tt (set_pf_mem m (ext s es)) /\
    loaded (pf_mem s) m pa (512 * Z.of_nat r) (fun o => file (512 * (q - 1) + o)).
Proof using.
  induction r as [|r IH]; intros [|k] pa epa q s Hd Hk [R1 R2] Hpa Hq Hm Hn; try lia; cbn [readseg_loop].
  - rewrite (proj2 (Z.ltb_ge _ _)) by lia. exists [], (pf_mem s). split; [rewrite ext_nil; by destruct s|].
    intros x. rewrite decide_False by lia. done.
  - specialize (R2 ltac:(lia)). rewrite (proj2 (Z.ltb_lt _ _)) by lia.
    destruct (readsect_ok pa q s Hd ltac:(lia)) as (es1 & m1 & E1 & L1). mstep E1. unfold SECTSIZE at 1. rewrite !u32_small by lia.
    destruct (IH k (pa + 512) epa (q + 1) (set_pf_mem m1 (ext s es1))) as (es2 & m2 & E2 & L2); try lia;
      [by apply drive_ext|split; lia|].
    rewrite E2. exists (es1 ++ es2), m2. split; [unfold set_pf_mem, ext, set_pf_trace; cbn; by rewrite app_assoc|].
    replace (512 * Z.of_nat (S r)) with (512 + 512 * Z.of_nat r) by lia. apply (loaded_app _ m1); [lia|lia| |].
    + intros x. rewrite (L1 x). case_decide; [|done]. by rewrite file_sector by lia.
    + intros x. rewrite (L2 x). case_decide; [|done]. f_equal. lia.
Qed.

(** The sectors that hold [count] bytes from [offset]. *)
Definition sectors (count offset : Z) : Z := (offset mod SECTSIZE + count + 511) / SECTSIZE.

Lemma readseg_ok pa count offset s : drive s -> 0 <= offset -> 0 <= count -> 0 <= pa - offset mod SECTSIZE ->
  pa - offset mod SECTSIZE + 512 * sectors count offset < 2 ^ 32 -> offset / SECTSIZE + 1 + sectors count offset < 2 ^ 28 ->
  exists es m, readseg w pa count offset s = Ret tt (set_pf_mem m (ext s es)) /\
    loaded (pf_mem s) m (pa - offset mod SECTSIZE) (512 * sectors count offset) (fun o => file (offset - offset mod SECTSIZE + o)).
Proof using.
  intros Hd Ho Hc Hpa Hm Hn. unfold readseg. pose proof (Z.mod_pos_bound offset SECTSIZE eq_refl) as Hmod.
  pose proof (Z.div_mod offset SECTSIZE ltac:(done)) as Hdm. pose proof (Z.div_pos offset SECTSIZE ltac:(lia) eq_refl) as Hdp.
  set (r := sectors count offset) in *.
  assert (offset mod SECTSIZE + count <= 512 * r < offset mod SECTSIZE + count + 512) as Hr.
  { unfold r, sectors. pose proof (Z.div_mod (offset mod SECTSIZE + count + 511) SECTSIZE ltac:(done)).
    pose proof (Z.mod_pos_bound (offset mod SECTSIZE + count + 511) SECTSIZE eq_refl). unfold SECTSIZE in *. lia. }
  change SECTSIZE with 512 in *. rewrite (u32_small (pa + count)), (u32_small (pa - _)), (u32_small (_ / _ + 1)) by lia.
  pose proof (Z.div_mod count 512 ltac:(done)) as Hcd. pose proof (Z.mod_pos_bound count 512 eq_refl) as Hcm.
  destruct (readseg_loop_ok (Z.to_nat r) (Z.to_nat (count / 512 + 3)) (pa - offset mod 512) (pa + count) (offset / 512 + 1) s Hd)
    as (es & m & E & L); try lia.
  { unfold reaches. rewrite Z2Nat.id by lia. split; [lia|]. lia. }
  rewrite Z2Nat.id in L by lia. exists es, m. split; [done|]. intros x. rewrite (L x). case_decide; [|done].
  f_equal. lia.
Qed.

(** ** Segments *)

(** What a program header says. *)
Record seg : Type := mk_seg { sg_off : Z; sg_pa : Z; sg_filesz : Z; sg_memsz : Z }.

(** The memory that loading a segment may change: whole sectors, and the rest
    that is zeroed. *)
Definition seg_lo (g : seg) : Z := sg_pa g - sg_off g mod SECTSIZE.
Definition seg_hi (g : seg) : Z := Z.max (seg_lo g + 512 * sectors (sg_filesz g) (sg_off g)) (sg_pa g + sg_memsz g).

Record seg_ok (g : seg) : Prop := {
  so_off : 0 <= sg_off g;
  so_filesz : 0 <= sg_filesz g;
  so_lo : 0 <= seg_lo g;
  so_hi : seg_hi g < 2 ^ 32;
  so_disk : sg_off g / SECTSIZE + 1 + sectors (sg_filesz g) (sg_off g) < 2 ^ 28 }.

(** The segment is where it belongs. *)
Definition in_memory (m : Z -> Z) (g : seg) : Prop :=
  (forall i, 0 <= i < sg_filesz g -> m (sg_pa g + i) = file (sg_off g + i)) /\
  (forall i, sg_filesz g <= i < sg_memsz g -> m (sg_pa g + i) = 0).

(** Header [j] of the table at [phoff] of the file is that of [g]. *)
Definition has_header (phoff : Z) (j : nat) (g : seg) : Prop :=
  let a := phoff + PROGHDR_SIZE * Z.of_nat j in
  read32 file (a + 4) = sg_off g /\ read32 file (a + 12) = sg_pa g /\
  read32 file (a + 16) = sg_filesz g /\ read32 file (a + 20) = sg_memsz g.

(** The first page of the file is at the scratch address. *)
Definition header_there (m : Z -> Z) : Prop := forall a, 0 <= a < 4096 -> m (0x10000 + a) = file a.

Lemma header_list m a n : header_there m -> 0 <= a -> a + Z.of_nat n <= 4096 -> read_list m (0x10000 + a) n = read_list file a n.
Proof using.
  intros H H1 H2. apply map_ext_in. intros i Hi. apply in_seq in Hi. rewrite <- Z.add_assoc. apply H. lia.
Qed.

Lemma header_read32 m a : header_there m -> 0 <= a -> a + 4 <= 4096 -> read32 m (0x10000 + a) = read32 file a.
Proof using. intros H H1 H2. unfold read32. by rewrite header_list. Qed.

Lemma file_byte s o : drive s -> 0 <= o -> 0 <= file o < 256.
Proof using.
  intros Hd Ho. apply (Forall_lookup_total_1 (fun c => 0 <= c < 256)); [apply (ata_byte _ _ _ _ Hd)|].
  rewrite (ata_length _ _ _ _ Hd). pose proof (Z.mod_pos_bound o SECTSIZE eq_refl). unfold SECTSIZE in *. lia.
Qed.

Lemma file_read32 s a : drive s -> 0 <= a -> 0 <= read32 file a.
Proof using.
  intros Hd Ha. unfold read32, read_list. cbn [seq map of_le].
  pose proof (fun k => file_byte s (a + Z.of_nat k) Hd ltac:(lia)) as H.
  pose proof (H 0%nat). pose proof (H 1%nat). pose proof (H 2%nat). pose proof (H 3%nat). lia.
Qed.

Definition apart (g : seg) (lo hi : Z) : Prop := seg_hi g <= lo \/ hi <= seg_lo g.

(** One round of the loop. *)
Lemma load_seg g s a : drive s -> seg_ok g -> header_there (pf_mem s) -> apart g 0x10000 0x11000 ->
  0 <= a -> a + 32 <= 4096 -> read32 file (a + 4) = sg_off g -> read32 file (a + 12) = sg_pa g ->
  read32 file (a + 16) = sg_filesz g -> read32 file (a + 20) = sg_memsz g ->
  forall k ph eph, ph = 0x10000 + a -> ph < eph -> eph < 2 ^ 32 - 32 ->
  exists es m, bootmain_loop w ph eph (S k) s = bootmain_loop w (ph + 32) eph k (set_pf_mem m (ext s es)) /\
    in_memory m g /\ (forall x, x < seg_lo g \/ seg_hi g <= x -> m x = pf_mem s x).
Proof using.
  intros Hd [S1 S2 S3 S4 S5] Hh Hap Ha Ha' F1 F2 F3 F4 k ph eph -> Hlt Heph. cbn [bootmain_loop].
  rewrite (proj2 (Z.ltb_lt _ _)) by lia. mrun. rewrite <- !Z.add_assoc, !header_read32 by (done || lia). rewrite F1, F2, F3.
  unfold seg_hi, seg_lo in *. set (r := sectors (sg_filesz g) (sg_off g)) in *.
  pose proof (Z.mod_pos_bound (sg_off g) SECTSIZE eq_refl) as Hmod.
  assert (sg_off g mod SECTSIZE + sg_filesz g <= 512 * r) as Hr.
  { unfold r, sectors. pose proof (Z.div_mod (sg_off g mod SECTSIZE + sg_filesz g + 511) SECTSIZE ltac:(done)).
    pose proof (Z.mod_pos_bound (sg_off g mod SECTSIZE + sg_filesz g + 511) SECTSIZE eq_refl). unfold SECTSIZE in *. lia. }
  destruct (readseg_ok (sg_pa g) (sg_filesz g) (sg_off g) s Hd S1 S2 S3 ltac:(fold r; lia) S5) as (es & m & E & L). fold r in L.
  mstep E. mrun. change (pf_mem (set_pf_mem m _)) with m.
  assert (header_there m) as Hh'.
  { intros x Hx. rewrite (L (0x10000 + x)), decide_False; [by apply Hh|]. unfold apart, seg_hi, seg_lo in Hap. fold r in Hap. lia. }
  rewrite !header_read32, F3, F4 by (done || lia). change PROGHDR_SIZE with 32. rewrite (u32_small (0x10000 + (a + 32))) by lia.
  assert (forall i, 0 <= i < sg_filesz g -> m (sg_pa g + i) = file (sg_off g + i)) as Hin.
  { intros i Hi. rewrite (L _), decide_True by lia. f_equal. lia. }
  destruct (Z.ltb_spec (sg_filesz g) (sg_memsz g)) as [Hz|Hz].
  - unfold stosb. mrun. rewrite (u32_small (_ + sg_filesz g)) by lia. change (u8 0) with 0.
    exists es, (fill m (sg_pa g + sg_filesz g) (sg_memsz g - sg_filesz g) 0). split; [by rewrite Z.add_assoc|].
    split; [split|].
    + intros i Hi. rewrite fill_out by lia. by apply Hin.
    + intros i Hi. apply fill_in. lia.
    + intros x Hx. rewrite fill_out by lia. rewrite (L x), decide_False by lia. done.
  - mrun. exists es, m. split; [by rewrite Z.add_assoc|]. split; [split; [done|intros i Hi; lia]|].
    intros x Hx. rewrite (L x), decide_False by lia. done.
Qed.

(** The segments [gs] from header [j] on; none changes an earlier one. *)
Lemma load_segs phoff gs : 0 <= phoff -> phoff + 32 * Z.of_nat (length gs) <= 4096 ->
  (forall j g, gs !! j = Some g -> has_header phoff j g /\ seg_ok g /\ apart g 0x10000 0x11000) ->
  (forall i j f g, (i < j)%nat -> gs !! i = Some f -> gs !! j = Some g -> apart g (sg_pa f) (sg_pa f + Z.max (sg_filesz f) (sg_memsz f))) ->
  forall n j s, drive s -> header_there (pf_mem s) -> (j + n = length gs)%nat ->
  (forall i f, (i < j)%nat -> gs !! i = Some f -> in_memory (pf_mem s) f) ->
  exists es m, bootmain_loop w (0x10000 + phoff + 32 * Z.of_nat j) (0x10000 + phoff + 32 * Z.of_nat (length gs)) (S n) s
      = Ret tt (set_pf_mem m (ext s es)) /\
    header_there m /\ forall i f, gs !! i = Some f -> in_memory m f.
Proof using.
  intros Hp Hl Hgs Hord. induction n as [|n IH]; intros j s Hd Hh Hj Hprev.
  { cbn [bootmain_loop]. rewrite (proj2 (Z.ltb_ge _ _)) by lia. exists [], (pf_mem s).
    split; [rewrite ext_nil; by destruct s|]. split; [done|]. intros i f Hf. apply (Hprev i f); [|done].
    apply lookup_lt_Some in Hf. lia. }
  destruct (lookup_lt_is_Some_2 gs j ltac:(lia)) as [g Hg]. destruct (Hgs j g Hg) as ((F1 & F2 & F3 & F4) & Hok & Hap).
  change PROGHDR_SIZE with 32 in *.
  destruct (load_seg g s (phoff + 32 * Z.of_nat j) Hd Hok Hh Hap ltac:(lia) ltac:(lia) F1 F2 F3 F4
    (S n) (0x10000 + phoff + 32 * Z.of_nat j) (0x10000 + phoff + 32 * Z.of_nat (length gs)) ltac:(lia) ltac:(lia) ltac:(lia)) as (es & m & E & Hin & Hout).
  rewrite E. replace (0x10000 + phoff + 32 * Z.of_nat j + 32) with (0x10000 + phoff + 32 * Z.of_nat (S j)) by lia.
  destruct (IH (S j) (set_pf_mem m (ext s es))) as (es' & m' & E' & Hh' & Hall).
  - by apply drive_ext.
  - intros x Hx. cbn. rewrite Hout by (unfold apart in Hap; lia). by apply Hh.
  - lia.
  - intros i f Hi Hf. destruct (decide (i = j)) as [->|Hne]; [by rewrite Hg in Hf; injection Hf as <-|].
    destruct (Hprev i f ltac:(lia) Hf) as [P1 P2]. pose proof (Hord i j f g ltac:(lia) Hf Hg) as Hs. unfold apart in Hs.
    pose proof (so_filesz _ (proj1 (proj2 (Hgs i f Hf)))).
    split; intros x Hx; cbn; rewrite Hout by lia; [by apply P1|by apply P2].
  - exists (es ++ es'), m'. split; [|done]. rewrite E'. unfold set_pf_mem, ext, set_pf_trace. cbn. by rewrite app_assoc.
Qed.

(** The first page of the file, which the loader reads first. *)
Lemma load_header s : drive s -> exists es m, readseg w 0x10000 4096 0 s = Ret tt (set_pf_mem m (ext s es)) /\ header_there m.
Proof using.
  intros Hd. destruct (readseg_ok 0x10000 4096 0 s Hd) as (es & m & E & L); try done.
  exists es, m. split; [done|]. intros a Ha. rewrite (L _). change (0 mod SECTSIZE) with 0. change (sectors 4096 0) with 8.
  rewrite decide_True by lia. f_equal. lia.
Qed.
End Drive.

(** C39: the boot loader loads the kernel.  If the disk holds an ELF file from sector 1 on
    whose program headers are in its first page, name sectors of the disk, do not
    touch the scratch page and do not overwrite segments already loaded, then
    [bootmain] puts the bytes of every segment at its physical address with
    zeroes up to its size in memory, and ends with a jump to the entry point of
    the file; if the magic number is not that of ELF it returns instead. *)
Theorem bootmain_loads w img s gs : ata w (pf_env s) (pf_trace s) img ->
  let phoff := read32 (file img) 28 in
  mem16 (file img) 44 = Z.of_nat (length gs) -> phoff + 32 * Z.of_nat (length gs) <= 4096 ->
  (forall j g, gs !! j = Some g -> has_header img phoff j g /\ seg_ok g /\ apart g 0x10000 0x11000) ->
  (forall i j f g, (i < j)%nat -> gs !! i = Some f -> gs !! j = Some g ->
     apart g (sg_pa f) (sg_pa f + Z.max (sg_filesz f) (sg_memsz f))) ->
  exists es m, bootmain w s = Ret (if read32 (file img) 0 =? ELF_MAGIC then Some (read32 (file img) 24) else None)
      (set_pf_mem m (ext s es)) /\
    (read32 (file img) 0 = ELF_MAGIC -> forall g, g ∈ gs -> in_memory img m g).
Proof.
  intros Hd phoff Hnum Hpage Hgs Hord. destruct (load_header w img s Hd) as (es & m & E & Hh). unfold bootmain. mstep E. mrun.
  change (pf_mem (set_pf_mem m _)) with m. change (read32 m 0x10000) with (read32 m (0x10000 + 0)).
  rewrite (header_read32 img m 0 Hh) by lia. destruct (Z.eqb_spec (read32 (file img) 0) ELF_MAGIC) as [Hm|Hm]; cbn [negb].
  - rewrite !(header_read32 img m) by (done || lia). fold phoff.
    assert (0 <= phoff) as Hp by (apply (file_read32 w img s); [done|lia]).
    unfold mem16. rewrite (header_list img m 44 2 Hh) by lia. fold (mem16 (file img) 44). rewrite Hnum, Nat2Z.id. change PROGHDR_SIZE with 32.
    rewrite (u32_small (0x10000 + phoff)) by lia. rewrite u32_small by lia.
    destruct (load_segs w img phoff gs Hp Hpage Hgs Hord (length gs) 0 (set_pf_mem m (ext s es))) as (es' & m' & E' & Hh' & Hall);
      [by apply drive_ext|done|lia|lia|].
    rewrite Z.add_0_r in E'. mstep E'. mrun. change (pf_mem (set_pf_mem m' _)) with m'. rewrite (header_read32 img m' 24 Hh') by lia.
    exists (es ++ es'), m'. split; [unfold ret, set_pf_mem, ext, set_pf_trace; cbn; by rewrite app_assoc|].
    intros _ g Hg. apply list_elem_of_lookup in Hg as [i Hi]. by apply (Hall i g).
  - exists es, m. split; [done|]. intros H. done.
Qed.

(** ** An example *)

(** A file with one segment of five bytes, nine in memory, in its ninth sector. *)
Definition demo_sector1 : list Z :=
  splice 0 (le32 ELF_MAGIC) (splice 24 (le32 0x10000C ++ le32 52) (splice 44 (le16 1)
    (splice 52 (concat (map le32 [1; 4112; 0x80100010; 0x100010; 5; 9; 7; 4096])) (replicate 512 0)))).
Definition demo_disk (n : Z) : list Z :=
  if n =? 1 then demo_sector1 else if n =? 9 then splice 16 [1; 2; 3; 4; 5; 6] (replicate 512 0) else replicate 512 0.
Definition demo_boot : platform :=
  demo_platform (fun tr t => if decide (t = Port 0x1F0) then ata_word demo_disk (ata_run tr) else 0x40).

Lemma bootmain_loads_witness : exists es m, bootmain 1 demo_boot = Ret (Some 0x10000C) (set_pf_mem m (ext demo_boot es)) /\
  in_memory demo_disk m (mk_seg 4112 0x100010 5 9).
Proof.
  destruct (bootmain_loads 1 demo_disk demo_boot [mk_seg 4112 0x100010 5 9]) as (es & m & E & H).
  - split.
    + intros es. exists 0%nat. split; [lia|]. by vm_compute.
    + intros es _. reflexivity.
    + intros n. unfold demo_disk. repeat case_match; reflexivity.
    + intros n. unfold demo_disk. repeat case_match; apply (bool_decide_unpack _); by vm_compute.
  - by vm_compute.
  - by vm_compute.
  - intros [|j] g Hg; [|done]. injection Hg as <-. split; [by vm_compute|]. split; [by split; vm_compute|right; by vm_compute].
  - intros [|i] [|j] f g Hij Hf Hg; try lia; done.
  - exists es, m. split; [exact E|]. apply H; [by vm_compute|]. by apply list_elem_of_singleton.
Defined.
