(* ===== verification/CFloat.v ===== *)
(** The floating-point numbers of C: [float] and [double] as the 32 and 64 bit
    formats of IEEE 754, rounding to the nearest, with the operations of the
    Standard Library's SpecFloat. *)

From stdpp Require Import base tactics.
From Stdlib Require Import ZArith Lia SpecFloat.

Open Scope Z_scope.

Module Double.
Definition prec : Z := 53.
Definition emax : Z := 1024.
(** [(double)x] of an [int] *)
Definition of_int (x : Z) : spec_float := binary_normalize prec emax x 0 false.
Definition add : spec_float -> spec_float -> spec_float := SFadd prec emax.
Definition sub : spec_float -> spec_float -> spec_float := SFsub prec emax.
Definition mul : spec_float -> spec_float -> spec_float := SFmul prec emax.
Definition div : spec_float -> spec_float -> spec_float := SFdiv prec emax.
End Double.

Module Float.
Definition prec : Z := 24.
Definition emax : Z := 128.
Definition of_int (x : Z) : spec_float := binary_normalize prec emax x 0 false.
Definition add : spec_float -> spec_float -> spec_float := SFadd prec emax.
Definition mul : spec_float -> spec_float -> spec_float := SFmul prec emax.
Definition div : spec_float -> spec_float -> spec_float := SFdiv prec emax.
End Float.

(** A number in another format: rounded if need be. *)
Definition convert (prec emax : Z) (x : spec_float) : spec_float :=
  match x with S754_finite s m e => binary_normalize prec emax (cond_Zopp s (Zpos m)) e s | _ => x end.

(** [(float)x] of a [double], and the promotion of a [float] to [double] *)
Definition float_of_double : spec_float -> spec_float := convert Float.prec Float.emax.
Definition double_of_float : spec_float -> spec_float := convert Double.prec Double.emax.

(** ** Signs *)

(** Not below zero, or not a number. *)
Definition plus (x : spec_float) : bool :=
  match x with S754_zero s | S754_infinity s | S754_finite s _ _ => negb s | S754_nan => true end.

(** Infinite, or not a number. *)
Definition wild (x : spec_float) : bool :=
  match x with S754_infinity _ | S754_nan => true | _ => false end.

Section Signs.
Context (prec emax : Z).

Lemma round_aux_plus m e l : plus (binary_round_aux prec emax false m e l) = true.
Proof. unfold binary_round_aux. by repeat case_match. Qed.

Lemma normalize_plus m e : 0 <= m -> plus (binary_normalize prec emax m e false) = true.
Proof.
  intros Hm. destruct m as [|m|m]; [done| |lia]. cbn [binary_normalize]. unfold binary_round.
  destruct (shl_align _ _ _). apply round_aux_plus.
Qed.

Lemma add_plus x y : plus x = true -> plus y = true -> plus (SFadd prec emax x y) = true.
Proof.
  destruct x as [[]|[]| |[]], y as [[]|[]| |[]]; try done. intros _ _. cbn [SFadd cond_Zopp].
  apply normalize_plus. lia.
Qed.

Lemma div_plus x y : plus x = true -> plus y = true -> plus (SFdiv prec emax x y) = true.
Proof.
  destruct x as [[]|[]| |[]], y as [[]|[]| |[]]; try done. intros _ _. cbn [SFdiv xorb].
  destruct (SFdiv_core_binary _ _ _ _ _ _) as [[? ?] ?]. apply round_aux_plus.
Qed.

(** A sum of such numbers one of which is wild is wild. *)
Lemma add_wild x y : wild x = true \/ wild y = true -> wild (SFadd prec emax x y) = true.
Proof. by destruct x as [[]|[]| |[]], y as [[]|[]| |[]]; intros []. Qed.

Lemma div_zero_wild x : wild (SFdiv prec emax x (S754_zero false)) = true.
Proof. by destruct x as [[]|[]| |[]]. Qed.
End Signs.

(** A wild number that is not below zero is not at most a finite one. *)
Lemma wild_not_le x s m e : plus x = true -> wild x = true -> SFleb x (S754_finite s m e) = false.
Proof. by destruct x as [[]|[]| |[]]. Qed.
