(* ===== verification/RtSched.v ===== *)
(** The two user-level real-time scheduling simulators, edf_premption.c and
    rms_premption.c.

    Both keep an array of periodic processes, sort it by exchanges, and in
    every time unit run the first process of the array that has arrived and
    has work left; the array is sorted by next deadline before each unit in
    one program, and by period once in the other.  What the two have in
    common is a section over the class [Periodic]; the modules [Edf] and [Rms]
    hold each program's record, its instance and its main function.

    A process's numbers are the [int]s read by [main], taken as integers: a
    run whose sums leave the range of [int] is undefined in C.  [scanf] has
    given every number asked for.  The floating-point tests of [main] and the
    averages are those of CFloat.v; [pow] of the C library is a parameter. *)

From stdpp Require Import base list sorting.
From Stdlib Require Import ZArith Lia SpecFloat.
From S2P Require Import Prelude CFloat.

Open Scope Z_scope.

(** ** Sorting by exchanges *)

Section Exchange.
Context {P : Type} `{!Inhabited P} (key : P -> Z).

Definition exchange (i j : nat) (l : list P) : list P :=
  if key (l !!! j) <? key (l !!! i) then <[i := l !!! j]> (<[j := l !!! i]> l) else l.

Definition exchange_pass (i n : nat) (l : list P) : list P :=
  foldl (fun l j => exchange i j l) l (seq (S i) (n - S i)).

Definition exchange_sort (l : list P) : list P :=
  foldl (fun l' i => exchange_pass i (length l) l') l (seq 0 (length l - 1)).

Lemma length_exchange i j l : length (exchange i j l) = length l.
Proof. unfold exchange. case_match; by rewrite ?length_insert. Qed.

Lemma exchange_perm i j l :
  (i < length l)%nat -> (j < length l)%nat -> exchange i j l ≡ₚ l.
Proof.
  intros Hi Hj. unfold exchange. case_match; [|done].
  apply Permutation_insert_swap; by apply list_lookup_lookup_total_lt.
Qed.

Lemma exchange_ne i j l a : a <> i -> a <> j -> exchange i j l !!! a = l !!! a.
Proof. intros. unfold exchange. case_match; [|done]. by rewrite !list_lookup_total_insert_ne. Qed.

Lemma exchange_cases i j l :
  (i < length l)%nat -> (j < length l)%nat -> i <> j ->
  (exchange i j l !!! i = l !!! i /\ exchange i j l !!! j = l !!! j /\
     key (l !!! i) <= key (l !!! j)) \/
  (exchange i j l !!! i = l !!! j /\ exchange i j l !!! j = l !!! i /\
     key (l !!! j) < key (l !!! i)).
Proof.
  intros Hi Hj Hij. unfold exchange. destruct (Z.ltb_spec (key (l !!! j)) (key (l !!! i))).
  - right. rewrite list_lookup_total_insert_eq by (rewrite length_insert; lia).
    rewrite list_lookup_total_insert_ne by done. by rewrite list_lookup_total_insert_eq.
  - by left.
Qed.

(** Positions before [i] are final, and position [i] has the least key of the
    positions from [i] up to [m]. *)
Definition pass_inv (i m : nat) (l : list P) : Prop :=
  (forall a b, (a < i)%nat -> (a < b < length l)%nat -> key (l !!! a) <= key (l !!! b)) /\
  (forall b, (i < b < m)%nat -> key (l !!! i) <= key (l !!! b)).

Lemma exchange_inv i m l :
  (i < m)%nat -> (m < length l)%nat -> pass_inv i m l -> pass_inv i (S m) (exchange i m l).
Proof.
  intros Hi Hm [H1 H2]. split.
  - intros a b Ha Hb. rewrite length_exchange in Hb.
    rewrite (exchange_ne _ _ _ a) by lia.
    destruct (exchange_cases i m l) as [(Ei & Ej & _)|(Ei & Ej & _)]; try lia;
      (destruct (decide (b = i)) as [->|]; [|destruct (decide (b = m)) as [->|]]);
      rewrite ?Ei, ?Ej, ?exchange_ne by done; apply H1; lia.
  - intros b Hb.
    destruct (exchange_cases i m l) as [(Ei & Ej & E)|(Ei & Ej & E)]; try lia;
      destruct (decide (b = m)) as [->|]; rewrite ?Ei, ?Ej, ?exchange_ne by lia; try lia.
    + apply H2; lia.
    + etransitivity; [apply Z.lt_le_incl, E|apply H2; lia].
Qed.

Lemma exchange_pass_inv i l : forall k m,
  (i < m)%nat -> (m + k = length l)%nat -> pass_inv i m l ->
  let l' := foldl (fun l j => exchange i j l) l (seq m k) in
  l' ≡ₚ l /\ pass_inv i (length l) l'.
Proof.
  intros k. revert l. induction k as [|k IH]; intros l m Hi Hm Hl; simpl.
  { split; [done|]. by replace (length l) with m by lia. }
  destruct (IH (exchange i m l) (S m)) as [Hp Hv]; rewrite ?length_exchange; try lia.
  { apply exchange_inv; [lia..|done]. }
  split; [|by rewrite length_exchange in Hv].
  rewrite Hp. apply exchange_perm; lia.
Qed.

Lemma exchange_sort_spec l :
  exchange_sort l ≡ₚ l /\
  forall a b, (a < b < length l)%nat ->
    key (exchange_sort l !!! a) <= key (exchange_sort l !!! b).
Proof.
  assert (forall k i l', (i + k = length l - 1)%nat -> length l' = length l ->
    pass_inv i (S i) l' ->
    let r := foldl (fun l' i => exchange_pass i (length l) l') l' (seq i k) in
    r ≡ₚ l' /\ pass_inv (length l - 1) (length l) r) as H.
  { induction k as [|k IH]; intros i l' Hi Hl Hv; simpl.
    { split; [done|]. replace (length l - 1)%nat with i by lia. destruct Hv as [H1 H2].
      split; [done|]. intros b Hb. apply H2. lia. }
    destruct (exchange_pass_inv i l' (length l - S i) (S i)) as [Hp [H1 H2]]; [lia..|done|].
    fold (exchange_pass i (length l) l') in Hp, H1, H2.
    pose proof (Permutation_length Hp) as Hlen.
    destruct (IH (S i) (exchange_pass i (length l) l')) as [Hp' Hv']; [lia..| |].
    { split; [|intros; lia]. intros a b Ha Hb.
      destruct (decide (a = i)) as [->|]; [apply H2|apply H1]; lia. }
    split; [by rewrite Hp'|done]. }
  destruct (H (length l - 1)%nat 0%nat l) as [Hp [H1 H2]]; [lia|done| |].
  { split; intros; lia. }
  fold (exchange_sort l) in Hp, H1, H2. split; [done|].
  intros a b Hab. apply H1; [lia|]. rewrite (Permutation_length Hp). lia.
Qed.
End Exchange.

(** ** The dispatch loop *)

(** A line the simulator prints while it runs. *)
Inductive event : Type :=
| Executed (id time remaining : Z)
| Completed (id time : Z).

(** The fields of a process the loop uses: the arrival time of its current
    job, and what the loop does to it when it runs for a unit and when its
    job is done. *)
Class Periodic (P : Type) := {
  pr_id : P -> Z;
  pr_exec : P -> Z;
  pr_arrival : P -> Z;
  pr_remaining : P -> Z;
  pr_unit : P -> P;
  pr_renew : P -> P;
  pr_unit_id p : pr_id (pr_unit p) = pr_id p;
  pr_unit_exec p : pr_exec (pr_unit p) = pr_exec p;
  pr_unit_arrival p : pr_arrival (pr_unit p) = pr_arrival p;
  pr_unit_remaining p : pr_remaining (pr_unit p) = pr_remaining p - 1;
  pr_renew_id p : pr_id (pr_renew p) = pr_id p;
  pr_renew_exec p : pr_exec (pr_renew p) = pr_exec p;
  pr_renew_remaining p : pr_remaining (pr_renew p) = pr_exec p }.

Create HintDb periodic.
#[export] Hint Rewrite @pr_unit_id @pr_unit_exec @pr_unit_arrival @pr_unit_remaining
  @pr_renew_id @pr_renew_exec @pr_renew_remaining : periodic.

(** The variables of [edf_scheduling] and [rms_scheduling], and the lines
    printed so far. *)
Record sim (P : Type) : Type := mk_sim {
  processes : list P;
  time : Z;
  waiting_time : Z;
  turnaround_time : Z;
  cpu_busy_time : Z;
  printed : list event }.
Arguments mk_sim {P}.
Arguments processes {P}.
Arguments time {P}.
Arguments waiting_time {P}.
Arguments turnaround_time {P}.
Arguments cpu_busy_time {P}.
Arguments printed {P}.

Section Dispatch.
Context {P : Type} `{!Inhabited P} `{!Periodic P}.

Definition ready (t : Z) (p : P) : bool := (pr_arrival p <=? t) && (0 <? pr_remaining p).

(** The body of the [if] in the loop over the processes, for process [i]. *)
Definition execute (i : nat) (p : P) (s : sim P) : sim P :=
  let p1 := pr_unit p in
  let t := time s + 1 in
  let out := printed s ++ [Executed (pr_id p) t (pr_remaining p1)] in
  if pr_remaining p1 =? 0 then
    mk_sim (<[i := pr_renew p1]> (processes s)) t
      (waiting_time s + (t - pr_arrival p1 - pr_exec p1))
      (turnaround_time s + (t - pr_arrival p1))
      (cpu_busy_time s + 1) (out ++ [Completed (pr_id p) t])
  else
    mk_sim (<[i := p1]> (processes s)) t (waiting_time s) (turnaround_time s)
      (cpu_busy_time s + 1) out.

(** One round of the [while] loop: the first ready process runs. *)
Definition slice (s : sim P) : sim P :=
  match list_find (fun p => ready (time s) p = true) (processes s) with
  | Some (i, p) => execute i p s
  | None => mk_sim (processes s) (time s + 1) (waiting_time s) (turnaround_time s)
              (cpu_busy_time s) (printed s)
  end.

(** [while (time < total_time)] with the given round; [None] is running out of
    fuel. *)
Fixpoint simulate (round : sim P -> sim P) (total_time : Z) (fuel : nat) (s : sim P)
    : option (sim P) :=
  if time s <? total_time then
    match fuel with
    | O => None
    | S fuel => simulate round total_time fuel (round s)
    end
  else Some s.

(** *** Termination *)

Lemma slice_time s : time (slice s) = time s + 1.
Proof. unfold slice, execute. by repeat case_match. Qed.

Lemma simulate_total round total : (forall s, time (round s) = time s + 1) ->
  forall fuel s, time s <= total -> (Z.to_nat (total - time s) <= fuel)%nat ->
  exists k, simulate round total fuel s = Some (Nat.iter k round s) /\
    time (Nat.iter k round s) = total.
Proof.
  intros Hr. induction fuel as [|fuel IH]; intros s Ht Hf; cbn [simulate];
    destruct (Z.ltb_spec (time s) total) as [Hlt|Hge]; try lia.
  - exists 0%nat. split; [done|simpl; lia].
  - destruct (IH (round s)) as (k & E & Hk); [rewrite Hr; lia..|].
    exists (S k). rewrite E, Nat.iter_succ_r. done.
  - exists 0%nat. split; [done|simpl; lia].
Qed.

(** *** What the totals count *)

Definition is_unit (id : Z) (e : event) : bool :=
  match e with Executed i _ _ => i =? id | Completed _ _ => false end.
Definition is_job (id : Z) (e : event) : bool :=
  match e with Completed i _ => i =? id | Executed _ _ _ => false end.

Definition units (id : Z) (tr : list event) : Z :=
  Z.of_nat (length (filter (fun e => is_unit id e = true) tr)).
Definition jobs (id : Z) (tr : list event) : Z :=
  Z.of_nat (length (filter (fun e => is_job id e = true) tr)).

Definition total (f : P -> Z) (ps : list P) : Z := foldr (fun p a => f p + a) 0 ps.

Lemma total_ext f g ps : (forall p, p ∈ ps -> f p = g p) -> total f ps = total g ps.
Proof.
  induction ps as [|p ps IH]; intros H; simpl; [done|].
  rewrite H by left. rewrite IH; [done|]. intros. apply H. by right.
Qed.

Lemma total_zero f ps : (forall p, f p = 0) -> total f ps = 0.
Proof. intros H. induction ps as [|p ps IH]; simpl; [done|]. by rewrite H, IH. Qed.

#[export] Instance total_Proper f : Proper ((≡ₚ) ==> (=)) (total f).
Proof. intros l k Hp. induction Hp; simpl in *; lia. Qed.

Lemma units_app id tr tr' : units id (tr ++ tr') = units id tr + units id tr'.
Proof. unfold units. rewrite filter_app, length_app. lia. Qed.

Lemma jobs_app id tr tr' : jobs id (tr ++ tr') = jobs id tr + jobs id tr'.
Proof. unfold jobs. rewrite filter_app, length_app. lia. Qed.

(** What the trace says of a process: the units it has run are its completed
    jobs and the part of its current one, and a job that has started has run
    in units after its arrival. *)
Definition proc_ok (t : Z) (tr : list event) (p : P) : Prop :=
  units (pr_id p) tr = pr_exec p * jobs (pr_id p) tr + (pr_exec p - pr_remaining p) /\
  pr_remaining p <= pr_exec p /\
  (pr_remaining p < pr_exec p -> pr_arrival p + (pr_exec p - pr_remaining p) <= t).

(** The totals agree with the trace. *)
Definition ledger (ps : list P) (s : sim P) : Prop :=
  NoDup (map pr_id ps) /\ Forall (proc_ok (time s) (printed s)) ps /\
  cpu_busy_time s = total (fun p => units (pr_id p) (printed s)) ps /\
  cpu_busy_time s <= time s /\ 0 <= waiting_time s /\
  turnaround_time s = waiting_time s + total (fun p => pr_exec p * jobs (pr_id p) (printed s)) ps.

Lemma ledger_perm l k s : l ≡ₚ k -> ledger l s -> ledger k s.
Proof.
  intros Hp (H1 & H2 & H3 & H4 & H5 & H6). unfold ledger.
  rewrite <- !(total_Proper _ _ _ Hp).
  split_and!; try done.
  - eapply NoDup_Permutation_proper; [|exact H1]. by apply Permutation_map, symmetry.
  - eapply Forall_Permutation; [reflexivity|symmetry; exact Hp|exact H2].
Qed.

(** The lines [execute] prints for a process with a given remaining time. *)
Definition run_events (id t rem : Z) : list event :=
  Executed id t rem :: (if rem =? 0 then [Completed id t] else []).

Lemma units_run id id' t rem :
  units id (run_events id' t rem) = if id' =? id then 1 else 0.
Proof.
  unfold units, run_events. rewrite filter_cons. simpl.
  destruct (id' =? id) eqn:E, (rem =? 0); simpl; done.
Qed.

Lemma jobs_run id id' t rem :
  jobs id (run_events id' t rem) = if (id' =? id) && (rem =? 0) then 1 else 0.
Proof.
  unfold jobs, run_events. rewrite filter_cons. simpl.
  destruct (rem =? 0), (id' =? id) eqn:E; simpl; rewrite ?filter_cons; simpl; rewrite ?E; done.
Qed.

(** The process after it ran for a unit. *)
Definition after_unit (p : P) : P :=
  if pr_remaining p =? 1 then pr_renew (pr_unit p) else pr_unit p.

Lemma execute_spec i p s :
  processes s !! i = Some p -> exists rest,
    processes s ≡ₚ p :: rest /\
    processes (execute i p s) ≡ₚ after_unit p :: rest /\
    time (execute i p s) = time s + 1 /\
    cpu_busy_time (execute i p s) = cpu_busy_time s + 1 /\
    printed (execute i p s) =
      printed s ++ run_events (pr_id p) (time s + 1) (pr_remaining p - 1) /\
    (if pr_remaining p =? 1
     then waiting_time (execute i p s) =
            waiting_time s + (time s + 1 - pr_arrival p - pr_exec p) /\
          turnaround_time (execute i p s) = turnaround_time s + (time s + 1 - pr_arrival p)
     else waiting_time (execute i p s) = waiting_time s /\
          turnaround_time (execute i p s) = turnaround_time s).
Proof.
  intros Hi. exists (delete i (processes s)).
  assert (forall q, <[i := q]> (processes s) ≡ₚ q :: delete i (processes s)) as Hins.
  { intros q. rewrite insert_take_drop, delete_take_drop by by eapply lookup_lt_Some.
    by rewrite Permutation_middle. }
  split; [by apply delete_Permutation|].
  unfold execute, after_unit, run_events. autorewrite with periodic.
  replace (pr_remaining p - 1 =? 0) with (pr_remaining p =? 1)
    by (destruct (Z.eqb_spec (pr_remaining p) 1), (Z.eqb_spec (pr_remaining p - 1) 0); lia).
  destruct (pr_remaining p =? 1); cbn -[insert]; rewrite <- ?app_assoc; done.
Qed.

(** Processes other than the one that runs keep their account. *)
Lemma proc_ok_other t tr p q t' rem :
  pr_id q <> pr_id p -> proc_ok t tr q ->
  proc_ok (t + 1) (tr ++ run_events (pr_id p) t' rem) q.
Proof.
  intros Hne (H1 & H2 & H3). apply not_eq_sym, Z.eqb_neq in Hne.
  unfold proc_ok. rewrite units_app, jobs_app, units_run, jobs_run, Hne. simpl.
  split_and!; [lia..|]. intros. etransitivity; [by apply H3|lia].
Qed.

Lemma proc_ok_run t tr p :
  ready t p = true -> proc_ok t tr p ->
  proc_ok (t + 1) (tr ++ run_events (pr_id p) (t + 1) (pr_remaining p - 1)) (after_unit p) /\
  (pr_remaining p = 1 -> pr_arrival p + pr_exec p <= t + 1).
Proof.
  intros Hr (H1 & H2 & H3). apply andb_true_iff in Hr as [Ha%Z.leb_le Hm%Z.ltb_lt].
  unfold proc_ok, after_unit.
  destruct (Z.eqb_spec (pr_remaining p) 1) as [E|E]; autorewrite with periodic;
    rewrite units_app, jobs_app, units_run, jobs_run, Z.eqb_refl.
  - rewrite E. simpl. destruct (decide (pr_remaining p < pr_exec p)) as [Hlt|];
      [specialize (H3 Hlt)|]; split_and!; lia.
  - rewrite (proj2 (Z.eqb_neq (pr_remaining p - 1) 0)) by lia. simpl.
    split; [|lia]. split_and!; [lia..|]. intros _.
    destruct (decide (pr_remaining p < pr_exec p)) as [Hlt|]; [specialize (H3 Hlt)|]; lia.
Qed.

Lemma after_unit_id p : pr_id (after_unit p) = pr_id p.
Proof. unfold after_unit. case_match; by autorewrite with periodic. Qed.

Lemma after_unit_exec p : pr_exec (after_unit p) = pr_exec p.
Proof. unfold after_unit. case_match; by autorewrite with periodic. Qed.

Lemma ledger_execute i p s :
  ready (time s) p = true -> processes s !! i = Some p ->
  ledger (processes s) s -> ledger (processes (execute i p s)) (execute i p s).
Proof.
  intros Hr Hi Hl.
  destruct (execute_spec i p s Hi) as (rest & E1 & E2 & Et & Eb & Ep & Ew).
  apply (ledger_perm _ _ _ E1) in Hl. eapply ledger_perm; [symmetry; exact E2|].
  destruct Hl as (Hnd & Hok & Hb & Hbt & Hw & Ht). simpl in Hnd, Hb, Ht.
  apply NoDup_cons in Hnd as [Hni Hnd]. apply Forall_cons in Hok as [Hp Hok].
  destruct (proc_ok_run _ _ _ Hr Hp) as [Hp' Har].
  assert (forall q, q ∈ rest -> pr_id q <> pr_id p) as Hne.
  { intros q Hq E. apply Hni. rewrite <- E. by apply list_elem_of_fmap_2. }
  assert (forall q, q ∈ rest -> (pr_id p =? pr_id q) = false) as Heq.
  { intros q Hq. by apply Z.eqb_neq, not_eq_sym, Hne. }
  unfold ledger. rewrite Et, Eb, Ep. simpl.
  rewrite !after_unit_id, !after_unit_exec, units_app, jobs_app, units_run, jobs_run, Z.eqb_refl.
  rewrite (total_ext (fun q => units _ _) (fun q => units (pr_id q) (printed s))) by
    (intros q Hq; rewrite units_app, units_run, (Heq q Hq); lia).
  rewrite (total_ext (fun q => _ * jobs _ _) (fun q => pr_exec q * jobs (pr_id q) (printed s))) by
    (intros q Hq; rewrite jobs_app, jobs_run, (Heq q Hq); simpl; lia).
  replace (pr_remaining p - 1 =? 0) with (pr_remaining p =? 1)
    by (destruct (Z.eqb_spec (pr_remaining p) 1), (Z.eqb_spec (pr_remaining p - 1) 0); lia).
  split_and!; [by apply NoDup_cons| |lia..| |].
  - constructor; [done|]. apply Forall_forall. intros q Hq.
    apply proc_ok_other; [by apply Hne|]. eapply Forall_forall in Hok; done.
  - destruct (Z.eqb_spec (pr_remaining p) 1) as [E|]; destruct Ew as [-> _]; [|done].
    specialize (Har E). lia.
  - destruct (Z.eqb_spec (pr_remaining p) 1); destruct Ew as [-> ->]; simpl; lia.
Qed.

Lemma slice_cases s :
  (exists i p, processes s !! i = Some p /\ ready (time s) p = true /\ slice s = execute i p s /\
     forall j q, (j < i)%nat -> processes s !! j = Some q -> ready (time s) q = false) \/
  ((forall p, p ∈ processes s -> ready (time s) p = false) /\
   slice s = mk_sim (processes s) (time s + 1) (waiting_time s) (turnaround_time s)
              (cpu_busy_time s) (printed s)).
Proof.
  unfold slice. destruct (list_find _ _) as [[i p]|] eqn:E.
  - left. apply list_find_Some in E as (Hi & Hr & Hj). exists i, p. split_and!; try done.
    intros j q Hlt Hq. apply not_true_is_false. by eapply Hj.
  - right. split; [|done]. intros p Hp. apply not_true_is_false.
    apply list_find_None in E. rewrite Forall_forall in E. by apply E.
Qed.

Lemma ledger_slice s : ledger (processes s) s -> ledger (processes (slice s)) (slice s).
Proof.
  intros Hl. destruct (slice_cases s) as [(i & p & Hi & Hr & -> & _)|[_ ->]].
  { by apply ledger_execute. }
  destruct Hl as (H1 & H2 & H3 & H4 & H5 & H6). split_and!; simpl; try done; try lia.
  eapply Forall_impl; [exact H2|]. intros p (? & ? & Hs). split_and!; try done.
  intros Hlt. specialize (Hs Hlt). lia.
Qed.

(** The process of least key among the ready ones runs for one unit, or, when
    none is ready, the processor idles. *)
Definition runs_least (key : P -> Z) (s s' : sim P) : Prop :=
  time s' = time s + 1 /\
  ((exists p rest, processes s ≡ₚ p :: rest /\ processes s' ≡ₚ after_unit p :: rest /\
      ready (time s) p = true /\
      (forall q, q ∈ processes s -> ready (time s) q = true -> key p <= key q) /\
      printed s' = printed s ++ run_events (pr_id p) (time s') (pr_remaining p - 1) /\
      cpu_busy_time s' = cpu_busy_time s + 1) \/
   ((forall q, q ∈ processes s -> ready (time s) q = false) /\
    processes s' ≡ₚ processes s /\ printed s' = printed s /\
    cpu_busy_time s' = cpu_busy_time s)).

Lemma slice_runs_least (key : P -> Z) s :
  (forall a b, (a < b < length (processes s))%nat ->
     key (processes s !!! a) <= key (processes s !!! b)) ->
  runs_least key s (slice s).
Proof.
  intros Hs. split; [apply slice_time|].
  destruct (slice_cases s) as [(i & p & Hi & Hr & -> & Hj)|[Hn ->]]; [left|by right].
  destruct (execute_spec i p s Hi) as (rest & E1 & E2 & Et & Eb & Ep & _).
  exists p, rest. rewrite Et. split_and!; try done.
  intros q Hq Hrq. apply list_elem_of_lookup_1 in Hq as [j Hq].
  destruct (decide (j < i)%nat) as [Hlt|Hge]; [rewrite (Hj j q) in Hrq; done|].
  destruct (decide (j = i)) as [->|Hne]; [simplify_eq; done|].
  specialize (Hs i j). rewrite !(list_lookup_total_correct _ _ _ Hi),
    !(list_lookup_total_correct _ _ _ Hq) in Hs. apply Hs.
  apply lookup_lt_Some in Hq. lia.
Qed.

(** At the start nothing has run. *)
Definition start (ps : list P) : sim P := mk_sim ps 0 0 0 0 [].

Lemma ledger_start ps :
  NoDup (map pr_id ps) -> Forall (fun p => pr_remaining p = pr_exec p) ps ->
  ledger ps (start ps).
Proof.
  intros Hnd Hr. split_and!; simpl; try done.
  - eapply Forall_impl; [exact Hr|]. intros p E. unfold proc_ok, units, jobs. simpl in *. lia.
  - by rewrite total_zero.
  - rewrite total_zero; [done|]. intros p. unfold jobs. simpl. lia.
Qed.

Lemma map_id_perm (l k : list P) : l ≡ₚ k -> map pr_id l ≡ₚ map pr_id k.
Proof. apply Permutation_map. Qed.

Lemma slice_ids s : map pr_id (processes (slice s)) ≡ₚ map pr_id (processes s).
Proof.
  destruct (slice_cases s) as [(i & p & Hi & _ & -> & _)|[_ ->]]; [|done].
  destruct (execute_spec i p s Hi) as (rest & E1 & E2 & _).
  rewrite (map_id_perm _ _ E2), (map_id_perm _ _ E1). simpl. by rewrite after_unit_id.
Qed.

Lemma simulate_ledger round total ps :
  (forall s, time (round s) = time s + 1) ->
  (forall s, map pr_id (processes (round s)) ≡ₚ map pr_id (processes s) /\
     (ledger (processes s) s -> ledger (processes (round s)) (round s))) ->
  NoDup (map pr_id ps) -> Forall (fun p => pr_remaining p = pr_exec p) ps ->
  exists s, simulate round total (Z.to_nat total) (start ps) = Some s /\
    time s = Z.max 0 total /\ map pr_id (processes s) ≡ₚ map pr_id ps /\
    ledger (processes s) s.
Proof.
  intros Ht Hr Hnd H0.
  assert (forall k, let s := Nat.iter k round (start ps) in
    map pr_id (processes s) ≡ₚ map pr_id ps /\ ledger (processes s) s) as Hk.
  { induction k as [|k [IH1 IH2]]; simpl; [split; [done|by apply ledger_start]|].
    destruct (Hr (Nat.iter k round (start ps))) as [E Hl]. split; [by rewrite E|by apply Hl]. }
  destruct (decide (0 <= total)) as [Hle|Hgt].
  - destruct (simulate_total round total Ht (Z.to_nat total) (start ps)) as (k & E & Hf);
      [simpl; lia..|].
    exists (Nat.iter k round (start ps)). split; [done|]. split; [lia|apply Hk].
  - exists (start ps). split_and!; [|simpl; lia|apply (Hk 0%nat)..].
    replace (Z.to_nat total) with 0%nat by lia. cbn [simulate].
    destruct (Z.ltb_spec (time (start ps)) total); [simpl in *; lia|done].
Qed.

(** [main] numbers the processes from 1. *)
Definition numbered {X} (mk : Z -> X -> P) (inputs : list X) : list P :=
  imap (fun i x => mk (Z.of_nat i + 1) x) inputs.

Lemma numbered_spec {X} (mk : Z -> X -> P) (inputs : list X) :
  (forall i x, pr_id (mk i x) = i) ->
  (forall i x, pr_remaining (mk i x) = pr_exec (mk i x)) ->
  NoDup (map pr_id (numbered mk inputs)) /\
  Forall (fun p => pr_remaining p = pr_exec p) (numbered mk inputs).
Proof.
  intros Hi Hr. unfold numbered. split.
  - apply NoDup_alt. intros a b z Ha Hb.
    rewrite list_lookup_fmap, list_lookup_imap in Ha, Hb.
    destruct (inputs !! a); [|done]. destruct (inputs !! b); [|done]. simpl in Ha, Hb.
    rewrite Hi in Ha, Hb. congruence || (injection Ha; injection Hb; lia).
  - apply Forall_forall. intros p Hp. apply elem_of_lookup_imap in Hp as (i & x & -> & _).
    apply Hr.
Qed.

(** The averages of the waiting and turnaround times, and the share of the
    time the processor was busy, as the simulators print them at the end. *)
Definition averages (s : sim P) (n total_time : Z) : spec_float * spec_float * spec_float :=
  (Float.div (Float.of_int (waiting_time s)) (Float.of_int n),
   Float.div (Float.of_int (turnaround_time s)) (Float.of_int n),
   Float.mul (Float.div (Float.of_int (cpu_busy_time s)) (Float.of_int total_time)) (Float.of_int 100)).
End Dispatch.

Definition MAX_PROCESSES : Z := 100.

(** ** edf_premption.c *)

Module Edf.

Record Process : Type := mk_Process {
  id : Z;
  execution_time : Z;
  deadline : Z;
  arrival_time : Z;
  remaining_time : Z;
  period : Z;
  next_deadline : Z;
  utilization : spec_float }.

#[export] Instance Process_inhabited : Inhabited Process :=
  populate (mk_Process 0 0 0 0 0 0 0 (S754_zero false)).

#[export] Program Instance Process_periodic : Periodic Process := {|
  pr_id := id; pr_exec := execution_time; pr_arrival := arrival_time;
  pr_remaining := remaining_time;
  pr_unit := fun p => mk_Process (id p) (execution_time p) (deadline p) (arrival_time p)
    (remaining_time p - 1) (period p) (next_deadline p) (utilization p);
  pr_renew := fun p => mk_Process (id p) (execution_time p) (deadline p)
    (arrival_time p + period p) (execution_time p) (period p)
    (next_deadline p + period p) (utilization p) |}.
Solve All Obligations with done.

Definition sort_by_deadline : list Process -> list Process := exchange_sort next_deadline.

Definition reset_deadline (p : Process) : Process :=
  mk_Process (id p) (execution_time p) (deadline p) (arrival_time p) (remaining_time p)
    (period p) (deadline p) (utilization p).

(** One round of the [while] loop. *)
Definition edf_round (s : sim Process) : sim Process :=
  slice (mk_sim (sort_by_deadline (processes s)) (time s) (waiting_time s)
    (turnaround_time s) (cpu_busy_time s) (printed s)).

Definition edf_scheduling (ps : list Process) (total_time : Z) : option (sim Process) :=
  simulate edf_round total_time (Z.to_nat total_time) (start (map reset_deadline ps)).

(** What [main] makes of the numbers typed for a process: execution time,
    deadline, arrival time and period. *)
Definition edf_process (i : Z) (x : Z * Z * Z * Z) : Process :=
  let '(e, d, a, t) := x in mk_Process i e d a e t d (Double.div (Double.of_int e) (Double.of_int t)).

(** The sum [main] makes of the utilizations, in the order of the processes. *)
Definition total_utilization (ps : list Process) : spec_float :=
  foldl (fun u p => Double.add u (utilization p)) (S754_zero false) ps.

(** What a run of [main] comes to: it refuses the number of processes; or it
    prints the utilizations and their sum, and then either the warning or the
    run and its averages. *)
Inductive edf_result : Type :=
| Edf_exceeds
| Edf_not_met (us : list spec_float) (u : spec_float)
| Edf_ran (us : list spec_float) (u : spec_float) (s : sim Process) (av : spec_float * spec_float * spec_float).

(** [main] on the numbers typed; [None] is running out of fuel. *)
Definition edf_main (n total_time : Z) (typed : nat -> Z * Z * Z * Z) : option edf_result :=
  if MAX_PROCESSES <? n then Some Edf_exceeds else
  let ps := numbered edf_process (map typed (seq 0 (Z.to_nat n))) in
  let u := total_utilization ps in
  if SFleb u (Double.of_int 1) then
    match edf_scheduling ps total_time with
    | Some s => Some (Edf_ran (map utilization ps) u s (averages s n total_time))
    | None => None
    end
  else Some (Edf_not_met (map utilization ps) u).

Lemma edf_round_time s : time (edf_round s) = time s + 1.
Proof. unfold edf_round. by rewrite slice_time. Qed.

Lemma edf_round_ids s : map id (processes (edf_round s)) ≡ₚ map id (processes s).
Proof.
  etransitivity; [exact (slice_ids _)|]. apply Permutation_map, exchange_sort_spec.
Qed.

Lemma edf_round_ledger s :
  ledger (processes s) s -> ledger (processes (edf_round s)) (edf_round s).
Proof.
  intros Hl. unfold edf_round. apply ledger_slice. simpl.
  apply (ledger_perm (processes s)); [symmetry; apply exchange_sort_spec|exact Hl].
Qed.

(** [sort_by_deadline] sorts: the result is a permutation of the array in
    order of next deadline. *)
Theorem sort_by_deadline_sorts ps :
  sort_by_deadline ps ≡ₚ ps /\
  forall a b, (a < b < length ps)%nat ->
    next_deadline (sort_by_deadline ps !!! a) <= next_deadline (sort_by_deadline ps !!! b).
Proof. apply exchange_sort_spec. Qed.

(** C10: in every round of [edf_scheduling] time advances by one unit, and the
    process that runs in it is one of earliest next deadline among those that
    have arrived and have work left; the processor idles only when there is
    none (the schedule is preemptive and work-conserving). *)
Theorem edf_runs_earliest s : runs_least next_deadline s (edf_round s).
Proof.
  pose proof (exchange_sort_spec next_deadline (processes s)) as [Hp Hs].
  fold (sort_by_deadline (processes s)) in Hp, Hs.
  destruct (slice_runs_least next_deadline (mk_sim (sort_by_deadline (processes s)) (time s)
    (waiting_time s) (turnaround_time s) (cpu_busy_time s) (printed s))) as [Ht H].
  { simpl. rewrite (Permutation_length Hp). exact Hs. }
  split; [exact Ht|]. fold (edf_round s) in Ht, H. simpl in H.
  setoid_rewrite Hp in H. exact H.
Qed.

(** [edf_scheduling] terminates at [total_time], for any numbers typed, and
    its totals are right: each process has run for exactly its completed jobs
    and the part of the current one, the busy time is the sum of the units
    run and at most the total time, no waiting time is negative and the
    turnaround time exceeds it by the work of the completed jobs. *)
Theorem edf_scheduling_accounts inputs total_time :
  let ps := numbered edf_process inputs in
  exists s, edf_scheduling ps total_time = Some s /\ time s = Z.max 0 total_time /\
    map id (processes s) ≡ₚ map id ps /\ ledger (processes s) s.
Proof.
  intros ps.
  destruct (numbered_spec edf_process inputs) as [Hnd Hr]; [by intros ? [[[]]]..|].
  destruct (simulate_ledger edf_round total_time (map reset_deadline ps)) as (s & E & H);
    [apply edf_round_time| | | |].
  - intros s. split; [apply edf_round_ids|apply edf_round_ledger].
  - by rewrite map_map.
  - by rewrite Forall_map.
  - exists s. split; [done|]. rewrite map_map in H. done.
Qed.

(** [main] always ends: with the refusal, the warning, or a run up to the total
    time whose totals are right. *)
Theorem edf_main_ends n total_time typed :
  exists r, edf_main n total_time typed = Some r /\
    match r with
    | Edf_ran _ _ s av => time s = Z.max 0 total_time /\ ledger (processes s) s /\ av = averages s n total_time
    | _ => True
    end.
Proof.
  unfold edf_main. destruct (MAX_PROCESSES <? n); [by eexists|]. destruct (SFleb _ _); [|by eexists].
  destruct (edf_scheduling_accounts (map typed (seq 0 (Z.to_nat n))) total_time) as (s & -> & Ht & _ & Hl). by eexists.
Qed.

Lemma total_utilization_app ps qs :
  total_utilization (ps ++ qs) = foldl (fun u p => Double.add u (utilization p)) (total_utilization ps) qs.
Proof. apply foldl_app. Qed.

Lemma total_plus ps : Forall (fun p => plus (utilization p) = true) ps -> plus (total_utilization ps) = true.
Proof.
  induction ps as [|p ps IH] using rev_ind; [done|]. intros [Hps [Hp _]%Forall_cons]%Forall_app.
  rewrite total_utilization_app. apply add_plus; [by apply IH|done].
Qed.

Lemma total_wild ps : Exists (fun p => wild (utilization p) = true) ps -> wild (total_utilization ps) = true.
Proof.
  induction ps as [|p ps IH] using rev_ind; [by intros ?%Exists_nil|]. intros He. rewrite total_utilization_app.
  apply add_wild. apply Exists_app in He as [He|He]; [left; by apply IH|right]. by apply Exists_cons in He as [|?%Exists_nil].
Qed.

(** A process whose period is 0, which would be due again at once for ever, is
    never admitted: its utilization is infinite or not a number, and so is the
    sum. *)
Theorem edf_zero_period n total_time typed i :
  0 <= n <= MAX_PROCESSES -> (i < Z.to_nat n)%nat ->
  (forall j, (j < Z.to_nat n)%nat -> let '(e, _, _, t) := typed j in 0 <= e /\ 0 <= t) ->
  (typed i).2 = 0 ->
  exists us u, edf_main n total_time typed = Some (Edf_not_met us u) /\ wild u = true.
Proof.
  intros Hn Hi Hpos Hz. unfold edf_main. rewrite (proj2 (Z.ltb_ge _ _)) by lia.
  set (ps := numbered _ _).
  assert (forall j, (j < Z.to_nat n)%nat -> ps !! j = Some (edf_process (Z.of_nat j + 1) (typed j))) as Hps.
  { intros j Hj. unfold ps, numbered. rewrite list_lookup_imap, list_lookup_fmap, lookup_seq_lt by done. reflexivity. }
  assert (length ps = Z.to_nat n) as Hlen by (unfold ps, numbered; by rewrite length_imap, length_map, length_seq).
  assert (wild (total_utilization ps) = true) as Hw.
  { apply total_wild, Exists_exists. eexists. split; [by eapply list_elem_of_lookup_2, (Hps i)|].
    destruct (typed i) as [[[e d] a] t]. cbn in Hz. subst t. apply div_zero_wild. }
  change (Double.of_int 1) with (S754_finite false (2 ^ 52) (-52)).
  rewrite (wild_not_le (total_utilization ps)); [by eexists _, _| |done].
  apply total_plus, Forall_lookup. intros j p Hj. assert (j < Z.to_nat n)%nat as Hlt by (rewrite <- Hlen; by eapply lookup_lt_Some).
  rewrite Hps in Hj by done. injection Hj as <-. specialize (Hpos j Hlt). destruct (typed j) as [[[e d] a] t].
  apply div_plus; apply normalize_plus; lia.
Qed.

Lemma edf_zero_period_witness : exists us u, edf_main 2 10 (fun j => (1, 4, 0, if decide (j = 1)%nat then 0 else 4)) =
  Some (Edf_not_met us u) /\ wild u = true.
Proof.
  apply (edf_zero_period 2 10 (fun j => (1, 4, 0, if decide (j = 1)%nat then 0 else 4)) 1).
  - unfold MAX_PROCESSES. lia.
  - simpl. lia.
  - intros j _. case_decide; lia.
  - reflexivity.
Defined.

(** The jobs done by a given time. *)
Definition done_by (t : Z) (tr : list event) (id : Z) : Z :=
  Z.of_nat (length (filter (fun e => match e with Completed i t' => (i =? id) && (t' <=? t) | Executed _ _ _ => false end = true) tr)).

(** A set of processes whose utilization is exactly 1 and that the scheduler
    runs without missing a deadline is turned down: nine processes of one unit
    in every nine.  The sum of the rounded utilizations is more than 1. *)
Theorem edf_turns_down_full :
  let typed := (fun _ : nat => (1, 9, 0, 9)) in
  (exists us u, edf_main 9 27 typed = Some (Edf_not_met us u)) /\
  exists s, edf_scheduling (numbered edf_process (map typed (seq 0 9))) 27 = Some s /\
    forall k i, 1 <= k <= 3 -> 1 <= i <= 9 -> done_by (9 * k) (printed s) i = k.
Proof.
  split; [eexists _, _; vm_compute; reflexivity|]. eexists. split; [vm_compute; reflexivity|].
  intros k i Hk Hi. assert (k = 1 \/ k = 2 \/ k = 3) as Hk' by lia. clear Hk.
  assert (i = 1 \/ i = 2 \/ i = 3 \/ i = 4 \/ i = 5 \/ i = 6 \/ i = 7 \/ i = 8 \/ i = 9) as Hi' by lia. clear Hi.
  destruct_or! Hk'; destruct_or! Hi'; subst; reflexivity.
Qed.
End Edf.

(** ** rms_premption.c *)

Module Rms.

Record Process : Type := mk_Process {
  id : Z;
  execution_time : Z;
  period : Z;
  arrival_time : Z;
  remaining_time : Z;
  next_arrival_time : Z }.

#[export] Instance Process_inhabited : Inhabited Process := populate (mk_Process 0 0 0 0 0 0).

#[export] Program Instance Process_periodic : Periodic Process := {|
  pr_id := id; pr_exec := execution_time; pr_arrival := next_arrival_time;
  pr_remaining := remaining_time;
  pr_unit := fun p => mk_Process (id p) (execution_time p) (period p) (arrival_time p)
    (remaining_time p - 1) (next_arrival_time p);
  pr_renew := fun p => mk_Process (id p) (execution_time p) (period p) (arrival_time p)
    (execution_time p) (next_arrival_time p + period p) |}.
Solve All Obligations with done.

Definition sort_by_period : list Process -> list Process := exchange_sort period.

Definition reset (p : Process) : Process :=
  mk_Process (id p) (execution_time p) (period p) (arrival_time p) (execution_time p)
    (arrival_time p).

(** The variables when the [while] loop starts. *)
Definition rms_start (ps : list Process) : sim Process :=
  start (sort_by_period (map reset ps)).

(** The lines of [display_priority_order]: rank, process and period. *)
Definition display_priority_order (ps : list Process) : list (Z * Z * Z) :=
  imap (fun i p => (Z.of_nat i + 1, id p, period p)) ps.

Definition rms_scheduling (ps : list Process) (total_time : Z)
    : list (Z * Z * Z) * option (sim Process) :=
  let s := rms_start ps in
  (display_priority_order (processes s), simulate slice total_time (Z.to_nat total_time) s).

(** What [main] makes of the numbers typed for a process: execution time,
    period and arrival time. *)
Definition rms_process (i : Z) (x : Z * Z * Z) : Process :=
  let '(e, t, a) := x in mk_Process i e t a e a.

Section Main.
(** [pow] of math.h. *)
Context (pow : spec_float -> spec_float -> spec_float).

(** [n * (pow(2, 1.0 / (float)n) - 1)], rounded to [float] *)
Definition rms_bound (n : Z) : spec_float :=
  float_of_double
    (Double.mul (Double.of_int n)
      (Double.sub (pow (Double.of_int 2) (Double.div (Double.of_int 1) (double_of_float (Float.of_int n)))) (Double.of_int 1))).

Definition total_utilization (ps : list Process) : spec_float :=
  foldl (fun u p => Float.add u (Float.div (Float.of_int (execution_time p)) (Float.of_int (period p)))) (S754_zero false) ps.

(** The sum that is printed, and the result. *)
Definition check_rms_schedulability (ps : list Process) (n : Z) : spec_float * bool :=
  let u := total_utilization ps in
  (u, negb (SFltb (rms_bound n) u)).

Inductive rms_result : Type :=
| Rms_exceeds
| Rms_not_schedulable (u : spec_float)
| Rms_ran (u : spec_float) (order : list (Z * Z * Z)) (s : sim Process) (av : spec_float * spec_float * spec_float).

Definition rms_main (n total_time : Z) (typed : nat -> Z * Z * Z) : option rms_result :=
  if MAX_PROCESSES <? n then Some Rms_exceeds else
  let ps := numbered rms_process (map typed (seq 0 (Z.to_nat n))) in
  let c := check_rms_schedulability ps n in
  if c.2 then
    match rms_scheduling ps total_time with
    | (order, Some s) => Some (Rms_ran c.1 order s (averages s n total_time))
    | (_, None) => None
    end
  else Some (Rms_not_schedulable c.1).
End Main.

(** No round changes the order of the periods. *)
Lemma slice_periods s : map period (processes (slice s)) = map period (processes s).
Proof.
  destruct (slice_cases s) as [(i & p & Hi & _ & -> & _)|[_ ->]]; [|done].
  unfold execute. case_match; cbn [processes]; apply list_eq; intros j;
    rewrite !list_lookup_fmap; destruct (decide (j = i)) as [->|];
    rewrite ?list_lookup_insert_ne by done; try done;
    (rewrite list_lookup_insert_eq by (by eapply lookup_lt_Some)); by rewrite Hi.
Qed.

Lemma periods_sorted ps k a b :
  let s := Nat.iter k slice (rms_start ps) in
  (a < b < length (processes s))%nat ->
  period (processes s !!! a) <= period (processes s !!! b).
Proof.
  intros s Hab.
  assert (map period (processes s) = map period (processes (rms_start ps))) as E.
  { subst s. clear Hab. induction k as [|k IH]; [done|]. simpl. by rewrite slice_periods. }
  assert (forall l i, (i < length l)%nat -> period (l !!! i) = map period l !!! i) as Hm.
  { intros l i Hi. symmetry. by apply list_lookup_total_fmap. }
  pose proof (f_equal length E) as El. rewrite !length_map in El.
  rewrite !Hm, E, <- !Hm by lia. simpl. simpl in El.
  apply exchange_sort_spec. rewrite <- (Permutation_length (proj1 (exchange_sort_spec period _))).
  unfold sort_by_period in El. lia.
Qed.

(** Rate monotonic priorities: in every round of [rms_scheduling] the
    process that runs has the shortest period among those that have arrived
    and have work left, and the processor idles only when there is none. *)
Theorem rms_runs_highest_rate ps k :
  let s := Nat.iter k slice (rms_start ps) in runs_least period s (slice s).
Proof. intros s. apply slice_runs_least. apply periods_sorted. Qed.

(** [rms_scheduling] terminates at [total_time] with totals that agree with
    what it printed, for any numbers typed. *)
Theorem rms_scheduling_accounts inputs total_time :
  let ps := numbered rms_process inputs in
  exists s, (rms_scheduling ps total_time).2 = Some s /\ time s = Z.max 0 total_time /\
    map id (processes s) ≡ₚ map id ps /\ ledger (processes s) s.
Proof.
  intros ps.
  destruct (numbered_spec rms_process inputs) as [Hnd Hr]; [by intros ? [[]]..|].
  pose proof (proj1 (exchange_sort_spec period (map reset ps))) as Hp.
  fold (sort_by_period (map reset ps)) in Hp.
  assert (map id (sort_by_period (map reset ps)) ≡ₚ map id ps) as Hids.
  { etransitivity; [by apply Permutation_map|]. by rewrite map_map. }
  destruct (simulate_ledger slice total_time (sort_by_period (map reset ps)))
    as (s & E & Ht & H & Hl); [apply slice_time| | | |].
  - intros s. split; [apply slice_ids|apply ledger_slice].
  - eapply NoDup_Permutation_proper; [exact Hids|exact Hnd].
  - apply Forall_forall. intros p Hin. rewrite Hp in Hin.
    by apply list_elem_of_fmap in Hin as (q & -> & _).
  - exists s. split; [done|]. split; [done|]. split; [|done]. by rewrite <- Hids.
Qed.

(** [main] always ends: with the refusal, the message, or a run up to the total
    time whose totals are right. *)
Theorem rms_main_ends pow n total_time typed :
  exists r, rms_main pow n total_time typed = Some r /\
    match r with
    | Rms_ran _ _ s av => time s = Z.max 0 total_time /\ ledger (processes s) s /\ av = averages s n total_time
    | _ => True
    end.
Proof.
  unfold rms_main. destruct (MAX_PROCESSES <? n); [by eexists|]. destruct (check_rms_schedulability _ _ _).2; [|by eexists].
  destruct (rms_scheduling_accounts (map typed (seq 0 (Z.to_nat n))) total_time) as (s & E & Ht & _ & Hl).
  destruct (rms_scheduling _ _) as [order [s'|]]; cbn in E; [|done]. injection E as ->. by eexists.
Qed.

(** The square root of 2 as a [double], 6369051672525773 / 2 ^ 52. *)
Definition sqrt2 : spec_float := S754_finite false 6369051672525773 (-52).

(** The bound is enough but not necessary: two processes of one unit in every
    two and two in every four are called not schedulable, and the scheduler
    that is then not started would do both on time. *)
Theorem rms_turns_down_harmonic pow : pow (Double.of_int 2) (Double.div (Double.of_int 1) (Double.of_int 2)) = sqrt2 ->
  let typed := (fun i : nat => if decide (i = 0%nat) then (1, 2, 0) else (2, 4, 0)) in
  (exists u, rms_main pow 2 8 typed = Some (Rms_not_schedulable u)) /\
  exists s, (rms_scheduling (numbered rms_process (map typed (seq 0 2))) 8).2 = Some s /\
    (forall k, 1 <= k <= 4 -> Edf.done_by (2 * k) (printed s) 1 = k) /\
    forall k, 1 <= k <= 2 -> Edf.done_by (4 * k) (printed s) 2 = k.
Proof.
  intros Hpow typed. split.
  - eexists. unfold rms_main, check_rms_schedulability, rms_bound.
    replace (double_of_float (Float.of_int 2)) with (Double.of_int 2) by reflexivity. rewrite Hpow. vm_compute. reflexivity.
  - eexists. split; [vm_compute; reflexivity|].
    split; intros k Hk; assert (k = 1 \/ k = 2 \/ k = 3 \/ k = 4) as Hk' by lia; destruct_or! Hk'; subst; first [reflexivity|lia].
Qed.

Lemma rms_turns_down_harmonic_witness : exists u,
  rms_main (fun _ _ => sqrt2) 2 8 (fun i => if decide (i = 0%nat) then (1, 2, 0) else (2, 4, 0)) = Some (Rms_not_schedulable u).
Proof. apply (rms_turns_down_harmonic (fun _ _ => sqrt2)). reflexivity. Defined.
End Rms.
