(* ===== verification/Lottery.v ===== *)
(** The user-level lottery scheduling simulator, lottery_sch_premption.c.

    Every time slice draws a ticket and runs the task whose range of tickets
    holds it.  The results of [rand] are an argument of the model: a sequence
    of numbers, one per call, of which the program uses only that they are not
    negative.  As in the other simulators an [int] is an integer, and [sleep]
    is left out. *)

From stdpp Require Import base list.
From Stdlib Require Import ZArith Lia.
From S2P Require Import Prelude.

Open Scope Z_scope.

Record Task : Type := mk_Task {
  id : Z;
  burst_time : Z;
  remaining_time : Z;
  tickets : Z;
  ticket_start : Z;
  ticket_end : Z }.

#[export] Instance Task_inhabited : Inhabited Task := populate (mk_Task 0 0 0 0 0 0).

Definition set_range (a b : Z) (t : Task) : Task :=
  mk_Task (id t) (burst_time t) (remaining_time t) (tickets t) a b.
Definition set_work (r k : Z) (t : Task) : Task :=
  mk_Task (id t) (burst_time t) r k (ticket_start t) (ticket_end t).

(** A line the simulator prints. *)
Inductive event : Type :=
| Winning (ticket total : Z)
| Executing (time id tickets lo hi : Z)
| TaskCompleted (time id : Z)
| AllCompleted (time : Z).

Definition live (t : Task) : bool := 0 <? remaining_time t.

(** The loop of [allocate_ticket_ranges] with its counter. *)
Fixpoint allocate_from (ticket_counter : Z) (tasks : list Task) : list Task :=
  match tasks with
  | [] => []
  | t :: tasks =>
    if live t then
      set_range ticket_counter (ticket_counter + tickets t - 1) t ::
      allocate_from (ticket_counter + tickets t) tasks
    else set_range 0 0 t :: allocate_from ticket_counter tasks
  end.

Definition allocate_ticket_ranges (tasks : list Task) : list Task := allocate_from 1 tasks.

Definition calculate_total_tickets (tasks : list Task) : Z :=
  foldl (fun total t => if live t then total + tickets t else total) 0 tasks.

Definition pick_winning_ticket (rand total_tickets : Z) : Z := Z.rem rand total_tickets + 1.

Definition TIME_SLICE : Z := 1.

(** The loop over the tasks: the tasks, the time, the total and the lines
    after the slice, and whether [all_tasks_completed] is still set. *)
Fixpoint run_winner (w time total : Z) (tasks : list Task)
    : list Task * Z * Z * bool * list event :=
  match tasks with
  | [] => ([], time, total, true, [])
  | t :: rest =>
    if live t then
      if (ticket_start t <=? w) && (w <=? ticket_end t) then
        let ex := Executing time (id t) (tickets t) (ticket_start t) (ticket_end t) in
        let r := remaining_time t - TIME_SLICE in
        let time := time + TIME_SLICE in
        if r <=? 0 then
          (set_work r 0 t :: rest, time, total - tickets t, false,
           [ex; TaskCompleted time (id t)])
        else (set_work r (tickets t) t :: rest, time, total, false, [ex])
      else
        let '(rest, time, total, _, ev) := run_winner w time total rest in
        (t :: rest, time, total, false, ev)
    else
      let '(rest, time, total, all, ev) := run_winner w time total rest in
      (t :: rest, time, total, all, ev)
  end.

(** The [while (1)] loop, with the results of the calls of [rand] from the
    [k]-th on; [None] is running out of fuel. *)
Fixpoint lottery_loop (rand : nat -> Z) (fuel : nat) (k : nat) (tasks : list Task)
    (time total : Z) (out : list event) : option (list Task * Z * list event) :=
  match fuel with
  | O => None
  | S fuel =>
    if total <=? 0 then Some (tasks, time, out ++ [AllCompleted time]) else
    let tasks := allocate_ticket_ranges tasks in
    let w := pick_winning_ticket (rand k) total in
    let '(tasks, time, _, all, ev) := run_winner w time total tasks in
    let out := out ++ Winning w total :: ev in
    let total := calculate_total_tickets tasks in
    if (all : bool) then Some (tasks, time, out ++ [AllCompleted time])
    else lottery_loop rand fuel (S k) tasks time total out
  end.

Definition lottery_scheduling (rand : nat -> Z) (fuel : nat) (tasks : list Task)
    : option (list Task * Z * list event) :=
  lottery_loop rand fuel 0 tasks 0 (calculate_total_tickets tasks) [].

(** What [main] makes of the burst times and tickets typed. *)
Definition tasks_of_input (inputs : list (Z * Z)) : list Task :=
  imap (fun i '(b, k) => mk_Task (Z.of_nat i + 1) b b k 0 0) inputs.

(** ** Ranges *)

Definition share (t : Task) : Z := if live t then tickets t else 0.
Definition sum (f : Task -> Z) (ts : list Task) : Z := foldr (fun t a => f t + a) 0 ts.

Definition holds (w : Z) (t : Task) : Prop :=
  live t = true /\ ticket_start t <= w <= ticket_end t.

Lemma total_sum ts : calculate_total_tickets ts = sum share ts.
Proof.
  unfold calculate_total_tickets.
  enough (forall a, foldl (fun total t => if live t then total + tickets t else total) a ts =
    a + sum share ts) as -> by lia.
  induction ts as [|t ts IH]; intros a; simpl; [lia|]. rewrite IH. unfold share at 2.
  destruct (live t); lia.
Qed.

Lemma share_nonneg t : 0 <= tickets t -> 0 <= share t.
Proof. unfold share. case_match; lia. Qed.

Lemma sum_nonneg f ts : Forall (fun t => 0 <= f t) ts -> 0 <= sum f ts.
Proof. induction 1; simpl; lia. Qed.

Lemma sum_share_nonneg ts : Forall (fun t => 0 <= tickets t) ts -> 0 <= sum share ts.
Proof. intros H. apply sum_nonneg. eapply Forall_impl; [exact H|]. apply share_nonneg. Qed.

(** The ranges of the live tasks from counter [c] on are consecutive. *)
Lemma allocate_range c ts : forall i t,
  Forall (fun t => 0 <= tickets t) ts -> allocate_from c ts !! i = Some t -> live t = true ->
  c <= ticket_start t /\ ticket_end t = ticket_start t + tickets t - 1 /\
  ticket_end t < c + sum share ts.
Proof.
  revert c. induction ts as [|t0 ts IH]; intros c i t Hf Hi Hl; [done|].
  apply Forall_cons in Hf as [H0 Hf]. pose proof (sum_share_nonneg _ Hf).
  simpl in *. unfold share at 1. destruct (live t0) eqn:E, i as [|i]; simplify_eq/=.
  - lia.
  - destruct (IH _ _ _ Hf Hi Hl) as (? & ? & ?). lia.
  - unfold live in Hl, E. simpl in Hl. congruence.
  - destruct (IH _ _ _ Hf Hi Hl) as (? & ? & ?). lia.
Qed.

Lemma allocate_apart ts : forall c i j t u,
  Forall (fun t => 0 <= tickets t) ts ->
  allocate_from c ts !! i = Some t -> allocate_from c ts !! j = Some u ->
  live t = true -> live u = true -> (i < j)%nat -> ticket_end t < ticket_start u.
Proof.
  induction ts as [|t0 ts IH]; intros c i j t u Hf Hi Hj Hlt Hlu Hij; [done|].
  apply Forall_cons in Hf as [H0 Hf].
  destruct j as [|j]; [lia|]. simpl in *. destruct (live t0) eqn:E, i as [|i]; simplify_eq/=.
  - destruct (allocate_range _ _ _ _ Hf Hj Hlu). lia.
  - eapply IH; eauto with lia.
  - unfold live in Hlt, E. simpl in Hlt. congruence.
  - eapply IH; eauto with lia.
Qed.

Lemma allocate_cover ts : forall c w,
  c <= w < c + sum share ts -> exists i t, allocate_from c ts !! i = Some t /\ holds w t.
Proof.
  induction ts as [|t0 ts IH]; intros c w Hw; simpl in *; [lia|].
  unfold share in Hw at 1. destruct (live t0) eqn:E.
  - destruct (decide (w < c + tickets t0)).
    + exists 0%nat. eexists. split; [done|]. split; [done|]. simpl. lia.
    + destruct (IH (c + tickets t0) w) as (i & t & Hi & Ht); [lia|]. by exists (S i), t.
  - destruct (IH c w) as (i & t & Hi & Ht); [lia|]. by exists (S i), t.
Qed.

(** The lottery is fair: with no negative number of tickets, the ranges of
    [allocate_ticket_ranges] give every ticket that can be drawn to exactly
    one unfinished task, and each unfinished task has as many of them as it
    has tickets. *)
Theorem ticket_ranges_partition tasks :
  Forall (fun t => 0 <= tickets t) tasks ->
  let ts := allocate_ticket_ranges tasks in
  let total := calculate_total_tickets tasks in
  (forall w, 1 <= w <= total ->
     exists i t, ts !! i = Some t /\ holds w t /\
       forall j u, ts !! j = Some u -> holds w u -> j = i) /\
  (forall i t, ts !! i = Some t -> live t = true ->
     1 <= ticket_start t /\ ticket_end t <= total /\
     ticket_end t - ticket_start t + 1 = tickets t).
Proof.
  intros Hf ts total. subst total. rewrite total_sum. split.
  - intros w Hw. destruct (allocate_cover tasks 1 w) as (i & t & Hi & Ht); [lia|].
    exists i, t. split_and!; try done. intros j u Hj [Hlu Hu]. destruct Ht as [Hlt Ht].
    destruct (lt_eq_lt_dec i j) as [[Hij|]|Hij]; [|done|].
    + pose proof (allocate_apart _ _ _ _ _ _ Hf Hi Hj Hlt Hlu Hij). lia.
    + pose proof (allocate_apart _ _ _ _ _ _ Hf Hj Hi Hlu Hlt Hij). lia.
  - intros i t Hi Hl. destruct (allocate_range _ _ _ _ Hf Hi Hl). lia.
Qed.

Definition demo_tasks : list Task := tasks_of_input [(2, 3); (1, 5); (4, 0)].

Lemma ticket_ranges_partition_witness :
  exists i t, allocate_ticket_ranges demo_tasks !! i = Some t /\ holds 8 t /\
    forall j u, allocate_ticket_ranges demo_tasks !! j = Some u -> holds 8 u -> j = i.
Proof.
  apply (ticket_ranges_partition demo_tasks); [|vm_compute; split; discriminate].
  repeat constructor; vm_compute; discriminate.
Defined.

(** ** The run *)

Definition after_slice (t : Task) : Task :=
  let r := remaining_time t - TIME_SLICE in set_work r (if r <=? 0 then 0 else tickets t) t.

Lemma run_winner_spec w ts : forall i t time total,
  ts !! i = Some t -> holds w t ->
  (forall j u, (j < i)%nat -> ts !! j = Some u -> ~ holds w u) ->
  exists total' ev,
    run_winner w time total ts = (<[i := after_slice t]> ts, time + 1, total', false, ev).
Proof.
  induction ts as [|t0 ts IH]; intros i t time total Hi Hw Hj; [done|].
  destruct i as [|i]; simplify_eq/=.
  - destruct Hw as [-> [Hlo Hhi]].
    rewrite (proj2 (Z.leb_le _ _) Hlo), (proj2 (Z.leb_le _ _) Hhi). simpl.
    unfold after_slice. destruct (remaining_time t - TIME_SLICE <=? 0); by eexists _, _.
  - destruct (IH i t time total Hi Hw) as (total' & ev & E).
    { intros j u Hlt Hu. apply (Hj (S j)); [lia|done]. }
    rewrite E. destruct (live t0) eqn:El; [|by eexists _, _].
    destruct ((ticket_start t0 <=? w) && (w <=? ticket_end t0)) eqn:Eh; [|by eexists _, _].
    destruct (Hj 0%nat t0); [lia|done|].
    apply andb_true_iff in Eh as [?%Z.leb_le ?%Z.leb_le]. done.
Qed.

(** How far a task has come since the start: a task with no tickets has not
    run, and one with tickets keeps them until it has run to completion. *)
Definition progress (t0 t : Task) : Prop :=
  id t = id t0 /\ burst_time t = burst_time t0 /\ 0 <= tickets t /\
  (tickets t = tickets t0 \/ tickets t = 0 /\ remaining_time t <= 0) /\
  (tickets t0 = 0 -> remaining_time t = remaining_time t0) /\
  Z.min 0 (remaining_time t0) <= remaining_time t <= remaining_time t0.

(** The slices a task with tickets still needs. *)
Definition needs (t : Task) : Z := if 0 <? tickets t then Z.max 0 (remaining_time t) else 0.

Lemma needs_nonneg t : 0 <= needs t.
Proof. unfold needs. case_match; lia. Qed.

Lemma progress_range t0 t a b : progress t0 t -> progress t0 (set_range a b t).
Proof. done. Qed.

Lemma progress_after t0 t :
  progress t0 t -> live t = true -> 0 < tickets t ->
  progress t0 (after_slice t) /\ needs (after_slice t) = needs t - 1.
Proof.
  intros (H1 & H2 & H3 & H4 & H5 & H6) Hl%Z.ltb_lt Hk.
  unfold progress, needs, after_slice, TIME_SLICE. simpl.
  rewrite (proj2 (Z.ltb_lt _ _) Hk).
  destruct (Z.leb_spec (remaining_time t - 1) 0); simpl.
  - split_and!; try done; lia.
  - rewrite (proj2 (Z.ltb_lt _ _) Hk). split_and!; try done; lia.
Qed.

Lemma allocate_progress ts0 ts : Forall2 progress ts0 ts -> forall c,
  Forall2 progress ts0 (allocate_from c ts) /\ sum needs (allocate_from c ts) = sum needs ts /\
  sum share (allocate_from c ts) = sum share ts.
Proof.
  induction 1 as [|t0 t ts0 ts Hp Hps IH]; intros c; simpl; [done|].
  destruct (live t) eqn:El; simpl.
  - destruct (IH (c + tickets t)) as (IH1 & IH2 & IH3). split_and!; [by constructor|..].
    + rewrite IH2. done.
    + rewrite IH3. done.
  - destruct (IH c) as (IH1 & IH2 & IH3). split_and!; [by constructor|..].
    + rewrite IH2. done.
    + rewrite IH3. done.
Qed.

Lemma sum_insert f ts i t t' :
  ts !! i = Some t -> sum f (<[i := t']> ts) = sum f ts - f t + f t'.
Proof.
  revert i. induction ts as [|u ts IH]; intros [|i] Hi; simplify_eq/=; [lia|].
  rewrite (IH _ Hi). lia.
Qed.

Lemma progress_tickets ts0 ts : Forall2 progress ts0 ts -> Forall (fun t => 0 <= tickets t) ts.
Proof. induction 1 as [|t0 t ts0 ts Hp _ IH]; constructor; [|done]. apply Hp. Qed.

(** One slice: exactly one task with tickets runs. *)
Lemma slice_progress rand ts0 ts time total :
  0 <= rand -> Forall2 progress ts0 ts -> total = calculate_total_tickets ts -> 0 < total ->
  exists ts' total' ev,
    run_winner (pick_winning_ticket rand total) time total (allocate_ticket_ranges ts) =
      (ts', time + 1, total', false, ev) /\
    Forall2 progress ts0 ts' /\ sum needs ts' = sum needs ts - 1.
Proof.
  intros Hr Hp -> Ht. set (w := pick_winning_ticket _ _).
  assert (1 <= w <= calculate_total_tickets ts) as Hw.
  { subst w. unfold pick_winning_ticket. pose proof (Z.rem_bound_pos rand _ Hr Ht). lia. }
  rewrite total_sum in Hw.
  pose proof (progress_tickets _ _ Hp) as Hf.
  destruct (allocate_cover ts 1 w) as (i & t & Hi & Hh); [lia|].
  destruct (run_winner_spec w _ i t time (calculate_total_tickets ts) Hi Hh) as (tot & ev & E).
  { intros j u Hji Hj [Hlu Hu]. destruct Hh as [Hlt Hwt].
    pose proof (allocate_apart _ _ _ _ _ _ Hf Hj Hi Hlu Hlt Hji). lia. }
  destruct (allocate_progress _ _ Hp 1) as (Hp1 & Hn1 & _).
  destruct (Forall2_lookup_r _ _ _ _ _ Hp1 Hi) as (t0 & Hi0 & Ht0).
  destruct Hh as [Hl Hwt]. destruct (allocate_range _ _ _ _ Hf Hi Hl) as (_ & Hend & _).
  destruct (progress_after t0 t Ht0 Hl) as [Hpa Hna]; [lia|].
  eexists _, _, _. split; [exact E|]. split.
  - rewrite <- (list_insert_id ts0 i t0) by done. by apply Forall2_insert.
  - unfold allocate_ticket_ranges. rewrite (sum_insert _ _ _ _ _ Hi). lia.
Qed.

Lemma no_share ts :
  Forall (fun t => 0 <= tickets t) ts -> sum share ts <= 0 ->
  Forall (fun t => live t = true -> tickets t = 0) ts /\ sum needs ts = 0.
Proof.
  induction 1 as [|t ts Ht Hts IH]; intros Hs; simpl in *; [by split|].
  pose proof (sum_share_nonneg _ Hts). pose proof (share_nonneg t Ht) as Hst.
  destruct IH as [IH1 IH2]; [lia|].
  assert (live t = true -> tickets t = 0) as Htk.
  { intros Hl. unfold share in Hs at 1. rewrite Hl in Hs. lia. }
  split; [by constructor|]. rewrite IH2. unfold needs, live in *.
  destruct (Z.ltb_spec 0 (tickets t)), (Z.ltb_spec 0 (remaining_time t)); try lia.
Qed.

Lemma lottery_loop_total rand ts0 : (forall k, 0 <= rand k) ->
  forall fuel k ts time out,
  Forall2 progress ts0 ts -> sum needs ts < Z.of_nat fuel ->
  exists ts' time' out',
    lottery_loop rand fuel k ts time (calculate_total_tickets ts) out =
      Some (ts', time', out' ++ [AllCompleted time']) /\
    time' = time + sum needs ts /\ Forall2 progress ts0 ts' /\
    calculate_total_tickets ts' = 0.
Proof.
  intros Hrand. induction fuel as [|fuel IH]; intros k ts time out Hp Hf.
  { assert (0 <= sum needs ts); [|lia]. apply sum_nonneg.
    apply Forall_forall. intros t _. apply needs_nonneg. }
  pose proof (sum_share_nonneg ts (progress_tickets _ _ Hp)) as Hs. rewrite <- total_sum in Hs.
  cbn [lottery_loop].
  destruct (Z.leb_spec (calculate_total_tickets ts) 0) as [H0|H0].
  - exists ts, time, out. split; [done|]. split; [|split; [done|lia]].
    rewrite total_sum in H0.
    rewrite (proj2 (no_share ts (progress_tickets _ _ Hp) H0)). lia.
  - destruct (slice_progress (rand k) ts0 ts time _ (Hrand k) Hp eq_refl H0)
      as (ts' & tot & ev & -> & Hp' & Hn).
    destruct (IH (S k) ts' (time + 1) (out ++ Winning (pick_winning_ticket (rand k)
      (calculate_total_tickets ts)) (calculate_total_tickets ts) :: ev) Hp')
      as (ts2 & time2 & out2 & E & Ht2 & Hp2 & Hz2); [lia|].
    exists ts2, time2, out2. split; [exact E|]. split; [lia|done].
Qed.

Lemma progress_refl ts : Forall (fun t => 0 <= tickets t) ts -> Forall2 progress ts ts.
Proof.
  intros H. apply Forall_Forall2_diag. eapply Forall_impl; [exact H|]. intros t Ht.
  unfold progress. split_and!; try done; lia.
Qed.


