(* ===== verification/Umalloc.v ===== *)
(** The memory allocator of user programs: umalloc.c.

    Memory is a map from addresses to 32-bit words; a [Header] at [p] is the
    words [p] (ptr) and [p + 4] (size, in units of eight bytes).  The break
    and [sbrk] belong to the kernel, so the functions are written against
    [Sbrk], which says what the system call promises.  [heap_ok] is the
    invariant: a ring of free blocks in the order of their addresses, no two
    of them touching, apart from the blocks the program holds. *)

From stdpp Require Import base list sets gmap sorting strings.
From Stdlib Require Import ZArith Lia.
From S2P Require Import Prelude.

Open Scope Z_scope.
Open Scope kernel_scope.

(** ** State and system call *)

Record heap : Type := mk_heap {
  h_mem : Z -> Z;
  h_freep : Z;
  h_brk : Z }.

Definition set_h_mem m h := mk_heap m (h_freep h) (h_brk h).
Definition set_h_freep f h := mk_heap (h_mem h) f (h_brk h).

(** User memory ends below the kernel. *)
Definition USERTOP : Z := 2 ^ 31.

(** [sbrk] fails and changes nothing, or moves the break and returns the old
    one; the memory below stays. *)
Class Sbrk : Type := {
  sbrk : Z -> M heap Z;
  sbrk_law n h : 0 < n < 2 ^ 31 -> 0 <= h_brk h <= USERTOP ->
    sbrk n h = Ret (u32 (-1)) h \/
    exists m, sbrk n h = Ret (h_brk h) (mk_heap m (h_freep h) (h_brk h + n)) /\
      h_brk h + n <= USERTOP /\ (forall a, a < h_brk h -> m a = h_mem h a) }.

(** ** The functions *)

Section Malloc.
(** The address of the variable [base]. *)
Context {SB : Sbrk} (base : Z).

(** [sizeof(Header)], and [p + k] for a [Header *p]. *)
Definition HSIZE : Z := 8.
Definition hplus (p k : Z) : Z := u32 (p + HSIZE * k).

Definition ptr (p : Z) : M heap Z := gets (fun h => h_mem h p).
Definition size (p : Z) : M heap Z := gets (fun h => h_mem h (p + 4)).
Definition set_ptr (p q : Z) : M heap unit := modify (fun h => set_h_mem (upd (h_mem h) p q) h).
Definition set_size (p n : Z) : M heap unit := modify (fun h => set_h_mem (upd (h_mem h) (p + 4) n) h).

(** A walk visits each free block at most twice; there is room for
    [h_brk / 8] blocks. *)
Definition ring_rounds (h : heap) : nat := Z.to_nat (h_brk h / HSIZE).

(** The loop that finds the place of [bp]. *)
Fixpoint free_search (bp p : Z) (k : nat) : M heap Z :=
  match k with
  | O => spin
  | S k =>
    nx <- ptr p ;;
    if (p <? bp) && (bp <? nx) then ret p
    else if (nx <=? p) && ((p <? bp) || (bp <? nx)) then ret p
    else free_search bp nx k
  end.

(** Joining the block to the upper neighbour, and to the lower one. *)
Definition free_upper (bp p : Z) : M heap unit :=
  n <- size bp ;; nx <- ptr p ;;
  if hplus bp n =? nx then
    m <- size nx ;; set_size bp (u32 (n + m)) ;;;
    nx <- ptr p ;; nn <- ptr nx ;; set_ptr bp nn
  else set_ptr bp nx.

Definition free_lower (bp p : Z) : M heap unit :=
  n <- size p ;;
  if hplus p n =? bp then
    m <- size bp ;; set_size p (u32 (n + m)) ;;;
    nn <- ptr bp ;; set_ptr p nn
  else set_ptr p bp.

Definition free (ap : Z) : M heap unit :=
  let bp := hplus ap (-1) in
  p <- gets h_freep ;;
  k <- gets ring_rounds ;;
  p <- free_search bp p k ;;
  free_upper bp p ;;;
  free_lower bp p ;;;
  modify (set_h_freep p).

Definition morecore (nu : Z) : M heap Z :=
  let nu := if nu <? 4096 then 4096 else nu in
  p <- sbrk (s32 (u32 (nu * HSIZE))) ;;
  if p =? u32 (-1) then ret 0 else
  set_size p nu ;;;
  free (hplus p 1) ;;;
  gets h_freep.

(** Taking [nunits] units from the block [p], whose predecessor is [prevp]. *)
Definition malloc_take (nunits prevp p : Z) : M heap Z :=
  n <- size p ;;
  p <- (if n =? nunits then nx <- ptr p ;; set_ptr prevp nx ;;; ret p
        else set_size p (u32 (n - nunits)) ;;;
             n <- size p ;;
             set_size (hplus p n) nunits ;;; ret (hplus p n)) ;;
  modify (set_h_freep prevp) ;;;
  ret (hplus p 1).

Fixpoint malloc_loop (nunits prevp p : Z) (k : nat) : M heap Z :=
  match k with
  | O => spin
  | S k =>
    n <- size p ;;
    if nunits <=? n then malloc_take nunits prevp p else
    fp <- gets h_freep ;;
    if p =? fp then
      p <- morecore nunits ;;
      if p =? 0 then ret 0 else nx <- ptr p ;; malloc_loop nunits p nx k
    else nx <- ptr p ;; malloc_loop nunits p nx k
  end.

Definition units_of (nbytes : Z) : Z := u32 (u32 (nbytes + HSIZE - 1) / HSIZE + 1).

Definition malloc (nbytes : Z) : M heap Z :=
  let nunits := units_of nbytes in
  fp <- gets h_freep ;;
  (if fp =? 0 then modify (set_h_freep base) ;;; set_ptr base base ;;; set_size base 0 else ret tt) ;;;
  prevp <- gets h_freep ;;
  p <- ptr prevp ;;
  k <- gets ring_rounds ;;
  malloc_loop nunits prevp p (2 * k + 3).

(** ** The ring of free blocks *)

(** A block is its address and its size in units.  The ring starts at [base],
    a block without units. *)
Implicit Types B L : list (Z * Z).
Implicit Types U : gset (Z * Z).

(** The address after the blocks [B] that end at [q]. *)
Definition next B (q : Z) : Z := match B with [] => q | b :: _ => b.1 end.

Definition ring L : list (Z * Z) := (base, 0) :: L.

Fixpoint linked (m : Z -> Z) B (q : Z) : Prop :=
  match B with
  | [] => True
  | b :: B => m b.1 = next B q /\ m (b.1 + 4) = b.2 /\ linked m B q
  end.

Definition before (b c : Z * Z) : Prop := b.1 + HSIZE * b.2 < c.1.
Definition apart (b c : Z * Z) : Prop := b.1 + HSIZE * b.2 <= c.1 \/ c.1 + HSIZE * c.2 <= b.1.
Definition inside (b : Z * Z) (a : Z) : Prop := b.1 <= a < b.1 + HSIZE * b.2.

(** A block of the heap. *)
Definition is_block (brk : Z) (b : Z * Z) : Prop :=
  base + HSIZE <= b.1 /\ 1 <= b.2 /\ b.1 + HSIZE * b.2 <= brk.

(** Arithmetic on blocks. *)
Ltac blk := unfold before, apart, inside, is_block, HSIZE in *; cbn [fst snd] in *; lia.

(** The free blocks [L] and the blocks [U] that the program holds. *)
Record heap_ok (h : heap) L U : Prop := {
  ok_base : 0 < base;
  ok_brk : base + HSIZE <= h_brk h <= USERTOP;
  ok_ring : linked (h_mem h) (ring L) base;
  ok_sorted : StronglySorted before (ring L);
  ok_free b : b ∈ L -> is_block (h_brk h) b;
  ok_used u : u ∈ U -> is_block (h_brk h) u /\ h_mem h (u.1 + 4) = u.2;
  ok_apart b u : b ∈ L -> u ∈ U -> apart b u;
  ok_disjoint u u' : u ∈ U -> u' ∈ U -> u <> u' -> apart u u';
  ok_freep : h_freep h ∈ (ring L).*1 }.

Lemma linked_app m B1 B2 q : linked m (B1 ++ B2) q <-> linked m B1 (next B2 q) /\ linked m B2 q.
Proof.
  induction B1 as [|b B1 IH]; simpl; [tauto|]. rewrite IH.
  assert (next (B1 ++ B2) q = next B1 (next B2 q)) as -> by by destruct B1. tauto.
Qed.

Lemma linked_ext m m' B q : (forall b, b ∈ B -> m' b.1 = m b.1 /\ m' (b.1 + 4) = m (b.1 + 4)) ->
  linked m B q -> linked m' B q.
Proof.
  induction B as [|b B IH]; simpl; [done|]. intros He (H1 & H2 & H3).
  destruct (He b) as [-> ->]; [by left|]. split_and!; [done..|].
  apply IH; [|done]. intros c Hc. apply He. by right.
Qed.

(** The memory changed in the header at [p] only. *)
Definition only_header (p : Z) (m m' : Z -> Z) : Prop := forall a, a <> p -> a <> p + 4 -> m' a = m a.

Lemma sorted_length lo hi L : lo <= hi -> (forall b, b ∈ L -> lo <= b.1 /\ 1 <= b.2 /\ b.1 + HSIZE * b.2 <= hi) ->
  StronglySorted before L -> HSIZE * Z.of_nat (length L) <= hi - lo.
Proof.
  revert lo. induction L as [|b L IH]; intros lo Hlo Hb Hs; simpl; [lia|].
  apply StronglySorted_cons in Hs as [Hf Hs]. rewrite Forall_forall in Hf.
  destruct (Hb b) as (H1 & H2 & H3); [by left|]. unfold HSIZE, before in *.
  pose proof (IH (b.1 + 8) ltac:(lia)) as IH'. cut (8 * Z.of_nat (length L) <= hi - (b.1 + 8)); [lia|].
  apply IH'; [|done]. intros c Hc. specialize (Hf c Hc). destruct (Hb c) as (? & ? & ?); [by right|].
  unfold HSIZE in *. lia.
Qed.

Lemma ring_rounds_enough h L U : heap_ok h L U -> (length (ring L) <= ring_rounds h)%nat.
Proof.
  intros [H1 H2 _ H4 H5 _ _ _ _]. apply StronglySorted_cons in H4 as [_ Hs].
  pose proof (sorted_length (base + HSIZE) (h_brk h) L ltac:(lia) H5 Hs) as Hl.
  unfold ring_rounds. simpl. unfold HSIZE in *.
  assert (Z.of_nat (length L) + 1 <= h_brk h / 8); [|lia].
  apply Z.div_le_lower_bound; lia.
Qed.

(** Headers of different blocks of the ring do not overlap. *)
Definition header_before (b c : Z * Z) : Prop := b.1 + HSIZE <= c.1.

Lemma ring_headers h L U : heap_ok h L U -> StronglySorted header_before (ring L).
Proof.
  intros [H1 _ _ H4 H5 _ _ _ _]. unfold ring in *. apply StronglySorted_cons in H4 as [_ Hs].
  apply StronglySorted_cons. split.
  - apply Forall_forall. intros c Hc. apply (H5 c Hc).
  - clear H1. induction L as [|b L IH]; [constructor|]. apply StronglySorted_cons in Hs as [Hf Hs].
    apply StronglySorted_cons. split; [|apply IH; try done; intros c Hc; apply H5; by right].
    rewrite Forall_forall in *. intros c Hc. specialize (Hf c Hc).
    destruct (H5 b) as (_ & Hb & _); [by left|]. unfold before, header_before, HSIZE in *. lia.
Qed.

(** The place of an address among the headers. *)
Lemma place_of bp b B : StronglySorted header_before (b :: B) -> b.1 < bp ->
  exists B1 p B2, b :: B = B1 ++ p :: B2 /\ p.1 < bp /\ (forall c, c ∈ B2 -> bp <= c.1).
Proof.
  revert b. induction B as [|c B IH]; intros b Hs Hb; [exists [], b, []; split_and!; [done..|set_solver]|].
  apply StronglySorted_cons in Hs as [_ Hs]. destruct (Z.lt_ge_cases c.1 bp) as [Hc|Hc].
  - destruct (IH c Hs Hc) as (B1 & p & B2 & E & Hp & H2). exists (b :: B1), p, B2. split_and!; [simpl; by rewrite E|done..].
  - exists [], b, (c :: B). split_and!; [done..|]. intros d [->|Hd]%elem_of_cons; [done|].
    apply StronglySorted_cons in Hs as [Hf _]. rewrite Forall_forall in Hf. specialize (Hf d Hd).
    unfold header_before, HSIZE in Hf. lia.
Qed.

(** ** The search of [free] *)

Lemma search_below bp C p D q h k : linked (h_mem h) (C ++ p :: D) q ->
  StronglySorted header_before (C ++ [p]) -> p.1 < bp ->
  free_search bp (next (C ++ [p]) q) (length C + k) h = free_search bp p.1 k h.
Proof.
  induction C as [|c C IH]; [done|]. cbn [app linked length Nat.add free_search next].
  intros (Hn & _ & Hl) Hs Hp. apply StronglySorted_cons in Hs as [Hf Hs]. rewrite Forall_forall in Hf.
  unfold ptr. mrun. rewrite Hn.
  assert (next (C ++ p :: D) q = next (C ++ [p]) q) as -> by by destruct C.
  assert (c.1 < next (C ++ [p]) q < bp) as Hx; [|zbool; by apply IH].
  assert (exists d, d ∈ C ++ [p] /\ d.1 = next (C ++ [p]) q) as (d & Hd & <-)
    by (destruct C as [|d C]; [exists p|exists d]; set_solver).
  specialize (Hf d Hd). unfold header_before, HSIZE in Hf. split; [lia|].
  apply elem_of_app in Hd as [Hd|Hd]; [|set_solver].
  apply (StronglySorted_app_1_elem_of header_before C [p] d p) in Hs; [|done|set_solver].
  unfold header_before, HSIZE in Hs. lia.
Qed.

Lemma search_above bp C h k : linked (h_mem h) C base -> StronglySorted header_before C ->
  (forall c, c ∈ C -> bp <= c.1) -> base < bp ->
  free_search bp (next C base) (length C + k) h = free_search bp base k h.
Proof.
  induction C as [|c C IH]; [done|]. cbn [linked length Nat.add free_search next].
  intros (Hn & _ & Hl) Hs Hc Hb. apply StronglySorted_cons in Hs as [Hf Hs]. rewrite Forall_forall in Hf.
  unfold ptr. mrun. rewrite Hn. pose proof (Hc c ltac:(by left)).
  assert (next C base <= c.1 -> next C base = base) as Hx.
  { destruct C as [|d C]; [done|]. simpl. specialize (Hf d ltac:(by left)).
    unfold header_before, HSIZE in Hf. lia. }
  rewrite (proj2 (Z.ltb_ge c.1 bp)) by lia. cbn [andb orb].
  assert ((next C base <=? c.1) && (bp <? next C base) = false) as ->
    by (destruct (Z.leb_spec (next C base) c.1); [rewrite Hx by done; zbool|]; done).
  apply IH; try done. intros d Hd. apply Hc. by right.
Qed.

Section Search.
(** The blocks of the ring up to [p] are below [bp], the others above. *)
Context (h : heap) (L : list (Z * Z)) (U : gset (Z * Z)) (B1 : list (Z * Z)) (p : Z * Z)
  (B2 : list (Z * Z)) (bp : Z).
Hypothesis (Hok : heap_ok h L U) (Hring : ring L = B1 ++ p :: B2) (Hb : base < bp) (Hp : p.1 < bp)
  (Habove : forall c, c ∈ B2 -> bp < c.1).

Lemma search_stops k : free_search bp p.1 (S k) h = Ret p.1 h.
Proof using Hok Hring Hb Hp Habove.
  pose proof (ring_headers h L U Hok) as Hs. pose proof (ok_ring _ _ _ Hok) as Hl.
  assert (base <= p.1) as Hbp.
  { destruct B1 as [|b B]; injection Hring as E1 E2; [by rewrite <- E1|]. unfold ring in Hs.
    rewrite E2 in Hs. apply StronglySorted_cons in Hs as [Hs _]. rewrite Forall_forall in Hs.
    specialize (Hs p ltac:(set_solver)). unfold header_before, HSIZE in Hs. simpl in Hs. lia. }
  cbn [free_search]. unfold ptr. mrun. rewrite Hring in Hl. apply linked_app in Hl as [_ (-> & _ & _)].
  destruct B2 as [|c C]; simpl; [zbool; by destruct (bp <? base)|].
  specialize (Habove c ltac:(by left)). zbool. done.
Qed.

Lemma search_from_below X Y k : B1 = X ++ Y -> (length Y < k)%nat ->
  free_search bp (next (Y ++ [p]) base) k h = Ret p.1 h.
Proof using Hok Hring Hb Hp Habove.
  intros E Hk. pose proof (ring_headers h L U Hok) as Hs. pose proof (ok_ring _ _ _ Hok) as Hl.
  rewrite Hring, E, <- app_assoc in Hs, Hl. apply linked_app in Hl as [_ Hl].
  apply StronglySorted_app_1_r in Hs.
  replace k with (length Y + S (k - length Y - 1))%nat by lia.
  rewrite (search_below bp Y p B2 base h); [apply search_stops|done| |done].
  apply (StronglySorted_app_1_l header_before _ B2). by rewrite <- app_assoc.
Qed.

(** The search ends at the block before [bp]. *)
Lemma free_finds : free_search bp (h_freep h) (ring_rounds h) h = Ret p.1 h.
Proof using Hok Hring Hb Hp Habove.
  pose proof (ring_rounds_enough h L U Hok) as Hk. pose proof (ring_headers h L U Hok) as Hs.
  pose proof (ok_ring _ _ _ Hok) as Hl. pose proof (ok_freep _ _ _ Hok) as Hf.
  assert (next (B1 ++ [p]) base = base) as Hn.
  { assert (next (ring L) base = base) as Hn by done. rewrite Hring in Hn. by destruct B1. }
  rewrite Hring in *. rewrite length_app in Hk. simpl in Hk.
  rewrite fmap_app, fmap_cons in Hf. apply elem_of_app in Hf as [Hf|[->|Hf]%elem_of_cons].
  - apply list_elem_of_fmap in Hf as (f & -> & Hf). apply list_elem_of_split in Hf as (X & Y & E).
    apply (search_from_below X (f :: Y) _ E). rewrite E, length_app in Hk. simpl in *. lia.
  - apply (search_from_below B1 []); [by rewrite app_nil_r|simpl; lia].
  - apply list_elem_of_fmap in Hf as (f & -> & Hf). apply list_elem_of_split in Hf as (X & Y & E).
    rewrite E in Hk, Hs, Hl. rewrite length_app in Hk. simpl in Hk.
    replace (ring_rounds h) with (length (f :: Y) + (ring_rounds h - length (f :: Y)))%nat by (simpl; lia).
    apply linked_app in Hl as [_ (_ & _ & Hl)]. apply linked_app in Hl as [_ Hl].
    apply StronglySorted_app_1_r in Hs. apply StronglySorted_cons in Hs as [_ Hs].
    apply StronglySorted_app_1_r in Hs.
    change f.1 with (next (f :: Y) base). rewrite search_above; [|done..| |done].
    2: { intros c Hc. apply Z.lt_le_incl, Habove. rewrite E; set_solver. }
    rewrite <- Hn at 1. apply (search_from_below [] B1); [done|simpl; lia].
Qed.
End Search.

(** ** Joining neighbours *)

Definition join_upper (b : Z * Z) B : (Z * Z) * list (Z * Z) :=
  match B with
  | c :: B' => if b.1 + HSIZE * b.2 =? c.1 then ((b.1, b.2 + c.2), B') else (b, B)
  | [] => (b, [])
  end.

Definition join_lower (p c : Z * Z) B : list (Z * Z) :=
  if p.1 + HSIZE * p.2 =? c.1 then (p.1, p.2 + c.2) :: B else p :: c :: B.

(** Blocks in order, apart from the blocks [U]. *)
Record placed (brk : Z) B U : Prop := {
  pl_sorted : StronglySorted before B;
  pl_block b : b ∈ B -> b = (base, 0) \/ is_block brk b;
  pl_apart b u : b ∈ B -> u ∈ U -> apart b u }.

Definition covered B (a : Z) : Prop := exists b, b ∈ B /\ inside b a.

Lemma heap_placed h L U : heap_ok h L U -> placed (h_brk h) (ring L) U.
Proof.
  intros [H1 H2 H3 H4 H5 H6 H7 H8 H9]. split; [done| |].
  - intros b [->|Hb]%elem_of_cons; [by left|right; by apply H5].
  - intros b u [->|Hb]%elem_of_cons Hu; [|by apply H7].
    destruct (H6 u Hu) as [(? & _) _]. left. unfold HSIZE in *. simpl. lia.
Qed.

Lemma covered_cons b B a : covered (b :: B) a <-> inside b a \/ covered B a.
Proof. unfold covered. setoid_rewrite elem_of_cons. naive_solver. Qed.

Lemma covered_app B C a : covered (B ++ C) a <-> covered B a \/ covered C a.
Proof. unfold covered. setoid_rewrite elem_of_app. naive_solver. Qed.

Lemma covered_ring L a : covered (ring L) a <-> covered L a.
Proof.
  unfold ring. rewrite covered_cons. unfold inside, HSIZE. simpl. split; [intros [?|?]; [lia|done]|by right].
Qed.

(** Joining the touching blocks [b] and [c]. *)
Lemma placed_join brk B1 b c B2 U : placed brk (B1 ++ b :: B2) U -> is_block brk b -> is_block brk c ->
  b.1 + HSIZE * b.2 = c.1 -> (forall x, x ∈ B2 -> before c x) ->
  (forall u, u ∈ U -> apart c u /\ 1 <= u.2) ->
  let j := (b.1, b.2 + c.2) in
  placed brk (B1 ++ j :: B2) U /\ (forall a, inside j a <-> inside b a \/ inside c a).
Proof.
  intros [P1 P2 P3] (X1 & X2 & X3) (Y1 & Y2 & Y3) Ht Hc Hu j.
  apply StronglySorted_app in P1 as (A & S1 & S2).
  apply StronglySorted_cons in S2 as [F2 S2]. rewrite Forall_forall in F2. split.
  - split.
    + apply StronglySorted_app. split_and!; [|done|].
      * intros x y Hx [->|Hy]%elem_of_cons; [|apply A; set_solver].
        specialize (A x b Hx ltac:(set_solver)). unfold j; blk.
      * apply StronglySorted_cons. split; [|done]. apply Forall_forall. intros x Hx.
        specialize (Hc x Hx). unfold j; blk.
    + intros x [Hx|[->|Hx]%elem_of_cons]%elem_of_app; [apply P2; set_solver| |apply P2; set_solver].
      right. unfold j; blk.
    + intros x u [Hx|[->|Hx]%elem_of_cons]%elem_of_app Hin; [apply P3; set_solver| |apply P3; set_solver].
      destruct (Hu u Hin). pose proof (P3 b u ltac:(set_solver) Hin). unfold j; blk.
  - intros a. unfold j; blk.
Qed.

(** Putting the block [b] between [p] and [B2] without joining it. *)
Lemma placed_insert brk B1 p b B2 U : placed brk (B1 ++ p :: B2) U -> is_block brk b ->
  before p b -> (forall x, x ∈ B2 -> before b x) -> (forall u, u ∈ U -> apart b u) ->
  placed brk (B1 ++ p :: b :: B2) U.
Proof.
  intros [P1 P2 P3] Hb Hp H2 Hu. apply StronglySorted_app in P1 as (A & S1 & S2).
  apply StronglySorted_cons in S2 as [F2 S2]. rewrite Forall_forall in F2. split.
  - apply StronglySorted_app. split_and!; [|done|].
    + intros x y Hx [->|[->|Hy]%elem_of_cons]%elem_of_cons; [apply A; set_solver| |apply A; set_solver].
      pose proof (A x p Hx ltac:(set_solver)).
      assert (p.2 >= 0) by (destruct (P2 p ltac:(set_solver)) as [->|(_ & ? & _)]; simpl; lia).
      blk.
    + apply StronglySorted_cons. split; [|apply StronglySorted_cons; split; [by apply Forall_forall|done]].
      apply Forall_forall. intros x [->|Hx]%elem_of_cons; [done|by apply F2].
  - intros x Hx. destruct (decide (x = b)) as [->|Hne]; [by right|]. apply P2. set_solver.
  - intros x u Hx Hin. destruct (decide (x = b)) as [->|Hne]; [by apply Hu|]. apply P3; set_solver.
Qed.

Lemma placed_drop brk B1 b B2 U : placed brk (B1 ++ b :: B2) U -> placed brk (B1 ++ B2) U.
Proof.
  intros [P1 P2 P3]. split; [|intros x Hx; apply P2; set_solver|intros x u Hx; apply P3; set_solver].
  apply StronglySorted_app in P1 as (A & S1 & S2). apply StronglySorted_cons in S2 as [_ S2].
  apply StronglySorted_app. split_and!; [|done..]. intros x y Hx Hy. apply A; set_solver.
Qed.

Lemma join_upper_ok brk B1 p b B2 U : placed brk (B1 ++ p :: B2) U -> is_block brk b ->
  (forall x, x ∈ B2 -> b.1 < x.1 /\ apart x b) -> (forall u, u ∈ U -> apart b u /\ 1 <= u.2) ->
  let (c, R) := join_upper b B2 in
  c.1 = b.1 /\ placed brk (B1 ++ p :: R) U /\ is_block brk c /\ (forall x, x ∈ R -> before c x) /\
  (forall u, u ∈ U -> apart c u /\ 1 <= u.2) /\
  (forall a, inside c a \/ covered R a <-> inside b a \/ covered B2 a).
Proof.
  intros Hpl Hb H2 Hu. pose proof Hpl as [P1 P2 P3].
  apply StronglySorted_app in P1 as (_ & _ & S2). apply StronglySorted_cons in S2 as [_ S2].
  destruct B2 as [|c R]; [split_and!; try done; set_solver|]. cbn [join_upper].
  apply StronglySorted_cons in S2 as [F2 _]. rewrite Forall_forall in F2.
  destruct (H2 c ltac:(by left)) as [Hlt Hap].
  assert (is_block brk c) as Hc.
  { destruct (P2 c ltac:(set_solver)) as [->|?]; [exfalso; clear - Hlt Hb; blk|done]. }
  destruct (Z.eqb_spec (b.1 + HSIZE * b.2) c.1) as [Et|Hne].
  - split_and!; [done|rewrite (cons_middle p), app_assoc in *; by eapply placed_drop|blk| | |].
    + intros x Hx. specialize (F2 x Hx). blk.
    + intros u Hin. destruct (Hu u Hin). pose proof (P3 c u ltac:(set_solver) Hin). blk.
    + intros a. rewrite covered_cons. assert (inside (b.1, b.2 + c.2) a <-> inside b a \/ inside c a) by blk.
      tauto.
  - split_and!; try done. intros x [->|Hx]%elem_of_cons; [blk|]. specialize (F2 x Hx). blk.
Qed.

Lemma join_placed brk B1 p b B2 U : placed brk (B1 ++ p :: B2) U -> is_block brk b ->
  (forall x, x ∈ B1 ++ p :: B2 -> apart x b) -> p.1 < b.1 -> (forall x, x ∈ B2 -> b.1 < x.1) ->
  (forall u, u ∈ U -> apart b u /\ 1 <= u.2) -> base < p.1 \/ p = (base, 0) ->
  let (c, R) := join_upper b B2 in
  placed brk (B1 ++ join_lower p c R) U /\
  (forall a, covered (B1 ++ join_lower p c R) a <-> covered (B1 ++ p :: B2) a \/ inside b a).
Proof.
  intros Hpl Hb Hap Hlt H2 Hu Hp.
  pose proof (join_upper_ok brk B1 p b B2 U Hpl Hb (fun x Hx => conj (H2 x Hx) (Hap x ltac:(set_solver))) Hu)
    as H. destruct (join_upper b B2) as [c R]. destruct H as (Ec & Hpl' & Hc & HR & Huc & Hcov).
  pose proof (Hap p ltac:(set_solver)) as Hpb.
  assert (forall a, covered (B1 ++ p :: B2) a \/ inside b a <->
    covered B1 a \/ inside p a \/ inside c a \/ covered R a) as Hcov'.
  { intros a. rewrite covered_app, covered_cons. specialize (Hcov a). tauto. }
  setoid_rewrite Hcov'. unfold join_lower. destruct (Z.eqb_spec (p.1 + HSIZE * p.2) c.1) as [Et|Hne].
  - assert (is_block brk p) as Hpk.
    { destruct (pl_block _ _ _ Hpl p ltac:(set_solver)) as [->|?]; [exfalso|done].
      clear - Et Hc. blk. }
    destruct (placed_join brk B1 p c R U Hpl' Hpk Hc Et HR Huc) as [Hj Hi]. split; [done|].
    intros a. rewrite covered_app, covered_cons, Hi. tauto.
  - split.
    + apply placed_insert; try done; [|intros u Hin; by apply Huc]. rewrite Ec in Hne.
      destruct Hp as [Hp| ->]; [|blk]. destruct (pl_block _ _ _ Hpl p ltac:(set_solver)) as [->|?]; blk.
    + intros a. rewrite covered_app, !covered_cons. tauto.
Qed.

(** ** What [free] does to memory *)

Definition header_apart (p : Z) (b : Z * Z) : Prop := b.1 + HSIZE <= p \/ p + HSIZE <= b.1.

Lemma hplus_small p k : 0 <= p + HSIZE * k <= USERTOP -> hplus p k = p + HSIZE * k.
Proof. intros H. apply u32_small. unfold USERTOP in *. lia. Qed.

Lemma only_header_upd p m v w : only_header p m (upd (upd m (p + 4) v) p w).
Proof. intros a H1 H2. by rewrite !upd_ne. Qed.

Lemma only_header_ptr p m w : only_header p m (upd m p w).
Proof. intros a H1 H2. by rewrite !upd_ne. Qed.

Lemma linked_apart p m m' B q : only_header p m m' -> (forall b, b ∈ B -> header_apart p b) ->
  linked m B q -> linked m' B q.
Proof.
  intros Hm Hb. apply linked_ext. intros b Hin. specialize (Hb b Hin). unfold header_apart, HSIZE in Hb.
  split; apply Hm; lia.
Qed.

Lemma free_upper_ok h b p B :
  h_mem h (b.1 + 4) = b.2 -> h_mem h p.1 = next B base -> linked (h_mem h) B base ->
  is_block (h_brk h) b -> 0 < base -> h_brk h <= USERTOP -> header_apart b.1 p ->
  (forall x, x ∈ B -> is_block (h_brk h) x /\ header_apart b.1 x) ->
  let (c, R) := join_upper b B in
  exists m, free_upper b.1 p.1 h = Ret tt (set_h_mem m h) /\ only_header b.1 (h_mem h) m /\
    linked m (c :: R) base.
Proof.
  intros Es Hn Hl Hb Hb0 Hbrk Hp HB. unfold free_upper, ptr, size, set_ptr, set_size. mrun.
  rewrite Es, Hn. rewrite hplus_small by blk.
  destruct B as [|c R]; cbn [join_upper next].
  - rewrite (proj2 (Z.eqb_neq _ _)) by blk. eexists. split; [reflexivity|].
    split; [apply only_header_ptr|]. cbn. rewrite upd_eq, upd_ne by lia. done.
  - destruct (HB c ltac:(by left)) as [Hc Hca]. destruct Hl as (Hcn & Hcs & Hl).
    pose proof (fun x Hx => proj2 (HB x (list_elem_of_further x c R Hx))) as HR.
    destruct (Z.eqb_spec (b.1 + HSIZE * b.2) c.1) as [Et|Hne].
    + eexists. split.
      { unfold set_h_mem. mrun. cbn [h_mem]. reflexivity. }
      cbn [h_mem]. rewrite (upd_ne _ _ p.1), Hn by (unfold header_apart, HSIZE in *; lia). cbn [next].
      rewrite (upd_ne _ _ c.1), Hcn by (unfold header_apart, HSIZE in *; lia). rewrite Hcs.
      split; [apply only_header_upd|]. cbn [linked fst snd].
      rewrite upd_eq, (upd_ne _ b.1), upd_eq by lia.
      split_and!; [done|apply u32_small; unfold USERTOP in *; blk|].
      eapply linked_apart; [apply only_header_upd|done..].
    + eexists. split; [reflexivity|]. split; [apply only_header_ptr|].
      change (linked (upd (h_mem h) b.1 c.1) (b :: c :: R) base). split; [apply upd_eq|].
      split; [rewrite upd_ne by lia; done|]. eapply linked_apart; [apply only_header_ptr| |done].
      intros x Hx. by apply HB.
Qed.

Lemma free_lower_ok h p c R : linked (h_mem h) (c :: R) base -> h_mem h (p.1 + 4) = p.2 ->
  0 <= p.1 -> 0 <= p.2 -> p.1 + HSIZE * p.2 <= c.1 -> is_block (h_brk h) c -> h_brk h <= USERTOP ->
  (forall x, x ∈ c :: R -> header_apart p.1 x) ->
  exists m, free_lower c.1 p.1 h = Ret tt (set_h_mem m h) /\ only_header p.1 (h_mem h) m /\
    linked m (join_lower p c R) base.
Proof.
  intros Hl Es Hp0 Hp1 Hpc Hc Hbrk HR. unfold free_lower, ptr, size, set_ptr, set_size. mrun. rewrite Es.
  rewrite hplus_small by blk. unfold join_lower.
  pose proof (HR c ltac:(by left)) as Hca.
  destruct (Z.eqb_spec (p.1 + HSIZE * p.2) c.1) as [Et|Hne].
  - destruct Hl as (Hcn & Hcs & Hl). eexists. split.
    { unfold set_h_mem. mrun. cbn [h_mem]. reflexivity. }
    cbn [h_mem]. rewrite (upd_ne _ _ c.1), Hcn, Hcs by (unfold header_apart, HSIZE in *; lia).
    split; [apply only_header_upd|]. cbn [linked fst snd]. rewrite upd_eq, (upd_ne _ p.1), upd_eq by lia.
    split_and!; [done|apply u32_small; unfold USERTOP in *; blk|].
    eapply linked_apart; [apply only_header_upd| |done]. intros x Hx. apply HR. by right.
  - eexists. split; [reflexivity|]. split; [apply only_header_ptr|]. split; [apply upd_eq|].
    split; [rewrite upd_ne by lia; done|]. by eapply linked_apart; [apply only_header_ptr|..].
Qed.

(** ** [free] *)

Lemma placed_header brk B U b u : placed brk B U -> b ∈ B -> u ∈ U -> is_block brk u ->
  u.1 + HSIZE * u.2 <= b.1 \/ b.1 + HSIZE <= u.1.
Proof. intros [_ P2 P3] Hb Hu Hk. pose proof (P3 b u Hb Hu). destruct (P2 b Hb) as [->|?]; blk. Qed.

(** Joining keeps the root of the ring. *)
Lemma join_ring L B1 p c B2 R : ring L = B1 ++ p :: B2 -> base + HSIZE <= c.1 ->
  exists L', B1 ++ join_lower p c R = ring L'.
Proof.
  unfold ring. destruct B1 as [|b B1]; intros [= E _] Hc; simpl; [|rewrite <- E; eauto].
  unfold join_lower. rewrite <- E. rewrite (proj2 (Z.eqb_neq _ _)) by blk. eauto.
Qed.

Lemma join_fits b B p : let (c, R) := join_upper b B in (forall x, x ∈ B -> 0 <= x.2) -> 0 <= p.2 ->
  exists d, d ∈ join_lower p c R /\ b.2 <= d.2.
Proof.
  assert (forall c R, b.2 <= c.2 -> 0 <= p.2 -> exists d, d ∈ join_lower p c R /\ b.2 <= d.2) as H.
  { intros c R Hc Hp. unfold join_lower. destruct (Z.eqb_spec (p.1 + HSIZE * p.2) c.1);
      [exists (p.1, p.2 + c.2)|exists c]; cbn [fst snd]; (split; [set_solver|lia]). }
  destruct B as [|x B]; cbn [join_upper]; [intros _; by apply H|].
  destruct (Z.eqb_spec (b.1 + HSIZE * b.2) x.1); intros Hx; apply H; cbn [fst snd]; [|lia].
  specialize (Hx x ltac:(by left)). lia.
Qed.

Lemma join_length b B p : let (c, R) := join_upper b B in (length (join_lower p c R) <= S (S (length B)))%nat.
Proof.
  assert (forall c R, (length (join_lower p c R) <= S (S (length R)))%nat) as H
    by (intros c R; unfold join_lower; destruct (_ =? _); simpl; lia).
  destruct B as [|x B]; cbn [join_upper]; [apply H|].
  destruct (b.1 + HSIZE * b.2 =? x.1); [|apply H]. etransitivity; [apply H|]. simpl. lia.
Qed.

(** A state whose ring is [B], in terms of what a change of memory has to keep. *)
Lemma heap_rebuild h L U m fp brk L' U' : heap_ok h L U -> linked m (ring L') base ->
  placed brk (ring L') U' -> base + HSIZE <= brk <= USERTOP ->
  (forall u, u ∈ U' -> is_block brk u /\ m (u.1 + 4) = u.2) ->
  (forall u u', u ∈ U' -> u' ∈ U' -> u <> u' -> apart u u') -> fp ∈ (ring L').*1 ->
  heap_ok (mk_heap m fp brk) L' U'.
Proof.
  intros Hok Hl [P1 P2 P3] Hb Hu Hd Hf. split; try done; [apply Hok| |].
  - intros b Hin. destruct (P2 b ltac:(by right)) as [->|?]; [exfalso|done].
    apply StronglySorted_cons in P1 as [P1 _]. rewrite Forall_forall in P1.
    specialize (P1 _ Hin). clear - P1. blk.
  - intros b u Hin. apply P3. by right.
Qed.

Lemma join_upper_sub b B : let (c, R) := join_upper b B in forall x, x ∈ R -> x ∈ B.
Proof. destruct B as [|x B]; cbn [join_upper]; [done|]. destruct (b.1 + HSIZE * b.2 =? x.1); [|done]. intros y Hy. by right. Qed.

Lemma placed_sub brk B U U' : U ⊆ U' -> placed brk B U' -> placed brk B U.
Proof. intros Hs [P1 P2 P3]. split; [done..|]. intros b u Hb Hu. apply P3; [done|by apply Hs]. Qed.

Lemma in_insert (b : Z * Z) U : b ∈ ({[b]} ∪ U : gset (Z * Z)).
Proof. apply elem_of_union_l, elem_of_singleton_2. reflexivity. Qed.

Section Free.
(** The block [b] lies between the blocks [p] and [B2] of the ring. *)
Context (h : heap) (L : list (Z * Z)) (U : gset (Z * Z)) (b p : Z * Z) (B1 B2 : list (Z * Z)).
Hypothesis (Hok : heap_ok h L ({[b]} ∪ U)) (HbU : b ∉ U) (Hring : ring L = B1 ++ p :: B2)
  (Hp : p.1 < b.1) (Habove : forall x, x ∈ B2 -> b.1 < x.1).

Lemma freed_block : is_block (h_brk h) b /\ h_mem h (b.1 + 4) = b.2.
Proof using Hok. apply (ok_used _ _ _ Hok), in_insert. Qed.

Lemma freed_apart x : x ∈ ring L -> header_apart b.1 x /\ apart x b.
Proof using Hok.
  intros Hx. destruct freed_block as [Hb _]. pose proof (heap_placed _ _ _ Hok) as Hpl.
  pose proof (placed_header _ _ _ x b Hpl Hx (in_insert b U) Hb).
  split; [|apply (pl_apart _ _ _ Hpl); [done|apply in_insert]]. unfold header_apart. blk.
Qed.

Lemma free_placed : placed (h_brk h) (B1 ++ p :: B2) U.
Proof using Hok Hring.
  rewrite <- Hring. eapply placed_sub; [|by apply heap_placed]. apply union_subseteq_r.
Qed.

Lemma kept_apart u : u ∈ U -> apart b u /\ 1 <= u.2.
Proof using Hok HbU.
  intros Hu. assert (u ∈ {[b]} ∪ U) as Hu' by by apply elem_of_union_r.
  split; [|apply (ok_used _ _ _ Hok u Hu')]. apply (ok_disjoint _ _ _ Hok); [apply in_insert|done|].
  intros E. apply HbU. by rewrite E.
Qed.

Lemma lower_neighbour : p = (base, 0) \/ is_block (h_brk h) p.
Proof using Hok Hring. apply (pl_block _ _ _ (heap_placed _ _ _ Hok)). rewrite Hring. apply elem_of_app. right. by left. Qed.

Lemma upper_blocks x : x ∈ B2 -> is_block (h_brk h) x /\ header_apart p.1 x.
Proof using Hok Hring Hp Habove HbU.
  intros Hx. pose proof (ring_headers _ _ _ Hok) as Hs. rewrite Hring in Hs. split.
  - destruct (pl_block _ _ _ (heap_placed _ _ _ Hok) x) as [->|?]; [rewrite Hring; set_solver| |done].
    exfalso. specialize (Habove _ Hx). destruct freed_block as [Hb _]. blk.
  - apply StronglySorted_app_1_r, StronglySorted_cons in Hs as [Hs _]. rewrite Forall_forall in Hs.
    right. by apply (Hs x).
Qed.

(** What [free] does to memory. *)
Lemma free_memory : let (c, R) := join_upper b B2 in
  exists m, free (b.1 + HSIZE) h = Ret tt (mk_heap m p.1 (h_brk h)) /\
    linked m (B1 ++ join_lower p c R) base /\
    (forall a, ~ (b.1 <= a < b.1 + HSIZE) -> ~ (p.1 <= a < p.1 + HSIZE) -> m a = h_mem h a).
Proof using Hok HbU Hring Hp Habove.
  destruct freed_block as [Hb Hbs]. pose proof Hok as [H1 H2 H3 _ _ _ _ _ _].
  pose proof freed_apart as Hba. pose proof upper_blocks as Hub. pose proof lower_neighbour as Hlow.
  rewrite Hring in H3, Hba. pose proof H3 as [HB1 (Hpn & Hps & HB2)]%linked_app.
  pose proof (free_upper_ok h b p B2 Hbs Hpn HB2 Hb H1 (proj2 H2)) as Hup.
  pose proof (join_upper_ok (h_brk h) B1 p b B2 U free_placed Hb) as Hj.
  pose proof (join_upper_sub b B2) as Hsub.
  destruct (join_upper b B2) as [c R]. destruct Hup as (m1 & E1 & O1 & L1);
    [apply Hba; set_solver|intros x Hx; split; [by apply Hub|apply Hba; set_solver]|].
  destruct Hj as (Ec & _ & Hc & _);
    [intros x Hx; split; [by apply Habove|apply Hba; set_solver]|by apply kept_apart|].
  destruct (Hba p ltac:(set_solver)) as [Hbp Hpb].
  assert (0 <= p.1 /\ 0 <= p.2) as [Hp1 Hp2] by (destruct Hlow as [->|?]; blk).
  destruct (free_lower_ok (set_h_mem m1 h) p c R L1) as (m2 & E2 & O2 & L2); [|done|done| |done|apply H2| |].
  { cbn. rewrite O1; [done|unfold header_apart, HSIZE in Hbp; lia..]. }
  { rewrite Ec. blk. }
  { intros x [->|Hx]%elem_of_cons; [|apply Hub; by apply Hsub]. unfold header_apart in *. rewrite Ec. lia. }
  exists m2. split; [|split].
  - unfold free. rewrite hplus_small by (unfold USERTOP in *; blk).
    replace (b.1 + HSIZE + HSIZE * -1) with b.1 by lia. mrun.
    mstep (free_finds h L _ B1 p B2 b.1 Hok Hring ltac:(blk) Hp Habove). mstep E1. rewrite <- Ec. mstep E2.
    reflexivity.
  - apply linked_app. split; [|done].
    assert (next (join_lower p c R) base = p.1) as -> by (unfold join_lower; by destruct (_ =? _)).
    pose proof (ring_headers _ _ _ Hok) as Hs. rewrite Hring in Hs.
    eapply linked_apart; [exact O2| |eapply linked_apart; [exact O1| |exact HB1]].
    + intros x Hx. left. apply (StronglySorted_app_1_elem_of header_before B1 (p :: B2)); set_solver.
    + intros x Hx. apply Hba. set_solver.
  - intros a Ha1 Ha2. rewrite O2, <- (O1 a); [done|unfold HSIZE in *; lia..].
Qed.
End Free.

(** [free] of a block the program holds. *)
Lemma free_block h L U b : heap_ok h L ({[b]} ∪ U) -> b ∉ U ->
  exists h' L', free (b.1 + HSIZE) h = Ret tt h' /\ heap_ok h' L' U /\ h_brk h' = h_brk h /\
    (forall a, covered L' a <-> covered L a \/ inside b a) /\
    (forall u a, u ∈ U -> inside u a -> h_mem h' a = h_mem h a) /\
    (exists d, d ∈ L' /\ b.2 <= d.2) /\ (length L' <= S (length L))%nat.
Proof.
  intros Hok HbU. destruct (freed_block h L U b Hok) as [Hb _]. pose proof (freed_apart h L U b Hok) as Hba.
  destruct (place_of b.1 (base, 0) L (ring_headers _ _ _ Hok) ltac:(blk)) as (B1 & p & B2 & E & Hp & HB2).
  fold (ring L) in E. assert (forall x, x ∈ B2 -> b.1 < x.1) as HB.
  { intros x Hx. specialize (HB2 x Hx). destruct (Hba x ltac:(rewrite E; set_solver)) as [Ha _].
    unfold header_apart, HSIZE in Ha. lia. }
  pose proof (lower_neighbour h L U b p B1 B2 Hok E) as Hlow.
  pose proof (free_memory h L U b p B1 B2 Hok HbU E Hp HB) as Hm.
  pose proof (join_placed (h_brk h) B1 p b B2 U (free_placed h L U b p B1 B2 Hok E) Hb) as Hj.
  pose proof (join_upper_ok (h_brk h) B1 p b B2 U (free_placed h L U b p B1 B2 Hok E) Hb) as Hu.
  pose proof (join_fits b B2 p) as Hfit. pose proof (join_length b B2 p) as Hlen.
  destruct (join_upper b B2) as [c R].
  destruct Hm as (m & E1 & Hl & Hout). pose proof (kept_apart h L U b Hok HbU) as Hka. rewrite E in Hba.
  destruct Hu as (Ec & _ & Hc & _); [intros x Hx; split; [by apply HB|apply Hba; set_solver]|done|].
  destruct Hj as [Hpl' Hcov]; [apply Hba|done|done|done|destruct Hlow as [->|?]; [by right|left; blk]|].
  destruct (join_ring L B1 p c B2 R E ltac:(blk)) as [L' EL]. rewrite EL in *.
  assert (forall u a, u ∈ U -> inside u a -> m a = h_mem h a) as Hkeep.
  { intros u a Hu Ha. destruct (Hka u Hu) as [Hap _].
    pose proof (ok_used _ _ _ Hok u ltac:(set_solver)) as [Hub _].
    pose proof (placed_header _ _ _ p u (free_placed h L U b p B1 B2 Hok E) ltac:(set_solver) Hu Hub).
    apply Hout; blk. }
  exists (mk_heap m p.1 (h_brk h)), L'. split_and!; [done| |done| |done| |].
  - apply (heap_rebuild h L _ m p.1 (h_brk h) L' U Hok Hl Hpl'); [apply Hok| | |].
    + intros u Hu. destruct (ok_used _ _ _ Hok u ltac:(set_solver)) as [Hk Hs].
      split; [done|]. rewrite (Hkeep u); [done..|]. blk.
    + intros u u' H1 H2. apply (ok_disjoint _ _ _ Hok); set_solver.
    + rewrite <- EL. apply list_elem_of_fmap. unfold join_lower.
      destruct (_ =? _); eexists; (split; [|apply elem_of_app; right; by left]); done.
  - intros a. rewrite <- (covered_ring L'), Hcov, <- E, covered_ring. done.
  - destruct Hfit as (d & Hd & Hle); [|destruct Hlow as [->|?]; [done|blk]|].
    { intros x Hx. destruct (upper_blocks h L U b p B1 B2 Hok HbU E Hp HB x Hx) as [? _]. blk. }
    exists d. split; [|done]. assert (d ∈ ring L') as Hin by (rewrite <- EL; set_solver).
    apply elem_of_cons in Hin as [->|?]; [exfalso; blk|done].
  - apply (f_equal length) in E, EL. rewrite length_app in E, EL. simpl in *. lia.
Qed.

(** ** [malloc] *)

(** Taking the last [k] units of a block, or all of them. *)
Definition taken (x : Z * Z) (k : Z) : Z * Z := (x.1 + HSIZE * (x.2 - k), k).
Definition left_over (x : Z * Z) (k : Z) : list (Z * Z) :=
  if x.2 =? k then [] else [(x.1, x.2 - k)].

Lemma left_over_in x k y : y ∈ left_over x k -> y = (x.1, x.2 - k) /\ x.2 <> k.
Proof. unfold left_over. destruct (Z.eqb_spec x.2 k); set_solver. Qed.

Lemma covered_taken x k a : 1 <= k <= x.2 ->
  (covered (left_over x k) a \/ inside (taken x k) a <-> inside x a).
Proof.
  intros Hk. unfold left_over, taken. destruct (Z.eqb_spec x.2 k) as [E|E].
  - unfold covered. split; [intros [(b & []%elem_of_nil & _)|?]; blk|right; blk].
  - unfold covered. setoid_rewrite list_elem_of_singleton. split; [intros [(? & -> & ?)|?]; blk|].
    intros Ha. destruct (Z.lt_ge_cases a (x.1 + HSIZE * (x.2 - k))); [left; eexists; split; [done|]; blk|right; blk].
Qed.

Lemma placed_take brk B1 x B2 U k : placed brk (B1 ++ x :: B2) U -> is_block brk x -> 1 <= k <= x.2 ->
  placed brk (B1 ++ left_over x k ++ B2) ({[taken x k]} ∪ U) /\ is_block brk (taken x k) /\
  taken x k ∉ U /\ (forall u, u ∈ U -> apart (taken x k) u).
Proof.
  intros [P1 P2 P3] Hx Hk. apply StronglySorted_app in P1 as (A & S1 & S2).
  apply StronglySorted_cons in S2 as [F2 S2]. rewrite Forall_forall in F2.
  assert (forall u, u ∈ U -> apart (taken x k) u) as Hu.
  { intros u Hu. pose proof (P3 x u ltac:(set_solver) Hu). unfold taken. blk. }
  split_and!; [split| | |done].
  - apply StronglySorted_app. split_and!; [|done|apply StronglySorted_app; split_and!; [| |done]].
    + intros y z Hy [[-> _]%left_over_in|Hz]%elem_of_app; [|apply A; set_solver].
      pose proof (A y x Hy ltac:(set_solver)). blk.
    + intros y z [-> _]%left_over_in Hz. specialize (F2 z Hz). blk.
    + unfold left_over. destruct (_ =? _); repeat constructor.
  - intros y [Hy|[[-> ?]%left_over_in|Hy]%elem_of_app]%elem_of_app; [apply P2; set_solver| |apply P2; set_solver].
    right. blk.
  - assert (forall y, y ∈ B1 ++ left_over x k ++ B2 -> (y = (x.1, x.2 - k) /\ x.2 <> k) \/
      (y ∈ B1 ++ x :: B2 /\ apart y x)) as Hy.
    { intros y [Hy|[?%left_over_in|Hy]%elem_of_app]%elem_of_app; [right|by left|right].
      - split; [set_solver|]. pose proof (A y x Hy ltac:(set_solver)). blk.
      - split; [set_solver|]. specialize (F2 y Hy). blk. }
    intros y u [[-> ?]|[Hin Hax]]%Hy [->%elem_of_singleton|Hi]%elem_of_union.
    + unfold taken. blk.
    + pose proof (P3 x u ltac:(set_solver) Hi). blk.
    + unfold taken. blk.
    + by apply P3.
  - unfold taken. blk.
  - intros Hin. specialize (Hu _ Hin). unfold taken in *. blk.
Qed.

Section Take.
(** The block [x] has [k] units and comes after [p] in the ring. *)
Context (h : heap) (L : list (Z * Z)) (U : gset (Z * Z)) (B1 : list (Z * Z)) (p x : Z * Z)
  (B2 : list (Z * Z)) (k : Z).
Hypothesis (Hok : heap_ok h L U) (Hring : ring L = B1 ++ p :: x :: B2) (Hk : 1 <= k <= x.2).

Lemma take_in : x ∈ L.
Proof using Hok Hring Hk. destruct B1; injection Hring as _ ->; set_solver. Qed.

Lemma take_block : is_block (h_brk h) x.
Proof using Hok Hring Hk. apply (ok_free _ _ _ Hok), take_in. Qed.

(** No other header of the ring is in the block. *)
Lemma take_headers y : y ∈ B1 ++ p :: B2 -> y.1 + HSIZE <= x.1 \/ x.1 + HSIZE * x.2 <= y.1.
Proof using Hok Hring Hk.
  pose proof (ring_headers _ _ _ Hok) as Hh. pose proof (ok_sorted _ _ _ Hok) as Hs.
  assert (ring L = (B1 ++ [p]) ++ x :: B2) as E by (by rewrite Hring, <- app_assoc). rewrite E in Hh, Hs.
  intros Hy. assert (y ∈ B1 ++ [p] \/ y ∈ B2) as [H|H] by (rewrite !elem_of_app, !elem_of_cons in *; tauto).
  - left. apply (StronglySorted_app_1_elem_of header_before (B1 ++ [p]) (x :: B2)); [done..|by left].
  - right. apply StronglySorted_app_1_r, StronglySorted_cons in Hs as [Hs _].
    rewrite Forall_forall in Hs. specialize (Hs y H). unfold before in Hs. lia.
Qed.

Lemma take_lower y : y ∈ B1 -> header_apart p.1 y.
Proof using Hok Hring Hk.
  pose proof (ring_headers _ _ _ Hok) as Hh. rewrite Hring in Hh. intros Hy. left.
  apply (StronglySorted_app_1_elem_of header_before B1 (p :: x :: B2)); [done..|by left].
Qed.

Lemma take_upper y : y ∈ B2 -> header_apart p.1 y.
Proof using Hok Hring Hk.
  pose proof (ring_headers _ _ _ Hok) as Hh. rewrite Hring in Hh. intros Hy. right.
  apply StronglySorted_app_1_r, StronglySorted_cons in Hh as [Hh _]. rewrite Forall_forall in Hh.
  apply (Hh y). by right.
Qed.

Lemma take_all : x.2 = k -> exists m,
  malloc_take k p.1 x.1 h = Ret (x.1 + HSIZE) (mk_heap m p.1 (h_brk h)) /\
  linked m (B1 ++ p :: B2) base /\ m (x.1 + 4) = k /\ only_header p.1 (h_mem h) m.
Proof using Hok Hring Hk.
  intros Ek. pose proof take_block as Hx. pose proof (take_headers p ltac:(set_solver)) as Hpx.
  pose proof Hok as [H1 H2 H3 _ _ _ _ _ _]. rewrite Hring in H3.
  pose proof H3 as [HB1 (Hpn & Hps & Hxn & Hxs & HB2)]%linked_app.
  exists (upd (h_mem h) p.1 (next B2 base)). split_and!; [| | |apply only_header_ptr].
  - unfold malloc_take, size, ptr, set_ptr. mrun. rewrite Hxs, Ek, Z.eqb_refl. mrun. rewrite Hxn.
    rewrite hplus_small by (unfold USERTOP in *; blk). reflexivity.
  - apply linked_app. split; [eapply linked_apart; [apply only_header_ptr|apply take_lower|exact HB1]|].
    split; [by rewrite upd_eq|]. split; [rewrite upd_ne by lia; done|].
    eapply linked_apart; [apply only_header_ptr|apply take_upper|exact HB2].
  - rewrite upd_ne by blk. lia.
Qed.

Lemma take_part : k < x.2 -> let r := x.1 + HSIZE * (x.2 - k) in
  let m := upd (upd (h_mem h) (x.1 + 4) (x.2 - k)) (r + 4) k in
  malloc_take k p.1 x.1 h = Ret (r + HSIZE) (mk_heap m p.1 (h_brk h)) /\
  linked m (B1 ++ p :: (x.1, x.2 - k) :: B2) base.
Proof using Hok Hring Hk.
  intros Hlt r m. pose proof take_block as Hx. pose proof take_headers as Hy.
  pose proof Hok as [H1 H2 H3 _ _ _ _ _ _]. rewrite Hring in H3.
  pose proof H3 as [HB1 (Hpn & Hps & Hxn & Hxs & HB2)]%linked_app. split.
  - unfold malloc_take, size, ptr, set_size. mrun. rewrite Hxs. zbool. mrun. cbn [set_h_mem h_mem].
    rewrite upd_eq, u32_small by (unfold USERTOP in *; blk). rewrite (hplus_small x.1), hplus_small by (unfold USERTOP in *; blk).
    reflexivity.
  - assert (forall y, y ∈ B1 ++ p :: B2 -> m y.1 = h_mem h y.1 /\ m (y.1 + 4) = h_mem h (y.1 + 4)) as Hm.
    { intros y Hin. specialize (Hy y Hin). unfold m, r. split; rewrite !upd_ne; done || blk. }
    apply linked_app. split; [eapply linked_ext; [|exact HB1]; intros y Hin; apply Hm; set_solver|].
    destruct (Hm p ltac:(set_solver)) as [E1 E2]. split; [by rewrite E1|]. split; [by rewrite E2|].
    split; [|split].
    + cbn [fst]. unfold m, r. rewrite !upd_ne by blk. exact Hxn.
    + cbn [fst snd]. unfold m, r. rewrite upd_ne, upd_eq by blk. done.
    + eapply linked_ext; [|exact HB2]. intros y Hin. apply Hm. set_solver.
Qed.

(** What [malloc_take] does. *)
Lemma take_block_ok : exists h' L', malloc_take k p.1 x.1 h = Ret ((taken x k).1 + HSIZE) h' /\
  heap_ok h' L' ({[taken x k]} ∪ U) /\ taken x k ∉ U /\ h_brk h' = h_brk h /\
  (forall a, covered L' a \/ inside (taken x k) a <-> covered L a) /\
  (forall u a, u ∈ U -> inside u a -> h_mem h' a = h_mem h a).
Proof using Hok Hring Hk.
  pose proof (heap_placed _ _ _ Hok) as Hpl. rewrite Hring, (cons_middle p), app_assoc in Hpl.
  destruct (placed_take _ _ _ _ _ k Hpl take_block Hk) as (Hpl' & Hb' & Hnew & Hap).
  assert (exists m, malloc_take k p.1 x.1 h = Ret ((taken x k).1 + HSIZE) (mk_heap m p.1 (h_brk h)) /\
    linked m (B1 ++ p :: left_over x k ++ B2) base /\ m ((taken x k).1 + 4) = k /\
    (forall a, ~ (p.1 <= a < p.1 + HSIZE) -> ~ inside x a -> m a = h_mem h a)) as (m & E & Hl & Hs & Hout).
  { unfold left_over, taken. destruct (Z.eqb_spec x.2 k) as [Ek|Hne].
    - destruct (take_all Ek) as (m & E & Hl & Hs & Ho). exists m.
      rewrite Ek, Z.sub_diag, Z.mul_0_r, Z.add_0_r. split_and!; try done.
      intros a Ha _. apply Ho; unfold HSIZE in Ha; lia.
    - destruct (take_part ltac:(lia)) as [E Hl]. eexists. split; [exact E|]. split; [exact Hl|].
      split; [apply upd_eq|]. intros a _ Ha. pose proof take_block. rewrite !upd_ne; [done|blk..]. }
  assert (exists L', B1 ++ p :: left_over x k ++ B2 = ring L') as [L' EL].
  { unfold ring in *. destruct B1 as [|b B]; injection Hring as E1 _; simpl; rewrite <- E1; eauto. }
  rewrite <- app_assoc in Hpl'. simpl in Hpl'. rewrite EL in *.
  assert (forall u a, u ∈ U -> inside u a -> m a = h_mem h a) as Hkeep.
  { intros u a Hu Ha. pose proof (ok_used _ _ _ Hok u Hu) as [Hub _].
    pose proof (heap_placed _ _ _ Hok) as Hp0. rewrite Hring in Hp0.
    pose proof (placed_header _ _ _ p u Hp0 ltac:(set_solver) Hu Hub).
    pose proof (pl_apart _ _ _ Hp0 x u ltac:(set_solver) Hu). apply Hout; blk. }
  exists (mk_heap m p.1 (h_brk h)), L'. split_and!; try done.
  - apply (heap_rebuild h L U m p.1 (h_brk h) L' _ Hok Hl Hpl' (ok_brk _ _ _ Hok)).
    + intros u [->%elem_of_singleton|Hu]%elem_of_union; [done|].
      destruct (ok_used _ _ _ Hok u Hu) as [Hk1 Hs1]. split; [done|]. rewrite (Hkeep u); [done..|blk].
    + intros u u' [->%elem_of_singleton|Hu]%elem_of_union [->%elem_of_singleton|Hu']%elem_of_union Hne;
        [done|by apply Hap| |by apply (ok_disjoint _ _ _ Hok)].
      specialize (Hap u Hu). unfold apart in *. tauto.
    + rewrite <- EL. apply list_elem_of_fmap. exists p. split; [done|set_solver].
  - intros a. rewrite <- (covered_ring L'), <- (covered_ring L), <- EL, Hring.
    rewrite !covered_app, !covered_cons, covered_app, <- (covered_taken x k a Hk). tauto.
Qed.
End Take.

(** ** The walk of [malloc] *)

Lemma linked_rotate m X Z q : linked m (X ++ Z) (next (X ++ Z) q) -> linked m (Z ++ X) (next (Z ++ X) q).
Proof.
  destruct X as [|x X]; [by rewrite app_nil_r|]. destruct Z as [|z Z]; [by rewrite app_nil_r|].
  rewrite !linked_app. cbn [app next]. tauto.
Qed.

Lemma ring_unique h L U x y : heap_ok h L U -> x ∈ ring L -> y ∈ ring L -> x.1 = y.1 -> x = y.
Proof.
  intros Hok Hx Hy E. pose proof (ring_headers _ _ _ Hok) as Hs.
  revert Hs Hx Hy. induction (ring L) as [|b B IH]; [set_solver|].
  intros [Hf Hs]%StronglySorted_cons. rewrite Forall_forall in Hf.
  intros [->|Hx]%elem_of_cons [->|Hy]%elem_of_cons; [done| | |by apply IH].
  - specialize (Hf y Hy). unfold header_before, HSIZE in Hf. lia.
  - specialize (Hf x Hx). unfold header_before, HSIZE in Hf. lia.
Qed.

(** A block that a pointer of the ring leads to. *)
Lemma ring_succ h L U y x : heap_ok h L U -> y ∈ ring L -> x ∈ ring L -> h_mem h y.1 = x.1 -> 1 <= x.2 ->
  exists B1 B2, ring L = B1 ++ y :: x :: B2.
Proof.
  intros Hok Hy Hx E Hn. destruct (list_elem_of_split _ _ Hy) as (B1 & B2 & ER).
  pose proof (ok_ring _ _ _ Hok) as Hl. rewrite ER in Hl. apply linked_app in Hl as [_ (Hp & _)].
  rewrite E in Hp. destruct B2 as [|z B2]; cbn [next] in Hp.
  - assert (x = (base, 0)) as -> by (eapply ring_unique; [done|done|by left|done]). simpl in Hn. lia.
  - exists B1, B2. rewrite ER. repeat f_equal. symmetry.
    eapply ring_unique; [done|done|rewrite ER; set_solver|done].
Qed.

Lemma malloc_walk h k j W : forall prev q, linked (h_mem h) (prev :: W) q ->
  (forall w, w ∈ W -> w.1 <> h_freep h) ->
  (exists y x, y ∈ prev :: W /\ x ∈ W /\ h_mem h y.1 = x.1 /\ k <= x.2 /\
     malloc_loop k prev.1 (next W q) (length W + j) h = malloc_take k y.1 x.1 h) \/
  ((forall w, w ∈ W -> w.2 < k) /\ exists y, y ∈ prev :: W /\ h_mem h y.1 = q /\
     malloc_loop k prev.1 (next W q) (length W + j) h = malloc_loop k y.1 q j h).
Proof.
  induction W as [|w W IH]; intros prev q (Hn & _ & Hl) Hf.
  - right. split; [set_solver|]. exists prev. split_and!; [by left|done|done].
  - cbn [next length Nat.add malloc_loop]. unfold size at 1 2, ptr. mrun.
    pose proof Hl as (Hwn & Hws & _). rewrite Hws. destruct (Z.leb_spec k w.2) as [Hk|Hk].
    + left. exists prev, w. split_and!; [by left|by left|done..].
    + mrun. rewrite (proj2 (Z.eqb_neq w.1 (h_freep h))) by (apply Hf; by left). mrun. rewrite Hwn.
      destruct (IH w q Hl) as [(y & x & Hy & Hx & H1 & H2 & E)|(Hs & y & Hy & H1 & E)];
        [intros v Hv; apply Hf; by right| |].
      * left. exists y, x. split_and!; [by right|by right|done..].
      * right. split; [intros v [->|Hv]%elem_of_cons; [lia|by apply Hs]|].
        exists y. split_and!; [by right|done..].
Qed.

(** A walk around the ring ends at the first block that is large enough, or
    back at [freep], where more memory is asked for. *)
Lemma malloc_round h L U k j : heap_ok h L U -> 1 <= k ->
  (exists B1 p x B2, ring L = B1 ++ p :: x :: B2 /\ k <= x.2 /\
     malloc_loop k (h_freep h) (h_mem h (h_freep h)) (length (ring L) + j) h = malloc_take k p.1 x.1 h) \/
  ((forall b, b ∈ L -> b.2 < k) /\
   malloc_loop k (h_freep h) (h_mem h (h_freep h)) (length (ring L) + j) h =
     (p <- morecore k ;; if p =? 0 then ret 0 else nx <- ptr p ;; malloc_loop k p nx j) h).
Proof.
  intros Hok Hk. pose proof (ok_freep _ _ _ Hok) as Hf. apply list_elem_of_fmap in Hf as (f & Ef & Hf).
  pose proof (list_elem_of_split _ _ Hf) as (X & Y & ER). pose proof (ok_ring _ _ _ Hok) as Hl.
  assert (linked (h_mem h) (f :: Y ++ X) f.1) as Hrot.
  { rewrite ER in Hl. apply (linked_rotate _ X (f :: Y) base). by rewrite <- ER at 2. }
  assert (forall w, w ∈ f :: Y ++ X -> w ∈ ring L) as Hin by (rewrite ER; set_solver).
  assert (length (ring L) + j = length (Y ++ X) + S j)%nat as -> by (rewrite ER, !length_app; simpl; lia).
  pose proof Hrot as (Hn & Hs & _). rewrite Ef, Hn.
  destruct (malloc_walk h k (S j) (Y ++ X) f f.1 Hrot) as
    [(y & x & Hy & Hx & H1 & H2 & E)|(Hsm & y & Hy & H1 & E)].
  - pose proof (ring_headers _ _ _ Hok) as Hh. rewrite ER in Hh. apply StronglySorted_app in Hh as (HX & _ & HY).
    apply StronglySorted_cons in HY as [HY _]. rewrite Forall_forall in HY. unfold header_before, HSIZE in *.
    intros w [Hw|Hw]%elem_of_app; [specialize (HY w Hw)|specialize (HX w f Hw ltac:(by left))]; lia.
  - left. destruct (ring_succ h L U y x Hok (Hin y Hy)) as (B1 & B2 & E2); [apply Hin; by right|done|lia|].
    exists B1, y, x, B2. done.
  - rewrite E. cbn [malloc_loop]. unfold size at 1 2. mrun. rewrite Hs. destruct (Z.leb_spec k f.2) as [Hkf|Hkf].
    + left. destruct (ring_succ h L U y f Hok (Hin y Hy) Hf) as (B1 & B2 & E2); [done|lia|].
      exists B1, y, f, B2. done.
    + right. split.
      * intros b Hb. assert (b ∈ ring L) as Hb' by by right. rewrite ER in Hb'.
        destruct (decide (b = f)) as [->|Hne]; [done|]. apply Hsm. set_solver.
      * mrun. rewrite Ef, Z.eqb_refl. done.
Qed.

(** ** More memory *)

(** The memory of the blocks [U] is the same. *)
Definition kept U (h h' : heap) : Prop := forall u a, u ∈ U -> inside u a -> h_mem h' a = h_mem h a.

(** Memory above the break, seen as one more block of the program. *)
Lemma heap_grow h L U m n : heap_ok h L U -> (forall a, a < h_brk h -> m a = h_mem h a) ->
  m (h_brk h + 4) = n -> 1 <= n -> h_brk h + HSIZE * n <= USERTOP ->
  heap_ok (mk_heap m (h_freep h) (h_brk h + HSIZE * n)) L ({[(h_brk h, n)]} ∪ U) /\ (h_brk h, n) ∉ U.
Proof.
  intros Hok Hm Hs Hn Htop. pose proof Hok as [H1 H2 H3 H4 H5 H6 H7 H8 H9].
  assert (forall u, u ∈ U -> apart (h_brk h, n) u) as Hu by (intros u Hin; destruct (H6 u Hin) as [? _]; blk).
  split; [split; cbn [h_mem h_brk h_freep]; try done; [blk| | | | |]|].
  - eapply linked_ext; [|exact H3]. intros b [->|Hb]%elem_of_cons.
    + split; apply Hm; blk.
    + specialize (H5 b Hb). split; apply Hm; blk.
  - intros b Hb. specialize (H5 b Hb). blk.
  - intros u [->%elem_of_singleton|Hin]%elem_of_union; [split; [blk|done]|].
    destruct (H6 u Hin) as [Hb <-]. split; [blk|]. apply Hm. blk.
  - intros b u Hb [->%elem_of_singleton|Hin]%elem_of_union; [|by apply H7]. specialize (H5 b Hb). blk.
  - intros u u' [->%elem_of_singleton|Hi]%elem_of_union [->%elem_of_singleton|Hi']%elem_of_union Hne;
      [done|by apply Hu| |by apply H8]. specialize (Hu u Hi). unfold apart in *. tauto.
  - intros Hin. specialize (Hu _ Hin). blk.
Qed.

Lemma morecore_ok h L U k : heap_ok h L U -> 1 <= k < 2 ^ 28 -> morecore k h = Ret 0 h \/
  exists h' L', morecore k h = Ret (h_freep h') h' /\ h_freep h' <> 0 /\ heap_ok h' L' U /\
    (forall a, covered L' a <-> covered L a \/ h_brk h <= a < h_brk h') /\ kept U h h' /\
    (exists d, d ∈ L' /\ k <= d.2) /\ (length L' <= S (length L))%nat.
Proof.
  intros Hok Hk. unfold morecore. set (n := if k <? 4096 then 4096 else k).
  assert (k <= n /\ 1 <= n < 2 ^ 28) as [Hkn Hn] by (unfold n; destruct (Z.ltb_spec k 4096); lia).
  pose proof (ok_brk _ _ _ Hok) as Hb. pose proof (ok_base _ _ _ Hok) as Hb0.
  rewrite u32_small, s32_small by (unfold HSIZE; lia).
  destruct (sbrk_law (n * HSIZE) h) as [E|(m & E & Htop & Hm)];
    [unfold HSIZE; lia|unfold HSIZE in *; lia| |]; mstep E; [by left; rewrite Z.eqb_refl|right].
  rewrite (proj2 (Z.eqb_neq _ _)) by (vm_compute (u32 (-1)); unfold USERTOP in *; lia).
  unfold set_size. mrun. cbn [h_mem]. rewrite hplus_small by (unfold HSIZE, USERTOP in *; lia).
  unfold set_h_mem. cbn [h_mem h_freep h_brk]. rewrite (Z.mul_comm n) in *.
  destruct (heap_grow h L U (upd m (h_brk h + 4) n) n Hok) as [Hok1 Hnew]; [|apply upd_eq|lia|done|].
  { intros a Ha. rewrite upd_ne by lia. by apply Hm. }
  destruct (free_block _ _ _ _ Hok1 Hnew) as (h' & L' & E1 & Hok' & Hbrk & Hcov & Hkeep & (d & Hd & Hdn) & Hlen).
  cbn [fst snd h_mem h_brk h_freep] in *. rewrite Z.mul_1_r. mstep E1. exists h', L'. split_and!; try done.
  - intros E0. pose proof (ok_freep _ _ _ Hok') as Hf. rewrite E0 in Hf.
    apply list_elem_of_fmap in Hf as (x & Ex & [->|Hx]%elem_of_cons); [simpl in Ex; lia|].
    pose proof (ok_free _ _ _ Hok' x Hx). blk.
  - intros a. rewrite Hcov, Hbrk. done.
  - intros u a Hu Ha. rewrite (Hkeep u a Hu Ha). destruct (ok_used _ _ _ Hok u Hu) as [Hub _].
    rewrite upd_ne by blk. apply Hm. blk.
  - exists d. split; [done|lia].
Qed.

(** ** The contract of [malloc] and [free] *)

(** What [malloc] gives: a new block [b], from the free blocks or from memory
    above the old break, or nothing when no free block is large enough. *)
Definition allocates (h : heap) L U (k r : Z) (h' : heap) : Prop :=
  (r = 0 /\ heap_ok h' L U /\ h_brk h' = h_brk h /\ kept U h h' /\ forall b, b ∈ L -> b.2 < k) \/
  exists b L', r = b.1 + HSIZE /\ b.2 = k /\ b ∉ U /\ heap_ok h' L' ({[b]} ∪ U) /\ kept U h h' /\
    forall a, covered L' a \/ inside b a <-> covered L a \/ h_brk h <= a < h_brk h'.

Lemma malloc_loop_ok h L U k : heap_ok h L U -> 1 <= k < 2 ^ 28 ->
  exists r h', malloc_loop k (h_freep h) (h_mem h (h_freep h)) (2 * ring_rounds h + 3) h = Ret r h' /\
    allocates h L U k r h'.
Proof.
  intros Hok Hk. pose proof (ring_rounds_enough h L U Hok) as Hr.
  set (j := (2 * ring_rounds h + 3 - length (ring L))%nat).
  replace (2 * ring_rounds h + 3)%nat with (length (ring L) + j)%nat by lia.
  destruct (malloc_round h L U k j Hok ltac:(lia)) as [(B1 & p & x & B2 & ER & Hx & E)|(Hsm & E)]; rewrite E.
  - destruct (take_block_ok h L U B1 p x B2 k Hok ER ltac:(lia)) as (h' & L' & E' & Hok' & Hn & Hb & Hc & Hkp).
    exists ((taken x k).1 + HSIZE), h'. split; [done|]. right. exists (taken x k), L'. split_and!; try done.
    intros a. rewrite Hc, Hb. split; [tauto|]. intros [?|?]; [done|lia].
  - destruct (morecore_ok h L U k Hok Hk) as [E1|(h1 & L1 & E1 & Hnz & Hok1 & Hc1 & Hk1 & (d & Hd & Hdk) & Hlen)];
      mstep E1.
    { exists 0, h. split; [done|]. left. split_and!; try done. }
    rewrite (proj2 (Z.eqb_neq _ _)) by done. unfold ptr. mrun.
    replace j with (length (ring L1) + (j - length (ring L1)))%nat
      by (unfold j, ring in *; simpl in *; lia).
    destruct (malloc_round h1 L1 U k (j - length (ring L1)) Hok1 ltac:(lia))
      as [(B1 & p & x & B2 & ER & Hx & E2)|(Hsm1 & _)]; [|specialize (Hsm1 d Hd); lia].
    rewrite E2.
    destruct (take_block_ok h1 L1 U B1 p x B2 k Hok1 ER ltac:(lia)) as (h' & L' & E' & Hok' & Hn & Hb & Hc & Hkp).
    exists ((taken x k).1 + HSIZE), h'. split; [done|]. right. exists (taken x k), L'. split_and!; try done.
    + intros u a Hu Ha. by rewrite (Hkp u a Hu Ha), (Hk1 u a Hu Ha).
    + intros a. by rewrite Hc, Hb.
Qed.

(** Before the first call. *)
Definition heap_fresh (h : heap) L U : Prop :=
  h_freep h = 0 /\ 0 < base /\ base + HSIZE <= h_brk h <= USERTOP /\ L = [] /\ U = ∅.

Lemma units_enough nbytes : 0 <= nbytes <= 2 ^ 31 - 16 ->
  1 <= units_of nbytes < 2 ^ 28 /\ nbytes <= HSIZE * (units_of nbytes - 1).
Proof.
  intros Hn. unfold units_of. rewrite (u32_small (nbytes + HSIZE - 1)) by (unfold HSIZE; lia).
  unfold HSIZE. pose proof (Z.div_mod (nbytes + 8 - 1) 8 ltac:(lia)).
  pose proof (Z.mod_pos_bound (nbytes + 8 - 1) 8 ltac:(lia)).
  rewrite u32_small by lia. lia.
Qed.


(** C34: [free] of a block that the program holds returns, makes its memory free
    again, joined with the free neighbours it touches, so that no two free
    blocks touch; it loses no memory and leaves the other blocks alone. *)
Theorem free_ok h L U b : heap_ok h L U -> b ∈ U ->
  exists h' L', free (b.1 + HSIZE) h = Ret tt h' /\ heap_ok h' L' (U ∖ {[b]}) /\ h_brk h' = h_brk h /\
    (forall a, covered L' a <-> covered L a \/ inside b a) /\ kept (U ∖ {[b]}) h h'.
Proof.
  intros Hok Hb. destruct (free_block h L (U ∖ {[b]}) b) as (h' & L' & E & H1 & H2 & H3 & H4 & _).
  - by rewrite <- union_difference_singleton_L.
  - set_solver.
  - exists h', L'. done.
Qed.
End Malloc.

(** ** A program of its own *)

(** A kernel that gives zeroed memory up to 128 kB. *)
Definition demo_sbrk_fn (n : Z) (h : heap) : outcome heap Z :=
  if h_brk h + n <=? 131072 then
    Ret (h_brk h) (mk_heap (fun a => if a <? h_brk h then h_mem h a else 0) (h_freep h) (h_brk h + n))
  else Ret (u32 (-1)) h.

Lemma demo_sbrk_law n h : 0 < n < 2 ^ 31 -> 0 <= h_brk h <= USERTOP ->
  demo_sbrk_fn n h = Ret (u32 (-1)) h \/
  exists m, demo_sbrk_fn n h = Ret (h_brk h) (mk_heap m (h_freep h) (h_brk h + n)) /\
    h_brk h + n <= USERTOP /\ (forall a, a < h_brk h -> m a = h_mem h a).
Proof.
  intros Hn Hb. unfold demo_sbrk_fn. destruct (Z.leb_spec (h_brk h + n) 131072) as [H|H]; [right|by left].
  eexists. split; [done|]. split; [unfold USERTOP; lia|]. intros a Ha. by zbool.
Qed.

Definition demo_sbrk : Sbrk := {| sbrk := demo_sbrk_fn; sbrk_law := demo_sbrk_law |}.

(** [base] at 4096, the break at 12288. *)
Definition demo_heap : heap := mk_heap (fun _ => 0) 0 12288.

Lemma demo_fresh : heap_fresh 4096 demo_heap [] ∅.
Proof. split_and!; try done; by_eval. Qed.


(** Two blocks, the second of them free: [base], a free block of 4096 - 14
    units and the block of 14 units above it. *)
Definition demo_used : heap :=
  mk_heap (upd (upd (upd (upd (upd (fun _ => 0) 4096 12288) 12288 4096) 12292 4082) 44948 14) 4100 0)
    4096 45056.

Lemma demo_used_ok : heap_ok 4096 demo_used [(12288, 4082)] {[(44944, 14)]}.
Proof.
  split; [by_eval|split; by_eval|split_and!; by_eval| | | | | |left].
  - apply SSorted_cons; [apply SSorted_cons; [apply SSorted_nil|apply Forall_nil_2]|].
    apply Forall_cons_2; [unfold before; by_eval|apply Forall_nil_2].
  - intros b ->%list_elem_of_singleton. split_and!; by_eval.
  - intros u ->%elem_of_singleton. split_and!; by_eval.
  - intros b u ->%list_elem_of_singleton ->%elem_of_singleton. left. by_eval.
  - intros u u' ->%elem_of_singleton ->%elem_of_singleton H. destruct (H eq_refl).
Qed.

Lemma free_ok_witness : exists h' L', free 44952 demo_used = Ret tt h' /\ heap_ok 4096 h' L' ∅ /\
  covered L' 44960.
Proof.
  destruct (free_ok 4096 demo_used _ _ (44944, 14) demo_used_ok ltac:(by apply elem_of_singleton_2))
    as (h' & L' & E & Hok & _ & Hc & _).
  exists h', L'. split; [exact E|]. split.
  - replace (∅ : gset (Z * Z)) with ({[(44944, 14)]} ∖ {[(44944, 14)]} : gset (Z * Z)); [exact Hok|].
    apply difference_diag_L.
  - apply Hc. right. split; by_eval.
Defined.
