(* ===== verification/User.v ===== *)
(** The world of the user programs: the system calls they make, the C library
    of ulib.c and [printf] of printf.c.

    A user program reaches the kernel only through system calls.  [Sys] lists
    the calls the programs use, over a type [W] of worlds; [SysLaws] is what
    the programs rely on: [read] hands out a prefix of what is still to come
    from a descriptor, at least one byte unless nothing is, and [write]
    appends.  [exit] leaves the program for good, which is the outcome
    [Switch].  The instance [desk] is a world in which every descriptor holds
    the pieces that successive reads deliver.

    A C string is the list of its bytes before the NUL, all of them in 1..255;
    the [char] type is signed, but the programs only compare characters for
    equality or with ASCII constants. *)

From stdpp Require Import base list strings.
From Stdlib Require Import ZArith Lia.
From S2P Require Import Prelude CString Cons.

Open Scope kernel_scope.

(** ** System calls *)

(** [struct stat] *)
Record stat : Type := mk_stat {
  st_type : Z; st_dev : Z; st_ino : Z; st_nlink : Z; st_size : Z }.

Class Sys (W : Type) : Type := {
  u_open : list Z -> Z -> M W Z;
  u_close : Z -> M W Z;
  (** the result and the bytes stored in the buffer *)
  u_read : Z -> Z -> M W (Z * list Z);
  u_write : Z -> list Z -> M W Z;
  (** [None] when the call returns -1 *)
  u_fstat : Z -> M W (option stat);
  u_unlink : list Z -> M W Z;
  u_mkdir : list Z -> M W Z;
  u_link : list Z -> list Z -> M W Z;
  u_kill : Z -> M W Z;
  u_copy : list Z -> list Z -> M W Z;
  u_clear_console : M W Z }.

(** The calls of the shell. *)
Class SysProc (W : Type) : Type := {
  u_fork : M W Z;
  u_wait : M W Z;
  u_exec : list Z -> list (list Z) -> M W Z;
  (** the result and the two descriptors *)
  u_pipe : M W (Z * (Z * Z));
  u_dup : Z -> M W Z;
  u_chdir : list Z -> M W Z }.

Definition exit {W A} : M W A := fun w => Switch w.

(** What is still to be read from a descriptor, and what was written to it;
    [None] if it cannot be read, or written.  A regular file gives as many
    bytes as it is asked for. *)
Class SysLaws (W : Type) `{Sys W} : Type := {
  pending : Z -> W -> option (list Z);
  written : Z -> W -> option (list Z);
  regular : Z -> W -> bool;
  read_law fd n w bs : pending fd w = Some bs -> 0 < n ->
    exists out rest w', u_read fd n w = Ret (Z.of_nat (length out), out) w' /\
      bs = out ++ rest /\ Z.of_nat (length out) <= n /\ (out = [] -> rest = []) /\
      (regular fd w = true -> out = take (Z.to_nat n) bs) /\
      pending fd w' = Some rest /\ (regular fd w = true -> regular fd w' = true) /\
      (forall f, written f w' = written f w) /\
      (forall f, f <> fd -> pending f w' = pending f w);
  write_law fd bs w ws : written fd w = Some ws ->
    exists w', u_write fd bs w = Ret (Z.of_nat (length bs)) w' /\
      written fd w' = Some (ws ++ bs) /\
      (forall f, f <> fd -> written f w' = written f w) /\
      (forall f, pending f w' = pending f w /\ regular f w' = regular f w) }.

(** ** A world of pieces *)

Record desk : Type := mk_desk {
  dk_in : Z -> option (list (list Z));
  dk_out : Z -> option (list Z) }.

Definition desk_read (fd n : Z) (w : desk) : outcome desk (Z * list Z) :=
  match dk_in w fd with
  | None => Ret (-1, []) w
  | Some [] => Ret (0, []) w
  | Some (piece :: ps) =>
    let out := take (Z.to_nat n) piece in
    let rest := drop (Z.to_nat n) piece in
    Ret (Z.of_nat (length out), out)
      (mk_desk (fun f => if decide (f = fd) then Some (if decide (rest = []) then ps else rest :: ps)
                else dk_in w f) (dk_out w))
  end.

Definition desk_write (fd : Z) (bs : list Z) (w : desk) : outcome desk Z :=
  match dk_out w fd with
  | None => Ret (-1) w
  | Some ws => Ret (Z.of_nat (length bs))
      (mk_desk (dk_in w) (fun f => if decide (f = fd) then Some (ws ++ bs) else dk_out w f))
  end.

(** Nothing else can be done here. *)
#[export] Instance desk_sys : Sys desk := {|
  u_open _ _ := ret (-1); u_close _ := ret (-1); u_read := desk_read; u_write := desk_write;
  u_fstat _ := ret None; u_unlink _ := ret (-1); u_mkdir _ := ret (-1);
  u_link _ _ := ret (-1); u_kill _ := ret (-1); u_copy _ _ := ret (-1);
  u_clear_console := ret (-1) |}.

(** Empty pieces are not delivered. *)
Definition desk_pending (fd : Z) (w : desk) : option (list Z) :=
  match dk_in w fd with
  | Some ps => if forallb (fun p => bool_decide (p <> [])) ps then Some (concat ps) else None
  | None => None
  end.
Definition desk_regular (fd : Z) (w : desk) : bool :=
  match dk_in w fd with Some [] | Some [_] => true | _ => false end.

Lemma desk_read_law fd n w bs : desk_pending fd w = Some bs -> 0 < n ->
  exists out rest w', desk_read fd n w = Ret (Z.of_nat (length out), out) w' /\
    bs = out ++ rest /\ Z.of_nat (length out) <= n /\ (out = [] -> rest = []) /\
    (desk_regular fd w = true -> out = take (Z.to_nat n) bs) /\
    desk_pending fd w' = Some rest /\ (desk_regular fd w = true -> desk_regular fd w' = true) /\
    (forall f, dk_out w' f = dk_out w f) /\
    (forall f, f <> fd -> desk_pending f w' = desk_pending f w).
Proof.
  intros Hp Hn. unfold desk_pending in Hp. unfold desk_read, desk_regular.
  destruct (dk_in w fd) as [[|piece ps]|] eqn:E; [| |done].
  - injection Hp as <-. exists [], [], w. split_and!; try done; [simpl; lia|by destruct (Z.to_nat n)|..].
    + unfold desk_pending. by rewrite E.
    + unfold desk_regular. by rewrite E.
  - cbn [forallb] in Hp. destruct (bool_decide (piece <> [])) eqn:Eb; [|done].
    cbn [andb] in Hp. destruct (forallb _ ps) eqn:Eps; [|done]. injection Hp as <-.
    apply bool_decide_eq_true in Eb.
    exists (take (Z.to_nat n) piece), (drop (Z.to_nat n) piece ++ concat ps). eexists.
    split; [reflexivity|]. split_and!.
    + by rewrite app_assoc, take_drop.
    + rewrite length_take. lia.
    + intros Ht. destruct piece; [done|]. destruct (Z.to_nat n) eqn:En; [lia|done].
    + intros Hr. destruct ps; [|done]. simpl. by rewrite app_nil_r.
    + unfold desk_pending. cbn [dk_in]. rewrite decide_True by done. case_decide as Hd.
      * by rewrite Eps, Hd.
      * cbn [forallb]. by rewrite bool_decide_eq_true_2, Eps by done.
    + unfold desk_regular. cbn [dk_in]. rewrite E, decide_True by done.
      destruct ps; [|done]. by case_decide.
    + done.
    + intros f Hf. unfold desk_pending. cbn [dk_in]. by rewrite decide_False.
Qed.

Lemma desk_write_law fd bs w ws : dk_out w fd = Some ws ->
  exists w', desk_write fd bs w = Ret (Z.of_nat (length bs)) w' /\
    dk_out w' fd = Some (ws ++ bs) /\ (forall f, f <> fd -> dk_out w' f = dk_out w f) /\
    (forall f, desk_pending f w' = desk_pending f w /\ desk_regular f w' = desk_regular f w).
Proof.
  intros Hw. unfold desk_write. rewrite Hw. eexists. split; [reflexivity|].
  cbn [dk_out]. rewrite decide_True by done. split_and!; [done| |done].
  intros f Hf. by rewrite decide_False.
Qed.

#[export] Instance desk_laws : SysLaws desk := {|
  pending := desk_pending; written fd w := dk_out w fd; regular := desk_regular;
  read_law := desk_read_law; write_law := desk_write_law |}.

(** ** ulib.c *)

Module Ulib.

(** [strcpy] into the array [s], which is large enough. *)
Definition strcpy (s t : list Z) : list Z := splice 0 (t ++ [0]) s.

Fixpoint strcmp (p q : list Z) : Z :=
  match p, q with
  | [], [] => 0
  | [], c :: _ => 0 - u8 c
  | c :: _, [] => u8 c - 0
  | c :: p, d :: q => if c =? d then strcmp p q else u8 c - u8 d
  end.

Fixpoint strlen (s : list Z) : Z :=
  match s with [] => 0 | _ :: s => 1 + strlen s end.

(** The offset of the first [c] in the string. *)
Fixpoint strchr (s : list Z) (c : Z) : option nat :=
  match s with
  | [] => None
  | x :: s => if x =? c then Some O else S <$> strchr s c
  end.

(** The loop [while('0' <= *s && *s <= '9') n = n*10 + *s++ - '0']. *)
Fixpoint atoi_loop (n : Z) (s : list Z) : Z :=
  match s with
  | c :: s => if (48 <=? c) && (c <=? 57) then atoi_loop (s32 (n * 10 + c - 48)) s else n
  | [] => n
  end.
Definition atoi (s : list Z) : Z := atoi_loop 0 s.

Definition memset (m : Z -> Z) (dst c : Z) (n : nat) : Z -> Z := stosb m dst c n.

(** Upwards always, whichever of the two comes first. *)
Definition memmove (m : Z -> Z) (vdst vsrc : Z) (n : nat) : Z -> Z := copy_up m vdst vsrc n.

(** The same within one array: [n] bytes from index [s] to index [d]. *)
Fixpoint array_move (l : list Z) (d s n : nat) : list Z :=
  match n with
  | O => l
  | S n => array_move (<[d := l !!! s]> l) (S d) (S s) n
  end.

Section Calls.
Context {W : Type} `{Sys W}.

(** One character at a time until the line ends, [max - 1] of them at most;
    [buf] is what has been stored, [k] the characters that still fit. *)
Fixpoint gets_loop (buf : list Z) (k : nat) : M W (list Z) :=
  match k with
  | O => ret buf
  | S k =>
    r <- u_read 0 1 ;;
    if fst r <? 1 then ret buf else
    let c := snd r !!! O in
    if (c =? 10) || (c =? 13) then ret (buf ++ [c]) else gets_loop (buf ++ [c]) k
  end.
Definition gets (max : Z) : M W (list Z) := gets_loop [] (Z.to_nat (max - 1)).

Definition stat (n : list Z) : M W (option stat) :=
  fd <- u_open n 0 ;;
  if fd <? 0 then ret None else
  r <- u_fstat fd ;;
  u_close fd ;;;
  ret r.
End Calls.
End Ulib.

(** ** printf.c *)

Module Printf.
Section Printf.
Context {W : Type} `{Sys W}.

Definition digits : list Z := bytes_of "0123456789ABCDEF".

Definition putc (fd c : Z) : M W unit := u_write fd [u8 c] ;;; ret tt.

(** The digits of the number, the first last, are collected in [buf]; see
    [int_chars]. *)
Definition printint (fd xx base : Z) (sgn : bool) : M W unit :=
  mfor (putc fd) (int_chars digits xx base sgn).

(** [st]: a [%] was read. *)
Fixpoint printf_loop (fd : Z) (fmt : list Z) (st : bool) (ap : list parg) : M W unit :=
  match fmt with
  | [] => ret tt
  | c :: fmt =>
    if negb st then
      if c =? 37 then printf_loop fd fmt true ap
      else putc fd c ;;; printf_loop fd fmt false ap
    else if c =? 100 then
      printint fd (arg_int (head ap)) 10 true ;;; printf_loop fd fmt false (tail ap)
    else if (c =? 120) || (c =? 112) then
      printint fd (arg_int (head ap)) 16 false ;;; printf_loop fd fmt false (tail ap)
    else if c =? 115 then
      mfor (putc fd) (arg_str (head ap)) ;;; printf_loop fd fmt false (tail ap)
    else if c =? 99 then
      putc fd (arg_int (head ap)) ;;; printf_loop fd fmt false (tail ap)
    else if c =? 37 then putc fd c ;;; printf_loop fd fmt false ap
    else putc fd 37 ;;; putc fd c ;;; printf_loop fd fmt false ap
  end.

Definition printf (fd : Z) (fmt : list Z) (ap : list parg) : M W unit :=
  printf_loop fd fmt false ap.
End Printf.
End Printf.

(** ** Arrays and strings *)

(** The C string at the start of an array. *)
Fixpoint str (l : list Z) : list Z :=
  match l with [] => [] | c :: l => if c =? 0 then [] else c :: str l end.

Lemma str_app t l : 0 ∉ t -> str (t ++ 0 :: l) = t.
Proof.
  induction t as [|c t IH]; intros H; [done|]. apply not_elem_of_cons in H as [Hc Ht].
  cbn [app str]. rewrite (proj2 (Z.eqb_neq c 0)) by congruence. by rewrite IH.
Qed.

Lemma str_skip t l : 0 ∉ t -> str (t ++ l) = t ++ str l.
Proof.
  induction t as [|c t IH]; intros H; [done|]. apply not_elem_of_cons in H as [Hc Ht].
  cbn [app str]. rewrite (proj2 (Z.eqb_neq c 0)) by congruence. by rewrite IH.
Qed.

Lemma strchr_app u c v : c ∉ u -> Ulib.strchr (u ++ c :: v) c = Some (length u).
Proof.
  induction u as [|x u IH]; intros H; cbn [app Ulib.strchr length]; [by rewrite Z.eqb_refl|].
  apply not_elem_of_cons in H as [Hc Hu]. rewrite (proj2 (Z.eqb_neq x c)) by congruence.
  by rewrite IH.
Qed.

Lemma strchr_none u c : c ∉ u -> Ulib.strchr u c = None.
Proof.
  induction u as [|x u IH]; intros H; cbn [Ulib.strchr]; [done|].
  apply not_elem_of_cons in H as [Hc Hu]. rewrite (proj2 (Z.eqb_neq x c)) by congruence.
  by rewrite IH.
Qed.

(** Moving down in an array is a copy. *)
Lemma array_move_down n : forall l d s, (d <= s)%nat -> (s + n <= length l)%nat ->
  Ulib.array_move l d s n = splice d (take n (drop s l)) l.
Proof.
  induction n as [|n IH]; intros l d s Hd Hs; cbn [Ulib.array_move].
  { unfold splice. rewrite take_0. simpl. by rewrite Nat.add_0_r, take_drop. }
  assert (s < length l)%nat as Hlt by lia. apply lookup_lt_is_Some in Hlt as [c Hc].
  rewrite IH by (rewrite ?length_insert; lia). rewrite drop_insert_lt by lia.
  rewrite (drop_S l c s Hc). cbn [take]. rewrite (list_lookup_total_correct _ _ _ Hc).
  unfold splice. cbn [length]. rewrite (take_S_r _ d c) by (apply list_lookup_insert_eq; lia).
  rewrite take_insert_ge, drop_insert_lt by (rewrite ?length_take, ?length_drop; lia).
  rewrite <- app_assoc. cbn [app]. do 3 f_equal. f_equal. lia.
Qed.

(** ** Output *)

Section Emits.
Context {W : Type} `{SysLaws W}.

(** [m] writes [bs] to [fd] and does nothing else. *)
Definition emits (fd : Z) (m : M W unit) (bs : list Z) : Prop :=
  forall w ws, written fd w = Some ws ->
  exists w', m w = Ret tt w' /\ written fd w' = Some (ws ++ bs) /\
    (forall f, f <> fd -> written f w' = written f w) /\
    (forall f, pending f w' = pending f w /\ regular f w' = regular f w).

Lemma emits_ret fd : emits fd (ret tt) [].
Proof. intros w ws Hw. exists w. by rewrite app_nil_r. Qed.

Lemma emits_bind fd m1 bs1 m2 bs2 :
  emits fd m1 bs1 -> emits fd m2 bs2 -> emits fd (m1 ;;; m2) (bs1 ++ bs2).
Proof.
  intros H1 H2 w ws Hw. destruct (H1 w ws Hw) as (w1 & E1 & W1 & O1 & P1). mstep E1.
  destruct (H2 w1 _ W1) as (w2 & E2 & W2 & O2 & P2). exists w2. rewrite app_assoc.
  split_and!; [done|done|intros f Hf; by rewrite O2, O1|].
  intros f. destruct (P1 f), (P2 f). by split; etransitivity.
Qed.

Lemma emits_write fd bs : emits fd (u_write fd bs ;;; ret tt) bs.
Proof.
  intros w ws Hw. destruct (write_law fd bs w ws Hw) as (w' & E & ?). mstep E. by exists w'.
Qed.

Lemma emits_putc fd c : emits fd (Printf.putc fd c) [u8 c].
Proof. apply emits_write. Qed.

Lemma emits_mfor fd cs : emits fd (mfor (Printf.putc fd) cs) (map u8 cs).
Proof.
  induction cs as [|c cs IH]; [apply emits_ret|]. cbn [mfor map].
  apply (emits_bind fd _ [u8 c]); [apply emits_putc|done].
Qed.

(** The bytes a format stands for: the conversion after a [%], and the rest. *)
Fixpoint formatted (fmt : list Z) (st : bool) (ap : list parg) : list Z :=
  match fmt with
  | [] => []
  | c :: fmt =>
    if negb st then if c =? 37 then formatted fmt true ap else u8 c :: formatted fmt false ap
    else if c =? 100
    then map u8 (int_chars Printf.digits (arg_int (head ap)) 10 true) ++ formatted fmt false (tail ap)
    else if (c =? 120) || (c =? 112)
    then map u8 (int_chars Printf.digits (arg_int (head ap)) 16 false) ++ formatted fmt false (tail ap)
    else if c =? 115 then map u8 (arg_str (head ap)) ++ formatted fmt false (tail ap)
    else if c =? 99 then u8 (arg_int (head ap)) :: formatted fmt false (tail ap)
    else if c =? 37 then u8 c :: formatted fmt false ap
    else 37 :: u8 c :: formatted fmt false ap
  end.

Lemma printf_emits fd fmt ap : emits fd (Printf.printf fd fmt ap) (formatted fmt false ap).
Proof.
  unfold Printf.printf. generalize false as st. revert ap.
  induction fmt as [|c fmt IH]; intros ap st; [apply emits_ret|].
  cbn [Printf.printf_loop formatted].
  repeat case_match; try apply IH;
    repeat first [ apply IH | apply emits_mfor | apply (emits_bind fd _ [u8 c])
                 | apply (emits_bind fd _ [u8 (arg_int (head ap))]) | apply (emits_bind fd _ [u8 37])
                 | apply emits_bind | apply emits_putc ].
Qed.
End Emits.

(** ** Numbers *)

Lemma atoi_app l r : forall n, Forall (fun c => 48 <= c <= 57) l ->
  Ulib.atoi_loop n (l ++ r) = Ulib.atoi_loop (Ulib.atoi_loop n l) r.
Proof.
  induction l as [|c l IH]; intros n Hl; [done|]. apply Forall_cons in Hl as [Hc Hl].
  cbn [app Ulib.atoi_loop]. zbool. cbn [andb]. by apply IH.
Qed.

Lemma digit_10 x : 0 <= x -> Printf.digits !!! Z.to_nat (x mod 10) = 48 + x mod 10.
Proof.
  intros Hx. pose proof (Z.mod_pos_bound x 10).
  assert (x mod 10 = 0 \/ x mod 10 = 1 \/ x mod 10 = 2 \/ x mod 10 = 3 \/ x mod 10 = 4 \/
    x mod 10 = 5 \/ x mod 10 = 6 \/ x mod 10 = 7 \/ x mod 10 = 8 \/ x mod 10 = 9) as Hd by lia.
  by repeat destruct Hd as [->|Hd]; [..|rewrite Hd].
Qed.

Lemma digit_loop_atoi fuel : forall x, 0 <= x < 2 ^ Z.of_nat fuel -> x < 2 ^ 31 ->
  Forall (fun c => 48 <= c <= 57) (digit_loop Printf.digits x 10 fuel) /\
  Ulib.atoi_loop 0 (reverse (digit_loop Printf.digits x 10 fuel)) = x.
Proof.
  induction fuel as [|fuel IH]; intros x Hx Hb; [simpl in Hx; split; [constructor|simpl; lia]|].
  cbn [digit_loop]. rewrite digit_10 by lia. pose proof (Z.mod_pos_bound x 10).
  pose proof (Z.div_mod x 10). rewrite reverse_cons.
  assert (Forall (fun c => 48 <= c <= 57)
      (if x / 10 =? 0 then [] else digit_loop Printf.digits (x / 10) 10 fuel) /\
    Ulib.atoi_loop 0 (reverse (if x / 10 =? 0 then [] else digit_loop Printf.digits (x / 10) 10 fuel))
      = x / 10) as [Hf E].
  { destruct (Z.eqb_spec (x / 10) 0) as [->|]; [by split|]. apply IH; [|lia].
    split; [apply Z.div_pos; lia|]. apply Z.div_lt_upper_bound; [lia|].
    rewrite Nat2Z.inj_succ, Z.pow_succ_r in Hx by lia. lia. }
  split; [constructor; [lia|done]|].
  rewrite atoi_app by by apply Forall_reverse. rewrite E. cbn [Ulib.atoi_loop]. zbool. cbn [andb].
  rewrite s32_small; lia.
Qed.

(** Reading a number back: [atoi] of the digits [printf] prints for a
    non-negative number with a [%d] is that number. *)
Theorem atoi_printf {W} `{SysLaws W} fd x w :
  0 <= x < 2 ^ 31 -> written fd w = Some [] ->
  exists w' bs, Printf.printf fd (bytes_of "%d") [PInt x] w = Ret tt w' /\
    written fd w' = Some bs /\ Ulib.atoi bs = x.
Proof.
  intros Hx Hw. destruct (printf_emits fd (bytes_of "%d") [PInt x] w [] Hw) as (w' & E & Hw' & _).
  exists w', (int_chars Printf.digits x 10 true). split; [done|].
  destruct (digit_loop_atoi 32 x) as [Hf Ha]; [simpl Z.of_nat; lia|lia|].
  assert (int_chars Printf.digits x 10 true = reverse (digit_loop Printf.digits x 10 32)) as Ei.
  { unfold int_chars. cbn [andb]. zbool. by rewrite u32_small, app_nil_r by lia. }
  rewrite Ei. split; [|done]. rewrite Hw'. change (formatted (bytes_of "%d") false [PInt x])
    with (map u8 (int_chars Printf.digits x 10 true) ++ []). rewrite app_nil_r, Ei. f_equal.
  rewrite <- (map_id (reverse _)) at 2. apply map_ext_in. intros c Hc%list_elem_of_In.
  apply Forall_reverse in Hf. rewrite Forall_forall in Hf. apply Z.mod_small.
  pose proof (Hf c Hc). lia.
Qed.

Lemma atoi_printf_witness :
  exists w' bs, Printf.printf 1 (bytes_of "%d") [PInt 1605]
      (mk_desk (fun _ => None) (fun _ => Some [])) = Ret tt w' /\
    written 1 w' = Some bs /\ Ulib.atoi bs = 1605.
Proof. apply (atoi_printf 1 1605); [lia|reflexivity]. Defined.
