(* ===== verification/Grep.v ===== *)
(** grep.c: the regular expression matcher and the line loop.

    A pattern and a text are C strings, pointers into them suffixes of the
    lists.  [matches] is the meaning of a pattern: the words that a sequence
    of items stands for, where an item is a character, [.] for any character,
    or either followed by [*]; a [$] at the very end of the pattern stands
    for the end of the text.

    [grep] reads into a buffer of 1024 bytes and looks for complete lines in
    it; the bytes after the last one are moved to the front and read on. *)

From stdpp Require Import base list sets strings.
From Stdlib Require Import ZArith Lia.
From S2P Require Import Prelude Cons User.

Open Scope kernel_scope.

(** ** The matcher *)

(** [matchstar(c, re, text)], with [mh] for [matchhere(re, ...)]. *)
Fixpoint matchstar (mh : list Z -> bool) (c : Z) (text : list Z) : bool :=
  if mh text then true else
  match text with
  | [] => false
  | t :: text => if (t =? c) || (c =? 46) then matchstar mh c text else false
  end.

(** The characters of [*], [$], [.] and [^] are 42, 36, 46 and 94. *)
Fixpoint matchhere (re text : list Z) : bool :=
  match re with
  | [] => true
  | c :: re1 =>
    match re1 with
    | d :: re2 => 
      if d =? 42 then matchstar (matchhere re2) c text else
      match text with
      | t :: text => if (c =? 46) || (c =? t) then matchhere re1 text else false
      | [] => false
      end
    | [] =>
      if c =? 36 then match text with [] => true | _ => false end else
      match text with
      | t :: text => if (c =? 46) || (c =? t) then matchhere re1 text else false
      | [] => false
      end
    end
  end.

(** The loop of [match]. *)
Fixpoint match_loop (re text : list Z) : bool :=
  if matchhere re text then true else
  match text with [] => false | _ :: text => match_loop re text end.

Definition match_ (re text : list Z) : bool :=
  match re with
  | c :: re' => if c =? 94 then matchhere re' text else match_loop re text
  | [] => match_loop re text
  end.

(** ** What a pattern means *)

Inductive item : Type := One (c : Z) | Star (c : Z).

(** The items of a pattern, and whether it ends in [$]. *)
Fixpoint parse (re : list Z) : list item * bool :=
  match re with
  | [] => ([], false)
  | c :: re1 =>
    match re1 with
    | [] => if c =? 36 then ([], true) else ([One c], false)
    | d :: re2 =>
      if d =? 42 then (Star c :: fst (parse re2), snd (parse re2))
      else (One c :: fst (parse re1), snd (parse re1))
    end
  end.

(** The character [t] is one that [c] stands for. *)
Definition stands (c t : Z) : Prop := c = 46 \/ c = t.

Inductive matches : list item -> list Z -> Prop :=
| matches_nil : matches [] []
| matches_one c t its w : stands c t -> matches its w -> matches (One c :: its) (t :: w)
| matches_star c u its w : Forall (stands c) u -> matches its w -> matches (Star c :: its) (u ++ w).

(** [text] begins with a word of the pattern. *)
Definition begins (re text : list Z) : Prop :=
  exists w v, text = w ++ v /\ matches (fst (parse re)) w /\ (snd (parse re) = true -> v = []).

Lemma stands_bool c t : (c =? 46) || (c =? t) = true <-> stands c t.
Proof. rewrite orb_true_iff, !Z.eqb_eq. done. Qed.

Lemma matchstar_spec mh c text :
  matchstar mh c text = true <->
  exists u v, text = u ++ v /\ Forall (stands c) u /\ mh v = true.
Proof.
  induction text as [|t text IH]; cbn [matchstar].
  - destruct (mh []) eqn:E; (split; [intros|]).
    + exists [], []. done.
    + done.
    + done.
    + intros (u & v & Huv & _ & Hv). symmetry in Huv. apply app_nil in Huv as [-> ->]. congruence.
  - destruct (mh (t :: text)) eqn:E.
    { split; [|done]. intros _. by exists [], (t :: text). }
    assert ((t =? c) || (c =? 46) = (c =? 46) || (c =? t)) as -> by (rewrite orb_comm; f_equal; apply Z.eqb_sym).
    destruct ((c =? 46) || (c =? t)) eqn:Ec.
    + rewrite IH. apply stands_bool in Ec. split.
      * intros (u & v & -> & Hu & Hv). exists (t :: u), v. split; [done|]. by split; [constructor|].
      * intros (u & v & Huv & Hu & Hv). destruct u as [|x u]; simplify_eq/=; [congruence|].
        apply Forall_cons in Hu as [_ Hu]. by exists u, v.
    + split; [done|]. intros (u & v & Huv & Hu & Hv).
      destruct u as [|x u]; simplify_eq/=; [congruence|].
      apply Forall_cons in Hu as [Hx _]. apply stands_bool in Hx. congruence.
Qed.

Lemma begins_one c re1 text : fst (parse (c :: re1)) = One c :: fst (parse re1) ->
  snd (parse (c :: re1)) = snd (parse re1) ->
  (forall text, matchhere re1 text = true <-> begins re1 text) ->
  match text with
  | t :: text => if (c =? 46) || (c =? t) then matchhere re1 text else false
  | [] => false
  end = true <-> begins (c :: re1) text.
Proof.
  intros E1 E2 IH. unfold begins. rewrite E1, E2. destruct text as [|t text].
  - split; [done|]. intros (w & v & Hwv & Hm & _). inversion Hm; subst. done.
  - destruct ((c =? 46) || (c =? t)) eqn:Ec.
    + apply stands_bool in Ec. rewrite IH. split.
      * intros (w & v & -> & Hm & Hv). exists (t :: w), v. by split_and!; [|constructor|].
      * intros (w & v & Hwv & Hm & Hv). inversion Hm; simplify_eq/=. by eexists _, v.
    + split; [done|]. intros (w & v & Hwv & Hm & Hv). inversion Hm; simplify_eq/=.
      match goal with H : stands c _ |- _ => apply stands_bool in H; congruence end.
Qed.

Lemma matchhere_spec n : forall re text, (length re <= n)%nat ->
  matchhere re text = true <-> begins re text.
Proof.
  induction n as [|n IH]; intros re text Hn.
  { destruct re; [|simpl in Hn; lia]. split; [|done]. intros _. exists [], text.
    split_and!; [done|constructor|done]. }
  destruct re as [|c re1]; [apply (IH []); simpl; lia|].
  cbn [length] in Hn. destruct re1 as [|d re2].
  - destruct (Z.eqb_spec c 36) as [->|Hc].
    + cbn [matchhere]. unfold begins. simpl. destruct text as [|t text]; split; try done.
      * intros _. exists [], []. split_and!; [done|constructor|done].
      * intros (w & v & Hwv & Hm & Hv). inversion Hm; subst. simpl in Hwv. by rewrite Hv in Hwv.
    + cbn [matchhere]. rewrite (proj2 (Z.eqb_neq c 36) Hc). apply (begins_one c [] text).
      * cbn [parse]. by rewrite (proj2 (Z.eqb_neq c 36) Hc).
      * cbn [parse]. by rewrite (proj2 (Z.eqb_neq c 36) Hc).
      * intros text'. apply IH. simpl; lia.
  - destruct (Z.eqb_spec d 42) as [->|Hd].
    + cbn [matchhere Z.eqb Pos.eqb]. rewrite matchstar_spec. unfold begins. cbn [parse fst snd Z.eqb Pos.eqb].
      split.
      * intros (u & v & -> & Hu & (w & v' & -> & Hm & Hv)%IH); [|simpl in Hn; lia].
        exists (u ++ w), v'. rewrite app_assoc. by split_and!; [|constructor|].
      * intros (w & v & -> & Hm & Hv). inversion Hm as [| |? u ? w' Hu Hm']; simplify_eq/=.
        exists u, (w' ++ v). rewrite app_assoc. split_and!; [done|done|].
        apply IH; [simpl in Hn; lia|]. by exists w', v.
    + cbn [matchhere]. rewrite (proj2 (Z.eqb_neq d 42) Hd).
      apply (begins_one c (d :: re2) text).
      * cbn [parse]. by rewrite (proj2 (Z.eqb_neq d 42) Hd).
      * cbn [parse]. by rewrite (proj2 (Z.eqb_neq d 42) Hd).
      * intros text'. apply IH. simpl in *; lia.
Qed.

(** C31: the matcher of grep.c decides exactly the patterns' meaning: a pattern
    with a leading [^] matches when the text begins with one of its words,
    any other when a word of it occurs somewhere in the text, up to the end
    if the pattern ends in [$]. *)
Theorem match_decides re text :
  match_ re text = true <->
  if decide (head re = Some 94) then begins (tail re) text
  else exists u v, text = u ++ v /\ begins re v.
Proof.
  assert (forall text, match_loop re text = true <->
    exists u v, text = u ++ v /\ begins re v) as Hloop.
  { clear text. induction text as [|t text IH]; cbn [match_loop];
      (destruct (matchhere re _) eqn:E; [split; [intros _|done]; eexists [], _;
         split; [done|]; by apply (matchhere_spec _ _ _ (le_n _))|]).
    - split; [done|]. intros (u & v & Huv & Hb). symmetry in Huv. apply app_nil in Huv as [-> ->].
      apply (matchhere_spec _ _ _ (le_n _)) in Hb. congruence.
    - rewrite IH. split.
      + intros (u & v & -> & Hb). by exists (t :: u), v.
      + intros (u & v & Huv & Hb). destruct u as [|x u]; simplify_eq/=; [|by exists u, v].
        apply (matchhere_spec _ _ _ (le_n _)) in Hb. congruence. }
  unfold match_. destruct re as [|c re]; [by rewrite decide_False|]. cbn [head tail].
  destruct (Z.eqb_spec c 94) as [->|Hc].
  - rewrite decide_True by done. apply (matchhere_spec _ _ _ (le_n _)).
  - rewrite decide_False by congruence. apply Hloop.
Qed.

Example match_ex1 : match_ (bytes_of "^ab*c$") (bytes_of "abbbc") = true.
Proof. reflexivity. Qed.
Example match_ex2 : match_ (bytes_of "a.*$x") (bytes_of "za1$x2") = true.
Proof. reflexivity. Qed.

(** ** The lines of the input *)

Section Grep.
Context {W : Type} `{Sys W}.

(** The loop over the complete lines in [buf], from [p] on.  A line that does
    not match keeps the NUL that was stored over its newline. *)
Fixpoint grep_lines (pattern buf : list Z) (p fuel : nat) : M W (list Z * nat) :=
  match fuel with
  | O => spin
  | S fuel =>
    match Ulib.strchr (str (drop p buf)) 10 with
    | None => ret (buf, p)
    | Some k =>
      let q := (p + k)%nat in
      let buf := <[q := 0]> buf in
      buf <- (if match_ pattern (str (drop p buf)) then
                let buf := <[q := 10]> buf in
                u_write 1 (take (q + 1 - p) (drop p buf)) ;;; ret buf
              else ret buf) ;;
      grep_lines pattern buf (q + 1) fuel
    end
  end.

Fixpoint grep_loop (pattern : list Z) (fd : Z) (buf : list Z) (m fuel : nat) : M W unit :=
  match fuel with
  | O => spin
  | S fuel =>
    r <- u_read fd (1024 - Z.of_nat m - 1) ;;
    if fst r <=? 0 then ret tt else
    let buf := splice m (snd r) buf in
    let m := (m + Z.to_nat (fst r))%nat in
    let buf := <[m := 0]> buf in
    bp <- grep_lines pattern buf 0 (length buf) ;;
    let (buf, p) := (bp : list Z * nat) in
    let m := if decide (p = O) then O else m in
    if decide (0 < m)%nat then
      grep_loop pattern fd (Ulib.array_move buf 0 p (m - p)) (m - p) fuel
    else grep_loop pattern fd buf m fuel
  end.

(** [buf] is a global array; [fuel] bounds the number of reads. *)
Definition grep (pattern : list Z) (fd : Z) (fuel : nat) (buf : list Z) : M W unit :=
  grep_loop pattern fd buf 0 fuel.

Definition grep_file (pattern : list Z) (fuel : nat) (buf name : list Z) : M W unit :=
  fd <- u_open name 0 ;;
  if fd <? 0 then
    Printf.printf 1 (bytes_of "grep: cannot open %s" ++ [10]) [PStr (Some name)] ;;; exit
  else
    grep pattern fd fuel buf ;;;
    u_close fd ;;; ret tt.

(** [argv] without the program's name. *)
Definition grep_main (argv : list (list Z)) (fuel : nat) (buf : list Z) : M W unit :=
  match argv with
  | [] => Printf.printf 2 (bytes_of "usage: grep pattern [file ...]" ++ [10]) [] ;;; exit
  | [pattern] => grep pattern 0 fuel buf ;;; exit
  | pattern :: files => mfor (grep_file pattern fuel buf) files ;;; exit
  end.
End Grep.

(** The text made of the lines [ls]. *)
Definition text (ls : list (list Z)) : list Z := concat (map (fun l => l ++ [10]) ls).

(** A line of the input that fits the buffer. *)
Definition line_ok (l : list Z) : Prop := 10 ∉ l /\ 0 ∉ l /\ (length l <= 1022)%nat.

Lemma text_cons l ls : text (l :: ls) = l ++ 10 :: text ls.
Proof. unfold text. simpl. by rewrite <- app_assoc. Qed.

Lemma text_app ls1 ls2 : text (ls1 ++ ls2) = text ls1 ++ text ls2.
Proof. unfold text. by rewrite map_app, concat_app. Qed.

Lemma text_no_nl ls r u : 10 ∉ u -> text ls ++ r = u -> ls = [].
Proof. intros Hu E. destruct ls as [|l ls]; [done|]. destruct Hu. rewrite <- E, text_cons. set_solver. Qed.

Lemma text_no_nul ls : Forall line_ok ls -> 0 ∉ text ls.
Proof.
  induction 1 as [|l ls (H1 & H2 & H3) _ IH]; [unfold text; simpl; apply not_elem_of_nil|].
  rewrite text_cons. set_solver.
Qed.

(** A prefix of a text consists of complete lines and the start of one. *)
Lemma text_prefix ls r : forall B T, 10 ∉ r -> Forall line_ok ls -> text ls ++ r = B ++ T ->
  exists ls1 ls2 c, ls = ls1 ++ ls2 /\ B = text ls1 ++ c /\ 10 ∉ c /\ c ++ T = text ls2 ++ r.
Proof.
  induction ls as [|l ls IH]; intros B T Hr Hls E.
  { exists [], [], B. split_and!; [done|done|unfold text in E; simpl in E; set_solver|done]. }
  apply Forall_cons in Hls as [(Hl & _) Hls]. rewrite text_cons, <- app_assoc in E.
  destruct (decide (length B <= length l)%nat) as [Hle|Hgt].
  - exists [], (l :: ls), B. split_and!; [done|done| |by rewrite text_cons, <- app_assoc].
    assert (B `prefix_of` l) as [k ->]; [|set_solver].
    exists (drop (length B) l). apply (f_equal (take (length B))) in E.
    rewrite take_app_length, take_app_le in E by done. rewrite <- E at 1. by rewrite take_drop.
  - assert (exists B', B = l ++ 10 :: B' /\ B' ++ T = text ls ++ r) as (B' & -> & E').
    { exists (drop (length l + 1) B). 
      assert (B = take (length l + 1) B ++ drop (length l + 1) B) as EB by by rewrite take_drop.
      assert (take (length l + 1) B = l ++ [10]) as Et.
      { apply (f_equal (take (length l + 1))) in E. rewrite (take_app_le B) in E by lia.
        rewrite <- E, take_app_ge, Nat.add_comm, Nat.add_sub by lia. done. }
      rewrite Et, <- app_assoc in EB. split; [done|]. rewrite EB, <- app_assoc in E.
      apply app_inv_head in E. by injection E as E. }
    destruct (IH B' T Hr Hls (eq_sym E')) as (ls1 & ls2 & c & -> & -> & Hc & E2).
    exists (l :: ls1), ls2, c. rewrite text_cons, <- app_assoc. done.
Qed.

Section GrepOk.
Context {W : Type} `{SysLaws W} (pattern : list Z).

(** The lines [grep] is to print. *)
Definition wanted (ls : list (list Z)) : list (list Z) := List.filter (match_ pattern) ls.

Lemma length_text ls : (length ls <= length (text ls))%nat.
Proof. induction ls as [|l ls IH]; [done|]. rewrite text_cons, length_app. simpl. lia. Qed.

(** One complete line. *)
Lemma grep_line pre l rest fuel w ws :
  10 ∉ l -> 0 ∉ l -> written 1 w = Some ws ->
  exists c w1, grep_lines pattern (pre ++ l ++ 10 :: rest) (length pre) (S fuel) w
      = grep_lines pattern ((pre ++ l ++ [c]) ++ rest) (length (pre ++ l ++ [c])) fuel w1 /\
    written 1 w1 = Some (ws ++ text (wanted [l])) /\
    (forall f, pending f w1 = pending f w /\ regular f w1 = regular f w).
Proof.
  intros H10 Hz Hw. cbn [grep_lines].
  rewrite drop_app_length, str_skip by done. cbn [str Z.eqb]. rewrite strchr_app by done.
  assert (forall x y, <[(length pre + length l)%nat := x]> (pre ++ l ++ y :: rest)
    = pre ++ l ++ x :: rest) as Hins.
  { intros x y. rewrite insert_app_r, insert_app_r_alt, Nat.sub_diag by lia. done. }
  assert (forall x, (pre ++ l ++ [x]) ++ rest = pre ++ l ++ x :: rest) as Happ
    by (intros x; by rewrite <- !app_assoc).
  assert (forall x, length (pre ++ l ++ [x]) = length pre + length l + 1)%nat as Hlen
    by (intros x; rewrite !length_app; simpl; lia).
  rewrite Hins, drop_app_length. rewrite str_app by done. unfold wanted. cbn [List.filter].
  destruct (match_ pattern l); cbn zeta.
  - rewrite Hins, drop_app_length.
    replace (length pre + length l + 1 - length pre)%nat with (length (l ++ [10]))
      by (rewrite length_app; simpl; lia).
    replace (l ++ 10 :: rest) with ((l ++ [10]) ++ rest) by by rewrite <- app_assoc.
    rewrite take_app_length. destruct (write_law 1 (l ++ [10]) w ws Hw) as (w1 & E & Hw1 & _ & Hfr).
    rewrite bind_assoc. mstep E. rewrite bind_ret_l. exists 10, w1. rewrite Happ, Hlen.
    rewrite <- app_assoc. unfold text. simpl. rewrite app_nil_r. done.
  - rewrite bind_ret_l. exists 0, w. rewrite Happ, Hlen. unfold text. simpl.
    by rewrite app_nil_r.
Qed.

Lemma grep_lines_ok : forall ls pre r tl fuel w ws,
  Forall line_ok ls -> 10 ∉ r -> 0 ∉ r -> (length ls < fuel)%nat -> written 1 w = Some ws ->
  exists pre' w', grep_lines pattern (pre ++ text ls ++ r ++ 0 :: tl) (length pre) fuel w
      = Ret (pre' ++ r ++ 0 :: tl, length pre') w' /\
    length pre' = (length pre + length (text ls))%nat /\
    written 1 w' = Some (ws ++ text (wanted ls)) /\
    (forall f, pending f w' = pending f w /\ regular f w' = regular f w).
Proof.
  induction ls as [|l ls IH]; intros pre r tl fuel w ws Hls Hr1 Hr0 Hf Hw;
    (destruct fuel as [|fuel]; [simpl in Hf; lia|]).
  - exists pre, w. cbn [grep_lines text map concat app]. rewrite drop_app_length, str_app, strchr_none by done.
    rewrite app_nil_r, Nat.add_0_r. done.
  - apply Forall_cons in Hls as [(Hl10 & Hl0 & _) Hls]. rewrite text_cons, <- app_assoc. cbn [app].
    destruct (grep_line pre l (text ls ++ r ++ 0 :: tl) fuel w ws Hl10 Hl0 Hw)
      as (c & w1 & E1 & Hw1 & Hfr1).
    destruct (IH (pre ++ l ++ [c]) r tl fuel w1 _ Hls Hr1 Hr0 ltac:(simpl in Hf; lia) Hw1)
      as (pre' & w' & E & Hlen & Hw' & Hfr).
    exists pre', w'. rewrite E1. split_and!; [done| | |].
    + rewrite Hlen, !length_app. simpl. lia.
    + rewrite Hw', <- app_assoc. unfold wanted. cbn [List.filter].
      destruct (match_ pattern l); [|done]. f_equal. f_equal.
      rewrite (text_cons l (List.filter _ _)). rewrite text_cons, <- app_assoc. done.
    + intros f. destruct (Hfr1 f), (Hfr f). by split; etransitivity.
Qed.

Lemma text_0 ls r : Forall line_ok ls -> 0 ∉ r -> 0 ∉ text ls ++ r.
Proof. intros Hls Hr. apply not_elem_of_app. split; [by apply text_no_nul|done]. Qed.

(** Reading [out] after the [carry] and printing the lines that are complete:
    the buffer then starts with what is left of the last one. *)
Lemma grep_round fd carry tl out ls1 c w ws :
  length (carry ++ tl) = 1024%nat -> (length carry + length out <= 1023)%nat ->
  carry ++ out = text ls1 ++ c -> Forall line_ok ls1 -> 10 ∉ c -> 0 ∉ c -> written 1 w = Some ws ->
  exists pre tl' w', grep_lines pattern (<[(length carry + length out)%nat := 0]>
      (splice (length carry) out (carry ++ tl))) 0 1024 w = Ret (pre ++ c ++ tl', length pre) w' /\
    length pre = length (text ls1) /\ length (pre ++ c ++ tl') = 1024%nat /\
    written 1 w' = Some (ws ++ text (wanted ls1)) /\ pending fd w' = pending fd w /\
    regular fd w' = regular fd w.
Proof.
  intros Hb Hle E Hls Hc1 Hc0 Hw. rewrite length_app in Hb.
  assert (exists x tl', splice (length carry) out (carry ++ tl) = text ls1 ++ c ++ x :: tl' /\
    (length (text ls1) + length c + 1 + length tl' = 1024)%nat) as (x & tl' & Es & Hl').
  { unfold splice. rewrite take_app_length, app_assoc, E.
    rewrite drop_app_ge by lia. rewrite <- app_assoc.
    pose proof (f_equal length E) as El. rewrite !length_app in El.
    destruct (drop _ tl) as [|x tl'] eqn:Ed.
    - apply (f_equal length) in Ed. rewrite length_drop in Ed. simpl in Ed. lia.
    - exists x, tl'. split; [done|]. apply (f_equal length) in Ed. rewrite length_drop in Ed.
      simpl in Ed. lia. }
  assert (length carry + length out = length (text ls1) + length c)%nat as El
    by (apply (f_equal length) in E; by rewrite !length_app in E).
  rewrite Es, El, app_assoc, insert_app_r_alt by (rewrite length_app; lia).
  rewrite length_app, Nat.sub_diag. cbn [insert list_insert]. rewrite <- app_assoc.
  pose proof (length_text ls1).
  destruct (grep_lines_ok ls1 [] c tl' 1024 w ws Hls Hc1 Hc0 ltac:(lia) Hw)
    as (pre & w' & E' & Hlen & Hw' & Hfr).
  exists pre, (0 :: tl'), w'. split_and!; [exact E'|done| |done|apply Hfr|apply Hfr].
  rewrite !length_app. cbn [length] in *. lia.
Qed.

(** A full buffer without a newline is past the end of the last line. *)
Lemma no_more_lines ls r c T' : Forall line_ok ls -> 10 ∉ c -> c ++ T' = text ls ++ r ->
  (T' <> [] -> (1023 <= length c)%nat) -> ls = [].
Proof.
  intros Hls Hc E2 Hlong. destruct ls as [|l ls]; [done|exfalso]. destruct (decide (T' = [])) as [->|HT].
  - rewrite app_nil_r in E2. symmetry in E2. by apply (text_no_nl (l :: ls) r c Hc) in E2.
  - specialize (Hlong HT). apply Forall_cons in Hls as [(_ & _ & Hl) _]. apply Hc.
    apply (list_elem_of_lookup_2 _ (length l)). apply (f_equal (lookup (length l))) in E2.
    rewrite lookup_app_l in E2 by lia. rewrite E2, text_cons, <- app_assoc.
    by rewrite lookup_app_r, Nat.sub_diag.
Qed.

Lemma grep_loop_ok fd : forall fuel T ls r carry tl w ws,
  pending fd w = Some T -> regular fd w = true -> written 1 w = Some ws ->
  Forall line_ok ls -> 10 ∉ r -> 0 ∉ r -> text ls ++ r = carry ++ T -> 10 ∉ carry ->
  (length carry <= 1022)%nat -> length (carry ++ tl) = 1024%nat -> (length T < fuel)%nat ->
  exists w', grep_loop pattern fd (carry ++ tl) (length carry) fuel w = Ret tt w' /\
    written 1 w' = Some (ws ++ text (wanted ls)) /\ pending fd w' = Some [].
Proof.
  induction fuel as [|fuel IH]; intros T ls r carry tl w ws Hp Hreg Hw Hls Hr1 Hr0 E Hc Hlc Hlen Hf;
    [lia|].
  cbn [grep_loop].
  destruct (read_law fd (1024 - Z.of_nat (length carry) - 1) w T Hp ltac:(lia))
    as (out & T' & w1 & E1 & -> & Hle & Hnil & Hfull & Hp1 & Hreg1 & Hw1 & _).
  mstep E1. cbn [fst snd]. destruct out as [|x out0] eqn:Eout.
  { rewrite (Hnil eq_refl) in *. simpl. rewrite app_nil_r in E.
    rewrite (text_no_nl ls r carry Hc E). exists w1. unfold text. simpl.
    rewrite app_nil_r, Hw1. done. }
  rewrite <- Eout in *. assert (0 < length out)%nat as Hpos by (rewrite Eout; simpl; lia).
  clear x out0 Eout Hnil. rewrite (proj2 (Z.leb_gt _ _)) by lia. cbn zeta. rewrite Nat2Z.id.
  rewrite app_assoc in E.
  destruct (text_prefix ls r (carry ++ out) T' Hr1 Hls E) as (ls1 & ls2 & c & -> & EB & Hc1 & E2).
  apply Forall_app in Hls as [Hls1 Hls2].
  assert (0 ∉ c) as Hc0.
  { intros Hin. apply (text_0 (ls1 ++ ls2) r); [by apply Forall_app|done|].
    rewrite E, EB. set_solver. }
  destruct (grep_round fd carry tl out ls1 c w1 ws Hlen ltac:(lia) EB Hls1 Hc1 Hc0)
    as (pre & tl' & w2 & E3 & Hpre & Hlen2 & Hw2 & Hp2 & Hreg2); [by rewrite Hw1|].
  rewrite length_insert, length_splice, Hlen by (rewrite Hlen; lia). mstep E3.
  assert (written 1 w2 = Some (ws ++ text (wanted ls1))) as Hw2' by done.
  assert (forall ls', (text (wanted (ls1 ++ ls'))) = text (wanted ls1) ++ text (wanted ls')) as Hadd.
  { intros ls'. unfold wanted. by rewrite List.filter_app, text_app. }
  rewrite Hadd, (app_assoc ws). rewrite length_app in Hf.
  pose proof (f_equal length EB) as El. rewrite !length_app in El.
  destruct ls1 as [|l1 ls1].
  - change (length (text [])) with 0%nat in *. assert (ls2 = []) as ->.
    { apply (no_more_lines ls2 r c T' Hls2 Hc1 E2). intros HT. apply Hfull in Hreg.
      apply (f_equal length) in Hreg. rewrite length_take, length_app in Hreg.
      assert (0 < length T')%nat by (destruct T'; [done|simpl; lia]). lia. }
    apply nil_length_inv in Hpre as ->. cbn [length app].
    rewrite (decide_True (P := 0%nat = 0%nat)), decide_False by lia.
    unfold text in E2. cbn [map concat app] in E2.
    assert (10 ∉ T' /\ 0 ∉ T') as [? ?] by (rewrite <- E2 in Hr1, Hr0; clear - Hr1 Hr0; set_solver).
    apply (IH T' [] T' [] (c ++ tl') w2); [congruence|rewrite Hreg2; by apply Hreg1|exact Hw2'|
      constructor|assumption|assumption|reflexivity|apply not_elem_of_nil|cbn [length]; lia|exact Hlen2|lia].
  - assert (0 < length pre)%nat as Hpp.
    { rewrite Hpre, text_cons, length_app. simpl. lia. }
    rewrite (decide_False (P := length pre = 0%nat)), decide_True by lia.
    rewrite array_move_down by lia. rewrite drop_app_length.
    replace (length carry + length out - length pre)%nat with (length c) by lia.
    rewrite take_app_length. unfold splice. rewrite take_0. cbn [app]. rewrite Nat.add_0_l.
    apply (IH T' ls2 r c _ w2); [congruence|rewrite Hreg2; by apply Hreg1|exact Hw2'|assumption..|
      symmetry; exact E2|assumption|lia| |lia].
    rewrite length_app, length_drop. rewrite Hlen2. lia.
Qed.
End GrepOk.

(** C32: [grep] of a regular file whose lines fit its buffer terminates and
    writes exactly the complete lines that the pattern matches, in order,
    whatever the boundaries of its reads; what follows the last newline is
    not printed. *)
Theorem grep_prints {W} `{SysLaws W} pattern fd ls r buf w ws :
  pending fd w = Some (text ls ++ r) -> regular fd w = true -> written 1 w = Some ws ->
  Forall line_ok ls -> 10 ∉ r -> 0 ∉ r -> length buf = 1024%nat ->
  exists w', grep pattern fd (S (length (text ls ++ r))) buf w = Ret tt w' /\
    written 1 w' = Some (ws ++ text (List.filter (match_ pattern) ls)) /\ pending fd w' = Some [].
Proof.
  intros Hp Hreg Hw Hls Hr1 Hr0 Hb.
  apply (grep_loop_ok pattern fd _ (text ls ++ r) ls r [] buf w ws); try assumption.
  - reflexivity.
  - apply not_elem_of_nil.
  - cbn [length]. lia.
  - lia.
Qed.

(** Some lines of a file. *)
Definition demo_lines : list (list Z) := [bytes_of "abc"; bytes_of "xyz"; []; bytes_of "cab"].
Definition demo_desk (ps : list (list Z)) : desk :=
  mk_desk (fun f => if decide (f = 0) then Some ps else None)
    (fun f => if decide (f = 1) then Some [] else None).

Lemma grep_prints_witness :
  exists w', grep (bytes_of "ab") 0 20 (replicate 1024 0)
      (demo_desk [text demo_lines ++ bytes_of "abx"]) = Ret tt w' /\
    written 1 w' = Some (text [bytes_of "abc"; bytes_of "cab"]) /\ pending 0 w' = Some [].
Proof.
  destruct (grep_prints (bytes_of "ab") 0 demo_lines (bytes_of "abx") (replicate 1024 0)
    (demo_desk [text demo_lines ++ bytes_of "abx"]) []) as (w' & E & Hw & Hp); try reflexivity.
  - repeat (constructor; [split_and!; by_eval|]). constructor.
  - by_eval.
  - by_eval.
  - exists w'. split_and!; [exact E|exact Hw|exact Hp].
Defined.

(** A line that arrives in two pieces is lost: a read that brings no newline
    empties the buffer, so [grep abc] prints nothing when the line abc comes
    through a pipe as ab and c. *)
Theorem grep_loses_pieces :
  exists w, grep (bytes_of "abc") 0 10 (replicate 1024 0)
      (demo_desk [bytes_of "ab"; bytes_of "c" ++ [10]]) = Ret tt w /\
    written 1 w = Some [] /\ pending 0 w = Some [] /\ match_ (bytes_of "abc") (bytes_of "abc") = true.
Proof. eexists. split; [vm_compute; reflexivity|]. by split_and!. Qed.
