(* ===== verification/Uprog.v ===== *)
(** The small user programs: cat, wc, echo, ls, kill, ln, mkdir, rm, copy and
    clear.

    [main] gets the arguments without the program's name.  A loop that reads
    until the end of a file has a bound [fuel] on the number of reads; the
    theorems show that one more than the number of bytes is enough. *)

From stdpp Require Import base list sets strings.
From Stdlib Require Import ZArith Lia.
From S2P Require Import Prelude Cons User.

Open Scope kernel_scope.

(** A message and its newline. *)
Definition line (fd : Z) (fmt : string) {W} `{Sys W} (ap : list parg) : M W unit :=
  Printf.printf fd (bytes_of fmt ++ [10]) ap.

(** ** cat.c *)

Module Cat.
Section Cat.
Context {W : Type} `{Sys W}.

Fixpoint cat (fd : Z) (fuel : nat) : M W unit :=
  match fuel with
  | O => spin
  | S fuel =>
    r <- u_read fd 512 ;;
    if 0 <? fst r then
      n <- u_write 1 (snd r) ;;
      if n =? fst r then cat fd fuel else line 1 "cat: write error" [] ;;; exit
    else if fst r <? 0 then line 1 "cat: read error" [] ;;; exit
    else ret tt
  end.

Definition main (argv : list (list Z)) (fuel : nat) : M W unit :=
  match argv with
  | [] => cat 0 fuel ;;; exit
  | _ =>
    mfor (fun name =>
      fd <- u_open name 0 ;;
      if fd <? 0 then line 1 "cat: cannot open %s" [PStr (Some name)] ;;; exit else
      cat fd fuel ;;; u_close fd ;;; ret tt) argv ;;;
    exit
  end.
End Cat.

(** [cat] copies everything that is to be read from its file to its
    output, unchanged and in order, and stops at the end, however the bytes
    arrive. *)
Theorem cat_copies {W} `{SysLaws W} fd : forall fuel bs w ws,
  pending fd w = Some bs -> written 1 w = Some ws -> (length bs < fuel)%nat ->
  exists w', cat fd fuel w = Ret tt w' /\ written 1 w' = Some (ws ++ bs) /\ pending fd w' = Some [].
Proof.
  induction fuel as [|fuel IH]; intros bs w ws Hp Hw Hf; [lia|]. cbn [cat].
  destruct (read_law fd 512 w bs Hp eq_refl)
    as (out & rest & w1 & E1 & -> & _ & Hnil & _ & Hp1 & _ & Hw1 & _).
  mstep E1. cbn [fst snd]. destruct (decide (out = [])) as [->|Hne].
  - rewrite (Hnil eq_refl) in *. simpl. exists w1. by rewrite app_nil_r, Hw1.
  - assert (0 < length out)%nat by (destruct out; [done|simpl; lia]). zbool.
    destruct (write_law 1 out w1 ws) as (w2 & E2 & Hw2 & _ & Hfr); [by rewrite Hw1|].
    mstep E2. rewrite Z.eqb_refl. destruct (Hfr fd) as [Hp2 _]. rewrite length_app in Hf.
    destruct (IH rest w2 (ws ++ out)) as (w3 & E3 & Hw3 & Hp3); [congruence|done|lia|].
    exists w3. by rewrite app_assoc.
Qed.

Lemma cat_copies_witness :
  exists w', cat 0 3 (mk_desk (fun _ => Some [[104]; [105]]) (fun _ => Some [])) = Ret tt w' /\
    written 1 w' = Some [104; 105] /\ pending 0 w' = Some [].
Proof. apply (cat_copies 0 3 [104; 105] _ []); [reflexivity|reflexivity|simpl; lia]. Defined.
End Cat.

(** ** wc.c *)

Module Wc.
Record counts : Type := mk_counts { l : Z; w : Z; c : Z; inword : bool }.

(** [strchr(" \r\t\n\v", b)]: the loop over the string stops at its NUL, so
    that a NUL byte is not found. *)
Definition isspace (b : Z) : bool :=
  match Ulib.strchr [32; 13; 9; 10; 11] b with Some _ => true | None => false end.

Definition count1 (k : counts) (b : Z) : counts :=
  let k := mk_counts (if b =? 10 then s32 (l k + 1) else l k) (w k) (s32 (c k + 1)) (inword k) in
  if isspace b then mk_counts (l k) (w k) (c k) false
  else if negb (inword k) then mk_counts (l k) (s32 (w k + 1)) (c k) true
  else k.

Section Wc.
Context {W : Type} `{Sys W}.

(** The result of the last [read] and the counts. *)
Fixpoint wc_loop (fd : Z) (k : counts) (fuel : nat) : M W (Z * counts) :=
  match fuel with
  | O => spin
  | S fuel =>
    r <- u_read fd 512 ;;
    if 0 <? fst r then wc_loop fd (foldl count1 k (snd r)) fuel else ret (fst r, k)
  end.

Definition wc (fd : Z) (name : list Z) (fuel : nat) : M W unit :=
  r <- wc_loop fd (mk_counts 0 0 0 false) fuel ;;
  if fst r <? 0 then line 1 "wc: read error" [] ;;; exit else
  let k := snd r in
  line 1 "%d %d %d %s" [PInt (l k); PInt (w k); PInt (c k); PStr (Some name)].

Definition main (argv : list (list Z)) (fuel : nat) : M W unit :=
  match argv with
  | [] => wc 0 [] fuel ;;; exit
  | _ =>
    mfor (fun name =>
      fd <- u_open name 0 ;;
      if fd <? 0 then line 1 "wc: cannot open %s" [PStr (Some name)] ;;; exit else
      wc fd name fuel ;;; u_close fd ;;; ret tt) argv ;;;
    exit
  end.
End Wc.

(** The pieces between the white space, empty ones included. *)
Fixpoint fields (bs : list Z) : list (list Z) :=
  match bs with
  | [] => [[]]
  | b :: bs =>
    if isspace b then [] :: fields bs else
    match fields bs with f :: fs => (b :: f) :: fs | [] => [[b]] end
  end.
Definition words (bs : list Z) : list (list Z) := List.filter (fun f => negb (bool_decide (f = []))) (fields bs).
Definition newlines (bs : list Z) : list Z := List.filter (Z.eqb 10) bs.

Definition starts (fs : list (list Z)) : Z :=
  Z.of_nat (length (List.filter (fun f => negb (bool_decide (f = []))) fs)).

Lemma fields_cons bs : exists f fs, fields bs = f :: fs.
Proof.
  induction bs as [|b bs (f & fs & E)]; [by exists [], []|]. cbn [fields].
  destruct (isspace b); [by eexists [], _|]. rewrite E. by eexists _, _.
Qed.

(** The loop counts from where it stands: within a word the first piece is
    not a new word. *)
Lemma count_spec bs : forall k,
  0 <= l k -> 0 <= w k -> 0 <= c k ->
  Z.max (l k) (Z.max (w k) (c k)) + Z.of_nat (length bs) < 2 ^ 31 ->
  let k' := foldl count1 k bs in
  l k' = l k + Z.of_nat (length (newlines bs)) /\ c k' = c k + Z.of_nat (length bs) /\
  w k' = w k + starts (if inword k then tail (fields bs) else fields bs).
Proof.
  induction bs as [|b bs IH]; intros k Hl Hw Hc Hb.
  { destruct (inword k); split_and!; cbn; rewrite ?Z.add_0_r; done. }
  cbn [length] in Hb. cbn [foldl].
  destruct (IH (count1 k b)) as (E1 & E2 & E3).
  1-4: unfold count1; cbn; repeat case_match; cbn; rewrite ?s32_small by lia; lia.
  cbn zeta. rewrite E1, E2, E3. cbn [fields newlines List.filter length].
  destruct (fields_cons bs) as (f & fs & Ef). rewrite Ef.
  rewrite (Z.eqb_sym 10 b). unfold count1, starts, newlines.
  destruct (b =? 10), (isspace b), (inword k); cbn [l w c inword negb tail List.filter length];
    rewrite ?s32_small by lia; split_and!; try lia;
    repeat (case_bool_decide; cbn [negb length]); try done; lia.
Qed.

(** [wc] prints the number of newlines, of words (the non-empty pieces
    between white space) and of bytes of its input, whatever the boundaries
    of its reads. *)
Theorem wc_counts {W} `{SysLaws W} fd name bs w ws :
  pending fd w = Some bs -> written 1 w = Some ws -> Z.of_nat (length bs) < 2 ^ 31 ->
  exists w', wc fd name (S (length bs)) w = Ret tt w' /\ pending fd w' = Some [] /\
    written 1 w' = Some (ws ++ formatted (bytes_of "%d %d %d %s" ++ [10]) false
      [PInt (Z.of_nat (length (newlines bs))); PInt (Z.of_nat (length (words bs)));
       PInt (Z.of_nat (length bs)); PStr (Some name)]).
Proof.
  intros Hp Hw Hlen.
  assert (forall fuel bs w k, pending fd w = Some bs -> written 1 w = Some ws ->
    (length bs < fuel)%nat -> exists w', wc_loop fd k fuel w = Ret (0, foldl count1 k bs) w' /\
      pending fd w' = Some [] /\ written 1 w' = Some ws) as Hloop.
  { clear. induction fuel as [|fuel IH]; intros bs w k Hp Hw Hf; [lia|]. cbn [wc_loop].
    destruct (read_law fd 512 w bs Hp eq_refl)
      as (out & rest & w1 & E1 & -> & _ & Hnil & _ & Hp1 & _ & Hw1 & _).
    mstep E1. cbn [fst snd]. destruct (decide (out = [])) as [->|Hne].
    - rewrite (Hnil eq_refl) in *. simpl. exists w1. by rewrite Hw1.
    - assert (0 < length out)%nat by (destruct out; [done|simpl; lia]). zbool.
      rewrite length_app in Hf. rewrite foldl_app. apply (IH rest); [done|by rewrite Hw1|lia]. }
  destruct (Hloop (S (length bs)) bs w (mk_counts 0 0 0 false) Hp Hw ltac:(lia))
    as (w1 & E1 & Hp1 & Hw1).
  unfold wc. mstep E1. cbn [fst snd Z.ltb Z.compare].
  destruct (count_spec bs (mk_counts 0 0 0 false)) as (L & C & Ws); [cbn; lia..|].
  cbn zeta in *. rewrite L, C, Ws.
  destruct (printf_emits 1 (bytes_of "%d %d %d %s" ++ [10])
    [PInt (Z.of_nat (length (newlines bs))); PInt (Z.of_nat (length (words bs)));
     PInt (Z.of_nat (length bs)); PStr (Some name)] w1 ws Hw1) as (w2 & E2 & Hw2 & _ & Hfr).
  exists w2. destruct (Hfr fd) as [-> _]. split_and!; [exact E2|done|exact Hw2].
Qed.

Lemma wc_counts_witness :
  exists w', wc 0 (bytes_of "f") 12 (mk_desk (fun _ => Some [bytes_of "two w"; bytes_of "ords" ++ [10; 65]])
      (fun _ => Some [])) = Ret tt w' /\
    pending 0 w' = Some [] /\ written 1 w' = Some (bytes_of "1 3 11 f" ++ [10]).
Proof.
  apply (wc_counts 0 (bytes_of "f") (bytes_of "two words" ++ [10; 65]) _ []);
    [reflexivity|reflexivity|vm_compute; reflexivity].
Defined.
End Wc.

(** ** echo.c *)

Module Echo.
Section Echo.
Context {W : Type} `{Sys W}.

Fixpoint echo (args : list (list Z)) : M W unit :=
  match args with
  | [] => ret tt
  | a :: args =>
    Printf.printf 1 (bytes_of "%s%s")
      [PStr (Some a); PStr (Some (match args with [] => [10] | _ => [32] end))] ;;;
    echo args
  end.

Definition main (argv : list (list Z)) : M W unit := echo argv ;;; exit.
End Echo.
End Echo.

(** ** ls.c *)

Module Ls.
Definition DIRSIZ : Z := 14.

(** The part of the path after its last slash. *)
Fixpoint to_slash (rev : list Z) : list Z :=
  match rev with
  | [] => []
  | c :: rev => if c =? 47 then [] else c :: to_slash rev
  end.
Definition basename (path : list Z) : list Z := reverse (to_slash (reverse path)).

(** The name, padded with blanks to [DIRSIZ] characters if it is shorter. *)
Definition fmtname (path : list Z) : list Z :=
  let p := basename path in
  if DIRSIZ <=? Ulib.strlen p then p
  else p ++ replicate (Z.to_nat (DIRSIZ - Ulib.strlen p)) 32.

Section Ls.
Context {W : Type} `{Sys W}.

Definition ls_line (path : list Z) (st : stat) : M W unit :=
  line 1 "%s %d %d %d"
    [PStr (Some (fmtname path)); PInt (st_type st); PInt (st_ino st); PInt (st_size st)].

(** The entries of a directory, 16 bytes each: a number and a name.  [dir] is
    the path with its slash, to which [memmove] appends the name. *)
Fixpoint ls_dir (fd : Z) (dir : list Z) (fuel : nat) : M W unit :=
  match fuel with
  | O => spin
  | S fuel =>
    r <- u_read fd 16 ;;
    if negb (fst r =? 16) then ret tt else
    if get16 (snd r) 0 =? 0 then ls_dir fd dir fuel else
    let buf := dir ++ str (take 14 (drop 2 (snd r))) in
    st <- Ulib.stat buf ;;
    match st with
    | None => line 1 "ls: cannot stat %s" [PStr (Some buf)] ;;; ls_dir fd dir fuel
    | Some st => ls_line buf st ;;; ls_dir fd dir fuel
    end
  end.

Definition ls (path : list Z) (fuel : nat) : M W unit :=
  fd <- u_open path 0 ;;
  if fd <? 0 then line 2 "ls: cannot open %s" [PStr (Some path)] else
  st <- u_fstat fd ;;
  match st with
  | None => line 2 "ls: cannot stat %s" [PStr (Some path)] ;;; u_close fd ;;; ret tt
  | Some st =>
    (if st_type st =? 2 then ls_line path st
     else if st_type st =? 1 then
       if 512 <? Ulib.strlen path + 1 + DIRSIZ + 1 then line 1 "ls: path too long" []
       else ls_dir fd (path ++ [47]) fuel
     else ret tt) ;;;
    u_close fd ;;; ret tt
  end.

Definition main (argv : list (list Z)) (fuel : nat) : M W unit :=
  match argv with
  | [] => ls (bytes_of ".") fuel ;;; exit
  | _ => mfor (fun a => ls a fuel) argv ;;; exit
  end.
End Ls.

Lemma to_slash_spec rev : exists tl, rev = to_slash rev ++ tl /\ 47 ∉ to_slash rev /\
  (tl = [] \/ head tl = Some 47).
Proof.
  induction rev as [|c rev (tl & E & Hn & Ht)]; [exists []; split_and!; [done|apply not_elem_of_nil|by left]|].
  cbn [to_slash]. destruct (Z.eqb_spec c 47) as [->|Hc].
  - exists (47 :: rev). split_and!; [done|apply not_elem_of_nil|by right].
  - exists tl. split_and!; [by rewrite E at 1| |done]. apply not_elem_of_cons. by split.
Qed.

(** A name is found after the last slash of a path. *)
Lemma basename_spec dir name : 47 ∉ name -> basename (dir ++ 47 :: name) = name.
Proof.
  intros Hn. unfold basename. rewrite reverse_app, reverse_cons, <- app_assoc. cbn [app].
  rewrite <- (reverse_involutive name) at 2. f_equal. set (r := reverse name).
  assert (47 ∉ r) as Hr by by (unfold r; rewrite elem_of_reverse). clearbody r.
  induction r as [|c r IH]; [done|]. apply not_elem_of_cons in Hr as [Hc Hr].
  cbn [app to_slash]. rewrite (proj2 (Z.eqb_neq c 47)) by congruence. by rewrite IH.
Qed.

Lemma strlen_length s : Ulib.strlen s = Z.of_nat (length s).
Proof. induction s as [|c s IH]; [done|]. cbn [Ulib.strlen length]. lia. Qed.
End Ls.

(** ** kill.c, ln.c, mkdir.c, rm.c, copy.c and clear.c *)

Section Small.
Context {W : Type} `{Sys W}.

Definition kill_main (argv : list (list Z)) : M W unit :=
  match argv with
  | [] => line 2 "usage: kill pid..." [] ;;; exit
  | _ => mfor (fun a => u_kill (Ulib.atoi a) ;;; ret tt) argv ;;; exit
  end.

Definition ln_main (argv : list (list Z)) : M W unit :=
  match argv with
  | [old; new] =>
    r <- u_link old new ;;
    (if r <? 0 then line 2 "link %s %s: failed" [PStr (Some old); PStr (Some new)] else ret tt) ;;;
    exit
  | _ => line 2 "Usage: ln old new" [] ;;; exit
  end.

(** A loop that stops at the first file for which the call fails. *)
Fixpoint each_file (call : list Z -> M W Z) (failed : string) (files : list (list Z)) : M W unit :=
  match files with
  | [] => ret tt
  | f :: files =>
    r <- call f ;;
    if r <? 0 then line 2 failed [PStr (Some f)] else each_file call failed files
  end.

Definition mkdir_main (argv : list (list Z)) : M W unit :=
  match argv with
  | [] => line 2 "Usage: mkdir files..." [] ;;; exit
  | _ => each_file u_mkdir "mkdir: %s failed to create" argv ;;; exit
  end.

Definition rm_main (argv : list (list Z)) : M W unit :=
  match argv with
  | [] => line 2 "Usage: rm files..." [] ;;; exit
  | _ => each_file u_unlink "rm: %s failed to delete" argv ;;; exit
  end.

Definition copy_main (argv : list (list Z)) : M W unit :=
  match argv with
  | [src; dst] =>
    r <- u_copy src dst ;;
    if r <? 0 then line 2 "Copy failed" [] ;;; exit
    else line 1 "Copy successful" [] ;;; exit
  | _ => line 2 "Usage: copy <source> <destination>" [] ;;; exit
  end.

Definition clear_main : M W unit := u_clear_console ;;; exit.
End Small.
