(* ===== verification/Sh.v ===== *)
(** The shell, sh.c: the parser of command lines and the interpreter of
    commands.

    A pointer into the command line is the suffix of the line it points to,
    without the final NUL; the parser's [ps] is the state of its functions and
    its [panic] the outcome [Panic].  A parsed command holds its words as
    pairs of pointers, the start and the end; [nulterminate] turns them into
    C strings by storing a NUL at each end.  [malloc] is assumed to succeed,
    as the code does.

    A process that forks goes on as the parent or as the child according to
    what [fork] returns, so [runcmd] is the program of either. *)

From stdpp Require Import base list sets strings.
From Stdlib Require Import ZArith Lia.
From S2P Require Import Prelude Cons User.

Open Scope kernel_scope.

(** ** Commands *)

(** [struct cmd] and its kinds, with words of type [T]. *)
Inductive cmd (T : Type) : Type :=
| EXEC (argv : list T)
| REDIR (c : cmd T) (file : T) (mode fd : Z)
| PIPE (left right : cmd T)
| LIST (left right : cmd T)
| BACK (c : cmd T).
Arguments EXEC {T} argv.
Arguments REDIR {T} c file mode fd.
Arguments PIPE {T} left right.
Arguments LIST {T} left right.
Arguments BACK {T} c.

Definition MAXARGS : nat := 10.
Definition O_RDONLY : Z := 0.
Definition O_WRONLY_CREATE : Z := Z.lor 1 0x200.

(** A word of the line: the pointers to its start and behind its end. *)
Definition tok : Type := list Z * list Z.

(** ** Tokens *)

(** [strchr(set, c)] for a character of the line; a NUL is never found. *)
Definition isin (set : list Z) (c : Z) : bool :=
  match Ulib.strchr set c with Some _ => true | None => false end.
Definition whitespace : list Z := [32; 9; 13; 10; 11].
Definition symbols : list Z := [60; 124; 62; 38; 59; 40; 41].
Definition isspace : Z -> bool := isin whitespace.
Definition isword (c : Z) : bool := negb (isspace c) && negb (isin symbols c).

(** [while(s < es && strchr(whitespace, *s)) s++] *)
Fixpoint skip (s : list Z) : list Z :=
  match s with c :: s' => if isspace c then skip s' else s | [] => [] end.
Fixpoint skip_word (s : list Z) : list Z :=
  match s with c :: s' => if isword c then skip_word s' else s | [] => [] end.

(** The token's kind, its start, and [s] behind it. *)
Definition token (s : list Z) : Z * list Z :=
  match s with
  | [] => (0, [])
  | c :: s' =>
    if isin [124; 40; 41; 59; 38; 60] c then (c, s')
    else if c =? 62 then
      match s' with d :: s'' => if d =? 62 then (43, s'') else (62, s') | [] => (62, s') end
    else (97, skip_word s)
  end.

(** The result and the word [(q, eq)]. *)
Definition gettoken : M (list Z) (Z * tok) :=
  s <- gets skip ;;
  let (r, e) := token s in
  modify (fun _ => skip e) ;;;
  ret (r, (s, e)).

Definition peek (toks : list Z) : M (list Z) bool :=
  modify skip ;;;
  s <- gets id ;;
  ret (match s with c :: _ => isin toks c | [] => false end).

(** ** The parser *)

(** A redirection: the file, the mode and the descriptor. *)
Definition redir : Type := tok * (Z * Z).
Definition redircmd {T} (c : cmd T) (r : T * (Z * Z)) : cmd T := REDIR c r.1 r.2.1 r.2.2.

(** The redirections that follow, for the caller to put around its command:
    [parseexec] goes on to fill the [argv] of the command inside. *)
Fixpoint parseredirs (fuel : nat) : M (list Z) (list redir) :=
  match fuel with
  | O => spin
  | S fuel =>
    b <- peek [60; 62] ;;
    if negb b then ret [] else
    t <- gettoken ;;
    w <- gettoken ;;
    if negb (w.1 =? 97) then panic "missing file for redirection" else
    rs <- parseredirs fuel ;;
    ret ((w.2, if t.1 =? 60 then (O_RDONLY, 0) else (O_WRONLY_CREATE, 1)) :: rs)
  end.

(** The length of what is left bounds the rounds of the inner loops. *)
Definition left_ : M (list Z) nat := gets (fun s => S (length s)).

(** The arguments of a simple command, with the redirections between them. *)
Fixpoint parseargs (fuel : nat) (argv : list tok) (rs : list redir) : M (list Z) (cmd tok) :=
  match fuel with
  | O => spin
  | S fuel =>
    b <- peek [124; 41; 38; 59] ;;
    if (b : bool) then ret (foldl redircmd (EXEC argv) rs) else
    t <- gettoken ;;
    if t.1 =? 0 then ret (foldl redircmd (EXEC argv) rs) else
    if negb (t.1 =? 97) then panic "syntax" else
    let argv := argv ++ [t.2] in
    if (MAXARGS <=? length argv)%nat then panic "too many args" else
    n <- left_ ;;
    rs' <- parseredirs n ;;
    parseargs fuel argv (rs ++ rs')
  end.

(** [while(peek(ps, es, "&")) ...] *)
Fixpoint parseback (fuel : nat) (c : cmd tok) : M (list Z) (cmd tok) :=
  match fuel with
  | O => spin
  | S fuel =>
    b <- peek [38] ;;
    if (b : bool) then gettoken ;;; parseback fuel (BACK c) else ret c
  end.

Fixpoint parseline (fuel : nat) : M (list Z) (cmd tok) :=
  match fuel with
  | O => spin
  | S fuel =>
    c <- parsepipe fuel ;;
    n <- left_ ;;
    c <- parseback n c ;;
    b <- peek [59] ;;
    if (b : bool) then
      gettoken ;;;
      r <- parseline fuel ;;
      ret (LIST c r)
    else ret c
  end
with parsepipe (fuel : nat) : M (list Z) (cmd tok) :=
  match fuel with
  | O => spin
  | S fuel =>
    c <- parseexec fuel ;;
    b <- peek [124] ;;
    if (b : bool) then
      gettoken ;;;
      r <- parsepipe fuel ;;
      ret (PIPE c r)
    else ret c
  end
with parseblock (fuel : nat) : M (list Z) (cmd tok) :=
  match fuel with
  | O => spin
  | S fuel =>
    b <- peek [40] ;;
    if negb b then panic "parseblock" else
    gettoken ;;;
    c <- parseline fuel ;;
    b <- peek [41] ;;
    if negb b then panic "syntax - missing )" else
    gettoken ;;;
    n <- left_ ;;
    rs <- parseredirs n ;;
    ret (foldl redircmd c rs)
  end
with parseexec (fuel : nat) : M (list Z) (cmd tok) :=
  match fuel with
  | O => spin
  | S fuel =>
    b <- peek [40] ;;
    if (b : bool) then parseblock fuel else
    n <- left_ ;;
    rs <- parseredirs n ;;
    n <- left_ ;;
    parseargs n [] rs
  end.

(** ** Strings *)

(** The index in the line of a pointer into it. *)
Definition index (line p : list Z) : nat := length line - length p.

(** [nulterminate] stores a NUL at the end of every word. *)
Fixpoint nulterminate (line : list Z) (c : cmd tok) (buf : list Z) : list Z :=
  match c with
  | EXEC argv => foldl (fun buf t => <[index line t.2 := 0]> buf) buf argv
  | REDIR c file _ _ => <[index line file.2 := 0]> (nulterminate line c buf)
  | PIPE l r | LIST l r => nulterminate line r (nulterminate line l buf)
  | BACK c => nulterminate line c buf
  end.

(** The command with the C strings its pointers point to in [buf]. *)
Fixpoint resolve (line buf : list Z) (c : cmd tok) : cmd (list Z) :=
  let s (t : tok) := str (drop (index line t.1) buf) in
  match c with
  | EXEC argv => EXEC (map s argv)
  | REDIR c file mode fd => REDIR (resolve line buf c) (s file) mode fd
  | PIPE l r => PIPE (resolve line buf l) (resolve line buf r)
  | LIST l r => LIST (resolve line buf l) (resolve line buf r)
  | BACK c => BACK (resolve line buf c)
  end.

(** The nesting of the parser's calls is bounded by the length of the line. *)
Definition parse_fuel (line : list Z) : nat := 8 * S (length line).

(** The line is in [buf], followed by a NUL.  The outcome [Panic "leftovers"]
    is the message with what is left of the line, and then [panic("syntax")]. *)
Definition parsecmd (line : list Z) : M (list Z) (cmd (list Z)) :=
  modify (fun _ => line) ;;;
  c <- parseline (parse_fuel line) ;;
  peek [] ;;;
  s <- gets id ;;
  if decide (s = []) then ret (resolve line (nulterminate line c (line ++ [0])) c)
  else panic "leftovers".

(** ** Running commands *)

Section Run.
Context {W : Type} `{Sys W, SysProc W}.

Definition sh_panic {A} (msg : list Z) : M W A :=
  Printf.printf 2 (bytes_of "%s" ++ [10]) [PStr (Some msg)] ;;; exit.

Definition fork1 : M W Z :=
  pid <- u_fork ;;
  if pid =? -1 then sh_panic (bytes_of "fork") else ret pid.

(** [if(fork1() == 0) child] *)
Definition in_child (child : M W unit) : M W unit :=
  pid <- fork1 ;;
  if pid =? 0 then child else ret tt.

(** The child's end of a pipe takes the place of descriptor [fd]. *)
Definition onto (fd keep p0 p1 : Z) : M W unit :=
  u_close fd ;;; u_dup keep ;;; u_close p0 ;;; u_close p1 ;;; ret tt.

Fixpoint runcmd (c : cmd (list Z)) : M W unit :=
  match c with
  | EXEC argv =>
    match argv with
    | [] => exit
    | a :: _ =>
      u_exec a argv ;;;
      Printf.printf 2 (bytes_of "exec %s failed" ++ [10]) [PStr (Some a)] ;;;
      exit
    end
  | REDIR c file mode fd =>
    u_close fd ;;;
    r <- u_open file mode ;;
    if r <? 0 then
      Printf.printf 2 (bytes_of "open %s failed" ++ [10]) [PStr (Some file)] ;;; exit
    else runcmd c ;;; exit
  | LIST l r =>
    in_child (runcmd l) ;;;
    u_wait ;;;
    runcmd r ;;;
    exit
  | PIPE l r =>
    p <- u_pipe ;;
    if fst p <? 0 then sh_panic (bytes_of "pipe") else
    let (p0, p1) := (snd p : Z * Z) in
    in_child (onto 1 p1 p0 p1 ;;; runcmd l) ;;;
    in_child (onto 0 p0 p0 p1 ;;; runcmd r) ;;;
    u_close p0 ;;;
    u_close p1 ;;;
    u_wait ;;;
    u_wait ;;;
    exit
  | BACK c => in_child (runcmd c) ;;; exit
  end.

(** [runcmd(parsecmd(buf))] *)
Definition run_line (line : list Z) : M W unit :=
  match parsecmd line [] with
  | Ret c _ => runcmd c
  | Panic msg rest =>
    if String.eqb msg "leftovers" then
      Printf.printf 2 (bytes_of "leftovers: %s" ++ [10]) [PStr (Some rest)] ;;;
      sh_panic (bytes_of "syntax")
    else sh_panic (bytes_of msg)
  | _ => spin
  end.

(** The line read, or [None] at the end of the input. *)
Definition getcmd (nbuf : Z) : M W (option (list Z)) :=
  Printf.printf 2 (bytes_of "$ ") [] ;;;
  buf <- Ulib.gets nbuf ;;
  ret (match str buf with [] => None | s => Some s end).

(** [buf] starts with [cd] and a blank. *)
Definition is_cd (buf : list Z) : bool := bool_decide (take 3 buf = bytes_of "cd ").

Fixpoint sh_loop (fuel : nat) : M W unit :=
  match fuel with
  | O => spin
  | S fuel =>
    r <- getcmd 100 ;;
    match r with
    | None => exit
    | Some buf =>
      if is_cd buf then
        let dir := drop 3 (take (length buf - 1) buf) in
        r <- u_chdir dir ;;
        (if r <? 0 then Printf.printf 2 (bytes_of "cannot cd %s" ++ [10]) [PStr (Some dir)]
         else ret tt) ;;;
        sh_loop fuel
      else
        in_child (run_line buf) ;;;
        u_wait ;;;
        sh_loop fuel
    end
  end.

(** The first loop of [main] makes sure that descriptors 0, 1 and 2 are open. *)
Fixpoint open_console (fuel : nat) : M W unit :=
  match fuel with
  | O => spin
  | S fuel =>
    fd <- u_open (bytes_of "console") 2 ;;
    if fd <? 0 then ret tt else
    if 3 <=? fd then u_close fd ;;; ret tt else open_console fuel
  end.

Definition sh_main (fuel : nat) : M W unit := open_console fuel ;;; sh_loop fuel.

Lemma bind_never {A B} (m : M W A) (k : A -> M W B) w :
  (forall a w', ~ exists b w2, k a w' = Ret b w2) -> ~ exists b w2, bind m k w = Ret b w2.
Proof. intros Hk (b & w2 & E). apply bind_inv in E as (a & w1 & _ & E). apply (Hk a w1). by eexists _, _. Qed.

(** [runcmd] never returns, whatever the system calls do. *)
Lemma runcmd_never c w : ~ exists w', runcmd c w = Ret tt w'.
Proof.
  assert (forall w, ~ exists b w2, @exit W unit w = Ret b w2) as Hex by (by intros ? (? & ? & ?)).
  assert (~ exists b w2, runcmd c w = Ret b w2) as Hn; [|intros [w' E]; apply Hn; by eexists _, _].
  revert w. induction c as [[|a argv]|c IH f m d|l IHl r IHr|l IHl r IHr|c IH]; intros w; cbn [runcmd];
    try done; repeat (apply bind_never; intros); try done.
  - destruct (_ <? _); repeat (apply bind_never; intros); done.
  - destruct (fst a <? 0).
    + unfold sh_panic. apply bind_never; done.
    + destruct (snd a). repeat (apply bind_never; intros); done.
Qed.
End Run.

Example parse_ex :
  exists s, parsecmd (bytes_of "(ls;cat <a >> b) | wc -l &") [] =
  Ret (BACK (PIPE (LIST (EXEC [bytes_of "ls"])
      (REDIR (REDIR (EXEC [bytes_of "cat"]) (bytes_of "a") 0 0) (bytes_of "b") 513 1))
    (EXEC [bytes_of "wc"; bytes_of "-l"]))) s.
Proof. eexists. vm_compute. reflexivity. Qed.

(** ** Words *)

Lemma strchr_elem set c : isin set c = bool_decide (c ∈ set).
Proof.
  unfold isin. induction set as [|x set IH]; cbn [Ulib.strchr].
  - rewrite bool_decide_eq_false_2; [done|apply not_elem_of_nil].
  - destruct (Z.eqb_spec x c) as [->|Hne].
    + by rewrite bool_decide_eq_true_2 by by left.
    + destruct (Ulib.strchr set c); cbn; rewrite IH; apply bool_decide_ext;
        rewrite elem_of_cons; intuition congruence.
Qed.

Lemma peek_eq toks s :
  peek toks s = Ret (match skip s with c :: _ => isin toks c | [] => false end) (skip s).
Proof. done. Qed.

Lemma gettoken_eq s :
  gettoken s = Ret ((token (skip s)).1, (skip s, (token (skip s)).2)) (skip (token (skip s)).2).
Proof. unfold gettoken. mrun. by destruct (token (skip s)). Qed.

(** What can stand behind a word. *)
Definition stop (t : list Z) : Prop := match t with c :: _ => isword c = false | [] => True end.

Lemma skip_word_app w t : Forall (fun c => isword c = true) w -> stop t -> skip_word (w ++ t) = t.
Proof.
  intros Hw Ht. induction Hw as [|c w Hc _ IH]; cbn [app skip_word].
  - destruct t as [|c t]; [done|]. cbn. by rewrite Ht.
  - by rewrite Hc.
Qed.

Lemma isword_not c : isword c = true -> isspace c = false /\ isin symbols c = false.
Proof. unfold isword. by destruct (isspace c), (isin symbols c). Qed.

(** A symbol is not white space. *)
Lemma skip_symbol c t : isin symbols c = true -> skip (c :: t) = c :: t.
Proof.
  rewrite strchr_elem, bool_decide_eq_true. intros Hc. cbn [skip].
  assert (isspace c = false) as ->; [|done].
  unfold isspace. rewrite strchr_elem. apply bool_decide_eq_false_2. unfold symbols, whitespace in *.
  set_solver.
Qed.

Lemma skip_word_start w t : w <> [] -> Forall (fun c => isword c = true) w -> skip (w ++ t) = w ++ t.
Proof.
    intros Hne Hw. destruct Hw as [|c w' Hc _]; [done|]. cbn [app skip]. by rewrite (proj1 (isword_not c Hc)).
Qed.

Lemma gettoken_word w t : w <> [] -> Forall (fun c => isword c = true) w -> stop t ->
  gettoken (w ++ t) = Ret (97, (w ++ t, t)) (skip t).
Proof.
  intros Hne Hw Ht. rewrite gettoken_eq, skip_word_start by done.
  assert (token (w ++ t) = (97, t)) as ->; [|done].
  pose proof (skip_word_app w t Hw Ht) as Es. destruct Hw as [|c w Hc Hw]; [done|].
  destruct (isword_not c Hc) as [_ Hs]. rewrite strchr_elem, bool_decide_eq_false in Hs.
  unfold token. cbn [app] in *.
  rewrite strchr_elem, bool_decide_eq_false_2 by (unfold symbols in Hs; set_solver).
  rewrite (proj2 (Z.eqb_neq c 62)) by (unfold symbols in Hs; set_solver). by rewrite Es.
Qed.

(** ** Printing *)

Definition word_ok (w : list Z) : Prop := w <> [] /\ Forall (fun c => isword c = true) w.
Definition redir_ok (r : list Z * (Z * Z)) : Prop :=
  word_ok r.1 /\ (r.2 = (O_RDONLY, 0) \/ r.2 = (O_WRONLY_CREATE, 1)).

Definition pwords (ws : list (list Z)) : list Z := concat (map (fun w => w ++ [32]) ws).
Definition predirs (rs : list (list Z * (Z * Z))) : list Z :=
  concat (map (fun r => (if r.2.2 =? 0 then 60 else 62) :: r.1 ++ [32]) rs).

(** The levels of the grammar: what can be an operand of a redirection, of a
    pipe, of [&], and a whole line. *)
Inductive level : Type := Atom | Pipe | Back | Line.
Definition paren (b : bool) (s : list Z) : list Z := if b then 40 :: s ++ [41] else s.

Fixpoint print (lv : level) (c : cmd (list Z)) : list Z :=
  match c with
  | EXEC argv => pwords argv
  | REDIR c file mode fd => print Atom c ++ predirs [(file, (mode, fd))]
  | PIPE l r =>
    paren (match lv with Atom => true | _ => false end) (print Atom l ++ 124 :: print Pipe r)
  | LIST l r =>
    paren (match lv with Line => false | _ => true end) (print Back l ++ 59 :: print Line r)
  | BACK c =>
    paren (match lv with Line | Back => false | _ => true end) (print Back c ++ [38])
  end.

(** Commands that the shell can be given: at most nine words, and the two
    kinds of redirection. *)
Fixpoint cmd_ok (c : cmd (list Z)) : Prop :=
  match c with
  | EXEC argv => Forall word_ok argv /\ (length argv < MAXARGS)%nat
  | REDIR c file mode fd => cmd_ok c /\ redir_ok (file, (mode, fd))
  | PIPE l r | LIST l r => cmd_ok l /\ cmd_ok r
  | BACK c => cmd_ok c
  end.

(** Commands with related words. *)
Inductive cmd_rel {A B} (R : A -> B -> Prop) : cmd A -> cmd B -> Prop :=
| rel_exec a b : Forall2 R a b -> cmd_rel R (EXEC a) (EXEC b)
| rel_redir c d f g mode fd : cmd_rel R c d -> R f g -> cmd_rel R (REDIR c f mode fd) (REDIR d g mode fd)
| rel_pipe l1 l2 r1 r2 : cmd_rel R l1 l2 -> cmd_rel R r1 r2 -> cmd_rel R (PIPE l1 r1) (PIPE l2 r2)
| rel_list l1 l2 r1 r2 : cmd_rel R l1 l2 -> cmd_rel R r1 r2 -> cmd_rel R (LIST l1 r1) (LIST l2 r2)
| rel_back c d : cmd_rel R c d -> cmd_rel R (BACK c) (BACK d).

Section Parse.
Context (line : list Z).

(** The pointers of [t] enclose the word [w] of the line. *)
Record tok_ok (t : tok) (w : list Z) : Prop := {
  tk_word : word_ok w;
  tk_start : t.1 = w ++ t.2;
  tk_stop : stop t.2;
  tk_line : t.1 `suffix_of` line }.

Definition redir_rel (r : redir) (x : list Z * (Z * Z)) : Prop := tok_ok r.1 x.1 /\ r.2 = x.2.

(** Where a command may end. *)
Definition ends (set : list Z) (t : list Z) : Prop := match t with c :: _ => c ∈ set | [] => True end.
Definition ends_exec : list Z -> Prop := ends [124; 41; 38; 59].

(** Nothing to skip, and no redirection. *)
Definition plain (t : list Z) : Prop :=
  match t with c :: _ => isspace c = false /\ isin [60; 62] c = false | [] => True end.

Lemma skip_plain t : plain t -> skip t = t.
Proof. destruct t as [|c t]; [done|]. intros [E _]. cbn [skip]. by rewrite E. Qed.

Lemma ends_plain set t : (forall c, c ∈ set -> c ∈ [124; 41; 38; 59]) -> ends set t -> plain t.
Proof.
  destruct t as [|c t]; [done|]. intros Hs Hc%Hs. simpl. unfold isspace. rewrite !strchr_elem.
  split; apply bool_decide_eq_false_2; unfold whitespace; set_solver.
Qed.

Lemma word_plain w t : word_ok w -> plain (w ++ t).
Proof.
  intros [Hne Hw]. destruct Hw as [|c w Hc _]; [done|]. simpl.
  destruct (isword_not c Hc) as [H1 H2]. split; [done|].
  rewrite strchr_elem, bool_decide_eq_false in *. unfold symbols in H2. set_solver.
Qed.

Lemma words_plain ws t : Forall word_ok ws -> plain t -> plain (pwords ws ++ t).
Proof.
  intros [|w ws' Hw _] Ht; [done|]. unfold pwords. cbn [map concat]. rewrite <- !app_assoc.
  by apply word_plain.
Qed.

Lemma skip_redirs rs t : skip t = t -> skip (predirs rs ++ t) = predirs rs ++ t.
Proof.
  intros Ht. destruct rs as [|r rs]; [done|]. unfold predirs. cbn [map concat app].
  apply skip_symbol. by destruct (r.2.2 =? 0).
Qed.

Lemma length_predirs rs : (length rs <= length (predirs rs))%nat.
Proof.
  induction rs as [|r rs IH]; [done|]. unfold predirs in *. cbn [map concat length app].
  rewrite !length_app. lia.
Qed.

Lemma parseredirs_ok rs : forall t fuel, Forall redir_ok rs -> plain t -> (length rs < fuel)%nat ->
  (predirs rs ++ t) `suffix_of` line ->
  exists rs', parseredirs fuel (predirs rs ++ t) = Ret rs' t /\ Forall2 redir_rel rs' rs.
Proof.
  induction rs as [|[f md] rs IH]; intros t fuel Hrs Ht Hf Hsuf;
    (destruct fuel as [|fuel]; [simpl in Hf; lia|]); cbn [parseredirs].
  - exists []. split; [|done]. mstep (peek_eq [60; 62] (predirs [] ++ t)).
    change (predirs [] ++ t) with t. rewrite (skip_plain t Ht).
    destruct t as [|c t]; [done|]. by destruct Ht as [_ ->].
  - apply Forall_cons in Hrs as [[[Hne Hw] Hmd] Hrs]. cbn [fst snd] in *.
    set (rest := predirs rs ++ t) in *.
    assert (predirs ((f, md) :: rs) ++ t = (if md.2 =? 0 then 60 else 62) :: f ++ 32 :: rest) as E.
    { unfold predirs. cbn [map concat app fst snd]. rewrite <- !app_assoc. done. }
    rewrite E in *. set (o := if md.2 =? 0 then 60 else 62) in *.
    assert (o = 60 \/ o = 62) as Ho by (unfold o; destruct (_ =? _); auto).
    assert (skip rest = rest) as Hskip by by apply skip_redirs, skip_plain.
    assert ((f ++ 32 :: rest) `suffix_of` line) as Hsf by by eapply suffix_cons_l.
    destruct (IH t fuel Hrs Ht ltac:(simpl in Hf; lia)) as (rs' & E2 & HR).
    { eapply suffix_cons_l, suffix_app_l, Hsf. }
    assert (gettoken (o :: f ++ 32 :: rest) = Ret (o, (o :: f ++ 32 :: rest, f ++ 32 :: rest))
      (f ++ 32 :: rest)) as Eo.
    { rewrite gettoken_eq, skip_symbol by by destruct Ho as [-> | ->].
      assert (token (o :: f ++ 32 :: rest) = (o, f ++ 32 :: rest)) as ->;
        [|by cbn [fst snd]; rewrite skip_word_start].
      destruct Ho as [-> | ->]; [done|]. destruct Hw as [|c f Hc Hw]; [done|].
      cbn. destruct (isword_not c Hc) as [_ Hs]. rewrite strchr_elem, bool_decide_eq_false in Hs.
      destruct (Z.eqb_spec c 62) as [->|]; [|by destruct c as [|[]|]]. unfold symbols in Hs. set_solver. }
    mstep (peek_eq [60; 62] (o :: f ++ 32 :: rest)).
    rewrite skip_symbol by by destruct Ho as [-> | ->].
    replace (isin [60; 62] o) with true by by destruct Ho as [-> | ->]. cbn [negb].
    mstep Eo. mstep (gettoken_word f (32 :: rest) Hne Hw eq_refl). cbn [fst snd Z.eqb Pos.eqb negb].
    change (skip (32 :: rest)) with (skip rest). rewrite Hskip. mstep E2. unfold ret.
    eexists. split; [done|]. constructor; [|done]. split; [by split|]. cbn [fst snd].
    unfold o. by destruct Hmd as [-> | ->].
Qed.

Lemma suffix_drop (u t : list Z) : (u ++ t) `suffix_of` line -> t `suffix_of` line.
Proof. apply suffix_app_l. Qed.

Lemma peek_false set t : (forall c t', t = c :: t' -> isin set c = false) -> plain t ->
  peek set t = Ret false t.
Proof.
  intros H Ht. rewrite peek_eq, (skip_plain t Ht). destruct t as [|c t]; [done|].
  by rewrite (H c t eq_refl).
Qed.

Lemma peek_word set w t : word_ok w -> (forall c, c ∈ set -> c ∈ symbols) ->
  peek set (w ++ t) = Ret false (w ++ t).
Proof.
  intros Hw Hset. apply peek_false; [|by apply word_plain]. intros c t' E.
  destruct Hw as [Hne Hw]. destruct Hw as [|x w Hx _]; [done|]. injection E as -> _.
  destruct (isword_not c Hx) as [_ Hs]. rewrite strchr_elem, bool_decide_eq_false in *. auto.
Qed.

Lemma gettoken_end t : t = [] -> gettoken t = Ret (0, ([], [])) [].
Proof. by intros ->. Qed.

(** The redirections that stand here: all of them if no word comes first. *)
Lemma redirs_here ws rs t : Forall word_ok ws -> Forall redir_ok rs -> ends_exec t ->
  (pwords ws ++ predirs rs ++ t) `suffix_of` line ->
  exists rs', parseredirs (S (length (pwords ws ++ predirs rs ++ t))) (pwords ws ++ predirs rs ++ t)
      = Ret rs' (pwords ws ++ predirs (if decide (ws = []) then [] else rs) ++ t) /\
    Forall2 redir_rel rs' (if decide (ws = []) then rs else []).
Proof.
  intros Hws Hrs Ht Hsuf. assert (plain t) as Hpt by by eapply ends_plain.
  destruct (decide (ws = [])) as [->|Hne].
  - apply parseredirs_ok; [done|done| |done]. cbn [pwords map concat app].
    pose proof (length_predirs rs). rewrite length_app. lia.
  - apply (parseredirs_ok [] (pwords ws ++ predirs rs ++ t)); [done| |simpl; lia|done].
    destruct Hws as [|w2 ws2 Hw2 _]; [done|]. unfold pwords. cbn [map concat].
    rewrite <- !app_assoc. by apply word_plain.
Qed.

(** Words, then the redirections, which follow the last word. *)
Lemma parseargs_ok rs t : Forall redir_ok rs -> ends_exec t ->
  forall ws argv0 rs0 fuel, Forall word_ok ws -> (length ws < fuel)%nat ->
  (length argv0 + length ws < MAXARGS)%nat ->
  let after := if decide (ws = []) then [] else rs in
  (pwords ws ++ predirs after ++ t) `suffix_of` line ->
  exists argv rs', parseargs fuel argv0 rs0 (pwords ws ++ predirs after ++ t)
      = Ret (foldl redircmd (EXEC (argv0 ++ argv)) (rs0 ++ rs')) t /\
    Forall2 tok_ok argv ws /\ Forall2 redir_rel rs' after.
Proof.
  intros Hrs Ht. assert (plain t) as Hpt by by eapply ends_plain.
  induction ws as [|w ws IH]; intros argv0 rs0 fuel Hws Hf Hmax after Hsuf;
    (destruct fuel as [|fuel]; [simpl in Hf; lia|]); cbn [parseargs].
  - exists [], []. unfold after. cbn [decide_rel list_eq_dec]. rewrite !app_nil_r.
    change (pwords [] ++ predirs [] ++ t) with t. split; [|done].
    mstep (peek_eq [124; 41; 38; 59] t). rewrite (skip_plain t Hpt). destruct t as [|c t].
    + by mstep (gettoken_end [] eq_refl).
    + rewrite strchr_elem, bool_decide_eq_true_2 by exact Ht. done.
  - unfold after in *. rewrite decide_False in * by done. clear after.
    apply Forall_cons in Hws as [Hw Hws]. cbn [length] in Hf, Hmax.
    set (rest := pwords ws ++ predirs rs ++ t) in *.
    assert (pwords (w :: ws) ++ predirs rs ++ t = w ++ 32 :: rest) as E.
    { unfold pwords. cbn [map concat]. rewrite <- !app_assoc. done. }
    rewrite E in *.
    mstep (peek_word [124; 41; 38; 59] w (32 :: rest) Hw ltac:(unfold symbols; set_solver)).
    mstep (gettoken_word w (32 :: rest) (proj1 Hw) (proj2 Hw) eq_refl).
    cbn [fst snd Z.eqb Pos.eqb negb]. rewrite (proj2 (Nat.leb_gt _ _)) by (rewrite length_app; simpl; lia).
    change (skip (32 :: rest)) with (skip rest).
    assert (skip rest = rest) as ->.
    { unfold rest. destruct Hws as [|w2 ws2 Hw2 _]; [by apply skip_redirs, skip_plain|].
      unfold pwords. cbn [map concat]. rewrite <- !app_assoc. by apply skip_plain, word_plain. }
    assert (rest `suffix_of` line) as Hsr by by eapply suffix_cons_l, suffix_app_l.
    set (r0 := if decide (ws = []) then rs else []).
    set (r1 := if decide (ws = []) then [] else rs).
    destruct (redirs_here ws rs t Hws Hrs Ht Hsr) as (rs' & Er & HR). fold rest r0 r1 in Er, HR.
    unfold left_. rewrite (bind_Ret _ _ _ _ _ (gets_eq _ _)). mstep Er.
    destruct (IH (argv0 ++ [(w ++ 32 :: rest, 32 :: rest)]) (rs0 ++ rs') fuel Hws ltac:(lia))
      as (argv & rs2 & E2 & HA & HR2).
    { rewrite length_app. simpl. lia. }
    { fold r1. unfold r1. unfold rest in Hsr. case_decide as Hd; [|exact Hsr]. rewrite Hd in *.
      eapply suffix_app_l, suffix_app_l, Hsr. }
    exists ((w ++ 32 :: rest, 32 :: rest) :: argv), (rs' ++ rs2). fold r1 in E2.
    rewrite <- (app_assoc argv0), <- (app_assoc rs0) in E2.
    split_and!; [exact E2|constructor; [by split|done]|].
    replace rs with (r0 ++ r1); [by apply Forall2_app|]. unfold r0, r1.
    case_decide; [by rewrite app_nil_r|done].
Qed.

Fixpoint csize (c : cmd (list Z)) : nat :=
  match c with
  | EXEC _ => 1
  | REDIR c _ _ _ | BACK c => S (csize c)
  | PIPE l r | LIST l r => csize l + csize r
  end.

Lemma csize_pos c : (1 <= csize c)%nat.
Proof. induction c; simpl; lia. Qed.

Lemma skip_print c : forall lv t, cmd_ok c -> skip t = t -> skip (print lv c ++ t) = print lv c ++ t.
Proof.
  induction c as [argv|c IH f m d|l IHl r IHr|l IHl r IHr|c IH]; intros lv t Hok Ht; cbn [print cmd_ok] in *.
  - destruct Hok as [[|w ws Hw _] _]; [done|]. unfold pwords. cbn [map concat].
    rewrite <- !app_assoc. by apply skip_plain, word_plain.
  - rewrite <- app_assoc. apply IH; [apply Hok|]. by apply skip_redirs.
  - destruct lv; cbn [paren]; [by apply skip_symbol|..]; rewrite <- app_assoc;
      (apply IHl; [apply Hok|by apply skip_symbol]).
  - destruct lv; cbn [paren]; [by apply skip_symbol..|]; rewrite <- app_assoc;
      (apply IHl; [apply Hok|by apply skip_symbol]).
  - destruct lv; cbn [paren]; [by apply skip_symbol..| |]; rewrite <- app_assoc;
      (apply IH; [apply Hok|by apply skip_symbol]).
Qed.

Lemma skip_ends t : ends_exec t -> skip t = t.
Proof. intros Ht. by apply skip_plain, (ends_plain [124; 41; 38; 59]). Qed.

Lemma peek_ends set t : ends_exec t ->
  peek set t = Ret (match t with c :: _ => isin set c | [] => false end) t.
Proof. intros Ht. rewrite peek_eq, (skip_ends t Ht). done. Qed.

Lemma peek_no set t : ends_exec t -> (forall c, c ∈ set -> ~ (match t with x :: _ => c = x | [] => False end)) ->
  peek set t = Ret false t.
Proof.
  intros Ht Hne. rewrite (peek_ends set t Ht). destruct t as [|c t]; [done|].
  rewrite strchr_elem, bool_decide_eq_false_2; [done|]. intros Hc. by apply (Hne c Hc).
Qed.

Lemma gettoken_sym c t : c ∈ [124; 40; 41; 59; 38] ->
  gettoken (c :: t) = Ret (c, (c :: t, t)) (skip t).
Proof.
  intros Hc. rewrite gettoken_eq, skip_symbol.
  - unfold token. rewrite strchr_elem, bool_decide_eq_true_2 by set_solver. done.
  - rewrite strchr_elem. apply bool_decide_eq_true_2. unfold symbols. set_solver.
Qed.

Lemma peek_yes set c t : c ∈ symbols -> c ∈ set -> peek set (c :: t) = Ret true (c :: t).
Proof.
  intros Hs Hc. rewrite peek_eq, skip_symbol by (rewrite strchr_elem; by apply bool_decide_eq_true_2).
  by rewrite strchr_elem, bool_decide_eq_true_2.
Qed.

Lemma rel_redirs c d rs' rs : cmd_rel tok_ok c d -> Forall2 redir_rel rs' rs ->
  cmd_rel tok_ok (foldl redircmd c rs') (foldl redircmd d rs).
Proof.
  intros Hc HR. revert c d Hc. induction HR as [|r x rs' rs [Hr E] _ IH]; intros c d Hc; [done|].
  apply IH. unfold redircmd. rewrite E. by constructor.
Qed.

(** A command is a chain of redirections of something else. *)
Lemma unredir c : cmd_ok c -> exists b rs, c = foldl redircmd b rs /\ cmd_ok b /\ Forall redir_ok rs /\
  match b with REDIR _ _ _ _ => False | _ => True end /\ csize c = (csize b + length rs)%nat /\
  print Atom c = print Atom b ++ predirs rs.
Proof.
  induction c as [argv|c IH f m d|l IHl r IHr|l IHl r IHr|c IH]; intros Hok;
    try (eexists _, []; cbn [foldl length]; rewrite app_nil_r, Nat.add_0_r; by split_and!).
  destruct Hok as [Hc Hr]. destruct (IH Hc) as (b & rs & -> & Hb & Hrs & Hn & Hs & Hp).
  exists b, (rs ++ [(f, (m, d))]). rewrite foldl_app, length_app. cbn [csize print].
  split_and!; [done|done|by apply Forall_app; split; [|constructor]|done|rewrite Hs; simpl; lia|].
  rewrite Hp. unfold predirs. by rewrite map_app, concat_app, <- app_assoc.
Qed.

Definition parses (m : M (list Z) (cmd tok)) (text t : list Z) (c : cmd (list Z)) : Prop :=
  (text ++ t) `suffix_of` line -> exists c', m (text ++ t) = Ret c' t /\ cmd_rel tok_ok c' c.

Definition line_at (c : cmd (list Z)) (n : nat) : Prop := forall t fuel,
  ends [41] t -> (n <= fuel)%nat -> parses (parseline fuel) (print Line c) t c.
Definition pipe_at (c : cmd (list Z)) (n : nat) : Prop := forall t fuel,
  ends [41; 38; 59] t -> (n <= fuel)%nat -> parses (parsepipe fuel) (print Pipe c) t c.
Definition exec_at (c : cmd (list Z)) (n : nat) : Prop := forall t fuel,
  ends_exec t -> (n <= fuel)%nat -> parses (parseexec fuel) (print Atom c) t c.

Lemma ends_sub set set' t : (forall c, c ∈ set -> c ∈ set') -> ends set t -> ends set' t.
Proof. destruct t; [done|]. intros H. apply H. Qed.

(** A simple command and its redirections. *)
Lemma exec_simple ws rs n : Forall word_ok ws -> (length ws < MAXARGS)%nat -> Forall redir_ok rs ->
  (1 <= n)%nat -> exec_at (foldl redircmd (EXEC ws) rs) n.
Proof.
  intros Hws Hlen Hrs Hn t fuel Ht Hf. unfold parses.
  assert (print Atom (foldl redircmd (EXEC ws) rs) = pwords ws ++ predirs rs) as ->.
  { clear. induction rs as [|r rs IH] using rev_ind; [by rewrite app_nil_r|].
    rewrite foldl_app. cbn [foldl redircmd print]. rewrite IH. unfold predirs.
    rewrite map_app, concat_app, app_assoc. cbn. by destruct r as [? []]. }
  rewrite <- app_assoc. intros Hsuf. destruct fuel as [|fuel]; [lia|]. cbn [parseexec].
  assert (plain t) as Hpt by by eapply ends_plain.
  set (txt := pwords ws ++ predirs rs ++ t) in *.
  assert (peek [40] txt = Ret false txt) as Ep.
  { unfold txt. destruct Hws as [|w ws Hw _].
    - cbn [pwords map concat app]. rewrite peek_eq, skip_redirs by by apply skip_plain.
      destruct rs as [|r rs]; [|unfold predirs; cbn [map concat app]; by destruct (_ =? 0)].
      cbn [predirs map concat app]. destruct t as [|c t]; [done|].
      rewrite strchr_elem, bool_decide_eq_false_2; [done|]. simpl in Ht. set_solver.
    - unfold pwords. cbn [map concat]. rewrite <- !app_assoc.
      apply peek_word; [done|unfold symbols; set_solver]. }
  mstep Ep. unfold left_. rewrite (bind_Ret _ _ _ _ _ (gets_eq _ _)).
  destruct (redirs_here ws rs t Hws Hrs Ht Hsuf) as (rs' & Er & HR). fold txt in Er. mstep Er.
  rewrite (bind_Ret _ _ _ _ _ (gets_eq _ _)).
  assert (length ws <= length (pwords ws))%nat.
  { clear. induction ws as [|w ws IH]; [done|]. unfold pwords in *. cbn [map concat length].
    rewrite !length_app. simpl. lia. }
  destruct (parseargs_ok rs t Hrs Ht ws [] rs'
    (S (length (pwords ws ++ predirs (if decide (ws = []) then [] else rs) ++ t))) Hws)
    as (argv & rs2 & E2 & HA & HR2); [rewrite length_app; lia|done| |].
  { unfold txt in Hsuf. case_decide as Hd; [|exact Hsuf]. subst.
    eapply suffix_app_l, suffix_app_l, Hsuf. }
  eexists. split; [exact E2|]. apply rel_redirs; [by constructor|].
  replace rs with ((if decide (ws = []) then rs else []) ++ (if decide (ws = []) then [] else rs));
    [by apply Forall2_app|]. case_decide; [by rewrite app_nil_r|done].
Qed.

(** A block in parentheses and its redirections. *)
Lemma exec_block b rs n : cmd_ok b -> line_at b n -> Forall redir_ok rs ->
  print Atom b = 40 :: print Line b ++ [41] ->
  print Atom (foldl redircmd b rs) = print Atom b ++ predirs rs ->
  exec_at (foldl redircmd b rs) (S (S n)).
Proof.
  intros Hok Hline Hrs Hb Hp t fuel Ht Hf Hsuf. rewrite Hp, Hb in *.
  destruct fuel as [|[|fuel]]; [lia..|]. cbn [parseexec parseblock].
  set (rest := 41 :: predirs rs ++ t).
  assert (((40 :: print Line b ++ [41]) ++ predirs rs) ++ t = 40 :: print Line b ++ rest) as E.
  { unfold rest. cbn [app]. by rewrite <- !app_assoc. }
  rewrite E in *.
  rewrite !(bind_Ret _ _ _ _ _ (peek_yes [40] 40 (print Line b ++ rest) ltac:(unfold symbols; set_solver)
    ltac:(set_solver))).
  cbn [negb].
  mstep (gettoken_sym 40 (print Line b ++ rest) ltac:(set_solver)).
  assert (skip rest = rest) as Hr by by apply skip_symbol.
  rewrite (skip_print b Line rest Hok Hr).
  destruct (Hline rest fuel) as (b' & Eb & Hrel); [simpl; set_solver|lia|by eapply suffix_cons_l|].
  mstep Eb. mstep (peek_yes [41] 41 (predirs rs ++ t) ltac:(unfold symbols; set_solver) ltac:(set_solver)).
  cbn [negb]. mstep (gettoken_sym 41 (predirs rs ++ t) ltac:(set_solver)).
  rewrite skip_redirs by by apply skip_ends. unfold left_. rewrite (bind_Ret _ _ _ _ _ (gets_eq _ _)).
  destruct (parseredirs_ok rs t (S (length (predirs rs ++ t)))) as (rs' & Er & HR).
  - done.
  - by eapply ends_plain.
  - pose proof (length_predirs rs). rewrite length_app. lia.
  - eapply suffix_cons_l, suffix_app_l, suffix_cons_l, Hsuf.
  - mstep Er. unfold ret. eexists. split; [done|]. by apply rel_redirs.
Qed.

(** The operator and the right-hand side of a pipe. *)
Lemma pipe_pipe l r n : cmd_ok l -> cmd_ok r -> exec_at l n -> pipe_at r n ->
  pipe_at (PIPE l r) (S n).
Proof.
  intros Hl Hr Hel Hpr t fuel Ht Hf Hsuf. destruct fuel as [|fuel]; [lia|]. cbn [parsepipe].
  cbn [print paren] in *. rewrite <- app_assoc in *. cbn [app] in *.
  assert (ends_exec t) as Ht' by (eapply ends_sub, Ht; set_solver).
  destruct (Hel (124 :: print Pipe r ++ t) fuel) as (l' & El & HL); [simpl; set_solver|lia|done|].
  mstep El. mstep (peek_yes [124] 124 (print Pipe r ++ t) ltac:(unfold symbols; set_solver)
    ltac:(set_solver)). mstep (gettoken_sym 124 (print Pipe r ++ t) ltac:(set_solver)).
  rewrite skip_print by (done || by apply skip_ends).
  destruct (Hpr t fuel) as (r' & Er & HR); [done|lia|by eapply suffix_cons_l, suffix_app_l|].
  mstep Er. unfold ret. eexists. split; [done|]. by constructor.
Qed.

(** Anything that is not a pipe is parsed as an operand of one. *)
Lemma pipe_exec c n : exec_at c n -> print Pipe c = print Atom c -> pipe_at c (S n).
Proof.
  intros He Hp t fuel Ht Hf Hsuf. destruct fuel as [|fuel]; [lia|]. cbn [parsepipe]. rewrite Hp in *.
  assert (ends_exec t) as Ht' by (eapply ends_sub, Ht; set_solver).
  destruct (He t fuel Ht' ltac:(lia) Hsuf) as (c' & E & HR). mstep E.
  rewrite (bind_Ret _ _ _ _ _ (peek_no [124] t Ht' ltac:(destruct t; simpl in Ht; set_solver))).
  unfold ret. by exists c'.
Qed.

Lemma parseback_ok k : forall t c fuel, ends [41; 59] t -> (k < fuel)%nat ->
  parseback fuel c (replicate k 38 ++ t) = Ret (Nat.iter k BACK c) t.
Proof.
  induction k as [|k IH]; intros t c fuel Ht Hf; (destruct fuel as [|fuel]; [lia|]);
    cbn [parseback replicate app].
  - assert (ends_exec t) as Ht' by (eapply ends_sub, Ht; set_solver).
    rewrite (bind_Ret _ _ _ _ _ (peek_no [38] t Ht' ltac:(destruct t; simpl in Ht; set_solver))).
    done.
  - mstep (peek_yes [38] 38 (replicate k 38 ++ t) ltac:(unfold symbols; set_solver) ltac:(set_solver)).
    mstep (gettoken_sym 38 (replicate k 38 ++ t) ltac:(set_solver)).
    assert (skip (replicate k 38 ++ t) = replicate k 38 ++ t) as ->.
    { destruct k; [|by apply skip_symbol]. apply skip_ends. eapply ends_sub, Ht. set_solver. }
    rewrite IH by (done || lia). by rewrite Nat.iter_swap.
Qed.

(** A command is another one sent to the background [k] times. *)
Lemma unback c : cmd_ok c -> exists p k, c = Nat.iter k BACK p /\ cmd_ok p /\
  csize c = (csize p + k)%nat /\ print Back c = print Pipe p ++ replicate k 38.
Proof.
  induction c as [argv|c IH f m d|l IHl r IHr|l IHl r IHr|c IH]; intros Hok;
    try (eexists _, 0%nat; cbn [Nat.iter replicate]; rewrite app_nil_r, Nat.add_0_r; by split_and!).
  destruct (IH Hok) as (p & k & -> & Hp & Hs & Hpr). exists p, (S k).
  split_and!; [done|done|cbn [csize]; lia|]. cbn [print paren]. rewrite Hpr, <- app_assoc.
  by rewrite <- (replicate_S_end k).
Qed.

Lemma rel_iter k c d : cmd_rel tok_ok c d -> cmd_rel tok_ok (Nat.iter k BACK c) (Nat.iter k BACK d).
Proof. intros H. induction k as [|k IH]; [done|]. by constructor. Qed.

(** The first part of a line: a pipe and the [&]s behind it. *)
Lemma line_head p k n t fuel : pipe_at p n -> ends [41; 59] t -> (n <= fuel)%nat ->
  (print Pipe p ++ replicate k 38 ++ t) `suffix_of` line ->
  exists c', (c <- parsepipe fuel ;; m <- left_ ;; parseback m c) (print Pipe p ++ replicate k 38 ++ t)
      = Ret c' t /\ cmd_rel tok_ok c' (Nat.iter k BACK p).
Proof.
  intros Hp Ht Hf Hsuf.
  destruct (Hp (replicate k 38 ++ t) fuel) as (p' & E & HR).
  - destruct k; simpl; [eapply ends_sub, Ht; set_solver|set_solver].
  - lia.
  - done.
  - mstep E. unfold left_. rewrite (bind_Ret _ _ _ _ _ (gets_eq _ _)).
    rewrite parseback_ok by (done || rewrite length_app, length_replicate; lia).
    eexists. split; [done|]. by apply rel_iter.
Qed.

Lemma parseline_S fuel s :
  parseline (S fuel) s =
  (c <- (c <- parsepipe fuel ;; m <- left_ ;; parseback m c) ;;
   b <- peek [59] ;;
   if (b : bool) then gettoken ;;; r <- parseline fuel ;; ret (LIST c r) else ret c) s.
Proof. cbn [parseline]. unfold bind. destruct (parsepipe fuel s); [|done..]. by destruct (left_ s0). Qed.

Lemma line_back c p k n : pipe_at p n -> c = Nat.iter k BACK p ->
  print Line c = print Pipe p ++ replicate k 38 -> line_at c (S n).
Proof.
  intros Hp -> Hpr t fuel Ht Hf Hsuf. destruct fuel as [|fuel]; [lia|]. rewrite Hpr, <- app_assoc in *.
  destruct (line_head p k n t fuel Hp) as (c' & E & HR); [eapply ends_sub, Ht; set_solver|lia|done|].
  rewrite parseline_S. mstep E. assert (ends_exec t) as Ht' by (eapply ends_sub, Ht; set_solver).
  rewrite (bind_Ret _ _ _ _ _ (peek_no [59] t Ht' ltac:(destruct t; simpl in Ht; set_solver))).
  unfold ret. by exists c'.
Qed.

Lemma line_list l r p k n : pipe_at p n -> l = Nat.iter k BACK p -> cmd_ok r ->
  print Back l = print Pipe p ++ replicate k 38 -> line_at r n -> line_at (LIST l r) (S n).
Proof.
  intros Hp -> Hr Hpr Hlr t fuel Ht Hf Hsuf. destruct fuel as [|fuel]; [lia|].
  cbn [print paren] in *. rewrite Hpr, <- !app_assoc in *. cbn [app] in *.
  set (rest := print Line r ++ t) in *.
  destruct (line_head p k n (59 :: rest) fuel Hp) as (c' & E & HR); [simpl; set_solver|lia|done|].
  rewrite parseline_S. mstep E.
  mstep (peek_yes [59] 59 rest ltac:(unfold symbols; set_solver) ltac:(set_solver)).
  mstep (gettoken_sym 59 rest ltac:(set_solver)). unfold rest in *.
  assert (ends_exec t) as Ht' by (eapply ends_sub, Ht; set_solver).
  rewrite skip_print by (done || by apply skip_ends).
  destruct (Hlr t fuel Ht ltac:(lia)) as (r' & Er & HR2).
  { eapply suffix_cons_l, suffix_app_l, suffix_app_l, Hsuf. }
  mstep Er. unfold ret. eexists. split; [done|]. by constructor.
Qed.

Lemma line_mono c n m : (n <= m)%nat -> line_at c n -> line_at c m.
Proof. intros H Hc t fuel Ht Hf. apply Hc; [done|lia]. Qed.
Lemma pipe_mono c n m : (n <= m)%nat -> pipe_at c n -> pipe_at c m.
Proof. intros H Hc t fuel Ht Hf. apply Hc; [done|lia]. Qed.
Lemma exec_mono c n m : (n <= m)%nat -> exec_at c n -> exec_at c m.
Proof. intros H Hc t fuel Ht Hf. apply Hc; [done|lia]. Qed.

(** The commands smaller than [c] are parsed at every level. *)
Definition smaller_ok (c : cmd (list Z)) : Prop := forall c',
  (csize c' < csize c)%nat -> cmd_ok c' ->
  line_at c' (8 * csize c - 11) /\ exec_at c' (8 * csize c - 9) /\ pipe_at c' (8 * csize c - 8).

Lemma exec_leaf c : smaller_ok c -> cmd_ok c ->
  match c with EXEC _ | REDIR _ _ _ _ => exec_at c (8 * csize c - 5) | _ => True end.
Proof.
  intros Hsm Hok. destruct (unredir c Hok) as (b & rs & E & Hb & Hrs & Hnr & Hs & Hp).
  destruct c as [ws|c f m d| | |]; [| |done..].
  { destruct Hok. apply (exec_simple ws []); [done..|simpl; lia]. }
  assert (1 <= length rs)%nat by (destruct rs; [by destruct b|simpl; lia]).
  destruct (Hsm b ltac:(lia) Hb) as (Hl & _ & _). pose proof (csize_pos b).
  revert Hsm Hok Hs Hl Hp. rewrite E. intros Hsm Hok Hs Hl Hp.
  destruct b as [ws| |l r|l r|b]; [|done|..].
  1: { destruct Hb. apply exec_simple; try done. lia. }
  all: eapply exec_mono, exec_block; [|done|exact Hl|done..]; lia.
Qed.

Lemma pipe_leaf c : smaller_ok c -> cmd_ok c ->
  match c with LIST _ _ | BACK _ => True | _ => pipe_at c (8 * csize c - 4) end.
Proof.
  intros Hsm Hok. pose proof (exec_leaf c Hsm Hok) as He. pose proof (csize_pos c).
  destruct c as [ws|c f m d|l r| |]; [| | |done..].
  - eapply pipe_mono, pipe_exec; [|exact He|done]. simpl in *. lia.
  - eapply pipe_mono, pipe_exec; [|exact He|done]. simpl in *. lia.
  - destruct Hok as [Hl Hr]. pose proof (csize_pos l). pose proof (csize_pos r).
    destruct (Hsm l ltac:(simpl; lia) Hl) as (_ & Hp1 & _). destruct (Hsm r ltac:(simpl; lia) Hr) as (_ & _ & Hp2).
    eapply pipe_mono, pipe_pipe; [|done..|eapply exec_mono, Hp1|exact Hp2]; simpl; lia.
Qed.

Lemma line_any c : smaller_ok c -> cmd_ok c -> line_at c (8 * csize c - 3).
Proof.
  intros Hsm Hok. pose proof (pipe_leaf c Hsm Hok) as Hp. pose proof (csize_pos c).
  destruct c as [ws|c f m d|l r|l r|c].
  1-3: eapply line_mono, (line_back _ _ 0%nat); [|exact Hp|done|by rewrite app_nil_r]; lia.
  - destruct Hok as [Hl Hr]. pose proof (csize_pos r).
    destruct (unback l Hl) as (p & k & -> & Hpo & Hs & Hpr). cbn [csize] in *.
    destruct (Hsm p ltac:(cbn [csize]; lia) Hpo) as (_ & _ & Hp1).
    destruct (Hsm r ltac:(cbn [csize]; pose proof (csize_pos p); lia) Hr) as (Hp2 & _ & _).
    cbn [csize] in *. pose proof (csize_pos p).
    eapply line_mono, line_list; [|exact Hp1|done|done|done|eapply line_mono, Hp2]; lia.
  - destruct (unback c Hok) as (p & k & -> & Hpo & Hs & Hpr). cbn [csize] in *.
    destruct (Hsm p ltac:(cbn [csize]; lia) Hpo) as (_ & _ & Hp1). cbn [csize] in *.
    eapply line_mono, (line_back _ p (S k)); [|exact Hp1|done|]; [lia|].
    cbn [print paren]. rewrite Hpr, <- app_assoc. by rewrite <- (replicate_S_end k).
Qed.

(** Every level of the grammar parses what it prints. *)
Lemma print_parses : forall n c, (csize c <= n)%nat -> cmd_ok c ->
  line_at c (8 * csize c - 3) /\ exec_at c (8 * csize c - 1) /\ pipe_at c (8 * csize c).
Proof.
  induction n as [|n IH]; intros c Hn Hok; [pose proof (csize_pos c); lia|].
  pose proof (csize_pos c) as Hpos. assert (smaller_ok c) as Hsm.
  { intros c' Hlt Hc'. destruct (IH c' ltac:(lia) Hc') as (H1 & H2 & H3).
    split_and!; [eapply line_mono, H1|eapply exec_mono, H2|eapply pipe_mono, H3]; lia. }
  pose proof (exec_leaf c Hsm Hok) as He. pose proof (pipe_leaf c Hsm Hok) as Hp.
  pose proof (line_any c Hsm Hok) as Hl. split; [done|].
  assert (exec_at c (8 * csize c - 1)) as Hx.
  { destruct c; try (eapply exec_mono, He; lia);
      (eapply exec_mono, (exec_block _ []); [|done|exact Hl|done|done|by rewrite app_nil_r]; lia). }
  split; [done|]. destruct c; try (eapply pipe_mono, Hp; lia);
    (eapply pipe_mono, pipe_exec; [|exact Hx|done]; lia).
Qed.
End Parse.

(** ** NUL termination *)

Fixpoint toks (c : cmd tok) : list tok :=
  match c with
  | EXEC argv => argv
  | REDIR c file _ _ => toks c ++ [file]
  | PIPE l r | LIST l r => toks l ++ toks r
  | BACK c => toks c
  end.

Definition nul_at (line : list Z) (buf : list Z) (t : tok) : list Z := <[index line t.2 := 0]> buf.

Lemma nulterminate_toks line c : forall buf, nulterminate line c buf = foldl (nul_at line) buf (toks c).
Proof.
  induction c as [argv|c IH f m d|l IHl r IHr|l IHl r IHr|c IH]; intros buf; cbn [nulterminate toks];
    rewrite ?foldl_app, ?IH, ?IHl, ?IHr; done.
Qed.

(** The characters of words are where they were in the line. *)
Definition kept (line buf : list Z) : Prop :=
  length buf = S (length line) /\
  forall i c, line !! i = Some c -> isword c = true -> buf !! i = Some c.

Lemma index_app pre t : index (pre ++ t) t = length pre.
Proof. unfold index. rewrite length_app. lia. Qed.

Lemma nul_kept line buf t w : tok_ok line t w -> kept line buf ->
  kept line (nul_at line buf t) /\ nul_at line buf t !! index line t.2 = Some 0.
Proof.
  intros [Hw Es Hstop [pre Hl]] [Hlen Hk]. rewrite Es, app_assoc in Hl. unfold nul_at.
  assert (index line t.2 = length (pre ++ w)) as -> by (rewrite Hl; apply index_app).
  assert (length (pre ++ w) < length buf)%nat.
  { rewrite Hlen, Hl, (length_app (pre ++ w)). lia. }
  split; [split; [by rewrite length_insert|]|by apply list_lookup_insert_eq].
  intros i c Hi Hc. destruct (decide (i = length (pre ++ w))) as [->|Hne].
  - rewrite Hl, lookup_app_r, Nat.sub_diag in Hi by lia. destruct t.2; [done|].
    simpl in Hi, Hstop. congruence.
  - rewrite list_lookup_insert_ne by done. by apply Hk.
Qed.

Lemma foldl_nul line ts : forall buf, (forall t, t ∈ ts -> exists w, tok_ok line t w) -> kept line buf ->
  kept line (foldl (nul_at line) buf ts) /\
  (forall i, buf !! i = Some 0 -> foldl (nul_at line) buf ts !! i = Some 0) /\
  (forall t, t ∈ ts -> foldl (nul_at line) buf ts !! index line t.2 = Some 0).
Proof.
  induction ts as [|t ts IH]; intros buf Hts Hk; cbn [foldl].
  { split_and!; [done|done|]. intros t Ht. by apply not_elem_of_nil in Ht. }
  destruct (Hts t) as [w Hw]; [by left|]. destruct (nul_kept line buf t w Hw Hk) as [Hk1 H0].
  destruct (IH (nul_at line buf t)) as (IH1 & IH2 & IH3); [intros; apply Hts; by right|done|].
  split_and!; [done| |].
  - intros i Hi. apply IH2. unfold nul_at. destruct (decide (i = index line t.2)) as [->|Hne].
    + by apply H0.
    + by rewrite list_lookup_insert_ne.
  - intros t' [->|Ht']%elem_of_cons; [by apply IH2|by apply IH3].
Qed.

(** A word between kept characters and a NUL reads as a C string. *)
Lemma str_tok line buf t w : 0 ∉ line -> tok_ok line t w -> kept line buf -> buf !! index line t.2 = Some 0 ->
  str (drop (index line t.1) buf) = w.
Proof.
  intros Hz [[Hne Hw] Es _ [pre Hl]] [Hlen Hk] H0. rewrite Hl, index_app.
  rewrite Es, app_assoc in Hl. rewrite Hl, index_app, length_app in H0.
  assert (drop (length pre) buf = w ++ drop (length pre + length w) buf) as ->.
  { apply list_eq. intros i. rewrite lookup_drop. destruct (decide (i < length w)%nat) as [Hi|Hi].
    - rewrite lookup_app_l by done. destruct (lookup_lt_is_Some_2 w i Hi) as [c Hc]. rewrite Hc.
      apply Hk; [|by eapply Forall_lookup in Hw].
      rewrite Hl, <- app_assoc, lookup_app_r, lookup_app_l by lia.
      by replace (length pre + i - length pre)%nat with i by lia.
    - rewrite lookup_app_r by lia. rewrite lookup_drop. f_equal. lia. }
  rewrite (drop_S buf 0) by done. apply str_app. intros Hin. apply Hz. rewrite Hl. set_solver.
Qed.

Lemma resolve_rel line buf c d : 0 ∉ line -> cmd_rel (tok_ok line) c d -> kept line buf ->
  (forall t, t ∈ toks c -> buf !! index line t.2 = Some 0) -> resolve line buf c = d.
Proof.
  intros Hz HR Hk. induction HR as [a b Hab|c d f g mode fd _ IH Hf|l1 l2 r1 r2 _ IHl _ IHr|
    l1 l2 r1 r2 _ IHl _ IHr|c d _ IH]; intros H0; cbn [resolve toks] in *.
  - f_equal. induction Hab as [|t w a b Ht _ IH]; [done|]. cbn [map]. f_equal.
    + eapply str_tok; [done|done|done|]. apply H0. by left.
    + apply IH. intros t' Ht'. apply H0. by right.
  - f_equal; [apply IH; set_solver|]. eapply str_tok; [done|done|done|]. apply H0. set_solver.
  - f_equal; [apply IHl|apply IHr]; set_solver.
  - f_equal; [apply IHl|apply IHr]; set_solver.
  - f_equal. by apply IH.
Qed.

Lemma rel_toks line c d : cmd_rel (tok_ok line) c d -> forall t, t ∈ toks c -> exists w, tok_ok line t w.
Proof.
  induction 1 as [a b Hab|c d f g mode fd _ IH Hf|l1 l2 r1 r2 _ IHl _ IHr|
    l1 l2 r1 r2 _ IHl _ IHr|c d _ IH]; cbn [toks]; [|set_solver..].
  intros t [i Hi]%list_elem_of_lookup. destruct (Forall2_lookup_l _ _ _ _ _ Hab Hi) as (w & _ & Hw).
  by exists w.
Qed.

Lemma nulterminate_resolve line c d : 0 ∉ line -> cmd_rel (tok_ok line) c d ->
  resolve line (nulterminate line c (line ++ [0])) c = d.
Proof.
  intros Hz HR. rewrite nulterminate_toks.
  destruct (foldl_nul line (toks c) (line ++ [0])) as (Hk & _ & H0).
  - by eapply rel_toks.
  - split; [rewrite length_app; simpl; lia|]. intros i x Hi _.
    rewrite lookup_app_l by by eapply lookup_lt_Some. done.
  - by eapply resolve_rel.
Qed.

Lemma csize_print c : forall lv, cmd_ok c -> (csize c <= S (length (print lv c)))%nat.
Proof.
  assert (forall b s, length s <= length (paren b s))%nat as Hp.
  { intros [] s; simpl; [rewrite length_app; simpl|]; lia. }
  induction c as [argv|c IH f m d|l IHl r IHr|l IHl r IHr|c IH]; intros lv Hok;
    cbn [csize print cmd_ok] in *; [lia|..].
  - destruct Hok as [Hc _]. specialize (IH Atom Hc). rewrite length_app. cbn [predirs map concat app length]. lia.
  - destruct Hok as [Hl Hr]. specialize (IHl Atom Hl). specialize (IHr Pipe Hr).
    etransitivity; [|apply le_n_S, Hp]. rewrite length_app. cbn [length]. lia.
  - destruct Hok as [Hl Hr]. specialize (IHl Back Hl). specialize (IHr Line Hr).
    etransitivity; [|apply le_n_S, Hp]. rewrite length_app. cbn [length]. lia.
  - specialize (IH Back Hok). etransitivity; [|apply le_n_S, Hp]. rewrite length_app. cbn [length]. lia.
Qed.

(** C35: the parser inverts the printer: a command printed with the fewest
    parentheses its structure needs parses back to itself, every word being
    the C string that [nulterminate] leaves in the line. *)
Theorem parse_print c s : cmd_ok c -> 0 ∉ print Line c ->
  exists s', parsecmd (print Line c) s = Ret c s'.
Proof.
  intros Hok Hz. set (line := print Line c) in *. unfold parsecmd. mrun.
  destruct (print_parses line (csize c) c (le_n _) Hok) as (Hl & _ & _).
  destruct (Hl [] (parse_fuel line) I) as (c' & E & HR).
  - pose proof (csize_print c Line Hok). unfold parse_fuel, line. lia.
  - rewrite app_nil_r. done.
  - rewrite app_nil_r in E. fold line in E. mstep E. mstep (peek_eq [] []). mrun.
    rewrite decide_True by done. unfold ret. eexists. f_equal. by apply nulterminate_resolve.
Qed.

Lemma parse_print_witness :
  exists s', parsecmd (bytes_of "(ls &)<in |wc -l >out ") [] =
    Ret (PIPE (REDIR (BACK (EXEC [bytes_of "ls"])) (bytes_of "in") 0 0)
      (REDIR (EXEC [bytes_of "wc"; bytes_of "-l"]) (bytes_of "out") 513 1)) s'.
Proof.
  apply (parse_print (PIPE (REDIR (BACK (EXEC [bytes_of "ls"])) (bytes_of "in") 0 0)
      (REDIR (EXEC [bytes_of "wc"; bytes_of "-l"]) (bytes_of "out") 513 1))); [|by_eval].
  repeat split; try done; try (repeat constructor; done); try (simpl; unfold MAXARGS; lia); auto.
Defined.

(** ** The parser terminates *)

(** Every simple command has room for the null pointer behind its words. *)
Fixpoint argc_ok {T} (c : cmd T) : Prop :=
  match c with
  | EXEC argv => (length argv < MAXARGS)%nat
  | REDIR c _ _ _ | BACK c => argc_ok c
  | PIPE l r | LIST l r => argc_ok l /\ argc_ok r
  end.

(** [m] returns or panics, and does not go back in the line. *)
Definition total {A} (P : A -> Prop) (n : nat) (m : M (list Z) A) (s : list Z) : Prop :=
  match m s with
  | Ret a s' => P a /\ (length s' + n <= length s)%nat
  | Panic _ _ => True
  | _ => False
  end.

Lemma total_bind {A B} (P : A -> Prop) (Q : B -> Prop) n1 n2 m k s :
  total P n1 m s -> (forall a s', P a -> (length s' + n1 <= length s)%nat -> total Q n2 (k a) s') ->
  total Q (n1 + n2) (x <- m ;; k x) s.
Proof.
  unfold total, bind. destruct (m s) as [a s'| | |]; [|done..]. intros [Ha Hs] Hk.
  specialize (Hk a s' Ha Hs). destruct (k a s'); [|done..]. split; [apply Hk|]. destruct Hk. lia.
Qed.

Lemma total_weaken {A} (P Q : A -> Prop) n n' m s : total P n m s -> (forall a, P a -> Q a) ->
  (n' <= n)%nat -> total Q n' m s.
Proof.
  unfold total. destruct (m s); [|done..]. intros [Ha Hs] HPQ Hn. split; [auto|lia].
Qed.

Lemma total_ret {A} (P : A -> Prop) a s : P a -> total P 0 (ret a) s.
Proof. intros Ha. split; [done|]. lia. Qed.

Lemma length_skip s : (length (skip s) <= length s)%nat.
Proof. induction s as [|c s IH]; [done|]. cbn [skip length]. destruct (isspace c); simpl; lia. Qed.

Lemma length_skip_word s : (length (skip_word s) <= length s)%nat.
Proof. induction s as [|c s IH]; [done|]. cbn [skip_word length]. destruct (isword c); simpl; lia. Qed.

Lemma skip_head s : match skip s with c :: _ => isspace c = false | [] => True end.
Proof. induction s as [|c s IH]; [done|]. cbn [skip]. by destruct (isspace c) eqn:E. Qed.

Lemma skip_skip s : skip (skip s) = skip s.
Proof.
  pose proof (skip_head s) as H. destruct (skip s) as [|c t]; [done|]. cbn [skip]. by rewrite H.
Qed.

(** A token of something that is not white space takes at least one byte. *)
Lemma length_token s : match s with c :: _ => isspace c = false | [] => True end -> s <> [] ->
  (token s).1 <> 0 /\ (S (length (token s).2) <= length s)%nat.
Proof.
  intros Hs Hne. destruct s as [|c s]; [done|]. unfold token.
  destruct (isin [124; 40; 41; 59; 38; 60] c) eqn:E1.
  - rewrite strchr_elem, bool_decide_eq_true in E1. split; [cbn [fst]; set_solver|simpl; lia].
  - destruct (Z.eqb_spec c 62) as [->|H62].
    + destruct s as [|d s]; [by simpl; split; [|lia]|]. destruct (d =? 62); simpl; split; (done || lia).
    + split; [done|]. cbn [snd skip_word]. assert (isword c = true) as ->.
      { unfold isword. rewrite Hs, !strchr_elem, bool_decide_eq_false in *. cbn [negb andb].
        rewrite bool_decide_eq_false_2; [done|]. unfold symbols. set_solver. }
      pose proof (length_skip_word s). simpl. lia.
Qed.

Lemma total_le {A} (P : A -> Prop) m (s s' : list Z) : (length s' <= length s)%nat ->
  total P 0 m s' -> match m s' with Ret a t => P a /\ (length t + 0 <= length s)%nat | Panic _ _ => True | _ => False end.
Proof. unfold total. intros Hs. destruct (m s'); [|done..]. intros [H1 H2]. split; [done|lia]. Qed.

Lemma total_peek {A} (P : A -> Prop) set (k : bool -> M (list Z) A) s :
  (skip s <> [] -> total P 0 (k true) (skip s)) -> total P 0 (k false) (skip s) ->
  total P 0 (b <- peek set ;; k b) s.
Proof.
  intros H1 H2. unfold total. mstep (peek_eq set s). apply total_le; [apply length_skip|].
  destruct (skip s) as [|c t]; [done|]. destruct (isin set c); [by apply H1|done].
Qed.

(** A token takes at least one byte, unless it is the end of the line. *)
Lemma total_token {A} (P : A -> Prop) (k : Z * tok -> M (list Z) A) s :
  (forall r s', (length s' <= length s)%nat ->
     (skip s <> [] \/ r.1 <> 0 -> (length s' + 1 <= length s)%nat) -> total P 0 (k r) s') ->
  total P 0 (r <- gettoken ;; k r) s.
Proof.
  intros H. unfold total. mstep (gettoken_eq s). pose proof (length_skip s).
  pose proof (length_skip (token (skip s)).2). pose proof (skip_head s) as Hh.
  destruct (decide (skip s = [])) as [E|Hne].
  - rewrite E. apply total_le; [simpl; lia|]. apply H; [simpl; lia|]. by intros [?|?].
  - destruct (length_token (skip s) Hh Hne) as [_ Hl].
    apply total_le; [lia|]. apply H; [lia|]. intros _. lia.
Qed.

Lemma total_call {A B} (P : A -> Prop) (Q : B -> Prop) m k s :
  total P 0 m s -> (forall a s', P a -> (length s' <= length s)%nat -> total Q 0 (k a) s') ->
  total Q 0 (x <- m ;; k x) s.
Proof. intros Hm Hk. apply (total_bind P Q 0 0); [done|]. intros a s' Ha Hs. apply Hk; [done|lia]. Qed.

Lemma total_left {A} (P : A -> Prop) (k : nat -> M (list Z) A) s :
  total P 0 (k (S (length s))) s -> total P 0 (n <- left_ ;; k n) s.
Proof. done. Qed.

Lemma argc_redirs {T} (c : cmd T) rs : argc_ok c -> argc_ok (foldl redircmd c rs).
Proof. revert c. induction rs as [|r rs IH]; intros c Hc; [done|]. by apply IH. Qed.

Lemma total_redirs : forall fuel s, (length s < fuel)%nat -> total (fun _ => True) 0 (parseredirs fuel) s.
Proof.
  induction fuel as [|fuel IH]; intros s Hf; [lia|]. cbn [parseredirs]. pose proof (length_skip s).
  apply total_peek; [intros Hne|by apply total_ret]. cbn [negb]. apply total_token. intros t s1 L1 L1'.
  apply total_token. intros w s2 L2 L2'. rewrite skip_skip in L1'. specialize (L1' (or_introl Hne)).
  destruct (negb _); [done|]. eapply total_call; [apply IH; lia|]. intros rs s3 _ _. by apply total_ret.
Qed.

Lemma total_args : forall fuel argv rs s, (length s < fuel)%nat -> (length argv < MAXARGS)%nat ->
  total argc_ok 0 (parseargs fuel argv rs) s.
Proof.
  induction fuel as [|fuel IH]; intros argv rs s Hf Ha; [lia|]. cbn [parseargs]. pose proof (length_skip s).
  apply total_peek; [intros _; by apply total_ret, argc_redirs|]. apply total_token. intros t s1 L1 L1'.
  destruct (Z.eqb_spec t.1 0); [by apply total_ret, argc_redirs|]. destruct (negb _); [done|].
  destruct (Nat.leb_spec MAXARGS (length (argv ++ [t.2]))); [done|]. apply total_left.
  eapply total_call; [apply total_redirs; lia|]. intros rs' s2 _ L2. apply IH; [|done].
  specialize (L1' (or_intror n)). lia.
Qed.

Lemma total_back : forall fuel c s, (length s < fuel)%nat -> argc_ok c ->
  total argc_ok 0 (parseback fuel c) s.
Proof.
  induction fuel as [|fuel IH]; intros c s Hf Hc; [lia|]. cbn [parseback]. pose proof (length_skip s).
  apply total_peek; [intros Hne|by apply total_ret]. apply total_token. intros t s1 L1 L1'.
  rewrite skip_skip in L1'. apply IH; [|done]. specialize (L1' (or_introl Hne)). lia.
Qed.

Lemma parser_total : forall fuel s,
  ((4 * length s + 4 <= fuel)%nat -> total argc_ok 0 (parseline fuel) s) /\
  ((4 * length s + 3 <= fuel)%nat -> total argc_ok 0 (parsepipe fuel) s) /\
  ((4 * length s + 1 <= fuel)%nat -> total argc_ok 0 (parseblock fuel) s) /\
  ((4 * length s + 2 <= fuel)%nat -> total argc_ok 0 (parseexec fuel) s).
Proof.
  induction fuel as [|fuel IH]; intros s; [split_and!; lia|]. pose proof (length_skip s) as Hsk.
  split_and!; intros Hf; cbn [parseline parsepipe parseblock parseexec].
  - eapply total_call; [apply IH; lia|]. intros c s1 Hc L1. apply total_left.
    eapply total_call; [apply total_back; [lia|done]|]. intros c2 s2 Hc2 L2.
    pose proof (length_skip s2). apply total_peek; [intros Hne|by apply total_ret].
    apply total_token. intros t s3 L3 L3'. rewrite skip_skip in L3'. specialize (L3' (or_introl Hne)).
    eapply total_call; [apply IH; lia|]. intros r s4 Hr _. by apply total_ret.
  - eapply total_call; [apply IH; lia|]. intros c s1 Hc L1. pose proof (length_skip s1).
    apply total_peek; [intros Hne|by apply total_ret]. apply total_token. intros t s3 L3 L3'.
    rewrite skip_skip in L3'. specialize (L3' (or_introl Hne)).
    eapply total_call; [apply IH; lia|]. intros r s4 Hr _. by apply total_ret.
  - apply total_peek; [intros Hne|done]. cbn [negb]. apply total_token. intros t s1 L1 L1'.
    rewrite skip_skip in L1'. specialize (L1' (or_introl Hne)).
    eapply total_call; [apply IH; lia|]. intros c s2 Hc L2. apply total_peek; [intros _|done].
    cbn [negb]. apply total_token. intros t2 s3 L3 _. apply total_left.
    eapply total_call; [apply total_redirs; lia|]. intros rs s4 _ _. by apply total_ret, argc_redirs.
  - apply total_peek; [intros _; apply IH; lia|]. apply total_left.
    eapply total_call; [apply total_redirs; lia|]. intros rs s1 _ _. apply total_left.
    apply total_args; [lia|]. simpl. unfold MAXARGS. lia.
Qed.

(** C36: the parser terminates on every line: it returns a command in which no
    simple command has more than nine words, so that the terminating null
    pointer is inside [argv], or it reports a syntax error. *)
Theorem parsecmd_total line s :
  (exists c s', parsecmd line s = Ret c s' /\ argc_ok c) \/ (exists msg s', parsecmd line s = Panic msg s').
Proof.
  unfold parsecmd. mrun. destruct (parser_total (parse_fuel line) line) as [Hl _].
  specialize (Hl ltac:(unfold parse_fuel; lia)). unfold total in Hl.
  destruct (parseline (parse_fuel line) line) as [c s'|msg s'| |] eqn:E; [|right|done..].
  2: { mstep E. by eexists _, _. }
  mstep E. mstep (peek_eq [] s'). mrun. case_decide; [left|right; by eexists _, _].
  unfold ret. eexists _, _. split; [done|]. destruct Hl as [Hc _].
  generalize (nulterminate line c (line ++ [0])) as buf. intros buf.
  clear - Hc. induction c; cbn [argc_ok resolve] in *; rewrite ?length_map; intuition.
Qed.
