(* ===== verification/Init.v ===== *)
(** The programs that only make system calls: init, the parent of every shell
    and of the processes whose own parent has gone, and zombie and sop.

    [init] never leaves its loop: [main] has a bound on its rounds, and each
    round one on the zombies it takes. *)

From stdpp Require Import base list strings.
From Stdlib Require Import ZArith Lia.
From S2P Require Import Prelude Cons User Uprog.

Open Scope kernel_scope.

(** The system calls of these programs that the others do not make. *)
Class SysInit (W : Type) : Type := {
  u_mknod : list Z -> Z -> Z -> M W Z;
  u_sleep : Z -> M W Z;
  u_ps : M W Z }.

(** ** init.c *)

Module Init.
Definition O_RDWR : Z := 2.
Definition argv : list (list Z) := [bytes_of "sh"].

Section Init.
Context {W : Type} `{Sys W, SysProc W, SysInit W}.

(** [while((wpid=wait()) >= 0 && wpid != pid) printf(1, "zombie!\n");] *)
Fixpoint reap (pid : Z) (fuel : nat) : M W unit :=
  match fuel with
  | O => spin
  | S fuel =>
    wpid <- u_wait ;;
    if (0 <=? wpid) && negb (wpid =? pid) then line 1 "zombie!" [] ;;; reap pid fuel else ret tt
  end.

Fixpoint init_loop (fuel rounds : nat) : M W unit :=
  match rounds with
  | O => spin
  | S rounds =>
    line 1 "init: starting sh" [] ;;;
    pid <- u_fork ;;
    if pid <? 0 then line 1 "init: fork failed" [] ;;; exit else
    if pid =? 0 then
      u_exec (bytes_of "sh") argv ;;;
      line 1 "init: exec sh failed" [] ;;;
      exit
    else
      reap pid fuel ;;;
      init_loop fuel rounds
  end.

Definition open_console_init : M W unit :=
  fd <- u_open (bytes_of "console") O_RDWR ;;
  if fd <? 0 then
    u_mknod (bytes_of "console") 1 1 ;;;
    u_open (bytes_of "console") O_RDWR ;;;
    ret tt
  else ret tt.

Definition main (fuel rounds : nat) : M W unit :=
  open_console_init ;;;
  u_dup 0 ;;;
  u_dup 0 ;;;
  init_loop fuel rounds.
End Init.
End Init.

(** ** zombie.c *)

Module Zombie.
Definition main {W} `{Sys W, SysProc W, SysInit W} : M W unit :=
  pid <- u_fork ;;
  (if 0 <? pid then u_sleep 5 ;;; ret tt else ret tt) ;;;
  exit.
End Zombie.

(** ** sop.c *)

Module Sop.
Definition main {W} `{Sys W, SysProc W, SysInit W} : M W unit :=
  Printf.printf 1 (bytes_of "PID" ++ [9] ++ bytes_of "PPID" ++ [9] ++ bytes_of "STATE" ++ [9; 9] ++ bytes_of "NAME" ++ [10]) [] ;;;
  u_ps ;;;
  exit.
End Sop.

(** ** What init does *)

(** The children that [wait] is still to give, and that [fork] is to make; to
    write changes neither. *)
Class InitLaws (W : Type) `{SysLaws W, SysProc W} : Type := {
  zombies : W -> list Z;
  forks : W -> list Z;
  wait_law w p ps : zombies w = p :: ps ->
    exists w', u_wait w = Ret p w' /\ zombies w' = ps /\ forks w' = forks w /\ forall f, written f w' = written f w;
  fork_law w p ps : forks w = p :: ps ->
    exists w', u_fork w = Ret p w' /\ forks w' = ps /\ zombies w' = zombies w /\ forall f, written f w' = written f w;
  write_keeps fd bs : keeps (fun w => (zombies w, forks w)) (u_write fd bs) }.

Section Emits.
Context {W : Type} `{Hsys : Sys W} `{Hlaws : !SysLaws W} `{Hproc : SysProc W} `{Hinit : !InitLaws W}.

Abbreviation children := (fun w : W => (zombies w, forks w)).

(** To print keeps the children. *)
Lemma keeps_putc fd c : keeps children (Printf.putc fd c).
Proof. apply keeps_bind; [apply write_keeps|intros; apply keeps_ret]. Qed.

Lemma keeps_printf fd fmt ap : keeps children (Printf.printf fd fmt ap).
Proof.
  unfold Printf.printf. generalize false as st. revert ap.
  induction fmt as [|c fmt IH]; intros ap st; [apply keeps_ret|]. cbn [Printf.printf_loop].
  repeat case_match; repeat first [apply IH | apply keeps_putc | apply keeps_mfor; intros | apply keeps_bind; intros].
Qed.

(** A line that is printed, and no child touched. *)
Lemma line_ok fd fmt w ws : written fd w = Some ws -> exists w', line fd fmt [] w = Ret tt w' /\
  written fd w' = Some (ws ++ formatted (bytes_of fmt ++ [10]) false []) /\ zombies w' = zombies w /\ forks w' = forks w.
Proof.
  intros Hw. destruct (printf_emits fd (bytes_of fmt ++ [10]) [] w ws Hw) as (w' & E & Hw' & _).
  exists w'. split; [done|]. split; [done|].
  pose proof (keeps_Ret _ _ _ _ _ (keeps_printf fd _ []) E) as Hk. by injection Hk.
Qed.

Import Init.

(** The lines of a round that takes the zombies [zs]. *)
Definition zombie_lines (zs : list Z) : list Z := concat (map (fun _ => bytes_of "zombie!" ++ [10]) zs).

Lemma reap_ok pid rest : forall zs fuel w ws, zombies w = zs ++ pid :: rest -> Forall (fun z => 0 <= z /\ z <> pid) zs ->
  (length zs < fuel)%nat -> written 1 w = Some ws ->
  exists w', reap pid fuel w = Ret tt w' /\ zombies w' = rest /\ forks w' = forks w /\
    written 1 w' = Some (ws ++ zombie_lines zs).
Proof using Hinit.
  induction zs as [|z zs IH]; intros [|fuel] w ws Hz Hf Hl Hw; [simpl in Hl; lia| |simpl in Hl; lia|]; cbn [reap app] in *.
  - destruct (wait_law w pid rest Hz) as (w1 & E1 & Z1 & F1 & W1). mstep E1. rewrite Z.eqb_refl, andb_false_r.
    exists w1. split; [done|]. split; [done|]. split; [done|]. rewrite W1, Hw. unfold zombie_lines. simpl. by rewrite app_nil_r.
  - apply Forall_cons in Hf as [[Hz0 Hzp] Hf]. destruct (wait_law w z _ Hz) as (w1 & E1 & Z1 & F1 & W1). mstep E1. zbool. cbn [andb negb].
    destruct (line_ok 1 "zombie!" w1 ws) as (w2 & E2 & W2 & Z2 & F2); [by rewrite W1|]. mstep E2.
    destruct (IH fuel w2 _ ltac:(congruence) Hf ltac:(simpl in Hl; lia) W2) as (w3 & E3 & Z3 & F3 & W3).
    exists w3. split; [done|]. split; [done|]. split; [congruence|]. rewrite W3. unfold zombie_lines. simpl. by rewrite <- app_assoc.
Qed.

(** One round. *)
Lemma init_loop_S fuel rounds w : init_loop fuel (S rounds) w =
  (line 1 "init: starting sh" [] ;;;
   pid <- u_fork ;;
   if pid <? 0 then line 1 "init: fork failed" [] ;;; exit else
   if pid =? 0 then u_exec (bytes_of "sh") argv ;;; line 1 "init: exec sh failed" [] ;;; exit
   else reap pid fuel ;;; init_loop fuel rounds) w.
Proof. reflexivity. Qed.

(** A round of [init] starts one shell and takes every process that [wait]
    gives until that shell, saying so for each that is not the shell; then the
    next round starts.  When a fork fails, [init] says so and exits. *)
Theorem init_rounds fuel : forall rounds w ws, written 1 w = Some ws ->
  zombies w = concat (map (fun r : Z * list Z => snd r ++ [fst r]) rounds) ->
  forks w = map fst rounds ++ [-1] ->
  Forall (fun r : Z * list Z => 0 < fst r /\ Forall (fun z => 0 <= z /\ z <> fst r) (snd r) /\ (length (snd r) < fuel)%nat) rounds ->
  exists w', init_loop fuel (S (length rounds)) w = Switch w' /\
    written 1 w' = Some (ws ++ concat (map (fun r => (bytes_of "init: starting sh" ++ [10]) ++ zombie_lines (snd r)) rounds) ++
      bytes_of "init: starting sh" ++ [10] ++ bytes_of "init: fork failed" ++ [10]).
Proof using Hinit.
  induction rounds as [|[pid zs] rounds IH]; intros w ws Hw Hz Hk Hf; rewrite init_loop_S;
    destruct (line_ok 1 "init: starting sh" w ws Hw) as (w1 & E1 & W1 & Z1 & F1); mstep E1.
  - destruct (fork_law w1 (-1) [] ltac:(by rewrite F1, Hk)) as (w2 & E2 & _ & _ & W2). mstep E2. cbn [Z.ltb Z.compare].
    destruct (line_ok 1 "init: fork failed" w2 _ (eq_trans (W2 1) W1)) as (w3 & E3 & W3 & _). mstep E3.
    exists w3. split; [done|]. rewrite W3. f_equal. rewrite <- app_assoc. reflexivity.
  - apply Forall_cons in Hf as [(Hp & Hzs & Hl) Hf]. cbn [fst snd map concat app] in *.
    destruct (fork_law w1 pid _ ltac:(by rewrite F1, Hk)) as (w2 & E2 & F2 & Z2 & W2). mstep E2. zbool.
    destruct (reap_ok pid (concat (map (fun r : Z * list Z => snd r ++ [fst r]) rounds)) zs fuel w2 _
      ltac:(by rewrite Z2, Z1, Hz, <- app_assoc) Hzs Hl (eq_trans (W2 1) W1)) as (w3 & E3 & Z3 & F3 & W3). mstep E3.
    destruct (IH w3 _ W3 Z3 ltac:(congruence) Hf) as (w4 & E4 & W4). exists w4. split; [exact E4|].
    rewrite W4. f_equal. by rewrite <- !app_assoc.
Qed.
End Emits.

(** ** A world with children *)

Record family : Type := mk_family { fa_out : list Z; fa_zombies : list Z; fa_forks : list Z }.

(** Everything that is written is collected; the calls [init] makes besides
    give the next child, or fail. *)
#[export] Instance family_sys : Sys family := {|
  u_open _ _ := ret 0; u_close _ := ret (-1); u_read _ _ := ret (-1, []);
  u_write _ bs w := Ret (Z.of_nat (length bs)) (mk_family (fa_out w ++ bs) (fa_zombies w) (fa_forks w));
  u_fstat _ := ret None; u_unlink _ := ret (-1); u_mkdir _ := ret (-1);
  u_link _ _ := ret (-1); u_kill _ := ret (-1); u_copy _ _ := ret (-1);
  u_clear_console := ret (-1) |}.

#[export] Instance family_proc : SysProc family := {|
  u_fork w := match fa_forks w with p :: ps => Ret p (mk_family (fa_out w) (fa_zombies w) ps) | [] => Ret (-1) w end;
  u_wait w := match fa_zombies w with p :: ps => Ret p (mk_family (fa_out w) ps (fa_forks w)) | [] => Ret (-1) w end;
  u_exec _ _ := ret (-1); u_pipe := ret (-1, (0, 0)); u_dup _ := ret 0; u_chdir _ := ret (-1) |}.

#[export] Program Instance family_laws : SysLaws family := {|
  pending _ _ := None; written fd w := if fd =? 1 then Some (fa_out w) else None; regular _ _ := false |}.
Next Obligation. done. Qed.
Next Obligation.
  intros fd bs w ws Hw. cbn in *. destruct (Z.eqb_spec fd 1) as [->|]; [|discriminate]. injection Hw as <-.
  eexists. split; [reflexivity|]. split; [reflexivity|]. split; [|done]. intros f Hf. cbn.
  by rewrite (proj2 (Z.eqb_neq f 1)).
Qed.

#[export] Program Instance family_init : InitLaws family := {| zombies := fa_zombies; forks := fa_forks |}.
Next Obligation. intros w p ps E. cbn in *. rewrite E. by eexists. Qed.
Next Obligation. intros w p ps E. cbn in *. rewrite E. by eexists. Qed.
Next Obligation. by intros fd bs w. Qed.

(** Two shells, the first of which ends after two orphans. *)
Lemma init_rounds_witness : exists w',
  Init.init_loop 3 3 (mk_family [] [7; 9; 4; 8] [4; 8; -1]) = Switch w' /\
  fa_out w' = bytes_of "init: starting sh" ++ [10] ++ bytes_of "zombie!" ++ [10] ++ bytes_of "zombie!" ++ [10] ++
    bytes_of "init: starting sh" ++ [10] ++ bytes_of "init: starting sh" ++ [10] ++ bytes_of "init: fork failed" ++ [10].
Proof.
  destruct (init_rounds 3 [(4, [7; 9]); (8, [])] (mk_family [] [7; 9; 4; 8] [4; 8; -1]) [])
    as (w' & E & H); [reflexivity..| |].
  - repeat constructor; simpl; lia.
  - exists w'. split; [exact E|]. injection H as ->. reflexivity.
Defined.
